(** * A shallow embedding of the Wavefront OBJ importer [Model]

    The development follows [model_obj.h] and the implementation file of
    class [Model]: the C standard I/O calls the importer is written with
    ([fscanf], [sscanf], [fgets]) are modelled on a character stream, [float]
    is IEEE 754 binary32 with round-to-nearest-even, [int] is [Z], the
    [std::vector] members are lists and the two [std::map] members are
    [gmap]s.  An out-of-range [operator[]] and a dereferenced null pointer
    are undefined behaviour in C++; every operation that can reach one
    returns [option], and [None] stands for that undefined behaviour. *)

From Stdlib Require Import ZArith List Ascii String Bool Lia.
From Stdlib Require Import Sorting.Permutation Sorting.Sorted.
From Stdlib Require Import Floats.SpecFloat.
From stdpp Require Import base option list gmap strings.

Local Open Scope Z_scope.

(** ** Binary32 arithmetic

    [float] values are [spec_float]s of precision 24 and maximal exponent
    128.  Every operation rounds once, to nearest even, as SSE arithmetic
    does.  A NaN carries no payload, so structural equality of two values
    is equality of their 32 bits up to the payload of a NaN. *)
Module F32.

Definition prec : Z := 24.
Definition emax : Z := 128.

Definition float : Type := spec_float.

Definition add : float -> float -> float := SFadd prec emax.
Definition sub : float -> float -> float := SFsub prec emax.
Definition mul : float -> float -> float := SFmul prec emax.
Definition div : float -> float -> float := SFdiv prec emax.
Definition sqrtf : float -> float := SFsqrt prec emax.
Definition neg : float -> float := SFopp.
Definition fabs : float -> float := SFabs.
Definition ltb : float -> float -> bool := SFltb.
Definition gtb (x y : float) : bool := SFltb y x.

(** The conversion of an [int] to [float]. *)
Definition of_Z (z : Z) : float := binary_normalize prec emax z 0 false.

(** The correctly rounded value of the decimal [(-1)^neg * m * 10^e],
    which is what a literal such as [0.2f] denotes and what [strtof]
    returns for a decimal numeral. *)
Definition of_decimal (neg : bool) (m : Z) (e : Z) : float :=
  match m with
  | Zpos p =>
      if 0 <=? e
      then binary_normalize prec emax (if neg then - (m * 10 ^ e) else m * 10 ^ e) 0 false
      else SFdiv prec emax (S754_finite neg p 0)
                           (S754_finite false (Z.to_pos (10 ^ (- e))) 0)
  | _ => S754_zero neg
  end.

(** The correctly rounded value of [(-1)^neg * m * 2^e], which is what
    [strtof] returns for a hexadecimal numeral. *)
Definition of_binary (neg : bool) (m : Z) (e : Z) : float :=
  match m with
  | Zpos _ => binary_normalize prec emax (if neg then - m else m) e false
  | _ => S754_zero neg
  end.

Definition zero : float := S754_zero false.
Definition one : float := of_Z 1.
Definition two : float := of_Z 2.

(** [std::numeric_limits<float>::min()], the least positive normal
    number 2^-126, and [std::numeric_limits<float>::max()]. *)
Definition numeric_limits_min : float := S754_finite false 8388608 (-149).
Definition numeric_limits_max : float := S754_finite false 16777215 104.

(** [std::max(a, b)] is [(a < b) ? b : a]. *)
Definition max (a b : float) : float := if ltb a b then b else a.

Definition is_nan (x : float) : bool :=
  match x with S754_nan => true | _ => false end.

Definition is_finite (x : float) : bool :=
  match x with S754_zero _ | S754_finite _ _ _ => true | _ => false end.

(** [x <= y] as C++ evaluates it ([false] as soon as one side is NaN). *)
Definition leb : float -> float -> bool := SFleb.

End F32.

Abbreviation float := F32.float.

#[global] Instance spec_float_eq_dec : EqDecision spec_float.
Proof. solve_decision. Defined.

(** ** The C standard I/O calls used by the importer

    A [FILE*] opened for reading is the list of characters not read yet.
    The model covers text in the "C" locale and follows the GNU C
    library where the standard leaves a choice (the characters a failed
    conversion has consumed, the spellings [%f] accepts).  A [char]
    array holds a list of characters; the text the string functions see
    in it ends before its first null character. *)
Module Stdio.

Definition stream : Type := list ascii.

Definition isspace (c : ascii) : bool :=
  let n := nat_of_ascii c in
  Nat.eqb n 32 || (Nat.leb 9 n && Nat.leb n 13).

Definition isdigit (c : ascii) : bool :=
  let n := nat_of_ascii c in
  Nat.leb 48 n && Nat.leb n 57.

Definition digit_value (c : ascii) : Z := Z.of_nat (nat_of_ascii c) - 48.

Definition isxdigit (c : ascii) : bool :=
  let n := nat_of_ascii c in
  isdigit c || (Nat.leb 97 n && Nat.leb n 102) || (Nat.leb 65 n && Nat.leb n 70).

Definition xdigit_value (c : ascii) : Z :=
  let n := nat_of_ascii c in
  if isdigit c then Z.of_nat n - 48
  else if Nat.leb 97 n then Z.of_nat n - 87
  else Z.of_nat n - 55.

(** [tolower] *)
Definition lower (c : ascii) : ascii :=
  let n := nat_of_ascii c in
  if Nat.leb 65 n && Nat.leb n 90 then ascii_of_nat (n + 32) else c.

Definition newline : ascii := ascii_of_nat 10.

(** The null character that ends a C string. *)
Definition nul : ascii := ascii_of_nat 0.

(** The text of a buffer, as [buffer[0]], [strstr], [sscanf] and the
    constructor of [std::string] read it: the characters before the
    first null character. *)
Fixpoint c_str (buffer : list ascii) : list ascii :=
  match buffer with
  | c :: b => if Ascii.eqb c nul then [] else c :: c_str b
  | [] => []
  end.

Fixpoint skip_ws (s : stream) : stream :=
  match s with
  | c :: s' => if isspace c then skip_ws s' else s
  | [] => []
  end.

Fixpoint read_token (s : stream) : list ascii * stream :=
  match s with
  | c :: s' =>
      if isspace c then ([], s)
      else let '(t, r) := read_token s' in (c :: t, r)
  | [] => ([], [])
  end.

(** The capacity of the token buffers of the source, [char buffer[256]]. *)
Definition buffer_size : nat := 256.

(** [fscanf(pFile, "%s", buffer)] stores the next token and a null
    character after it.  A token of 256 characters or more does not fit:
    the call writes past the end of [buffer], which is undefined. *)
Definition overruns (s : stream) : bool :=
  Nat.leb buffer_size (length (fst (read_token (skip_ws s)))).

(** [fscanf(pFile, "%s", buffer)] when the token fits: [None] is the
    return value [EOF], otherwise the text [buffer] holds afterwards and
    the rest of the input. *)
Definition scan_s (s : stream) : option (list ascii * stream) :=
  match skip_ws s with
  | [] => None
  | s' => Some (c_str (fst (read_token s')), snd (read_token s'))
  end.

(** The digits at the head of the input: their count, the number they
    denote after the digits [acc] read before them, and the rest. *)
Fixpoint read_digits (s : stream) (acc : Z) (n : nat) : Z * nat * stream :=
  match s with
  | c :: s' =>
      if isdigit c then read_digits s' (10 * acc + digit_value c) (S n)
      else (acc, n, s)
  | [] => (acc, n, s)
  end.

(** The same for hexadecimal digits. *)
Fixpoint read_xdigits (s : stream) (acc : Z) (n : nat) : Z * nat * stream :=
  match s with
  | c :: s' =>
      if isxdigit c then read_xdigits s' (16 * acc + xdigit_value c) (S n)
      else (acc, n, s)
  | [] => (acc, n, s)
  end.

Definition read_sign (s : stream) : bool * stream :=
  match s with
  | c :: s' =>
      if Ascii.eqb c "-" then (true, s')
      else if Ascii.eqb c "+" then (false, s')
      else (false, s)
  | [] => (false, s)
  end.

(** The conversion [%d]: white space is skipped, then an optional sign
    and at least one digit are read.  [None] is a matching failure, which
    has consumed the sign.  An [int] is a [Z] in the whole development,
    so the value is the number the digits denote; what the library
    stores for a numeral that no [int] can hold is not modelled. *)
Definition scan_d (s : stream) : option Z * stream :=
  let '(sg, s1) := read_sign (skip_ws s) in
  let '(v, n, s2) := read_digits s1 0 O in
  match n with
  | O => (None, s2)
  | S _ => (Some (if sg then - v else v), s2)
  end.

(** The exponent part of a numeral whose digits have been read, [ec]
    being [e] or [p]: the exponent character is consumed, and a sign
    after it, even when no digit follows; the exponent is 0 then. *)
Definition read_exponent (ec : ascii) (s : stream) : Z * stream :=
  match s with
  | c :: s1 =>
      if Ascii.eqb (lower c) ec then
        let '(sg, s2) := read_sign s1 in
        let '(v, _, s3) := read_digits s2 0 O in
        (if sg then - v else v, s3)
      else (0, s)
  | [] => (0, s)
  end.

(** A decimal numeral after its sign: digits, an optional fraction and,
    once a digit has been read, an optional exponent.  Without any digit
    the conversion fails; a point read before has been consumed. *)
Definition scan_decimal (sg : bool) (s1 : stream) : option float * stream :=
  let '(ip, n1, s2) := read_digits s1 0 O in
  let '(m, n2, s3) :=
    match s2 with
    | c :: s2' =>
        if Ascii.eqb c "." then read_digits s2' ip O else (ip, O, s2)
    | [] => (ip, O, s2)
    end in
  match n1, n2 with
  | O, O => (None, s3)
  | _, _ =>
      let '(e, s4) := read_exponent "e" s3 in
      (Some (F32.of_decimal sg m (e - Z.of_nat n2)), s4)
  end.

(** A hexadecimal numeral after its prefix [0x].  The prefix alone is a
    matching failure; the prefix and a point are read as the [0] before
    the [x]. *)
Definition scan_hex (sg : bool) (s1 : stream) : option float * stream :=
  let '(ip, n1, s2) := read_xdigits s1 0 O in
  let '(m, n2, s3, point) :=
    match s2 with
    | c :: s2' =>
        if Ascii.eqb c "."
        then let '(m, n2, s3) := read_xdigits s2' ip O in (m, n2, s3, true)
        else (ip, O, s2, false)
    | [] => (ip, O, s2, false)
    end in
  match n1, n2 with
  | O, O => (if point then Some (S754_zero sg) else None, s3)
  | _, _ =>
      let '(e, s4) := read_exponent "p" s3 in
      (Some (F32.of_binary sg m (e - 4 * Z.of_nat n2)), s4)
  end.

(** The characters [kw] are expected one after the other, in either
    case.  A character that differs is consumed with those before it. *)
Fixpoint expect (kw : list ascii) (s : stream) : bool * stream :=
  match kw with
  | [] => (true, s)
  | k :: kw' =>
      match s with
      | c :: s' => if Ascii.eqb (lower c) k then expect kw' s' else (false, s')
      | [] => (false, [])
      end
  end.

(** The conversion [%f]: white space is skipped and an optional sign is
    read; then [nan], [inf] or [infinity] in either case, a hexadecimal
    numeral or a decimal numeral.  The value is the correctly rounded
    binary32 number.  [None] is a failure: the end of the input or a
    text that is no numeral, of which the characters read to find that
    out are consumed. *)
Definition scan_f (s : stream) : option float * stream :=
  let '(sg, s1) := read_sign (skip_ws s) in
  match s1 with
  | [] => (None, [])
  | c :: r =>
      if Ascii.eqb (lower c) "n" then
        let '(ok, r1) := expect ["a"; "n"]%char r in
        (if ok then Some S754_nan else None, r1)
      else if Ascii.eqb (lower c) "i" then
        let '(ok, r1) := expect ["n"; "f"]%char r in
        if ok then
          match r1 with
          | c2 :: r2 =>
              if Ascii.eqb (lower c2) "i" then
                let '(ok2, r3) := expect ["n"; "i"; "t"; "y"]%char r2 in
                (if ok2 then Some (S754_infinity sg) else None, r3)
              else (Some (S754_infinity sg), r1)
          | [] => (Some (S754_infinity sg), r1)
          end
        else (None, r1)
      else if Ascii.eqb c "0" then
        match r with
        | c2 :: r2 =>
            if Ascii.eqb (lower c2) "x" then scan_hex sg r2
            else scan_decimal sg s1
        | [] => scan_decimal sg s1
        end
      else scan_decimal sg s1
  end.

(** A conversion specification of the integer formats of the source:
    [%d] or a literal character. *)
Inductive conv : Type :=
| Cd
| Clit (c : ascii).

(** [fscanf] and [sscanf] with a format of [%d]s and literals: the
    values converted before the first failure, in order, and the rest
    of the input.  The call returns their number ([EOF] when the input
    ends before the first conversion, which the source tests as it
    tests 0). *)
Fixpoint scanf_ints (fmt : list conv) (s : stream) : list Z * stream :=
  match fmt with
  | [] => ([], s)
  | Cd :: fmt' =>
      match scan_d s with
      | (Some z, s') => let '(zs, r) := scanf_ints fmt' s' in (z :: zs, r)
      | (None, s') => ([], s')
      end
  | Clit c :: fmt' =>
      match s with
      | c' :: s' => if Ascii.eqb c c' then scanf_ints fmt' s' else ([], s)
      | [] => ([], s)
      end
  end.

(** [fscanf] with the formats ["%f"], ["%f %f"] and ["%f %f %f"]: the
    white space of the format is skipped by the next [%f] anyway. *)
Fixpoint scanf_floats (n : nat) (s : stream) : list float * stream :=
  match n with
  | O => ([], s)
  | S n' =>
      match scan_f s with
      | (Some x, s') => let '(xs, r) := scanf_floats n' s' in (x :: xs, r)
      | (None, s') => ([], s')
      end
  end.

Fixpoint fgets_chars (n : nat) (s : stream) : list ascii * stream :=
  match n, s with
  | S n', c :: s' =>
      if Ascii.eqb c newline then ([c], s')
      else let '(l, r) := fgets_chars n' s' in (c :: l, r)
  | _, _ => ([], s)
  end.

(** [fgets(buffer, 256, pFile)]: at most 255 characters, up to and with
    the first newline.  [None] is the null return at end of file, which
    leaves [buffer] as it was. *)
Definition fgets (s : stream) : option (list ascii) * stream :=
  match s with
  | [] => (None, s)
  | _ => let '(l, r) := fgets_chars 255 s in (Some l, r)
  end.

(** [sscanf(buffer, "%s %s", buffer, buffer)] reads the text of
    [buffer] and stores each word it converts at the head of [buffer],
    with a null character after it, while it reads.  After leading
    white space the words are stored behind the place that is read:
    [buffer] ends up with the second word when there are two, the first
    when there is one, and keeps its text when there is none.  When the
    text begins with the first word and goes on after it, the null
    character stored after the first word is read as the head of the
    second, and [buffer] ends up with the empty text. *)
Definition sscanf_s_s (buffer : list ascii) : list ascii :=
  let text := c_str buffer in
  match text with
  | [] => []
  | c :: _ =>
      if isspace c then
        match scan_s text with
        | None => text
        | Some (w1, r) =>
            match scan_s r with
            | None => w1
            | Some (w2, _) => w2
            end
        end
      else
        match snd (read_token text) with
        | [] => text
        | _ :: _ => []
        end
  end.

(** [strstr(buffer, w) != 0] for a non-empty [w]. *)
Fixpoint is_prefix (w b : list ascii) : bool :=
  match w, b with
  | [], _ => true
  | c :: w', d :: b' => Ascii.eqb c d && is_prefix w' b'
  | _ :: _, [] => false
  end.

Fixpoint strstr (b w : list ascii) : bool :=
  is_prefix w b ||
  match b with
  | _ :: b' => strstr b' w
  | [] => false
  end.

(** A text file given by its lines, each closed by a newline. *)
Definition text (lines : list string) : stream :=
  concat (map (fun l => list_ascii_of_string l ++ [newline]) lines).

End Stdio.

Import Stdio.

(** ** The data model of [model_obj.h]

    A C array [float a[3]] is a record of its three elements, so that an
    index is in range by typing. *)

Record float2 : Type := F2 { f2_0 : float; f2_1 : float }.
Record float3 : Type := F3 { f3_0 : float; f3_1 : float; f3_2 : float }.
Record float4 : Type :=
  F4 { f4_0 : float; f4_1 : float; f4_2 : float; f4_3 : float }.

Record Material : Type := Build_Material {
  ambient : float4;
  diffuse : float4;
  specular : float4;
  shininess : float;
  alpha : float;
  name : string;
  colorMapFilename : string;
  bumpMapFilename : string
}.

Record Vertex : Type := Build_Vertex {
  position : float3;
  texCoord : float2;
  normal : float3;
  tangent : float4;
  bitangent : float3
}.

(** [pMaterial] points into [m_materials]: the model keeps the index of
    the element it points to, and [None] for the null pointer. *)
Record Mesh : Type := Build_Mesh {
  startIndex : Z;
  triangleCount : Z;
  pMaterial : option Z
}.

#[global] Instance float2_eq_dec : EqDecision float2.
Proof. solve_decision. Defined.
#[global] Instance float3_eq_dec : EqDecision float3.
Proof. solve_decision. Defined.
#[global] Instance float4_eq_dec : EqDecision float4.
Proof. solve_decision. Defined.
#[global] Instance Vertex_eq_dec : EqDecision Vertex.
Proof. solve_decision. Defined.
#[global] Instance Mesh_eq_dec : EqDecision Mesh.
Proof. solve_decision. Defined.

Record Model : Type := Build_Model {
  m_hasPositions : bool;
  m_hasTextureCoords : bool;
  m_hasNormals : bool;
  m_hasTangents : bool;
  m_numberOfVertexCoords : Z;
  m_numberOfTextureCoords : Z;
  m_numberOfNormals : Z;
  m_numberOfTriangles : Z;
  m_numberOfMaterials : Z;
  m_numberOfMeshes : Z;
  m_center : float3;
  m_width : float;
  m_height : float;
  m_length : float;
  m_radius : float;
  m_directoryPath : string;
  m_meshes : list Mesh;
  m_materials : list Material;
  m_vertexBuffer : list Vertex;
  m_indexBuffer : list Z;
  m_attributeBuffer : list Z;
  m_vertexCoords : list float;
  m_textureCoords : list float;
  m_normals : list float;
  m_materialCache : gmap string Z;
  m_vertexCache : gmap Z (list Z)
}.

(** Assignments to one member of a [Model]. *)
Definition set_m_hasPositions (v : bool) (m : Model) : Model :=
  Build_Model v (m_hasTextureCoords m) (m_hasNormals m) (m_hasTangents m)
    (m_numberOfVertexCoords m) (m_numberOfTextureCoords m)
    (m_numberOfNormals m) (m_numberOfTriangles m) (m_numberOfMaterials m)
    (m_numberOfMeshes m) (m_center m) (m_width m) (m_height m) (m_length m)
    (m_radius m) (m_directoryPath m) (m_meshes m) (m_materials m)
    (m_vertexBuffer m) (m_indexBuffer m) (m_attributeBuffer m)
    (m_vertexCoords m) (m_textureCoords m) (m_normals m) (m_materialCache m)
    (m_vertexCache m).

Definition set_m_hasTextureCoords (v : bool) (m : Model) : Model :=
  Build_Model (m_hasPositions m) v (m_hasNormals m) (m_hasTangents m)
    (m_numberOfVertexCoords m) (m_numberOfTextureCoords m)
    (m_numberOfNormals m) (m_numberOfTriangles m) (m_numberOfMaterials m)
    (m_numberOfMeshes m) (m_center m) (m_width m) (m_height m) (m_length m)
    (m_radius m) (m_directoryPath m) (m_meshes m) (m_materials m)
    (m_vertexBuffer m) (m_indexBuffer m) (m_attributeBuffer m)
    (m_vertexCoords m) (m_textureCoords m) (m_normals m) (m_materialCache m)
    (m_vertexCache m).

Definition set_m_hasNormals (v : bool) (m : Model) : Model :=
  Build_Model (m_hasPositions m) (m_hasTextureCoords m) v (m_hasTangents m)
    (m_numberOfVertexCoords m) (m_numberOfTextureCoords m)
    (m_numberOfNormals m) (m_numberOfTriangles m) (m_numberOfMaterials m)
    (m_numberOfMeshes m) (m_center m) (m_width m) (m_height m) (m_length m)
    (m_radius m) (m_directoryPath m) (m_meshes m) (m_materials m)
    (m_vertexBuffer m) (m_indexBuffer m) (m_attributeBuffer m)
    (m_vertexCoords m) (m_textureCoords m) (m_normals m) (m_materialCache m)
    (m_vertexCache m).

Definition set_m_hasTangents (v : bool) (m : Model) : Model :=
  Build_Model (m_hasPositions m) (m_hasTextureCoords m) (m_hasNormals m) v
    (m_numberOfVertexCoords m) (m_numberOfTextureCoords m)
    (m_numberOfNormals m) (m_numberOfTriangles m) (m_numberOfMaterials m)
    (m_numberOfMeshes m) (m_center m) (m_width m) (m_height m) (m_length m)
    (m_radius m) (m_directoryPath m) (m_meshes m) (m_materials m)
    (m_vertexBuffer m) (m_indexBuffer m) (m_attributeBuffer m)
    (m_vertexCoords m) (m_textureCoords m) (m_normals m) (m_materialCache m)
    (m_vertexCache m).

Definition set_m_numberOfVertexCoords (v : Z) (m : Model) : Model :=
  Build_Model (m_hasPositions m) (m_hasTextureCoords m) (m_hasNormals m)
    (m_hasTangents m) v (m_numberOfTextureCoords m) (m_numberOfNormals m)
    (m_numberOfTriangles m) (m_numberOfMaterials m) (m_numberOfMeshes m)
    (m_center m) (m_width m) (m_height m) (m_length m) (m_radius m)
    (m_directoryPath m) (m_meshes m) (m_materials m) (m_vertexBuffer m)
    (m_indexBuffer m) (m_attributeBuffer m) (m_vertexCoords m)
    (m_textureCoords m) (m_normals m) (m_materialCache m) (m_vertexCache m).

Definition set_m_numberOfTextureCoords (v : Z) (m : Model) : Model :=
  Build_Model (m_hasPositions m) (m_hasTextureCoords m) (m_hasNormals m)
    (m_hasTangents m) (m_numberOfVertexCoords m) v (m_numberOfNormals m)
    (m_numberOfTriangles m) (m_numberOfMaterials m) (m_numberOfMeshes m)
    (m_center m) (m_width m) (m_height m) (m_length m) (m_radius m)
    (m_directoryPath m) (m_meshes m) (m_materials m) (m_vertexBuffer m)
    (m_indexBuffer m) (m_attributeBuffer m) (m_vertexCoords m)
    (m_textureCoords m) (m_normals m) (m_materialCache m) (m_vertexCache m).

Definition set_m_numberOfNormals (v : Z) (m : Model) : Model :=
  Build_Model (m_hasPositions m) (m_hasTextureCoords m) (m_hasNormals m)
    (m_hasTangents m) (m_numberOfVertexCoords m) (m_numberOfTextureCoords m)
    v (m_numberOfTriangles m) (m_numberOfMaterials m) (m_numberOfMeshes m)
    (m_center m) (m_width m) (m_height m) (m_length m) (m_radius m)
    (m_directoryPath m) (m_meshes m) (m_materials m) (m_vertexBuffer m)
    (m_indexBuffer m) (m_attributeBuffer m) (m_vertexCoords m)
    (m_textureCoords m) (m_normals m) (m_materialCache m) (m_vertexCache m).

Definition set_m_numberOfTriangles (v : Z) (m : Model) : Model :=
  Build_Model (m_hasPositions m) (m_hasTextureCoords m) (m_hasNormals m)
    (m_hasTangents m) (m_numberOfVertexCoords m) (m_numberOfTextureCoords m)
    (m_numberOfNormals m) v (m_numberOfMaterials m) (m_numberOfMeshes m)
    (m_center m) (m_width m) (m_height m) (m_length m) (m_radius m)
    (m_directoryPath m) (m_meshes m) (m_materials m) (m_vertexBuffer m)
    (m_indexBuffer m) (m_attributeBuffer m) (m_vertexCoords m)
    (m_textureCoords m) (m_normals m) (m_materialCache m) (m_vertexCache m).

Definition set_m_numberOfMaterials (v : Z) (m : Model) : Model :=
  Build_Model (m_hasPositions m) (m_hasTextureCoords m) (m_hasNormals m)
    (m_hasTangents m) (m_numberOfVertexCoords m) (m_numberOfTextureCoords m)
    (m_numberOfNormals m) (m_numberOfTriangles m) v (m_numberOfMeshes m)
    (m_center m) (m_width m) (m_height m) (m_length m) (m_radius m)
    (m_directoryPath m) (m_meshes m) (m_materials m) (m_vertexBuffer m)
    (m_indexBuffer m) (m_attributeBuffer m) (m_vertexCoords m)
    (m_textureCoords m) (m_normals m) (m_materialCache m) (m_vertexCache m).

Definition set_m_numberOfMeshes (v : Z) (m : Model) : Model :=
  Build_Model (m_hasPositions m) (m_hasTextureCoords m) (m_hasNormals m)
    (m_hasTangents m) (m_numberOfVertexCoords m) (m_numberOfTextureCoords m)
    (m_numberOfNormals m) (m_numberOfTriangles m) (m_numberOfMaterials m) v
    (m_center m) (m_width m) (m_height m) (m_length m) (m_radius m)
    (m_directoryPath m) (m_meshes m) (m_materials m) (m_vertexBuffer m)
    (m_indexBuffer m) (m_attributeBuffer m) (m_vertexCoords m)
    (m_textureCoords m) (m_normals m) (m_materialCache m) (m_vertexCache m).

Definition set_m_center (v : float3) (m : Model) : Model :=
  Build_Model (m_hasPositions m) (m_hasTextureCoords m) (m_hasNormals m)
    (m_hasTangents m) (m_numberOfVertexCoords m) (m_numberOfTextureCoords m)
    (m_numberOfNormals m) (m_numberOfTriangles m) (m_numberOfMaterials m)
    (m_numberOfMeshes m) v (m_width m) (m_height m) (m_length m)
    (m_radius m) (m_directoryPath m) (m_meshes m) (m_materials m)
    (m_vertexBuffer m) (m_indexBuffer m) (m_attributeBuffer m)
    (m_vertexCoords m) (m_textureCoords m) (m_normals m) (m_materialCache m)
    (m_vertexCache m).

Definition set_m_width (v : float) (m : Model) : Model :=
  Build_Model (m_hasPositions m) (m_hasTextureCoords m) (m_hasNormals m)
    (m_hasTangents m) (m_numberOfVertexCoords m) (m_numberOfTextureCoords m)
    (m_numberOfNormals m) (m_numberOfTriangles m) (m_numberOfMaterials m)
    (m_numberOfMeshes m) (m_center m) v (m_height m) (m_length m)
    (m_radius m) (m_directoryPath m) (m_meshes m) (m_materials m)
    (m_vertexBuffer m) (m_indexBuffer m) (m_attributeBuffer m)
    (m_vertexCoords m) (m_textureCoords m) (m_normals m) (m_materialCache m)
    (m_vertexCache m).

Definition set_m_height (v : float) (m : Model) : Model :=
  Build_Model (m_hasPositions m) (m_hasTextureCoords m) (m_hasNormals m)
    (m_hasTangents m) (m_numberOfVertexCoords m) (m_numberOfTextureCoords m)
    (m_numberOfNormals m) (m_numberOfTriangles m) (m_numberOfMaterials m)
    (m_numberOfMeshes m) (m_center m) (m_width m) v (m_length m)
    (m_radius m) (m_directoryPath m) (m_meshes m) (m_materials m)
    (m_vertexBuffer m) (m_indexBuffer m) (m_attributeBuffer m)
    (m_vertexCoords m) (m_textureCoords m) (m_normals m) (m_materialCache m)
    (m_vertexCache m).

Definition set_m_length (v : float) (m : Model) : Model :=
  Build_Model (m_hasPositions m) (m_hasTextureCoords m) (m_hasNormals m)
    (m_hasTangents m) (m_numberOfVertexCoords m) (m_numberOfTextureCoords m)
    (m_numberOfNormals m) (m_numberOfTriangles m) (m_numberOfMaterials m)
    (m_numberOfMeshes m) (m_center m) (m_width m) (m_height m) v
    (m_radius m) (m_directoryPath m) (m_meshes m) (m_materials m)
    (m_vertexBuffer m) (m_indexBuffer m) (m_attributeBuffer m)
    (m_vertexCoords m) (m_textureCoords m) (m_normals m) (m_materialCache m)
    (m_vertexCache m).

Definition set_m_radius (v : float) (m : Model) : Model :=
  Build_Model (m_hasPositions m) (m_hasTextureCoords m) (m_hasNormals m)
    (m_hasTangents m) (m_numberOfVertexCoords m) (m_numberOfTextureCoords m)
    (m_numberOfNormals m) (m_numberOfTriangles m) (m_numberOfMaterials m)
    (m_numberOfMeshes m) (m_center m) (m_width m) (m_height m) (m_length m)
    v (m_directoryPath m) (m_meshes m) (m_materials m) (m_vertexBuffer m)
    (m_indexBuffer m) (m_attributeBuffer m) (m_vertexCoords m)
    (m_textureCoords m) (m_normals m) (m_materialCache m) (m_vertexCache m).

Definition set_m_directoryPath (v : string) (m : Model) : Model :=
  Build_Model (m_hasPositions m) (m_hasTextureCoords m) (m_hasNormals m)
    (m_hasTangents m) (m_numberOfVertexCoords m) (m_numberOfTextureCoords m)
    (m_numberOfNormals m) (m_numberOfTriangles m) (m_numberOfMaterials m)
    (m_numberOfMeshes m) (m_center m) (m_width m) (m_height m) (m_length m)
    (m_radius m) v (m_meshes m) (m_materials m) (m_vertexBuffer m)
    (m_indexBuffer m) (m_attributeBuffer m) (m_vertexCoords m)
    (m_textureCoords m) (m_normals m) (m_materialCache m) (m_vertexCache m).

Definition set_m_meshes (v : list Mesh) (m : Model) : Model :=
  Build_Model (m_hasPositions m) (m_hasTextureCoords m) (m_hasNormals m)
    (m_hasTangents m) (m_numberOfVertexCoords m) (m_numberOfTextureCoords m)
    (m_numberOfNormals m) (m_numberOfTriangles m) (m_numberOfMaterials m)
    (m_numberOfMeshes m) (m_center m) (m_width m) (m_height m) (m_length m)
    (m_radius m) (m_directoryPath m) v (m_materials m) (m_vertexBuffer m)
    (m_indexBuffer m) (m_attributeBuffer m) (m_vertexCoords m)
    (m_textureCoords m) (m_normals m) (m_materialCache m) (m_vertexCache m).

Definition set_m_materials (v : list Material) (m : Model) : Model :=
  Build_Model (m_hasPositions m) (m_hasTextureCoords m) (m_hasNormals m)
    (m_hasTangents m) (m_numberOfVertexCoords m) (m_numberOfTextureCoords m)
    (m_numberOfNormals m) (m_numberOfTriangles m) (m_numberOfMaterials m)
    (m_numberOfMeshes m) (m_center m) (m_width m) (m_height m) (m_length m)
    (m_radius m) (m_directoryPath m) (m_meshes m) v (m_vertexBuffer m)
    (m_indexBuffer m) (m_attributeBuffer m) (m_vertexCoords m)
    (m_textureCoords m) (m_normals m) (m_materialCache m) (m_vertexCache m).

Definition set_m_vertexBuffer (v : list Vertex) (m : Model) : Model :=
  Build_Model (m_hasPositions m) (m_hasTextureCoords m) (m_hasNormals m)
    (m_hasTangents m) (m_numberOfVertexCoords m) (m_numberOfTextureCoords m)
    (m_numberOfNormals m) (m_numberOfTriangles m) (m_numberOfMaterials m)
    (m_numberOfMeshes m) (m_center m) (m_width m) (m_height m) (m_length m)
    (m_radius m) (m_directoryPath m) (m_meshes m) (m_materials m) v
    (m_indexBuffer m) (m_attributeBuffer m) (m_vertexCoords m)
    (m_textureCoords m) (m_normals m) (m_materialCache m) (m_vertexCache m).

Definition set_m_indexBuffer (v : list Z) (m : Model) : Model :=
  Build_Model (m_hasPositions m) (m_hasTextureCoords m) (m_hasNormals m)
    (m_hasTangents m) (m_numberOfVertexCoords m) (m_numberOfTextureCoords m)
    (m_numberOfNormals m) (m_numberOfTriangles m) (m_numberOfMaterials m)
    (m_numberOfMeshes m) (m_center m) (m_width m) (m_height m) (m_length m)
    (m_radius m) (m_directoryPath m) (m_meshes m) (m_materials m)
    (m_vertexBuffer m) v (m_attributeBuffer m) (m_vertexCoords m)
    (m_textureCoords m) (m_normals m) (m_materialCache m) (m_vertexCache m).

Definition set_m_attributeBuffer (v : list Z) (m : Model) : Model :=
  Build_Model (m_hasPositions m) (m_hasTextureCoords m) (m_hasNormals m)
    (m_hasTangents m) (m_numberOfVertexCoords m) (m_numberOfTextureCoords m)
    (m_numberOfNormals m) (m_numberOfTriangles m) (m_numberOfMaterials m)
    (m_numberOfMeshes m) (m_center m) (m_width m) (m_height m) (m_length m)
    (m_radius m) (m_directoryPath m) (m_meshes m) (m_materials m)
    (m_vertexBuffer m) (m_indexBuffer m) v (m_vertexCoords m)
    (m_textureCoords m) (m_normals m) (m_materialCache m) (m_vertexCache m).

Definition set_m_vertexCoords (v : list float) (m : Model) : Model :=
  Build_Model (m_hasPositions m) (m_hasTextureCoords m) (m_hasNormals m)
    (m_hasTangents m) (m_numberOfVertexCoords m) (m_numberOfTextureCoords m)
    (m_numberOfNormals m) (m_numberOfTriangles m) (m_numberOfMaterials m)
    (m_numberOfMeshes m) (m_center m) (m_width m) (m_height m) (m_length m)
    (m_radius m) (m_directoryPath m) (m_meshes m) (m_materials m)
    (m_vertexBuffer m) (m_indexBuffer m) (m_attributeBuffer m) v
    (m_textureCoords m) (m_normals m) (m_materialCache m) (m_vertexCache m).

Definition set_m_textureCoords (v : list float) (m : Model) : Model :=
  Build_Model (m_hasPositions m) (m_hasTextureCoords m) (m_hasNormals m)
    (m_hasTangents m) (m_numberOfVertexCoords m) (m_numberOfTextureCoords m)
    (m_numberOfNormals m) (m_numberOfTriangles m) (m_numberOfMaterials m)
    (m_numberOfMeshes m) (m_center m) (m_width m) (m_height m) (m_length m)
    (m_radius m) (m_directoryPath m) (m_meshes m) (m_materials m)
    (m_vertexBuffer m) (m_indexBuffer m) (m_attributeBuffer m)
    (m_vertexCoords m) v (m_normals m) (m_materialCache m) (m_vertexCache m).

Definition set_m_normals (v : list float) (m : Model) : Model :=
  Build_Model (m_hasPositions m) (m_hasTextureCoords m) (m_hasNormals m)
    (m_hasTangents m) (m_numberOfVertexCoords m) (m_numberOfTextureCoords m)
    (m_numberOfNormals m) (m_numberOfTriangles m) (m_numberOfMaterials m)
    (m_numberOfMeshes m) (m_center m) (m_width m) (m_height m) (m_length m)
    (m_radius m) (m_directoryPath m) (m_meshes m) (m_materials m)
    (m_vertexBuffer m) (m_indexBuffer m) (m_attributeBuffer m)
    (m_vertexCoords m) (m_textureCoords m) v (m_materialCache m)
    (m_vertexCache m).

Definition set_m_materialCache (v : gmap string Z) (m : Model) : Model :=
  Build_Model (m_hasPositions m) (m_hasTextureCoords m) (m_hasNormals m)
    (m_hasTangents m) (m_numberOfVertexCoords m) (m_numberOfTextureCoords m)
    (m_numberOfNormals m) (m_numberOfTriangles m) (m_numberOfMaterials m)
    (m_numberOfMeshes m) (m_center m) (m_width m) (m_height m) (m_length m)
    (m_radius m) (m_directoryPath m) (m_meshes m) (m_materials m)
    (m_vertexBuffer m) (m_indexBuffer m) (m_attributeBuffer m)
    (m_vertexCoords m) (m_textureCoords m) (m_normals m) v (m_vertexCache m).

Definition set_m_vertexCache (v : gmap Z (list Z)) (m : Model) : Model :=
  Build_Model (m_hasPositions m) (m_hasTextureCoords m) (m_hasNormals m)
    (m_hasTangents m) (m_numberOfVertexCoords m) (m_numberOfTextureCoords m)
    (m_numberOfNormals m) (m_numberOfTriangles m) (m_numberOfMaterials m)
    (m_numberOfMeshes m) (m_center m) (m_width m) (m_height m) (m_length m)
    (m_radius m) (m_directoryPath m) (m_meshes m) (m_materials m)
    (m_vertexBuffer m) (m_indexBuffer m) (m_attributeBuffer m)
    (m_vertexCoords m) (m_textureCoords m) (m_normals m) (m_materialCache m)
    v.

(** Assignments to one member of a [Vertex], of a [Material] or of a
    [Mesh]. *)
Definition set_position (p : float3) (v : Vertex) : Vertex :=
  Build_Vertex p (texCoord v) (normal v) (tangent v) (bitangent v).
Definition set_texCoord (t : float2) (v : Vertex) : Vertex :=
  Build_Vertex (position v) t (normal v) (tangent v) (bitangent v).
Definition set_normal (n : float3) (v : Vertex) : Vertex :=
  Build_Vertex (position v) (texCoord v) n (tangent v) (bitangent v).
Definition set_tangent (t : float4) (v : Vertex) : Vertex :=
  Build_Vertex (position v) (texCoord v) (normal v) t (bitangent v).
Definition set_bitangent (b : float3) (v : Vertex) : Vertex :=
  Build_Vertex (position v) (texCoord v) (normal v) (tangent v) b.

Definition set_ambient (c : float4) (a : Material) : Material :=
  Build_Material c (diffuse a) (specular a) (shininess a) (alpha a)
    (name a) (colorMapFilename a) (bumpMapFilename a).
Definition set_diffuse (c : float4) (a : Material) : Material :=
  Build_Material (ambient a) c (specular a) (shininess a) (alpha a)
    (name a) (colorMapFilename a) (bumpMapFilename a).
Definition set_specular (c : float4) (a : Material) : Material :=
  Build_Material (ambient a) (diffuse a) c (shininess a) (alpha a)
    (name a) (colorMapFilename a) (bumpMapFilename a).
Definition set_shininess (x : float) (a : Material) : Material :=
  Build_Material (ambient a) (diffuse a) (specular a) x (alpha a)
    (name a) (colorMapFilename a) (bumpMapFilename a).
Definition set_alpha (x : float) (a : Material) : Material :=
  Build_Material (ambient a) (diffuse a) (specular a) (shininess a) x
    (name a) (colorMapFilename a) (bumpMapFilename a).
Definition set_colorMapFilename (f : string) (a : Material) : Material :=
  Build_Material (ambient a) (diffuse a) (specular a) (shininess a) (alpha a)
    (name a) f (bumpMapFilename a).
Definition set_bumpMapFilename (f : string) (a : Material) : Material :=
  Build_Material (ambient a) (diffuse a) (specular a) (shininess a) (alpha a)
    (name a) (colorMapFilename a) f.

(** ** Vectors and loops *)

Definition vec_size {A : Type} (v : list A) : Z := Z.of_nat (length v).

(** [v[i]] read: [None] when [i] is out of range. *)
Definition vec_at {A : Type} (v : list A) (i : Z) : option A :=
  if decide (0 <= i) then v !! Z.to_nat i else None.

(** [v[i] = x]: [None] when [i] is out of range. *)
Definition vec_set {A : Type} (v : list A) (i : Z) (x : A) : option (list A) :=
  if decide (0 <= i < vec_size v) then Some (<[Z.to_nat i := x]> v) else None.

(** [v.resize(n)], the new elements being copies of [d]. *)
Definition vec_resize {A : Type} (d : A) (n : Z) (v : list A) : list A :=
  take (Z.to_nat n) v ++ replicate (Z.to_nat n - length v)%nat d.

(** [for (int i = lo; i < lo + n; ++i) body], threading the state [s]. *)
Fixpoint for_range {St : Type} (n : nat) (i : Z) (body : Z -> St -> option St)
    (s : St) : option St :=
  match n with
  | O => Some s
  | S n' => s' ← body i s; for_range n' (i + 1) body s'
  end.

(** [v[i]] updated in place through a pointer to it. *)
Definition vec_update {A : Type} (v : list A) (i : Z) (f : A -> A)
    : option (list A) :=
  x ← vec_at v i; vec_set v i (f x).

Module Import F32Notations.
Declare Scope f32_scope.
Delimit Scope f32_scope with f32.
Infix "+" := F32.add : f32_scope.
Infix "-" := F32.sub : f32_scope.
Infix "*" := F32.mul : f32_scope.
Infix "/" := F32.div : f32_scope.
Notation "- x" := (F32.neg x) : f32_scope.
End F32Notations.

(** ** [Model::Model] and [Model::destroy] *)

Definition zero3 : float3 := F3 F32.zero F32.zero F32.zero.
Definition zero4 : float4 := F4 F32.zero F32.zero F32.zero F32.zero.

Definition Model_new : Model :=
  Build_Model false false false false 0 0 0 0 0 0
    zero3 F32.zero F32.zero F32.zero F32.zero
    EmptyString [] [] [] [] [] [] [] [] ∅ ∅.

Definition destroy (m : Model) : Model := Model_new.

(** ** [Model::bounds] *)

Record Extent : Type := Build_Extent {
  xMax : float; yMax : float; zMax : float;
  xMin : float; yMin : float; zMin : float
}.

Definition bounds_init : Extent :=
  Build_Extent F32.numeric_limits_min F32.numeric_limits_min F32.numeric_limits_min
               F32.numeric_limits_max F32.numeric_limits_max F32.numeric_limits_max.

(** One turn of the loop over the vertex buffer. *)
Definition bounds_step (e : Extent) (v : Vertex) : Extent :=
  let x := f3_0 (position v) in
  let y := f3_1 (position v) in
  let z := f3_2 (position v) in
  Build_Extent
    (if F32.gtb x (xMax e) then x else xMax e)
    (if F32.gtb y (yMax e) then y else yMax e)
    (if F32.gtb z (zMax e) then z else zMax e)
    (if F32.ltb x (xMin e) then x else xMin e)
    (if F32.ltb y (yMin e) then y else yMin e)
    (if F32.ltb z (zMin e) then z else zMin e).

Record Bounds : Type := Build_Bounds {
  b_center : float3;
  b_width : float;
  b_height : float;
  b_length : float;
  b_radius : float
}.

Definition bounds_extent (vb : list Vertex) : Extent :=
  fold_left bounds_step vb bounds_init.

Definition bounds (m : Model) : Bounds :=
  let e := bounds_extent (m_vertexBuffer m) in
  let width := (xMax e - xMin e)%f32 in
  let height := (yMax e - yMin e)%f32 in
  let length := (zMax e - zMin e)%f32 in
  Build_Bounds
    (F3 ((xMin e + xMax e) / F32.two)%f32
        ((yMin e + yMax e) / F32.two)%f32
        ((zMin e + zMax e) / F32.two)%f32)
    width height length
    (F32.max (F32.max width height) length).

(** [bounds(m_center, m_width, m_height, m_length, m_radius)]. *)
Definition store_bounds (m : Model) : Model :=
  let b := bounds m in
  set_m_center (b_center b)
    (set_m_width (b_width b)
      (set_m_height (b_height b)
        (set_m_length (b_length b)
          (set_m_radius (b_radius b) m)))).

(** ** [Model::reverseWinding] *)

(** The loop over the index buffer, [n] turns from index [i] on. *)
Fixpoint reverseWinding_indices (n : nat) (i : Z) (ib : list Z)
    : option (list Z) :=
  match n with
  | O => Some ib
  | S n' =>
      swap ← vec_at ib (i + 1);
      x ← vec_at ib (i + 2);
      ib1 ← vec_set ib (i + 1) x;
      ib2 ← vec_set ib1 (i + 2) swap;
      reverseWinding_indices n' (i + 3) ib2
  end.

Definition reverseWinding_vertex (v : Vertex) : Vertex :=
  let n := normal v in
  let t := tangent v in
  set_tangent (F4 (- f4_0 t)%f32 (- f4_1 t)%f32 (- f4_2 t)%f32 (f4_3 t))
    (set_normal (F3 (- f3_0 n)%f32 (- f3_1 n)%f32 (- f3_2 n)%f32) v).

Definition reverseWinding (m : Model) : option Model :=
  let turns := Z.to_nat ((vec_size (m_indexBuffer m) + 2) / 3) in
  ib ← reverseWinding_indices turns 0 (m_indexBuffer m);
  Some (set_m_vertexBuffer (map reverseWinding_vertex (m_vertexBuffer m))
          (set_m_indexBuffer ib m)).

(** ** [Model::scale] and [Model::normalize] *)

Definition scale_vertex (scaleFactor : float) (offset : float3) (v : Vertex)
    : Vertex :=
  let p := position v in
  set_position
    (F3 ((f3_0 p + f3_0 offset) * scaleFactor)%f32
        ((f3_1 p + f3_1 offset) * scaleFactor)%f32
        ((f3_2 p + f3_2 offset) * scaleFactor)%f32) v.

Definition scale (scaleFactor : float) (offset : float3) (m : Model) : Model :=
  set_m_vertexBuffer (map (scale_vertex scaleFactor offset) (m_vertexBuffer m)) m.

Definition normalize (scaleTo : float) (center : bool) (m : Model) : Model :=
  let b := bounds m in
  let scalingFactor := (scaleTo / b_radius b)%f32 in
  let c := b_center b in
  let offset :=
    if center then F3 (- f3_0 c)%f32 (- f3_1 c)%f32 (- f3_2 c)%f32
    else zero3 in
  store_bounds (scale scalingFactor offset m).

(** ** [Model::addVertex] *)

(** The scan of one bucket of the cache: [Some (Some i)] when the vertex
    at index [i] is the first one whose bytes are those of [pVertex]
    ([memcmp] over the whole record), [Some None] when there is none. *)
Fixpoint addVertex_scan (vb : list Vertex) (pVertex : Vertex)
    (vertices : list Z) : option (option Z) :=
  match vertices with
  | [] => Some None
  | index :: rest =>
      pCachedVertex ← vec_at vb index;
      if decide (pCachedVertex = pVertex) then Some (Some index)
      else addVertex_scan vb pVertex rest
  end.

Definition addVertex (hash : Z) (pVertex : Vertex) (m : Model)
    : option (Z * Model) :=
  match m_vertexCache m !! hash with
  | None =>
      let index := vec_size (m_vertexBuffer m) in
      Some (index,
            set_m_vertexCache (<[hash := [index]]> (m_vertexCache m))
              (set_m_vertexBuffer (m_vertexBuffer m ++ [pVertex]) m))
  | Some vertices =>
      found ← addVertex_scan (m_vertexBuffer m) pVertex vertices;
      match found with
      | Some index => Some (index, m)
      | None =>
          let index := vec_size (m_vertexBuffer m) in
          Some (index,
                set_m_vertexCache
                  (<[hash := vertices ++ [index]]> (m_vertexCache m))
                  (set_m_vertexBuffer (m_vertexBuffer m ++ [pVertex]) m))
      end
  end.

(** ** [Model::addTrianglePos] and its three siblings *)

Definition zero_vertex : Vertex :=
  Build_Vertex zero3 (F2 F32.zero F32.zero) zero3 zero4 zero3.

(** [a[i * 3]], [a[i * 3 + 1]], [a[i * 3 + 2]]. *)
Definition fetch3 (a : list float) (i : Z) : option float3 :=
  x ← vec_at a (i * 3);
  y ← vec_at a (i * 3 + 1);
  z ← vec_at a (i * 3 + 2);
  Some (F3 x y z).

(** [a[i * 2]], [a[i * 2 + 1]]. *)
Definition fetch2 (a : list float) (i : Z) : option float2 :=
  x ← vec_at a (i * 2);
  y ← vec_at a (i * 2 + 1);
  Some (F2 x y).

(** [m_indexBuffer[slot] = addVertex(hash, &vertex)]. *)
Definition emit (slot hash : Z) (vertex : Vertex) (m : Model) : option Model :=
  '(i, m1) ← addVertex hash vertex m;
  ib ← vec_set (m_indexBuffer m1) slot i;
  Some (set_m_indexBuffer ib m1).

Definition addTrianglePos (index material v0 v1 v2 : Z) (m : Model)
    : option Model :=
  let vertex := zero_vertex in
  ab ← vec_set (m_attributeBuffer m) index material;
  let m := set_m_attributeBuffer ab m in
  p ← fetch3 (m_vertexCoords m) v0;
  let vertex := set_position p vertex in
  m ← emit (index * 3) v0 vertex m;
  p ← fetch3 (m_vertexCoords m) v1;
  let vertex := set_position p vertex in
  m ← emit (index * 3 + 1) v1 vertex m;
  p ← fetch3 (m_vertexCoords m) v2;
  let vertex := set_position p vertex in
  emit (index * 3 + 2) v2 vertex m.

Definition addTrianglePosNormal (index material v0 v1 v2 vn0 vn1 vn2 : Z)
    (m : Model) : option Model :=
  let vertex := zero_vertex in
  ab ← vec_set (m_attributeBuffer m) index material;
  let m := set_m_attributeBuffer ab m in
  p ← fetch3 (m_vertexCoords m) v0;
  n ← fetch3 (m_normals m) vn0;
  let vertex := set_normal n (set_position p vertex) in
  m ← emit (index * 3) v0 vertex m;
  p ← fetch3 (m_vertexCoords m) v1;
  n ← fetch3 (m_normals m) vn1;
  let vertex := set_normal n (set_position p vertex) in
  m ← emit (index * 3 + 1) v1 vertex m;
  p ← fetch3 (m_vertexCoords m) v2;
  n ← fetch3 (m_normals m) vn2;
  let vertex := set_normal n (set_position p vertex) in
  emit (index * 3 + 2) v2 vertex m.

Definition addTrianglePosTexCoord (index material v0 v1 v2 vt0 vt1 vt2 : Z)
    (m : Model) : option Model :=
  let vertex := zero_vertex in
  ab ← vec_set (m_attributeBuffer m) index material;
  let m := set_m_attributeBuffer ab m in
  p ← fetch3 (m_vertexCoords m) v0;
  t ← fetch2 (m_textureCoords m) vt0;
  let vertex := set_texCoord t (set_position p vertex) in
  m ← emit (index * 3) v0 vertex m;
  p ← fetch3 (m_vertexCoords m) v1;
  t ← fetch2 (m_textureCoords m) vt1;
  let vertex := set_texCoord t (set_position p vertex) in
  m ← emit (index * 3 + 1) v1 vertex m;
  p ← fetch3 (m_vertexCoords m) v2;
  t ← fetch2 (m_textureCoords m) vt2;
  let vertex := set_texCoord t (set_position p vertex) in
  emit (index * 3 + 2) v2 vertex m.

Definition addTrianglePosTexCoordNormal
    (index material v0 v1 v2 vt0 vt1 vt2 vn0 vn1 vn2 : Z) (m : Model)
    : option Model :=
  let vertex := zero_vertex in
  ab ← vec_set (m_attributeBuffer m) index material;
  let m := set_m_attributeBuffer ab m in
  p ← fetch3 (m_vertexCoords m) v0;
  t ← fetch2 (m_textureCoords m) vt0;
  n ← fetch3 (m_normals m) vn0;
  let vertex := set_normal n (set_texCoord t (set_position p vertex)) in
  m ← emit (index * 3) v0 vertex m;
  p ← fetch3 (m_vertexCoords m) v1;
  t ← fetch2 (m_textureCoords m) vt1;
  n ← fetch3 (m_normals m) vn1;
  let vertex := set_normal n (set_texCoord t (set_position p vertex)) in
  m ← emit (index * 3 + 1) v1 vertex m;
  p ← fetch3 (m_vertexCoords m) v2;
  t ← fetch2 (m_textureCoords m) vt2;
  n ← fetch3 (m_normals m) vn2;
  let vertex := set_normal n (set_texCoord t (set_position p vertex)) in
  emit (index * 3 + 2) v2 vertex m.

(** ** [Model::buildMeshes] and [MeshCompFunc] *)

(** The first loop: the number of places where the material id changes,
    [materialId] being the id of the triangle before. *)
Fixpoint buildMeshes_count (ab : list Z) (materialId numMeshes : Z) : Z :=
  match ab with
  | [] => numMeshes
  | a :: ab' =>
      if decide (a <> materialId) then buildMeshes_count ab' a (numMeshes + 1)
      else buildMeshes_count ab' materialId numMeshes
  end.

Definition null_mesh : Mesh := Build_Mesh 0 0 None.

(** The locals of the second loop and the mesh vector it fills;
    [bm_pMesh] is the index of the mesh [pMesh] points to. *)
Record BuildState : Type := Build_BuildState {
  bm_materialId : Z;
  bm_pMesh : option Z;
  bm_numMeshes : Z;
  bm_meshes : list Mesh
}.

Definition incr_triangleCount (me : Mesh) : Mesh :=
  Build_Mesh (startIndex me) (triangleCount me + 1) (pMaterial me).

(** One turn of the second loop, at triangle [i] whose material id is
    [a]; [nmat] is the size of [m_materials]. *)
Definition buildMeshes_step (nmat : Z) (i a : Z) (st : BuildState)
    : option BuildState :=
  if decide (a <> bm_materialId st) then
    let k := bm_numMeshes st in
    if decide (0 <= a < nmat) then
      meshes ← vec_update (bm_meshes st) k
        (fun me => Build_Mesh (i * 3) (triangleCount me + 1) (Some a));
      Some (Build_BuildState a (Some k) (k + 1) meshes)
    else None
  else
    k ← bm_pMesh st;
    meshes ← vec_update (bm_meshes st) k incr_triangleCount;
    Some (Build_BuildState (bm_materialId st) (Some k) (bm_numMeshes st) meshes).

Fixpoint buildMeshes_fill (nmat : Z) (ab : list Z) (i : Z) (st : BuildState)
    : option BuildState :=
  match ab with
  | [] => Some st
  | a :: ab' =>
      st' ← buildMeshes_step nmat i a st;
      buildMeshes_fill nmat ab' (i + 1) st'
  end.

(** [lhs.pMaterial->alpha > rhs.pMaterial->alpha]. *)
Definition MeshCompFunc (materials : list Material) (lhs rhs : Mesh)
    : option bool :=
  pl ← pMaterial lhs;
  ml ← vec_at materials pl;
  pr ← pMaterial rhs;
  mr ← vec_at materials pr;
  Some (F32.gtb (alpha ml) (alpha mr)).

(** [std::sort(first, last, comp)] leaves the range sorted by [comp] and
    says nothing on the order of elements that compare equal.  The model
    sorts by insertion; the theorems below only use that the result is a
    sorted permutation. *)
Fixpoint sort_insert {A : Type} (comp : A -> A -> option bool) (x : A)
    (l : list A) : option (list A) :=
  match l with
  | [] => Some [x]
  | y :: l' =>
      b ← comp x y;
      if (b : bool) then Some (x :: y :: l')
      else r ← sort_insert comp x l'; Some (y :: r)
  end.

Fixpoint std_sort {A : Type} (comp : A -> A -> option bool) (l : list A)
    : option (list A) :=
  match l with
  | [] => Some []
  | x :: l' => r ← std_sort comp l'; sort_insert comp x r
  end.

Definition buildMeshes (m : Model) : option Model :=
  let numMeshes := buildMeshes_count (m_attributeBuffer m) (-1) 0 in
  let m := set_m_numberOfMeshes numMeshes m in
  let m := set_m_meshes (vec_resize null_mesh (m_numberOfMeshes m) (m_meshes m)) m in
  st ← buildMeshes_fill (vec_size (m_materials m)) (m_attributeBuffer m) 0
         (Build_BuildState (-1) None 0 (m_meshes m));
  meshes ← std_sort (MeshCompFunc (m_materials m)) (bm_meshes st);
  Some (set_m_meshes meshes m).

(** ** [Model::generateNormals] *)

Definition sub3 (a b : float3) : float3 :=
  F3 (f3_0 a - f3_0 b)%f32 (f3_1 a - f3_1 b)%f32 (f3_2 a - f3_2 b)%f32.

Definition add3 (a b : float3) : float3 :=
  F3 (f3_0 a + f3_0 b)%f32 (f3_1 a + f3_1 b)%f32 (f3_2 a + f3_2 b)%f32.

Definition cross (a b : float3) : float3 :=
  F3 (f3_1 a * f3_2 b - f3_2 a * f3_1 b)%f32
     (f3_2 a * f3_0 b - f3_0 a * f3_2 b)%f32
     (f3_0 a * f3_1 b - f3_1 a * f3_0 b)%f32.

Definition dot3 (a b : float3) : float :=
  (f3_0 a * f3_0 b + f3_1 a * f3_1 b + f3_2 a * f3_2 b)%f32.

Definition scale3 (a : float3) (k : float) : float3 :=
  F3 (f3_0 a * k)%f32 (f3_1 a * k)%f32 (f3_2 a * k)%f32.

(** The three vertices of triangle [i]: [pTriangle = &m_indexBuffer[i * 3]]
    and [&m_vertexBuffer[pTriangle[k]]]. *)
Definition triangle_at (m : Model) (vb : list Vertex) (i : Z)
    : option (Z * Z * Z * Vertex * Vertex * Vertex) :=
  i0 ← vec_at (m_indexBuffer m) (i * 3);
  i1 ← vec_at (m_indexBuffer m) (i * 3 + 1);
  i2 ← vec_at (m_indexBuffer m) (i * 3 + 2);
  v0 ← vec_at vb i0;
  v1 ← vec_at vb i1;
  v2 ← vec_at vb i2;
  Some (i0, i1, i2, v0, v1, v2).

Definition add_normal (n : float3) (v : Vertex) : Vertex :=
  set_normal (add3 (normal v) n) v.

(** One turn of the loop over the triangles.  The three pointers may be
    equal, so each vertex is read again when it is added to. *)
Definition generateNormals_triangle (m : Model) (i : Z) (vb : list Vertex)
    : option (list Vertex) :=
  '(i0, i1, i2, v0, v1, v2) ← triangle_at m vb i;
  let edge1 := sub3 (position v1) (position v0) in
  let edge2 := sub3 (position v2) (position v0) in
  let n := cross edge1 edge2 in
  vb ← vec_update vb i0 (add_normal n);
  vb ← vec_update vb i1 (add_normal n);
  vec_update vb i2 (add_normal n).

Definition normalize_normal (v : Vertex) : Vertex :=
  let n := normal v in
  let length := (F32.one / F32.sqrtf (dot3 n n))%f32 in
  set_normal (scale3 n length) v.

Definition generateNormals (m : Model) : option Model :=
  let totalTriangles := m_numberOfTriangles m in
  let vb := map (set_normal zero3) (m_vertexBuffer m) in
  vb ← for_range (Z.to_nat totalTriangles) 0 (generateNormals_triangle m) vb;
  let vb := map normalize_normal vb in
  Some (set_m_hasNormals true (set_m_vertexBuffer vb m)).

(** ** [Model::generateTangents] *)

(** [1e-6f] *)
Definition det_epsilon : float := F32.of_decimal false 1 (-6).

(** The tangent and the bitangent of one triangle. *)
Definition triangle_tangents (v0 v1 v2 : Vertex) : float3 * float3 :=
  let edge1 := sub3 (position v1) (position v0) in
  let edge2 := sub3 (position v2) (position v0) in
  let texEdge1_0 := (f2_0 (texCoord v1) - f2_0 (texCoord v0))%f32 in
  let texEdge1_1 := (f2_1 (texCoord v1) - f2_1 (texCoord v0))%f32 in
  let texEdge2_0 := (f2_0 (texCoord v2) - f2_0 (texCoord v0))%f32 in
  let texEdge2_1 := (f2_1 (texCoord v2) - f2_1 (texCoord v0))%f32 in
  let det := (texEdge1_0 * texEdge2_1 - texEdge2_0 * texEdge1_1)%f32 in
  if F32.ltb (F32.fabs det) det_epsilon then
    (F3 F32.one F32.zero F32.zero, F3 F32.zero F32.one F32.zero)
  else
    let det := (F32.one / det)%f32 in
    (F3 ((texEdge2_1 * f3_0 edge1 - texEdge1_1 * f3_0 edge2) * det)%f32
        ((texEdge2_1 * f3_1 edge1 - texEdge1_1 * f3_1 edge2) * det)%f32
        ((texEdge2_1 * f3_2 edge1 - texEdge1_1 * f3_2 edge2) * det)%f32,
     F3 ((- texEdge2_0 * f3_0 edge1 + texEdge1_0 * f3_0 edge2) * det)%f32
        ((- texEdge2_0 * f3_1 edge1 + texEdge1_0 * f3_1 edge2) * det)%f32
        ((- texEdge2_0 * f3_2 edge1 + texEdge1_0 * f3_2 edge2) * det)%f32).

Definition add_tangents (t b : float3) (v : Vertex) : Vertex :=
  let tv := tangent v in
  set_bitangent (add3 (bitangent v) b)
    (set_tangent (F4 (f4_0 tv + f3_0 t)%f32 (f4_1 tv + f3_1 t)%f32
                     (f4_2 tv + f3_2 t)%f32 (f4_3 tv)) v).

Definition generateTangents_triangle (m : Model) (i : Z) (vb : list Vertex)
    : option (list Vertex) :=
  '(i0, i1, i2, v0, v1, v2) ← triangle_at m vb i;
  let '(t, b) := triangle_tangents v0 v1 v2 in
  vb ← vec_update vb i0 (add_tangents t b);
  vb ← vec_update vb i1 (add_tangents t b);
  vec_update vb i2 (add_tangents t b).

Definition tangent_xyz (v : Vertex) : float3 :=
  F3 (f4_0 (tangent v)) (f4_1 (tangent v)) (f4_2 (tangent v)).

(** One turn of the last loop: Gram-Schmidt against the normal, the
    normalisation, the bitangent and the handedness. *)
Definition orthogonalize_tangent (v : Vertex) : Vertex :=
  let n := normal v in
  let t := tangent_xyz v in
  let nDotT := dot3 n t in
  let t := F3 (f3_0 t - f3_0 n * nDotT)%f32 (f3_1 t - f3_1 n * nDotT)%f32
              (f3_2 t - f3_2 n * nDotT)%f32 in
  let length := (F32.one / F32.sqrtf (dot3 t t))%f32 in
  let t := scale3 t length in
  let bitangent' := cross n t in
  let bDotB := dot3 bitangent' (bitangent v) in
  let w := if F32.ltb bDotB F32.zero then F32.one else F32.neg F32.one in
  set_bitangent bitangent' (set_tangent (F4 (f3_0 t) (f3_1 t) (f3_2 t) w) v).

Definition generateTangents (m : Model) : option Model :=
  let totalTriangles := m_numberOfTriangles m in
  let vb := map (fun v => set_bitangent zero3 (set_tangent zero4 v))
                (m_vertexBuffer m) in
  vb ← for_range (Z.to_nat totalTriangles) 0 (generateTangents_triangle m) vb;
  let vb := map orthogonalize_tangent vb in
  Some (set_m_hasTangents true (set_m_vertexBuffer vb m)).

(** ** [Model::importMaterials] *)

(** [fopen(name, "r")] on a file system: the text of the file, or [None]
    for the null pointer. *)
Definition filesystem : Type := string -> option stream.

(** The text [fgets] leaves in [buffer]. *)
Definition after_fgets (buffer : list ascii) (line : option (list ascii))
    : list ascii :=
  match line with
  | Some l => l
  | None => buffer
  end.

(** [fgets(buffer, sizeof(buffer), pFile); sscanf(buffer, "%s %s", buffer,
    buffer);]: the buffer afterwards and the rest of the input. *)
Definition read_name (buffer : list ascii) (s : stream) : list ascii * stream :=
  let '(line, s') := fgets s in
  (sscanf_s_s (after_fgets buffer line), s').

(** The first loop: how many tokens begin with [n], every token being
    followed by a [fgets]. *)
Fixpoint importMaterials_count (fuel : nat) (s : stream) (numMaterials : Z)
    : option Z :=
  match fuel with
  | O => None
  | S fuel' =>
      if overruns s then None else
      match scan_s s with
      | None => Some numMaterials
      | Some (buffer, s1) =>
          let '(_, s2) := fgets s1 in
          match buffer with
          | "n"%char :: _ => importMaterials_count fuel' s2 (numMaterials + 1)
          | _ => importMaterials_count fuel' s2 numMaterials
          end
      end
  end.

(** A value-initialised [Material], as [resize] makes them. *)
Definition null_material : Material :=
  Build_Material zero4 zero4 zero4 F32.zero F32.zero
    EmptyString EmptyString EmptyString.

(** The locals of the second loop; [mt_pMaterial] is the index of the
    material [pMaterial] points to, [None] for the null pointer. *)
Record MtlState : Type := Build_MtlState {
  mt_model : Model;
  mt_pMaterial : option Z;
  mt_illum : Z;
  mt_numMaterials : Z
}.

(** An assignment through [pMaterial]. *)
Definition with_material (f : Material -> Material) (st : MtlState)
    : option MtlState :=
  i ← mt_pMaterial st;
  mats ← vec_update (m_materials (mt_model st)) i f;
  Some (Build_MtlState (set_m_materials mats (mt_model st))
          (mt_pMaterial st) (mt_illum st) (mt_numMaterials st)).

(** [fscanf(pFile, "%f", &x)]: [x] afterwards. *)
Definition stored1 (xs : list float) (x : float) : float :=
  match xs with
  | y :: _ => y
  | [] => x
  end.

(** [fscanf(pFile, "%f %f %f", &c[0], &c[1], &c[2]); c[3] = 1.0f;] *)
Definition stored_colour (xs : list float) (c : float4) : float4 :=
  match xs with
  | [] => F4 (f4_0 c) (f4_1 c) (f4_2 c) F32.one
  | [r] => F4 r (f4_1 c) (f4_2 c) F32.one
  | [r; g] => F4 r g (f4_2 c) F32.one
  | r :: g :: b :: _ => F4 r g b F32.one
  end.

Definition f1000 : float := F32.of_Z 1000.
Definition f0_2 : float := F32.of_decimal false 2 (-1).
Definition f0_8 : float := F32.of_decimal false 8 (-1).

(** The material a [newmtl] line starts. *)
Definition new_material (buffer : list ascii) : Material :=
  Build_Material (F4 f0_2 f0_2 f0_2 F32.one) (F4 f0_8 f0_8 f0_8 F32.one)
    (F4 F32.zero F32.zero F32.zero F32.one) F32.zero F32.one
    (string_of_list_ascii buffer) EmptyString EmptyString.

(** The body of the second loop for the token [buffer], the input after
    it being [s1]. *)
Definition importMaterials_step (buffer : list ascii) (s1 : stream)
    (st : MtlState) : option (stream * MtlState) :=
  match buffer with
  | "N"%char :: _ =>
      let '(xs, s2) := scanf_floats 1 s1 in
      st ← with_material
             (fun a => set_shininess (stored1 xs (shininess a) / f1000)%f32 a) st;
      Some (s2, st)
  | "K"%char :: "a"%char :: _ =>
      let '(xs, s2) := scanf_floats 3 s1 in
      st ← with_material (fun a => set_ambient (stored_colour xs (ambient a)) a) st;
      Some (s2, st)
  | "K"%char :: "d"%char :: _ =>
      let '(xs, s2) := scanf_floats 3 s1 in
      st ← with_material (fun a => set_diffuse (stored_colour xs (diffuse a)) a) st;
      Some (s2, st)
  | "K"%char :: "s"%char :: _ =>
      let '(xs, s2) := scanf_floats 3 s1 in
      st ← with_material (fun a => set_specular (stored_colour xs (specular a)) a) st;
      Some (s2, st)
  | "K"%char :: _ => Some (snd (fgets s1), st)
  | "T"%char :: "r"%char :: _ =>
      let '(xs, s2) := scanf_floats 1 s1 in
      st ← with_material
             (fun a => set_alpha (F32.one - stored1 xs (alpha a))%f32 a) st;
      Some (s2, st)
  | "T"%char :: _ => Some (snd (fgets s1), st)
  | "d"%char :: _ =>
      let '(xs, s2) := scanf_floats 1 s1 in
      st ← with_material (fun a => set_alpha (stored1 xs (alpha a)) a) st;
      Some (s2, st)
  | "i"%char :: _ =>
      let '(zs, s2) := scanf_ints [Cd] s1 in
      let illum := match zs with z :: _ => z | [] => mt_illum st end in
      let st := Build_MtlState (mt_model st) (mt_pMaterial st) illum
                  (mt_numMaterials st) in
      if decide (illum = 1) then
        st ← with_material
               (set_specular (F4 F32.zero F32.zero F32.zero F32.one)) st;
        Some (s2, st)
      else Some (s2, st)
  | "m"%char :: _ =>
      if strstr buffer (list_ascii_of_string "map_Kd") then
        let '(buffer, s2) := read_name buffer s1 in
        st ← with_material (set_colorMapFilename (string_of_list_ascii buffer)) st;
        Some (s2, st)
      else if strstr buffer (list_ascii_of_string "map_bump") then
        let '(buffer, s2) := read_name buffer s1 in
        st ← with_material (set_bumpMapFilename (string_of_list_ascii buffer)) st;
        Some (s2, st)
      else Some (snd (fgets s1), st)
  | "n"%char :: _ =>
      let '(buffer, s2) := read_name buffer s1 in
      let m := mt_model st in
      let k := mt_numMaterials st in
      mats ← vec_set (m_materials m) k (new_material buffer);
      let m := set_m_materialCache
                 (<[string_of_list_ascii buffer := k]> (m_materialCache m))
                 (set_m_materials mats m) in
      Some (s2, Build_MtlState m (Some k) (mt_illum st) (k + 1))
  | _ => Some (snd (fgets s1), st)
  end.

Fixpoint importMaterials_fill (fuel : nat) (s : stream) (st : MtlState)
    : option MtlState :=
  match fuel with
  | O => None
  | S fuel' =>
      if overruns s then None else
      match scan_s s with
      | None => Some st
      | Some (buffer, s1) =>
          '(s2, st') ← importMaterials_step buffer s1 st;
          importMaterials_fill fuel' s2 st'
      end
  end.

Definition importMaterials (fs : filesystem) (pszFilename : string) (m : Model)
    : option (bool * Model) :=
  match fs pszFilename with
  | None => Some (false, m)
  | Some pFile =>
      numMaterials ← importMaterials_count (S (length pFile)) pFile 0;
      let m := set_m_numberOfMaterials numMaterials m in
      let m := set_m_materials
                 (vec_resize null_material (m_numberOfMaterials m) (m_materials m)) m in
      st ← importMaterials_fill (S (length pFile)) pFile
             (Build_MtlState m None 0 0);
      Some (true, mt_model st)
  end.

(** ** [Model::importGeometryFirstPass] *)

(** The four forms of a face corner, in the order the source tests them:
    [v//vn], [v/vt/vn], [v/vt] and [v]. *)
Inductive faceForm : Type :=
| FormPosNormal
| FormPosTexCoordNormal
| FormPosTexCoord
| FormPos.

(** The format each form is read with: ["%d//%d"], ["%d/%d/%d"],
    ["%d/%d"] and ["%d"]. *)
Definition face_format (f : faceForm) : list conv :=
  match f with
  | FormPosNormal => [Cd; Clit "/"; Clit "/"; Cd]
  | FormPosTexCoordNormal => [Cd; Clit "/"; Cd; Clit "/"; Cd]
  | FormPosTexCoord => [Cd; Clit "/"; Cd]
  | FormPos => [Cd]
  end.

(** The branch taken for the first corner, held in [buffer]. *)
Definition face_form (buffer : list ascii) : faceForm :=
  if strstr buffer (list_ascii_of_string "//") then FormPosNormal
  else if Nat.eqb (length (fst (scanf_ints (face_format FormPosTexCoordNormal) buffer))) 3
  then FormPosTexCoordNormal
  else if Nat.eqb (length (fst (scanf_ints (face_format FormPosTexCoord) buffer))) 2
  then FormPosTexCoord
  else FormPos.

(** [fscanf(pFile, "%s", buffer)] with its result ignored, when the
    token fits: at end of file the buffer keeps its text. *)
Definition scan_s_keep (buffer : list ascii) (s : stream) : list ascii * stream :=
  match scan_s s with
  | Some (b, r) => (b, r)
  | None => (buffer, [])
  end.

(** [while (fscanf(pFile, fmt, ...) > 0) ++m_numberOfTriangles;] *)
Fixpoint firstPass_fan (fuel : nat) (fmt : list conv) (s : stream) (n : Z)
    : option (stream * Z) :=
  match fuel with
  | O => None
  | S fuel' =>
      match scanf_ints fmt s with
      | ([], s') => Some (s', n)
      | (_ :: _, s') => firstPass_fan fuel' fmt s' (n + 1)
      end
  end.

(** The case ['f'].  The four branches of the source differ by their
    format only. *)
Definition firstPass_face (buffer : list ascii) (s1 : stream) (n : Z)
    : option (stream * Z) :=
  if overruns s1 then None else
  let '(buffer, s2) := scan_s_keep buffer s1 in
  let fmt := face_format (face_form buffer) in
  let '(_, s3) := scanf_ints fmt s2 in
  let '(_, s4) := scanf_ints fmt s3 in
  firstPass_fan (S (length s4)) fmt s4 (n + 1).

(** The body of the loop for the token [buffer]. *)
Definition firstPass_step (fs : filesystem) (buffer : list ascii) (s1 : stream)
    (m : Model) : option (stream * Model) :=
  match buffer with
  | "f"%char :: _ =>
      '(s2, n) ← firstPass_face buffer s1 (m_numberOfTriangles m);
      Some (s2, set_m_numberOfTriangles n m)
  | "m"%char :: _ =>
      let '(buffer, s2) := read_name buffer s1 in
      let name := String.append (m_directoryPath m) (string_of_list_ascii buffer) in
      '(_, m) ← importMaterials fs name m;
      Some (s2, m)
  | "v"%char :: [] =>
      Some (snd (fgets s1),
            set_m_numberOfVertexCoords (m_numberOfVertexCoords m + 1) m)
  | "v"%char :: "n"%char :: _ =>
      Some (snd (fgets s1), set_m_numberOfNormals (m_numberOfNormals m + 1) m)
  | "v"%char :: "t"%char :: _ =>
      Some (snd (fgets s1),
            set_m_numberOfTextureCoords (m_numberOfTextureCoords m + 1) m)
  | "v"%char :: _ => Some (s1, m)
  | _ => Some (snd (fgets s1), m)
  end.

Fixpoint firstPass_loop (fuel : nat) (fs : filesystem) (s : stream) (m : Model)
    : option Model :=
  match fuel with
  | O => None
  | S fuel' =>
      if overruns s then None else
      match scan_s s with
      | None => Some m
      | Some (buffer, s1) =>
          '(s2, m') ← firstPass_step fs buffer s1 m;
          firstPass_loop fuel' fs s2 m'
      end
  end.

Definition defaultMaterial : Material :=
  Build_Material (F4 f0_2 f0_2 f0_2 F32.one) (F4 f0_8 f0_8 f0_8 F32.one)
    (F4 F32.zero F32.zero F32.zero F32.one) F32.zero F32.one
    "default" EmptyString EmptyString.

Definition importGeometryFirstPass (fs : filesystem) (pFile : stream)
    (m : Model) : option Model :=
  let m := set_m_hasTextureCoords false m in
  let m := set_m_hasNormals false m in
  let m := set_m_numberOfVertexCoords 0 m in
  let m := set_m_numberOfTextureCoords 0 m in
  let m := set_m_numberOfNormals 0 m in
  let m := set_m_numberOfTriangles 0 m in
  m ← firstPass_loop (S (length pFile)) fs pFile m;
  let m := set_m_hasPositions (0 <? m_numberOfVertexCoords m) m in
  let m := set_m_hasNormals (0 <? m_numberOfNormals m) m in
  let m := set_m_hasTextureCoords (0 <? m_numberOfTextureCoords m) m in
  let m := set_m_vertexCoords
             (vec_resize F32.zero (m_numberOfVertexCoords m * 3) (m_vertexCoords m)) m in
  let m := set_m_textureCoords
             (vec_resize F32.zero (m_numberOfTextureCoords m * 2) (m_textureCoords m)) m in
  let m := set_m_normals
             (vec_resize F32.zero (m_numberOfNormals m * 3) (m_normals m)) m in
  let m := set_m_indexBuffer
             (vec_resize 0 (m_numberOfTriangles m * 3) (m_indexBuffer m)) m in
  let m := set_m_attributeBuffer
             (vec_resize 0 (m_numberOfTriangles m) (m_attributeBuffer m)) m in
  if decide (m_numberOfMaterials m = 0) then
    Some (set_m_materialCache (<["default"%string := 0]> (m_materialCache m))
            (set_m_materials (m_materials m ++ [defaultMaterial]) m))
  else Some m.

(** ** [Model::importGeometrySecondPass] *)

(** One corner of a face: [v[k]], [vt[k]] and [vn[k]]. *)
Record Corner : Type := Build_Corner { c_v : Z; c_vt : Z; c_vn : Z }.

Definition zero_corner : Corner := Build_Corner 0 0 0.

(** The locals of the loop. *)
Record Pass2 : Type := Build_Pass2 {
  p2_model : Model;
  numVertices : Z;
  numTexCoords : Z;
  numNormals : Z;
  numTriangles : Z;
  activeMaterial : Z
}.

(** The variables a [scanf] with the format of form [f] stores into: the
    converted values [zs] go to them in order, the others keep their
    value. *)
Definition assign_corner (f : faceForm) (zs : list Z) (c : Corner) : Corner :=
  match f, zs with
  | _, [] => c
  | FormPosNormal, [a] => Build_Corner a (c_vt c) (c_vn c)
  | FormPosNormal, a :: b :: _ => Build_Corner a (c_vt c) b
  | FormPosTexCoordNormal, [a] => Build_Corner a (c_vt c) (c_vn c)
  | FormPosTexCoordNormal, [a; b] => Build_Corner a b (c_vn c)
  | FormPosTexCoordNormal, a :: b :: d :: _ => Build_Corner a b d
  | FormPosTexCoord, [a] => Build_Corner a (c_vt c) (c_vn c)
  | FormPosTexCoord, a :: b :: _ => Build_Corner a b (c_vn c)
  | FormPos, a :: _ => Build_Corner a (c_vt c) (c_vn c)
  end.

(** [x = (x < 0) ? x + count - 1 : x - 1] *)
Definition resolve (count x : Z) : Z :=
  if x <? 0 then x + count - 1 else x - 1.

(** The indices of one corner resolved, those the form uses. *)
Definition resolve_corner (f : faceForm) (st : Pass2) (c : Corner) : Corner :=
  match f with
  | FormPosNormal =>
      Build_Corner (resolve (numVertices st) (c_v c)) (c_vt c)
                   (resolve (numNormals st) (c_vn c))
  | FormPosTexCoordNormal =>
      Build_Corner (resolve (numVertices st) (c_v c))
                   (resolve (numTexCoords st) (c_vt c))
                   (resolve (numNormals st) (c_vn c))
  | FormPosTexCoord =>
      Build_Corner (resolve (numVertices st) (c_v c))
                   (resolve (numTexCoords st) (c_vt c)) (c_vn c)
  | FormPos => Build_Corner (resolve (numVertices st) (c_v c)) (c_vt c) (c_vn c)
  end.

(** The [addTriangle...] call of the branch of form [f]. *)
Definition addTriangle (f : faceForm) (index material : Z) (c0 c1 c2 : Corner)
    (m : Model) : option Model :=
  match f with
  | FormPosNormal =>
      addTrianglePosNormal index material (c_v c0) (c_v c1) (c_v c2)
        (c_vn c0) (c_vn c1) (c_vn c2) m
  | FormPosTexCoordNormal =>
      addTrianglePosTexCoordNormal index material (c_v c0) (c_v c1) (c_v c2)
        (c_vt c0) (c_vt c1) (c_vt c2) (c_vn c0) (c_vn c1) (c_vn c2) m
  | FormPosTexCoord =>
      addTrianglePosTexCoord index material (c_v c0) (c_v c1) (c_v c2)
        (c_vt c0) (c_vt c1) (c_vt c2) m
  | FormPos => addTrianglePos index material (c_v c0) (c_v c1) (c_v c2) m
  end.

(** [addTriangle...(numTriangles++, activeMaterial, ...)] *)
Definition emit_triangle (f : faceForm) (c0 c1 c2 : Corner) (st : Pass2)
    : option Pass2 :=
  m ← addTriangle f (numTriangles st) (activeMaterial st) c0 c1 c2 (p2_model st);
  Some (Build_Pass2 m (numVertices st) (numTexCoords st) (numNormals st)
          (numTriangles st + 1) (activeMaterial st)).

(** The [while] loop of a face: each further corner read into [v[2]],
    [vt[2]], [vn[2]] closes a triangle of the fan with corner 0 and the
    corner before, kept in [v[1]], [vt[1]], [vn[1]]. *)
Fixpoint secondPass_fan (fuel : nat) (f : faceForm) (s : stream)
    (c0 c1 c2 : Corner) (st : Pass2) : option (stream * Pass2) :=
  match fuel with
  | O => None
  | S fuel' =>
      match scanf_ints (face_format f) s with
      | ([], s') => Some (s', st)
      | (zs, s') =>
          let c2 := resolve_corner f st (assign_corner f zs c2) in
          st ← emit_triangle f c0 c1 c2 st;
          secondPass_fan fuel' f s' c0 c2 c2 st
      end
  end.

(** The case ['f']. *)
Definition secondPass_face (buffer : list ascii) (s1 : stream) (st : Pass2)
    : option (stream * Pass2) :=
  if overruns s1 then None else
  let '(buffer, s2) := scan_s_keep buffer s1 in
  let f := face_form buffer in
  let fmt := face_format f in
  let c0 := assign_corner f (fst (scanf_ints fmt buffer)) zero_corner in
  let '(zs1, s3) := scanf_ints fmt s2 in
  let c1 := assign_corner f zs1 zero_corner in
  let '(zs2, s4) := scanf_ints fmt s3 in
  let c2 := assign_corner f zs2 zero_corner in
  let c0 := resolve_corner f st c0 in
  let c1 := resolve_corner f st c1 in
  let c2 := resolve_corner f st c2 in
  st ← emit_triangle f c0 c1 c2 st;
  secondPass_fan (S (length s4)) f s4 c0 c2 c2 st.

(** [fscanf(pFile, "%f %f %f", &a[i], &a[i + 1], &a[i + 2])], and the
    same with two conversions: the addresses are taken whatever is
    converted, then the converted values are stored. *)
Fixpoint store_floats (a : list float) (i : Z) (xs : list float)
    : option (list float) :=
  match xs with
  | [] => Some a
  | x :: xs' => a' ← vec_set a i x; store_floats a' (i + 1) xs'
  end.

Definition scan_into (n : nat) (a : list float) (i : Z) (s : stream)
    : option (list float * stream) :=
  if decide (0 <= i /\ i + Z.of_nat n <= vec_size a) then
    let '(xs, s') := scanf_floats n s in
    a' ← store_floats a i xs;
    Some (a', s')
  else None.

(** The body of the loop for the token [buffer]. *)
Definition secondPass_step (buffer : list ascii) (s1 : stream) (st : Pass2)
    : option (stream * Pass2) :=
  let m := p2_model st in
  match buffer with
  | "f"%char :: _ => secondPass_face buffer s1 st
  | "u"%char :: _ =>
      let '(buffer, s2) := read_name buffer s1 in
      let material :=
        match m_materialCache m !! string_of_list_ascii buffer with
        | None => 0
        | Some i => i
        end in
      Some (s2, Build_Pass2 m (numVertices st) (numTexCoords st)
                  (numNormals st) (numTriangles st) material)
  | "v"%char :: [] =>
      '(a, s2) ← scan_into 3 (m_vertexCoords m) (3 * numVertices st) s1;
      Some (s2, Build_Pass2 (set_m_vertexCoords a m) (numVertices st + 1)
                  (numTexCoords st) (numNormals st) (numTriangles st)
                  (activeMaterial st))
  | "v"%char :: "n"%char :: _ =>
      '(a, s2) ← scan_into 3 (m_normals m) (3 * numNormals st) s1;
      Some (s2, Build_Pass2 (set_m_normals a m) (numVertices st)
                  (numTexCoords st) (numNormals st + 1) (numTriangles st)
                  (activeMaterial st))
  | "v"%char :: "t"%char :: _ =>
      '(a, s2) ← scan_into 2 (m_textureCoords m) (2 * numTexCoords st) s1;
      Some (s2, Build_Pass2 (set_m_textureCoords a m) (numVertices st)
                  (numTexCoords st + 1) (numNormals st) (numTriangles st)
                  (activeMaterial st))
  | "v"%char :: _ => Some (s1, st)
  | _ => Some (snd (fgets s1), st)
  end.

Fixpoint secondPass_loop (fuel : nat) (s : stream) (st : Pass2)
    : option Pass2 :=
  match fuel with
  | O => None
  | S fuel' =>
      if overruns s then None else
      match scan_s s with
      | None => Some st
      | Some (buffer, s1) =>
          '(s2, st') ← secondPass_step buffer s1 st;
          secondPass_loop fuel' s2 st'
      end
  end.

(** The state of the locals when the loop ends. *)
Definition secondPass_run (pFile : stream) (m : Model) : option Pass2 :=
  secondPass_loop (S (length pFile)) pFile (Build_Pass2 m 0 0 0 0 0).

Definition importGeometrySecondPass (pFile : stream) (m : Model)
    : option Model :=
  st ← secondPass_run pFile m;
  Some (p2_model st).

(** ** [Model::import] *)

(** [s.find_last_of(c)], counting from [i] at the head of [s]. *)
Fixpoint find_last_of (c : ascii) (s : string) (i : nat) : option nat :=
  match s with
  | EmptyString => None
  | String d s' =>
      match find_last_of c s' (S i) with
      | Some k => Some k
      | None => if Ascii.eqb c d then Some i else None
      end
  end.

(** The directory part of a file name, up to and with its last backslash,
    or else its last slash. *)
Definition directory_of (filename : string) : string :=
  match find_last_of "\"%char filename O with
  | Some offset => String.substring 0 (S offset) filename
  | None =>
      match find_last_of "/"%char filename O with
      | Some offset => String.substring 0 (S offset) filename
      | None => EmptyString
      end
  end.

(** [for (i < m_numberOfMaterials) if (!m_materials[i].bumpMapFilename
    .empty()) { generateTangents(); break; }]: whether a bump map is
    found, [None] when the loop leaves the vector before. *)
Fixpoint has_bumpMap (n : nat) (i : Z) (materials : list Material)
    : option bool :=
  match n with
  | O => Some false
  | S n' =>
      a ← vec_at materials i;
      match bumpMapFilename a with
      | EmptyString => has_bumpMap n' (i + 1) materials
      | String _ _ => Some true
      end
  end.

Definition import (fs : filesystem) (pszFilename : string)
    (rebuildNormals : bool) (m : Model) : option (bool * Model) :=
  match fs pszFilename with
  | None => Some (false, m)
  | Some pFile =>
      let m := set_m_directoryPath (directory_of pszFilename) m in
      m ← importGeometryFirstPass fs pFile m;
      m ← importGeometrySecondPass pFile m;
      m ← buildMeshes m;
      let m := store_bounds m in
      m ← (if rebuildNormals then generateNormals m
           else if m_hasNormals m then Some m else generateNormals m);
      bump ← has_bumpMap (Z.to_nat (m_numberOfMaterials m)) 0 (m_materials m);
      m ← (if (bump : bool) then generateTangents m else Some m);
      Some (true, m)
  end.

(** ** Definitions used to state the properties *)

(** The index buffer with the second and third index of every triangle
    exchanged. *)
Fixpoint swap_triples (l : list Z) : list Z :=
  match l with
  | a :: b :: c :: r => a :: c :: b :: swap_triples r
  | _ => l
  end.

Definition neg3 (a : float3) : float3 :=
  F3 (F32.neg (f3_0 a)) (F32.neg (f3_1 a)) (F32.neg (f3_2 a)).

(** A sequence of calls [addVertex(hash, &vertex)], with the indices they
    return, in order. *)
Fixpoint addVertex_calls (calls : list (Z * Vertex)) (m : Model)
    : option (list Z * Model) :=
  match calls with
  | [] => Some ([], m)
  | (hash, v) :: rest =>
      '(i, m1) ← addVertex hash v m;
      '(r, m2) ← addVertex_calls rest m1;
      Some (i :: r, m2)
  end.

(** Every index the vertex cache holds is an index of the vertex buffer:
    the state of the welder all through the second pass. *)
Definition cache_wf (m : Model) : Prop :=
  forall (h : Z) (l : list Z),
    m_vertexCache m !! h = Some l ->
    Forall (fun i => 0 <= i < vec_size (m_vertexBuffer m)) l.

(** No vertex recorded for the source index [h] has the bytes of [v]. *)
Definition unrecorded (m : Model) (h : Z) (v : Vertex) : Prop :=
  forall l : list Z,
    m_vertexCache m !! h = Some l ->
    Forall (fun i => vec_at (m_vertexBuffer m) i <> Some v) l.

(** The bucket of [h] after the index [i] is pushed on it. *)
Definition bucket_push (m : Model) (h i : Z) : list Z :=
  match m_vertexCache m !! h with
  | Some l => l ++ [i]
  | None => [i]
  end.

(** The first vertex recorded for [h] whose bytes are those of [v] is at
    index [i] of the vertex buffer. *)
Definition recorded_at (m : Model) (h : Z) (v : Vertex) (i : Z) : Prop :=
  exists l, m_vertexCache m !! h = Some l /\
            addVertex_scan (m_vertexBuffer m) v l = Some (Some i).

(** [m'] extends [m]: vertices were appended to the vertex buffer and
    indices to the buckets of the cache. *)
Definition extends (m m' : Model) : Prop :=
  (exists ext, m_vertexBuffer m' = m_vertexBuffer m ++ ext) /\
  (forall h l, m_vertexCache m !! h = Some l ->
     exists l', m_vertexCache m' !! h = Some (l ++ l')).

(** A token of the input, as [buffer] holds it. *)
Definition token (w : string) : list ascii := list_ascii_of_string w.

(** A material library with both spellings of the opacity. *)
Definition glass_mtl : filesystem := fun path =>
  if String.eqb path "glass.mtl"
  then Some (text ["newmtl pane"; "Tr 0.3"; "newmtl sheet"; "d 0.7"])
  else None.

(** [0.7f] *)
Definition f0_7 : float := F32.of_decimal false 7 (-1).

(** A file system that holds the single file [path]. *)
Definition single_file (path : string) (lines : list string) : filesystem :=
  fun p => if String.eqb p path then Some (text lines) else None.

(** A file system that holds two files. *)
Definition two_files (path1 : string) (lines1 : list string)
    (path2 : string) (lines2 : list string) : filesystem :=
  fun p =>
    if String.eqb p path1 then Some (text lines1)
    else if String.eqb p path2 then Some (text lines2)
    else None.

(** Ten positions, the one of 0-based index [k] at [(k, 0, 0)], and a
    face of three negative references. *)
Definition ten_positions_obj : list string :=
  ["v 0 0 0"; "v 1 0 0"; "v 2 0 0"; "v 3 0 0"; "v 4 0 0";
   "v 5 0 0"; "v 6 0 0"; "v 7 0 0"; "v 8 0 0"; "v 9 0 0";
   "f -1 -2 -3"].

(** One triangle in the plane [z = 0] and nothing else. *)
Definition triangle_obj : list string :=
  ["v 0 0 0"; "v 1 0 0"; "v 0 1 0"; "f 1 2 3"].

(** The same triangle with a material library that does not exist. *)
Definition triangle_mtllib_obj : list string :=
  ["mtllib missing.mtl"; "v 0 0 0"; "v 1 0 0"; "v 0 1 0"; "f 1 2 3"].

(** One triangle whose coordinates are all negative. *)
Definition negative_obj : list string :=
  ["v -1 -1 -1"; "v -3 -1 -1"; "v -1 -3 -1"; "f 1 2 3"].

(** One triangle whose three corners lie on a line. *)
Definition collinear_obj : list string :=
  ["v 0 0 0"; "v 1 0 0"; "v 2 0 0"; "f 1 2 3"].

(** One triangle in the plane [x = 0], without texture coordinates, drawn
    with a material that has a bump map. *)
Definition bump_obj : list string :=
  ["mtllib bump.mtl"; "v 0 0 0"; "v 0 1 0"; "v 0 0 1"; "usemtl wall";
   "f 1 2 3"].
Definition bump_mtl : list string :=
  ["newmtl wall"; "map_bump wall_normal.png"].

Definition nan3 : float3 := F3 S754_nan S754_nan S754_nan.

(** [x] is a unit vector exactly. *)
Definition unit_z : float3 := F3 F32.zero F32.zero F32.one.

(** A run of the attribute buffer: its first triangle, its number of
    triangles and their material id. *)
Record Run : Type := Build_Run { r_start : Z; r_count : Z; r_id : Z }.

(** The mesh [buildMeshes] makes of a run. *)
Definition mesh_of_run (r : Run) : Mesh :=
  Build_Mesh (r_start r * 3) (r_count r) (Some (r_id r)).

(** The runs of the ids [ab], which stand at the triangles [i], [i + 1],
    ... of the buffer, after an open run of [n] triangles of id [id] that
    starts at [s]. *)
Fixpoint close_runs (s n id : Z) (ab : list Z) (i : Z) : list Run :=
  match ab with
  | [] => [Build_Run s n id]
  | a :: ab' =>
      if decide (a <> id) then Build_Run s n id :: close_runs i 1 a ab' (i + 1)
      else close_runs s (n + 1) id ab' (i + 1)
  end.

Definition runs (ab : list Z) : list Run :=
  match ab with
  | [] => []
  | a :: ab' => close_runs 0 1 a ab' 1
  end.

(** The runs [rs] follow one another from triangle [s] to triangle [e],
    none of them empty. *)
Fixpoint consecutive (s : Z) (rs : list Run) (e : Z) : Prop :=
  match rs with
  | [] => s = e
  | r :: rs' =>
      r_start r = s /\ 0 < r_count r /\ consecutive (s + r_count r) rs' e
  end.

(** Every triangle of the run [r] has the material id of [r]. *)
Definition homogeneous (ab : list Z) (r : Run) : Prop :=
  forall t, r_start r <= t < r_start r + r_count r -> vec_at ab t = Some (r_id r).

(** Two runs that follow one another differ in their material id: no run
    can be made longer. *)
Fixpoint adjacent_differ (rs : list Run) : Prop :=
  match rs with
  | r1 :: ((r2 :: _) as rs') => r_id r1 <> r_id r2 /\ adjacent_differ rs'
  | _ => True
  end.

(** Triangle [t] lies in the range of the mesh [me]. *)
Definition covers (me : Mesh) (t : Z) : Prop :=
  startIndex me <= t * 3 < startIndex me + triangleCount me * 3.

(** [pMaterial->alpha] of a mesh. *)
Definition mesh_alpha (materials : list Material) (me : Mesh) : option float :=
  p ← pMaterial me; a ← vec_at materials p; Some (alpha a).

(** No element of the list has a key greater than the key of an element
    before it. *)
Definition descending {A : Type} (key : A -> float) : list A -> Prop :=
  StronglySorted (fun a b => F32.gtb (key b) (key a) = false).

(** An attribute buffer of three runs, the last of the material of the
    first, and two materials of which the second is the more opaque. *)
Definition three_runs_model : Model :=
  set_m_attributeBuffer [0; 0; 1; 0]
    (set_m_materials [set_alpha (F32.of_decimal false 5 (-1)) defaultMaterial;
                      defaultMaterial] Model_new).

(** ** Well-formed geometry files

    The lines of a file of the format of section 6 of the specification,
    given by what is written on them; [render] gives the text. *)

(** An integer as written: an optional minus sign and digits. *)
Record IntLit : Type := Build_IntLit { il_neg : bool; il_digits : list ascii }.

(** The number a run of digits denotes after the digits that gave [acc]. *)
Fixpoint digits_value (ds : list ascii) (acc : Z) : Z :=
  match ds with
  | [] => acc
  | d :: ds' => digits_value ds' (10 * acc + digit_value d)
  end.

Definition sign_text (neg : bool) : list ascii :=
  if neg then ["-"%char] else [].

Definition render_int (z : IntLit) : list ascii :=
  sign_text (il_neg z) ++ il_digits z.

Definition int_value (z : IntLit) : Z :=
  if il_neg z then - digits_value (il_digits z) 0 else digits_value (il_digits z) 0.

Definition digits_ok (ds : list ascii) : Prop :=
  ds <> [] /\ Forall (fun c => isdigit c = true) ds.

Definition int_ok (z : IntLit) : Prop := digits_ok (il_digits z).

(** A decimal numeral as written: sign, integer part, an optional
    fraction after a point and an optional exponent after an [e]. *)
Record Numeral : Type := Build_Numeral {
  nu_neg : bool;
  nu_int : list ascii;
  nu_frac : option (list ascii);
  nu_exp : option IntLit
}.

Definition frac_text (f : option (list ascii)) : list ascii :=
  match f with
  | Some ds => "."%char :: ds
  | None => []
  end.

Definition exp_text (e : option IntLit) : list ascii :=
  match e with
  | Some z => "e"%char :: render_int z
  | None => []
  end.

Definition render_numeral (x : Numeral) : list ascii :=
  sign_text (nu_neg x) ++ nu_int x ++ frac_text (nu_frac x) ++ exp_text (nu_exp x).

Definition frac_digits (f : option (list ascii)) : list ascii :=
  match f with
  | Some ds => ds
  | None => []
  end.

(** The [float] the numeral is read as. *)
Definition numeral_value (x : Numeral) : float :=
  F32.of_decimal (nu_neg x)
    (digits_value (frac_digits (nu_frac x)) (digits_value (nu_int x) 0))
    (match nu_exp x with Some z => int_value z | None => 0 end
     - Z.of_nat (length (frac_digits (nu_frac x)))).

Definition numeral_ok (x : Numeral) : Prop :=
  digits_ok (nu_int x) /\
  Forall (fun c => isdigit c = true) (frac_digits (nu_frac x)) /\
  match nu_exp x with Some z => int_ok z | None => True end.

(** A corner of a face as written; the form of the face says which of
    the three references are there. *)
Record CornerLit : Type := Build_CornerLit {
  cl_v : IntLit;
  cl_vt : IntLit;
  cl_vn : IntLit
}.

Definition render_corner (f : faceForm) (c : CornerLit) : list ascii :=
  match f with
  | FormPosNormal => render_int (cl_v c) ++ "/"%char :: "/"%char :: render_int (cl_vn c)
  | FormPosTexCoordNormal =>
      render_int (cl_v c) ++ "/"%char :: render_int (cl_vt c)
        ++ "/"%char :: render_int (cl_vn c)
  | FormPosTexCoord => render_int (cl_v c) ++ "/"%char :: render_int (cl_vt c)
  | FormPos => render_int (cl_v c)
  end.

(** The references of a corner, as the integers [scanf] stores. *)
Definition corner_values (f : faceForm) (c : CornerLit) : list Z :=
  match f with
  | FormPosNormal => [int_value (cl_v c); int_value (cl_vn c)]
  | FormPosTexCoordNormal =>
      [int_value (cl_v c); int_value (cl_vt c); int_value (cl_vn c)]
  | FormPosTexCoord => [int_value (cl_v c); int_value (cl_vt c)]
  | FormPos => [int_value (cl_v c)]
  end.

Definition corner_ok (f : faceForm) (c : CornerLit) : Prop :=
  int_ok (cl_v c) /\
  match f with
  | FormPosNormal => int_ok (cl_vn c)
  | FormPosTexCoordNormal => int_ok (cl_vt c) /\ int_ok (cl_vn c)
  | FormPosTexCoord => int_ok (cl_vt c)
  | FormPos => True
  end.

Inductive ObjLine : Type :=
| Lv (x y z : Numeral)
| Lvn (x y z : Numeral)
| Lvt (u v : Numeral)
| Lf (f : faceForm) (c0 c1 c2 : CornerLit) (more : list CornerLit)
| Lmtllib (file : list ascii)
| Lusemtl (material : list ascii)
| Lother (keyword rest : list ascii)
| Lblank.

Definition space : ascii := " "%char.

Definition render_line (l : ObjLine) : list ascii :=
  match l with
  | Lv x y z =>
      token "v" ++ space :: render_numeral x ++ space :: render_numeral y
        ++ space :: render_numeral z ++ [newline]
  | Lvn x y z =>
      token "vn" ++ space :: render_numeral x ++ space :: render_numeral y
        ++ space :: render_numeral z ++ [newline]
  | Lvt u v =>
      token "vt" ++ space :: render_numeral u ++ space :: render_numeral v
        ++ [newline]
  | Lf f c0 c1 c2 more =>
      token "f" ++ concat (map (fun c => space :: render_corner f c)
                               (c0 :: c1 :: c2 :: more)) ++ [newline]
  | Lmtllib file => token "mtllib" ++ space :: file ++ [newline]
  | Lusemtl material => token "usemtl" ++ space :: material ++ [newline]
  | Lother keyword rest => keyword ++ rest ++ [newline]
  | Lblank => [newline]
  end.

Definition render (ls : list ObjLine) : stream := concat (map render_line ls).

(** A word: not empty, free of white space, short enough for [buffer]. *)
Definition word_ok (w : list ascii) : Prop :=
  w <> [] /\ Forall (fun c => isspace c = false) w /\ (length w < 200)%nat.

(** The first character of the keyword of a line the importer skips: none
    of [f], [m], [u], [v], and nothing an integer could begin with. *)
Definition skipped_initial (c : ascii) : Prop :=
  isspace c = false /\ isdigit c = false /\
  c <> "+"%char /\ c <> "-"%char /\
  c <> "f"%char /\ c <> "m"%char /\ c <> "u"%char /\ c <> "v"%char.

(** What is written on a line is well formed, and the line is short
    enough for one [fgets]. *)
Definition line_ok (l : ObjLine) : Prop :=
  (length (render_line l) <= 255)%nat /\
  match l with
  | Lv x y z | Lvn x y z => numeral_ok x /\ numeral_ok y /\ numeral_ok z
  | Lvt u v => numeral_ok u /\ numeral_ok v
  | Lf f c0 c1 c2 more => Forall (corner_ok f) (c0 :: c1 :: c2 :: more)
  | Lmtllib w | Lusemtl w => word_ok w
  | Lother keyword rest =>
      (exists c k, keyword = c :: k /\ skipped_initial c) /\
      Forall (fun c => isspace c = false) keyword /\
      Forall (fun c => c <> newline) rest /\
      match rest with
      | [] => True
      | c :: _ => isspace c = true
      end
  | Lblank => True
  end.

(** The numbers of [v], [vt] and [vn] lines and of triangles ([k - 2] for
    a face of [k] corners) of a file. *)
Fixpoint count_with (f : ObjLine -> Z) (ls : list ObjLine) : Z :=
  match ls with
  | [] => 0
  | l :: ls' => f l + count_with f ls'
  end.

Definition is_v (l : ObjLine) : Z := match l with Lv _ _ _ => 1 | _ => 0 end.
Definition is_vt (l : ObjLine) : Z := match l with Lvt _ _ => 1 | _ => 0 end.
Definition is_vn (l : ObjLine) : Z := match l with Lvn _ _ _ => 1 | _ => 0 end.

Definition line_triangles (l : ObjLine) : Z :=
  match l with
  | Lf _ _ _ _ more => 1 + vec_size more
  | _ => 0
  end.

Definition count_v : list ObjLine -> Z := count_with is_v.
Definition count_vt : list ObjLine -> Z := count_with is_vt.
Definition count_vn : list ObjLine -> Z := count_with is_vn.
Definition triangles : list ObjLine -> Z := count_with line_triangles.

(** The reference [z], met after [count] elements of its kind, is
    resolved by the importer to an index of the [total] elements of the
    file. *)
Definition ref_ok (count total : Z) (z : IntLit) : Prop :=
  0 <= resolve count (int_value z) < total.

(** The counts of positions, texture coordinates and normals. *)
Record Counts : Type := Build_Counts { n_v : Z; n_vt : Z; n_vn : Z }.

Definition corner_refs_ok (f : faceForm) (sofar total : Counts) (c : CornerLit)
    : Prop :=
  ref_ok (n_v sofar) (n_v total) (cl_v c) /\
  match f with
  | FormPosNormal => ref_ok (n_vn sofar) (n_vn total) (cl_vn c)
  | FormPosTexCoordNormal =>
      ref_ok (n_vt sofar) (n_vt total) (cl_vt c) /\
      ref_ok (n_vn sofar) (n_vn total) (cl_vn c)
  | FormPosTexCoord => ref_ok (n_vt sofar) (n_vt total) (cl_vt c)
  | FormPos => True
  end.

(** The counts after one more line. *)
Definition count_line (sofar : Counts) (l : ObjLine) : Counts :=
  Build_Counts (n_v sofar + is_v l) (n_vt sofar + is_vt l) (n_vn sofar + is_vn l).

(** Every reference of every face resolves to an element of the file. *)
Fixpoint refs_ok (sofar total : Counts) (ls : list ObjLine) : Prop :=
  match ls with
  | [] => True
  | l :: ls' =>
      match l with
      | Lf f c0 c1 c2 more =>
          Forall (corner_refs_ok f sofar total) (c0 :: c1 :: c2 :: more)
      | _ => True
      end /\ refs_ok (count_line sofar l) total ls'
  end.

(** The name the importer takes from a [mtllib] or [usemtl] line whose
    word is [w]: the word up to its first null character, and the space
    before the word when nothing is left of it. *)
Definition name_read (w : list ascii) : list ascii :=
  match c_str w with
  | [] => [space]
  | t => t
  end.

(** The material libraries the file names. *)
Fixpoint mtllibs (ls : list ObjLine) : list (list ascii) :=
  match ls with
  | [] => []
  | Lmtllib file :: ls' => file :: mtllibs ls'
  | _ :: ls' => mtllibs ls'
  end.

(** A well-formed geometry file. *)
Definition valid_obj (ls : list ObjLine) : Prop :=
  Forall line_ok ls /\
  refs_ok (Build_Counts 0 0 0)
    (Build_Counts (count_v ls) (count_vt ls) (count_vn ls)) ls.

(** The input is at its end or at a white-space character. *)
Definition at_break (s : stream) : Prop :=
  match s with
  | [] => True
  | c :: _ => isspace c = true
  end.

(** The input does not go on with a digit. *)
Definition no_digit_head (s : stream) : Prop :=
  match s with
  | [] => True
  | c :: _ => isdigit c = false
  end.

Definition all_space (ws : list ascii) : Prop :=
  Forall (fun c => isspace c = true) ws.

Definition slash_free (l : list ascii) : Prop :=
  Forall (fun c => Ascii.eqb "/" c = false) l.

(** The members of a model the material loader leaves alone, apart from
    the flags and the bounds. *)
Definition buffers (m : Model) :=
  (m_vertexBuffer m, m_indexBuffer m, m_attributeBuffer m, m_vertexCoords m,
   m_textureCoords m, m_normals m, m_vertexCache m, m_directoryPath m).

Definition counters (m : Model) :=
  (m_numberOfVertexCoords m, m_numberOfTextureCoords m, m_numberOfNormals m,
   m_numberOfTriangles m).

(** The input goes on, after white space, with no integer. *)
Definition no_int_ahead (s : stream) : Prop :=
  match skip_ws s with
  | [] => True
  | c :: _ => isdigit c = false /\ c <> "+"%char /\ c <> "-"%char
  end.

(** The material library [file] of the directory [dir] is absent, or it
    is loaded without undefined behaviour. *)
Definition mtl_loadable (fs : filesystem) (dir : string) (file : list ascii)
    : Prop :=
  forall m,
    is_Some (importMaterials fs
               (String.append dir (string_of_list_ascii (name_read file))) m).

(** The counters of the first pass after the line [l]. *)
Definition counters_after (m : Model) (l : ObjLine) :=
  (m_numberOfVertexCoords m + is_v l, m_numberOfTextureCoords m + is_vt l,
   m_numberOfNormals m + is_vn l, m_numberOfTriangles m + line_triangles l).

(** The counters of the first pass after the lines [ls]. *)
Definition counters_after_all (m : Model) (ls : list ObjLine) :=
  (m_numberOfVertexCoords m + count_v ls, m_numberOfTextureCoords m + count_vt ls,
   m_numberOfNormals m + count_vn ls, m_numberOfTriangles m + triangles ls).

(** The sizes of the buffers the first pass allocates for a file of
    [total] elements and [ntri] triangles, with a vertex cache that is
    well formed. *)
Definition sized (total : Counts) (ntri : Z) (m : Model) : Prop :=
  vec_size (m_vertexCoords m) = n_v total * 3 /\
  vec_size (m_textureCoords m) = n_vt total * 2 /\
  vec_size (m_normals m) = n_vn total * 3 /\
  vec_size (m_indexBuffer m) = ntri * 3 /\
  vec_size (m_attributeBuffer m) = ntri /\
  cache_wf m.

Definition totals (ls : list ObjLine) : Counts :=
  Build_Counts (count_v ls) (count_vt ls) (count_vn ls).

(** The indices of a corner, those the form [f] uses, designate elements
    of a file of [total] elements. *)
Definition corner_in_range (f : faceForm) (total : Counts) (c : Corner) : Prop :=
  0 <= c_v c < n_v total /\
  match f with
  | FormPosNormal => 0 <= c_vn c < n_vn total
  | FormPosTexCoordNormal => 0 <= c_vt c < n_vt total /\ 0 <= c_vn c < n_vn total
  | FormPosTexCoord => 0 <= c_vt c < n_vt total
  | FormPos => True
  end.

(** The elements the second pass has read so far. *)
Definition sofar (st : Pass2) : Counts :=
  Build_Counts (numVertices st) (numTexCoords st) (numNormals st).

(** The state of the second pass before the lines [ls], the last ones of
    a file of [total] elements and [ntri] triangles. *)
Definition pass2_inv (total : Counts) (ntri : Z) (ls : list ObjLine)
    (st : Pass2) : Prop :=
  sized total ntri (p2_model st) /\
  (0 <= numVertices st /\ 0 <= numTexCoords st /\ 0 <= numNormals st /\
   0 <= numTriangles st) /\
  numVertices st + count_v ls = n_v total /\
  numTexCoords st + count_vt ls = n_vt total /\
  numNormals st + count_vn ls = n_vn total /\
  numTriangles st + triangles ls = ntri.

(** ** What the second pass leaves in the buffers

    The triangles a file describes, read line by line with no vertex
    cache and no buffer of indices: the list the importer is compared
    with. *)

(** A triangle as a renderer draws it: its three vertices and the index
    of its material. *)
Record Tri : Type := Build_Tri {
  t_v0 : Vertex;
  t_v1 : Vertex;
  t_v2 : Vertex;
  t_material : Z
}.

(** Triangle [t] of a model: the vertices its three entries of the index
    buffer designate, and its entry of the attribute buffer. *)
Definition emitted_triangle (m : Model) (t : Z) : option Tri :=
  i0 ← vec_at (m_indexBuffer m) (3 * t);
  i1 ← vec_at (m_indexBuffer m) (3 * t + 1);
  i2 ← vec_at (m_indexBuffer m) (3 * t + 2);
  v0 ← vec_at (m_vertexBuffer m) i0;
  v1 ← vec_at (m_vertexBuffer m) i1;
  v2 ← vec_at (m_vertexBuffer m) i2;
  a ← vec_at (m_attributeBuffer m) t;
  Some (Build_Tri v0 v1 v2 a).

Definition float_at (a : list float) (i : Z) : float :=
  default F32.zero (vec_at a i).

(** Element [i] of an array of triples, and of an array of pairs. *)
Definition triple_at (a : list float) (i : Z) : float3 :=
  F3 (float_at a (3 * i)) (float_at a (3 * i + 1)) (float_at a (3 * i + 2)).

Definition pair_at (a : list float) (i : Z) : float2 :=
  F2 (float_at a (2 * i)) (float_at a (2 * i + 1)).

(** The vertex of a corner of form [f] whose references designate the
    elements [v], [vt] and [vn]: what the form does not give is zero. *)
Definition vertex_of (f : faceForm) (positions texCoords normals : list float)
    (v vt vn : Z) : Vertex :=
  Build_Vertex (triple_at positions v)
    (match f with
     | FormPosTexCoord | FormPosTexCoordNormal => pair_at texCoords vt
     | FormPos | FormPosNormal => F2 F32.zero F32.zero
     end)
    (match f with
     | FormPosNormal | FormPosTexCoordNormal => triple_at normals vn
     | FormPos | FormPosTexCoord => zero3
     end)
    zero4 zero3.

(** The element a reference designates when [count] elements of its kind
    have been read: the importer takes a negative reference one element
    further back than the format does. *)
Definition designated (count : Z) (z : IntLit) : Z :=
  if decide (int_value z < 0) then count + int_value z - 1 else int_value z - 1.

(** The fan of a face: the triangles (0, 1, 2), (0, 2, 3), ... *)
Fixpoint fan (material : Z) (a b : Vertex) (rest : list Vertex) : list Tri :=
  match rest with
  | [] => []
  | c :: rest' => Build_Tri a b c material :: fan material a c rest'
  end.

(** [xs] written over [a[i]], [a[i + 1]], ... *)
Fixpoint put (a : list float) (i : Z) (xs : list float) : list float :=
  match xs with
  | [] => a
  | x :: xs' => put (<[Z.to_nat i := x]> a) (i + 1) xs'
  end.

(** What has been read of a file: the three arrays of coordinates, the
    numbers of elements read into them, the material in use and the
    triangles so far. *)
Record Reading : Type := Build_Reading {
  r_positions : list float;
  r_texCoords : list float;
  r_normals : list float;
  r_sofar : Counts;
  r_material : Z;
  r_triangles : list Tri
}.

Definition corner_vertex (f : faceForm) (r : Reading) (c : CornerLit) : Vertex :=
  vertex_of f (r_positions r) (r_texCoords r) (r_normals r)
    (designated (n_v (r_sofar r)) (cl_v c))
    (designated (n_vt (r_sofar r)) (cl_vt c))
    (designated (n_vn (r_sofar r)) (cl_vn c)).

(** One more line read; [cache] gives the index of each material name. *)
Definition read_line (cache : gmap string Z) (l : ObjLine) (r : Reading)
    : Reading :=
  let sofar := count_line (r_sofar r) l in
  match l with
  | Lv x y z =>
      Build_Reading
        (put (r_positions r) (3 * n_v (r_sofar r))
           [numeral_value x; numeral_value y; numeral_value z])
        (r_texCoords r) (r_normals r) sofar (r_material r) (r_triangles r)
  | Lvn x y z =>
      Build_Reading (r_positions r) (r_texCoords r)
        (put (r_normals r) (3 * n_vn (r_sofar r))
           [numeral_value x; numeral_value y; numeral_value z])
        sofar (r_material r) (r_triangles r)
  | Lvt u v =>
      Build_Reading (r_positions r)
        (put (r_texCoords r) (2 * n_vt (r_sofar r))
           [numeral_value u; numeral_value v])
        (r_normals r) sofar (r_material r) (r_triangles r)
  | Lf f c0 c1 c2 more =>
      Build_Reading (r_positions r) (r_texCoords r) (r_normals r) sofar
        (r_material r)
        (r_triangles r
           ++ fan (r_material r) (corner_vertex f r c0) (corner_vertex f r c1)
                (map (corner_vertex f r) (c2 :: more)))
  | Lusemtl w =>
      Build_Reading (r_positions r) (r_texCoords r) (r_normals r) sofar
        (default 0 (cache !! string_of_list_ascii (name_read w)))
        (r_triangles r)
  | Lmtllib _ | Lother _ _ | Lblank => r
  end.

Definition read_lines (cache : gmap string Z) (ls : list ObjLine) (r : Reading)
    : Reading :=
  fold_left (fun r l => read_line cache l r) ls r.


(** The vertex of a corner of resolved indices over the arrays of [m]. *)
Definition vertex_at (f : faceForm) (m : Model) (c : Corner) : Vertex :=
  vertex_of f (m_vertexCoords m) (m_textureCoords m) (m_normals m)
    (c_v c) (c_vt c) (c_vn c).

(** The model holds the triangles [tris], in this order, from triangle 0
    on. *)
Definition holds (m : Model) (tris : list Tri) : Prop :=
  forall (t : nat) (tri : Tri),
    tris !! t = Some tri -> emitted_triangle m (Z.of_nat t) = Some tri.

(** From [m] to [m'] the vertex buffer was only appended to, and the
    coordinate arrays and the material cache were left alone. *)
Definition grows (m m' : Model) : Prop :=
  (exists ext, m_vertexBuffer m' = m_vertexBuffer m ++ ext) /\
  m_vertexCoords m' = m_vertexCoords m /\
  m_textureCoords m' = m_textureCoords m /\
  m_normals m' = m_normals m /\
  m_materialCache m' = m_materialCache m.

(** The arrays and the counters of the second pass are those of the
    reading [r]. *)
Definition arrays_as (st : Pass2) (r : Reading) : Prop :=
  m_vertexCoords (p2_model st) = r_positions r /\
  m_textureCoords (p2_model st) = r_texCoords r /\
  m_normals (p2_model st) = r_normals r /\
  sofar st = r_sofar r.

(** The state of the second pass agrees with the reading [r]. *)
Definition reads_as (cache : gmap string Z) (st : Pass2) (r : Reading) : Prop :=
  m_materialCache (p2_model st) = cache /\
  arrays_as st r /\
  activeMaterial st = r_material r /\
  numTriangles st = vec_size (r_triangles r) /\
  holds (p2_model st) (r_triangles r).

(** A file of four positions, a comment, a quadrilateral and a triangle
    whose references count from the end. *)
Definition whole (neg : bool) (digits : string) : Numeral :=
  Build_Numeral neg (list_ascii_of_string digits) None None.

Definition position_ref (neg : bool) (digits : string) : CornerLit :=
  let none := Build_IntLit false [] in
  Build_CornerLit (Build_IntLit neg (list_ascii_of_string digits)) none none.

Definition quad_lines : list ObjLine :=
  [ Lother (token "#") (token " a quadrilateral");
    Lv (whole false "0") (whole false "0") (whole false "0");
    Lv (whole false "1") (whole false "0") (whole false "0");
    Lv (whole false "1") (whole false "1") (whole false "0");
    Lv (whole false "0") (whole false "1") (whole false "0");
    Lblank;
    Lf FormPos (position_ref false "1") (position_ref false "2")
       (position_ref false "3") [position_ref false "4"];
    Lf FormPos (position_ref true "1") (position_ref true "2")
       (position_ref true "3") [] ].



(** ** Further definitions used to state properties of the code *)

(** The coordinates of the vertices along each axis. *)
Definition xs_of (vb : list Vertex) : list float := map (fun v => f3_0 (position v)) vb.
Definition ys_of (vb : list Vertex) : list float := map (fun v => f3_1 (position v)) vb.
Definition zs_of (vb : list Vertex) : list float := map (fun v => f3_2 (position v)) vb.

(** [a] is not above and [b] is not below any of [xs], as [<] and [>]
    of C++ see it. *)
Definition encloses (a b : float) (xs : list float) : Prop :=
  Forall (fun x => F32.ltb x a = false /\ F32.gtb x b = false) xs.

(** [a] is the value [init] the loop starts with or one of [xs]. *)
Definition init_or_among (init a : float) (xs : list float) : Prop :=
  a = init \/ In a xs.

(** The tokens of a material library whose case stores through
    [pMaterial] whatever follows them. *)
Definition stores_through_pMaterial (buffer : list ascii) : bool :=
  match buffer with
  | "N"%char :: _ => true
  | "K"%char :: "a"%char :: _ => true
  | "K"%char :: "d"%char :: _ => true
  | "K"%char :: "s"%char :: _ => true
  | "T"%char :: "r"%char :: _ => true
  | "d"%char :: _ => true
  | "m"%char :: _ =>
      strstr buffer (list_ascii_of_string "map_Kd")
      || strstr buffer (list_ascii_of_string "map_bump")
  | _ => false
  end.

(** The character [c] does not occur in [s]. *)
Definition lacks (c : ascii) (s : string) : Prop :=
  ~ In c (list_ascii_of_string s).

Definition backslash : ascii := "\"%char.
Definition slash : ascii := "/"%char.

(** A material library that begins with a shininess. *)
Definition headless_mtl : filesystem := fun path =>
  if String.eqb path "bad.mtl" then Some (text ["Ns 10"; "newmtl a"]) else None.

(** The three indices of triangle [k] are in the index buffer [ib] and
    designate vertices of a buffer of [size] vertices. *)
Definition triangle_ok (ib : list Z) (size : Z) (k : Z) : Prop :=
  forall c, 0 <= c < 3 ->
    exists i, vec_at ib (k * 3 + c) = Some i /\ 0 <= i < size.

(** Every triangle the model counts is in its buffers. *)
Definition triangles_ok (m : Model) : Prop :=
  forall k, 0 <= k < m_numberOfTriangles m ->
    triangle_ok (m_indexBuffer m) (vec_size (m_vertexBuffer m)) k.

(** A vertex with its normal, and with its tangent and bitangent, put to
    zero: what [generateNormals] and [generateTangents] leave alone. *)
Definition without_normal (v : Vertex) : Vertex := set_normal zero3 v.
Definition without_tangents (v : Vertex) : Vertex :=
  set_bitangent zero3 (set_tangent zero4 v).

(** The body of the loops over the triangles of [generateNormals] and
    [generateTangents]: the triangle is read, then each of its three
    vertices is updated in turn by what [change] makes of the three. *)
Definition triangle_body (m : Model)
    (change : Vertex -> Vertex -> Vertex -> Vertex -> Vertex)
    (i : Z) (vb : list Vertex) : option (list Vertex) :=
  '(i0, i1, i2, v0, v1, v2) ← triangle_at m vb i;
  vb ← vec_update vb i0 (change v0 v1 v2);
  vb ← vec_update vb i1 (change v0 v1 v2);
  vec_update vb i2 (change v0 v1 v2).

(** The first [k] entries of the index buffer designate vertices. *)
Definition indices_below (k : Z) (m : Model) : Prop :=
  forall j, 0 <= j < k ->
    exists i, vec_at (m_indexBuffer m) j = Some i /\
              0 <= i < vec_size (m_vertexBuffer m).

(** The first [k] entries of the attribute buffer designate materials. *)
Definition attributes_below (k : Z) (m : Model) : Prop :=
  forall j, 0 <= j < k ->
    exists a, vec_at (m_attributeBuffer m) j = Some a /\
              0 <= a < vec_size (m_materials m).

(** Every name of the material cache designates a material. *)
Definition material_ids_ok (m : Model) : Prop :=
  forall name i, m_materialCache m !! name = Some i ->
    0 <= i < vec_size (m_materials m).

(** The model without the members the second pass writes: the vertex,
    index and attribute buffers, the three arrays of coordinates and the
    vertex cache. *)
Definition cleared (m : Model) : Model :=
  set_m_vertexBuffer []
    (set_m_indexBuffer []
      (set_m_attributeBuffer []
        (set_m_vertexCoords []
          (set_m_textureCoords []
            (set_m_normals [] (set_m_vertexCache ∅ m)))))).

(** The sizes of the buffers the first pass allocates. *)
Definition sizes (m : Model) : Z * Z * Z * Z * Z :=
  (vec_size (m_indexBuffer m), vec_size (m_attributeBuffer m),
   vec_size (m_vertexCoords m), vec_size (m_textureCoords m),
   vec_size (m_normals m)).

(** What holds of the locals of the second pass between two tokens:
    the triangles emitted so far are in the buffers, with at most
    three new vertices each since the pass began with [base] vertices,
    and nothing but the contents of the geometry buffers has changed
    since the model was [frame]. *)
Definition pass2_safe (base : Z) (frame : Model) (st : Pass2) : Prop :=
  let m := p2_model st in
  cache_wf m /\
  0 <= numTriangles st /\
  indices_below (numTriangles st * 3) m /\
  attributes_below (numTriangles st) m /\
  0 <= activeMaterial st < vec_size (m_materials m) /\
  material_ids_ok m /\
  vec_size (m_vertexBuffer m) <= base + numTriangles st * 3 /\
  sizes m = sizes frame /\
  cleared m = cleared frame.

(** A model with the buffers of one triangle over three positions and
    the default material, as the first pass leaves them. *)
Definition one_triangle_model : Model :=
  set_m_materials [defaultMaterial]
    (set_m_indexBuffer [0; 0; 0]
      (set_m_attributeBuffer [0]
        (set_m_vertexCoords (replicate 9 F32.zero) Model_new))).

(** The model with its four counters of the first pass put to zero: what
    the first pass keeps of a model while it reads anything but a
    material library. *)
Definition uncounted (m : Model) : Model :=
  set_m_numberOfVertexCoords 0
    (set_m_numberOfTextureCoords 0
      (set_m_numberOfNormals 0 (set_m_numberOfTriangles 0 m))).

(** The model the first pass makes of a newly constructed one for a file
    of the directory [dir] that names no material library and has [nv]
    positions, [nt] texture coordinates, [nn] normals and [ntri]
    triangles. *)
Definition first_pass_model (dir : string) (nv nt nn ntri : Z) : Model :=
  Build_Model (0 <? nv) (0 <? nt) (0 <? nn) false nv nt nn ntri 0 0
    zero3 F32.zero F32.zero F32.zero F32.zero dir
    [] [defaultMaterial] []
    (replicate (Z.to_nat (ntri * 3)) 0) (replicate (Z.to_nat ntri) 0)
    (replicate (Z.to_nat (nv * 3)) F32.zero)
    (replicate (Z.to_nat (nt * 2)) F32.zero)
    (replicate (Z.to_nat (nn * 3)) F32.zero)
    (<["default"%string := 0]> ∅) ∅.

(** The inline functions of [model_obj.h]. *)
Definition getNumberOfIndices (m : Model) : Z := m_numberOfTriangles m * 3.
Definition getNumberOfMaterials (m : Model) : Z := m_numberOfMaterials m.
Definition getNumberOfMeshes (m : Model) : Z := m_numberOfMeshes m.
Definition getNumberOfTriangles (m : Model) : Z := m_numberOfTriangles m.
Definition getNumberOfVertices (m : Model) : Z := vec_size (m_vertexBuffer m).
Definition getPath (m : Model) : string := m_directoryPath m.
Definition getMaterial (m : Model) (i : Z) : option Material :=
  vec_at (m_materials m) i.
Definition getMesh (m : Model) (i : Z) : option Mesh := vec_at (m_meshes m) i.
Definition getVertex (m : Model) (i : Z) : option Vertex :=
  vec_at (m_vertexBuffer m) i.
Definition hasNormals (m : Model) : bool := m_hasNormals m.
Definition hasPositions (m : Model) : bool := m_hasPositions m.
Definition hasTangents (m : Model) : bool := m_hasTangents m.
Definition hasTextureCoords (m : Model) : bool := m_hasTextureCoords m.
Definition getRadius (m : Model) : float := m_radius m.
Definition getCenter (m : Model) : float3 := m_center m.

(** The meshes of a model whose triangles all have the material id 0. *)
Definition one_mesh (k : nat) : list Mesh :=
  match k with
  | O => []
  | S _ => [Build_Mesh 0 (Z.of_nat k) (Some 0)]
  end.

(** A file system with the file of [quad_lines] in a directory. *)
Definition quad_files : filesystem := fun path =>
  if String.eqb path "models/quad.obj" then Some (render quad_lines) else None.

(** The model without the members the material loader writes. *)
Definition without_materials (m : Model) : Model :=
  set_m_numberOfMaterials 0 (set_m_materials [] (set_m_materialCache ∅ m)).

(** What holds of the locals of the second loop of [importMaterials]
    between two tokens, for a material vector resized to [N] elements in
    a model that was [m]. *)
Definition mtl_inv (N : Z) (m : Model) (st : MtlState) : Prop :=
  vec_size (m_materials (mt_model st)) = N /\
  m_numberOfMaterials (mt_model st) = N /\
  without_materials (mt_model st) = without_materials m /\
  forall key i, m_materialCache (mt_model st) !! key = Some i ->
    m_materialCache m !! key = Some i \/ 0 <= i < N.




(** A material library that holds white space only. *)
Definition blank_mtl : filesystem := fun path =>
  if String.eqb path "blank.mtl" then Some (text [" "; ""]) else None.

(** A model that holds two meshes of one triangle each, left there by
    an earlier import. *)
Definition used_model : Model :=
  set_m_meshes [Build_Mesh 0 1 (Some 0); Build_Mesh 3 1 (Some 0)]
    (set_m_attributeBuffer [0; 0] (set_m_materials [defaultMaterial] Model_new)).

(** ** The camera of the viewer: [ProcessMouseInput]

    The function is the handler of the mouse messages of the window.
    Its [static] locals and the globals it writes are the state; the
    message, [wParam] and [lParam] are its arguments.  [ClientToScreen]
    adds the position of the client area on the screen, which is an
    argument here; [SetCapture] and [ReleaseCapture] are recorded in a
    flag.  [None] stands for a signed overflow of an [int]. *)

Inductive CameraMode : Type :=
| CAMERA_NONE | CAMERA_TRACK | CAMERA_DOLLY | CAMERA_ORBIT.

Inductive MouseMsg : Type :=
| WM_LBUTTONDOWN | WM_RBUTTONDOWN | WM_MBUTTONDOWN | WM_MOUSEMOVE
| WM_LBUTTONUP | WM_RBUTTONUP | WM_MBUTTONUP | WM_OTHER.

Record POINT : Type := Build_POINT { pt_x : Z; pt_y : Z }.

Record Mouse : Type := Build_Mouse {
  cameraMode : CameraMode;
  ptMousePrev : POINT;
  ptMouseCurrent : POINT;
  mouseButtonsDown : Z;
  mouse_dx : float;
  mouse_dy : float;
  g_cameraPos : float3;
  g_targetPos : float3;
  g_heading : float;
  g_pitch : float;
  captured : bool
}.

Definition MOUSE_ORBIT_SPEED : float := F32.of_decimal false 30 (-2).
Definition MOUSE_DOLLY_SPEED : float := F32.of_decimal false 2 (-2).
Definition MOUSE_TRACK_SPEED : float := F32.of_decimal false 5 (-3).

Definition f90 : float := F32.of_Z 90.

(** The value of an [int] expression, [None] when it overflows. *)
Definition int_result (z : Z) : option Z :=
  if decide (- 2 ^ 31 <= z < 2 ^ 31) then Some z else None.

(** [static_cast<int>(static_cast<short>(LOWORD(lParam)))] and the same
    with [HIWORD]. *)
Definition to_short (w : Z) : Z := if decide (w < 2 ^ 15) then w else w - 2 ^ 16.
Definition LOWORD (l : Z) : Z := Z.land l 65535.
Definition HIWORD (l : Z) : Z := Z.land (Z.shiftr l 16) 65535.

(** The point of [lParam] after [ClientToScreen]. *)
Definition screen_point (origin : POINT) (lParam : Z) : POINT :=
  Build_POINT (to_short (LOWORD lParam) + pt_x origin)
              (to_short (HIWORD lParam) + pt_y origin).

(** The three cases of a button that goes down. *)
Definition button_down (mode : CameraMode) (origin : POINT) (lParam : Z)
    (st : Mouse) : option Mouse :=
  n ← int_result (mouseButtonsDown st + 1);
  Some (Build_Mouse mode (screen_point origin lParam) (ptMouseCurrent st) n
          (mouse_dx st) (mouse_dy st) (g_cameraPos st) (g_targetPos st)
          (g_heading st) (g_pitch st) true).

(** The case [WM_MOUSEMOVE]. *)
Definition mouse_move (origin : POINT) (lParam : Z) (st : Mouse)
    : option Mouse :=
  let cur := screen_point origin lParam in
  let prev := ptMousePrev st in
  let c := g_cameraPos st in
  let t := g_targetPos st in
  match cameraMode st with
  | CAMERA_TRACK =>
      ix ← int_result (pt_x cur - pt_x prev);
      let dx := (F32.of_Z ix * MOUSE_TRACK_SPEED)%f32 in
      iy ← int_result (pt_y cur - pt_y prev);
      let dy := (F32.of_Z iy * MOUSE_TRACK_SPEED)%f32 in
      Some (Build_Mouse CAMERA_TRACK cur cur (mouseButtonsDown st) dx dy
              (F3 (f3_0 c - dx)%f32 (f3_1 c + dy)%f32 (f3_2 c))
              (F3 (f3_0 t - dx)%f32 (f3_1 t + dy)%f32 (f3_2 t))
              (g_heading st) (g_pitch st) (captured st))
  | CAMERA_DOLLY =>
      iy ← int_result (pt_y cur - pt_y prev);
      let dy := (F32.of_Z iy * MOUSE_DOLLY_SPEED)%f32 in
      Some (Build_Mouse CAMERA_DOLLY cur cur (mouseButtonsDown st)
              (mouse_dx st) dy
              (F3 (f3_0 c) (f3_1 c) (f3_2 c - dy)%f32) t
              (g_heading st) (g_pitch st) (captured st))
  | CAMERA_ORBIT =>
      ix ← int_result (pt_x cur - pt_x prev);
      let dx := (F32.of_Z ix * MOUSE_ORBIT_SPEED)%f32 in
      iy ← int_result (pt_y cur - pt_y prev);
      let dy := (F32.of_Z iy * MOUSE_ORBIT_SPEED)%f32 in
      let pitch := (g_pitch st + dy)%f32 in
      let pitch := if F32.gtb pitch f90 then f90 else pitch in
      let pitch := if F32.ltb pitch (F32.neg f90) then F32.neg f90 else pitch in
      Some (Build_Mouse CAMERA_ORBIT cur cur (mouseButtonsDown st) dx dy c t
              (g_heading st + dx)%f32 pitch (captured st))
  | CAMERA_NONE =>
      Some (Build_Mouse CAMERA_NONE cur cur (mouseButtonsDown st)
              (mouse_dx st) (mouse_dy st) c t (g_heading st) (g_pitch st)
              (captured st))
  end.

Section Buttons.

(** The bits [MK_LBUTTON], [MK_RBUTTON] and [MK_MBUTTON] of [wParam]. *)
Variables MK_LBUTTON MK_RBUTTON MK_MBUTTON : Z.

(** The three cases of a button that goes up. *)
Definition button_up (wParam : Z) (st : Mouse) : option Mouse :=
  n ← int_result (mouseButtonsDown st - 1);
  if decide (n <= 0) then
    Some (Build_Mouse CAMERA_NONE (ptMousePrev st) (ptMouseCurrent st) 0
            (mouse_dx st) (mouse_dy st) (g_cameraPos st) (g_targetPos st)
            (g_heading st) (g_pitch st) false)
  else
    let mode :=
      if decide (Z.land wParam MK_LBUTTON <> 0) then CAMERA_TRACK
      else if decide (Z.land wParam MK_RBUTTON <> 0) then CAMERA_ORBIT
      else if decide (Z.land wParam MK_MBUTTON <> 0) then CAMERA_DOLLY
      else cameraMode st in
    Some (Build_Mouse mode (ptMousePrev st) (ptMouseCurrent st) n
            (mouse_dx st) (mouse_dy st) (g_cameraPos st) (g_targetPos st)
            (g_heading st) (g_pitch st) (captured st)).

Definition ProcessMouseInput (origin : POINT) (msg : MouseMsg)
    (wParam lParam : Z) (st : Mouse) : option Mouse :=
  match msg with
  | WM_LBUTTONDOWN => button_down CAMERA_TRACK origin lParam st
  | WM_RBUTTONDOWN => button_down CAMERA_ORBIT origin lParam st
  | WM_MBUTTONDOWN => button_down CAMERA_DOLLY origin lParam st
  | WM_MOUSEMOVE => mouse_move origin lParam st
  | WM_LBUTTONUP | WM_RBUTTONUP | WM_MBUTTONUP => button_up wParam st
  | WM_OTHER => Some st
  end.

(** The messages of a session, handled in turn. *)
Fixpoint mouse_session (events : list (POINT * MouseMsg * Z * Z)) (st : Mouse)
    : option Mouse :=
  match events with
  | [] => Some st
  | (origin, msg, wParam, lParam) :: rest =>
      st' ← ProcessMouseInput origin msg wParam lParam st;
      mouse_session rest st'
  end.

End Buttons.

(** The state before the first message: the values of the initialisers
    of the [static] locals and of the globals. *)
Definition mouse_start : Mouse :=
  Build_Mouse CAMERA_NONE (Build_POINT 0 0) (Build_POINT 0 0) 0
    F32.zero F32.zero zero3 zero3 F32.zero F32.zero false.

(** The pitch is within a quarter turn, or it is not a number. *)
Definition pitch_clamped (p : float) : Prop :=
  F32.gtb p f90 = false /\ F32.ltb p (F32.neg f90) = false.

(** No button is counted below zero; the camera rests exactly when no
    button is counted, and exactly then the mouse is not captured. *)
Definition buttons_ok (st : Mouse) : Prop :=
  0 <= mouseButtonsDown st /\
  (mouseButtonsDown st = 0 <-> cameraMode st = CAMERA_NONE) /\
  (mouseButtonsDown st = 0 <-> captured st = false).

(** A point whose coordinates are far from the ends of the range of a
    [LONG]. *)
Definition point_small (p : POINT) : Prop :=
  - 2 ^ 29 <= pt_x p < 2 ^ 29 /\ - 2 ^ 29 <= pt_y p < 2 ^ 29.

(** A session of a right button that goes down, a move of a thousand
    pixels downwards, and the button that goes up. *)
Definition orbit_session : list (POINT * MouseMsg * Z * Z) :=
  [(Build_POINT 100 100, WM_RBUTTONDOWN, 2, 0);
   (Build_POINT 100 100, WM_MOUSEMOVE, 2, Z.shiftl 1000 16);
   (Build_POINT 100 100, WM_RBUTTONUP, 0, Z.shiftl 1000 16)].

(** The bounds a model stores: [m_center], [m_width], [m_height],
    [m_length] and [m_radius]. *)
Definition stored_bounds (m : Model) : Bounds :=
  Build_Bounds (m_center m) (m_width m) (m_height m) (m_length m) (m_radius m).

(** ** [SetProcessorAffinity]

    A [DWORD_PTR] is an unsigned integer of [bits] bits.  The result of
    [GetProcessAffinityMask] is an argument: [None] when the call
    fails, the affinity mask of the process otherwise; [thread_ok]
    tells whether [GetCurrentThread] gave a valid handle.  The function
    returns the mask it passes to [SetThreadAffinityMask], [None] when
    it does not call it. *)

Definition dword_not (bits x : Z) : Z := Z.lnot x mod 2 ^ bits.
Definition dword_add (bits x y : Z) : Z := (x + y) mod 2 ^ bits.

Definition SetProcessorAffinity (bits : Z) (query : option Z)
    (thread_ok : bool) : option Z :=
  match query with
  | None => None
  | Some dwProcessAffinityMask =>
      if decide (dwProcessAffinityMask <> 0) then
        let dwAffinityMask :=
          Z.land dwProcessAffinityMask
                 (dword_add bits (dword_not bits dwProcessAffinityMask) 1) in
        if thread_ok then Some dwAffinityMask else None
      else None
  end.

(** The number of the lowest bit that is set. *)
Fixpoint lowest_set_bit (p : positive) : Z :=
  match p with
  | xO q => Z.succ (lowest_set_bit q)
  | _ => 0
  end.

(** * Properties *)

(** ** Vectors *)

Lemma vec_at_app_r {A : Type} (pre rest : list A) (z : Z) :
  0 <= z ->
  vec_at (pre ++ rest) (Z.of_nat (length pre) + z) = rest !! Z.to_nat z.
Proof.
  intros Hz. unfold vec_at. destruct (decide _) as [_|H]; [|lia].
  replace (Z.to_nat (Z.of_nat (length pre) + z)) with (length pre + Z.to_nat z)%nat by lia.
  by rewrite lookup_app_r, Nat.add_comm, Nat.add_sub by lia.
Qed.

Lemma vec_set_app_r {A : Type} (pre rest : list A) (z : Z) (x : A) :
  0 <= z < Z.of_nat (length rest) ->
  vec_set (pre ++ rest) (Z.of_nat (length pre) + z) x
  = Some (pre ++ <[Z.to_nat z := x]> rest).
Proof.
  intros Hk. unfold vec_set, vec_size. rewrite length_app.
  destruct (decide _) as [_|H]; [|lia].
  replace (Z.to_nat (Z.of_nat (length pre) + z)) with (length pre + Z.to_nat z)%nat by lia.
  by rewrite insert_app_r.
Qed.

(** ** [reverseWinding] *)

Lemma reverseWinding_indices_spec (n : nat) : forall (pre rest : list Z),
  length rest = (3 * n)%nat ->
  reverseWinding_indices n (Z.of_nat (length pre)) (pre ++ rest)
  = Some (pre ++ swap_triples rest).
Proof.
  induction n as [|n IH]; intros pre rest Hlen.
  - destruct rest; [|discriminate]. reflexivity.
  - destruct rest as [|a [|b [|c r]]]; simpl in Hlen; try lia.
    cbn [reverseWinding_indices].
    rewrite (vec_at_app_r pre (a :: b :: c :: r) 1) by lia.
    rewrite (vec_at_app_r pre (a :: b :: c :: r) 2) by lia. simpl.
    rewrite (vec_set_app_r pre (a :: b :: c :: r) 1) by (simpl; lia). simpl.
    rewrite (vec_set_app_r pre (a :: c :: c :: r) 2) by (simpl; lia). simpl.
    specialize (IH (pre ++ [a; c; b]) r).
    rewrite length_app in IH. simpl in IH.
    replace (Z.of_nat (length pre) + 3) with (Z.of_nat (length pre + 3)) by lia.
    rewrite <- !app_assoc in IH. simpl in IH. rewrite IH by lia.
    reflexivity.
Qed.

Lemma swap_triples_length (l : list Z) : length (swap_triples l) = length l.
Proof.
  induction l as [l IH] using (induction_ltof1 _ (@length Z)); unfold ltof in IH.
  destruct l as [|a [|b [|c r]]]; try reflexivity.
  simpl. rewrite IH by (simpl; lia). reflexivity.
Qed.

Lemma swap_triples_involutive (l : list Z) : swap_triples (swap_triples l) = l.
Proof.
  induction l as [l IH] using (induction_ltof1 _ (@length Z)); unfold ltof in IH.
  destruct l as [|a [|b [|c r]]]; try reflexivity.
  simpl. rewrite IH by (simpl; lia). reflexivity.
Qed.

Lemma reverseWinding_indices_whole (ib : list Z) (k : nat) :
  length ib = (3 * k)%nat ->
  reverseWinding_indices (Z.to_nat ((vec_size ib + 2) / 3)) 0 ib
  = Some (swap_triples ib).
Proof.
  intros Hlen. unfold vec_size. rewrite Hlen.
  replace (Z.to_nat ((Z.of_nat (3 * k) + 2) / 3)) with k.
  - apply (reverseWinding_indices_spec k [] ib Hlen).
  - replace (Z.of_nat (3 * k) + 2) with (2 + Z.of_nat k * 3) by lia.
    rewrite Z.div_add by lia. replace (2 / 3) with 0 by reflexivity. lia.
Qed.

Lemma neg_involutive (x : float) : F32.neg (F32.neg x) = x.
Proof. destruct x as [s|s| |s p e]; simpl; try destruct s; reflexivity. Qed.

Lemma reverseWinding_vertex_involutive (v : Vertex) :
  reverseWinding_vertex (reverseWinding_vertex v) = v.
Proof.
  destruct v as [p t [n0 n1 n2] [t0 t1 t2 t3] b].
  unfold reverseWinding_vertex, set_tangent, set_normal. simpl.
  by rewrite !neg_involutive.
Qed.

Lemma swap_triples_lookup (l : list Z) : forall (t : nat) (a b c : Z),
  l !! (3 * t)%nat = Some a -> l !! (3 * t + 1)%nat = Some b ->
  l !! (3 * t + 2)%nat = Some c ->
  swap_triples l !! (3 * t)%nat = Some a /\
  swap_triples l !! (3 * t + 1)%nat = Some c /\
  swap_triples l !! (3 * t + 2)%nat = Some b.
Proof.
  induction l as [l IH] using (induction_ltof1 _ (@length Z)); unfold ltof in IH.
  intros t a b c Ha Hb Hc.
  destruct l as [|x [|y [|z r]]].
  - discriminate.
  - destruct t; simpl in *; [discriminate|].
    replace (t + S (t + S (t + 0)))%nat with (S (S (t + t + t))) in Ha by lia. discriminate.
  - destruct t; simpl in *; [discriminate|].
    replace (t + S (t + S (t + 0)))%nat with (S (S (t + t + t))) in Ha by lia. discriminate.
  - destruct t as [|t].
    + simpl in *. by simplify_eq.
    + replace (3 * S t)%nat with (S (S (S (3 * t)))) in * by lia.
      simpl in Ha, Hb, Hc |- *. eapply IH; eauto. simpl; lia.
Qed.

(** C10: on a model whose index buffer holds whole triangles,
    [reverseWinding] is defined and is an involution (a second call gives
    back the model, hence its index buffer and every normal and tangent);
    one call exchanges the second and third index of every triangle,
    negates every normal and the xyz of every tangent, and leaves
    [tangent[3]], the bitangent, the position and the texture coordinates
    of every vertex as they were. *)
Theorem reverseWinding_involution (m : Model) (k : nat) :
  length (m_indexBuffer m) = (3 * k)%nat ->
  exists m1 : Model,
    reverseWinding m = Some m1 /\
    reverseWinding m1 = Some m /\
    m_indexBuffer m1 = swap_triples (m_indexBuffer m) /\
    (forall (t : nat) (a b c : Z),
        m_indexBuffer m !! (3 * t)%nat = Some a ->
        m_indexBuffer m !! (3 * t + 1)%nat = Some b ->
        m_indexBuffer m !! (3 * t + 2)%nat = Some c ->
        m_indexBuffer m1 !! (3 * t)%nat = Some a /\
        m_indexBuffer m1 !! (3 * t + 1)%nat = Some c /\
        m_indexBuffer m1 !! (3 * t + 2)%nat = Some b) /\
    map normal (m_vertexBuffer m1) = map (fun v => neg3 (normal v)) (m_vertexBuffer m) /\
    map tangent_xyz (m_vertexBuffer m1)
      = map (fun v => neg3 (tangent_xyz v)) (m_vertexBuffer m) /\
    map (fun v => f4_3 (tangent v)) (m_vertexBuffer m1)
      = map (fun v => f4_3 (tangent v)) (m_vertexBuffer m) /\
    map bitangent (m_vertexBuffer m1) = map bitangent (m_vertexBuffer m) /\
    map position (m_vertexBuffer m1) = map position (m_vertexBuffer m) /\
    map texCoord (m_vertexBuffer m1) = map texCoord (m_vertexBuffer m).
Proof.
  intros Hlen.
  unfold reverseWinding.
  rewrite (reverseWinding_indices_whole _ k Hlen). simpl.
  eexists. split; [reflexivity|].
  destruct m; simpl in *.
  rewrite (reverseWinding_indices_whole _ k) by (by rewrite swap_triples_length).
  simpl. unfold set_m_vertexBuffer, set_m_indexBuffer; simpl.
  rewrite swap_triples_involutive.
  rewrite map_map, (map_ext _ id), map_id
    by (intros; apply reverseWinding_vertex_involutive).
  split; [reflexivity|]. split; [reflexivity|].
  split; [apply swap_triples_lookup|].
  repeat split; rewrite map_map; apply map_ext; intros v; reflexivity.
Qed.

(** The model of a single triangle with its three vertices. *)
Lemma reverseWinding_involution_witness :
  exists m1 : Model,
    reverseWinding (set_m_indexBuffer [0; 1; 2] Model_new) = Some m1 /\
    m_indexBuffer m1 = [0; 2; 1].
Proof.
  destruct (reverseWinding_involution (set_m_indexBuffer [0; 1; 2] Model_new) 1)
    as (m1 & H1 & _ & H3 & _); [reflexivity|].
  exists m1. split; [exact H1|exact H3].
Defined.

(** ** [addVertex] *)

Section Welder.

Implicit Types (m : Model) (v : Vertex) (h i : Z) (l : list Z).

Lemma vec_at_Some_lt {A : Type} (vb : list A) (i : Z) (x : A) :
  vec_at vb i = Some x -> 0 <= i < vec_size vb.
Proof.
  unfold vec_at, vec_size. destruct (decide _); [|discriminate].
  intros H%lookup_lt_Some. lia.
Qed.

Lemma vec_at_lt_Some {A : Type} (vb : list A) (i : Z) :
  0 <= i < vec_size vb -> exists x, vec_at vb i = Some x.
Proof.
  unfold vec_at, vec_size. intros Hi. destruct (decide _); [|lia].
  apply lookup_lt_is_Some. lia.
Qed.

Lemma vec_at_app_l {A : Type} (vb ext : list A) (i : Z) (x : A) :
  vec_at vb i = Some x -> vec_at (vb ++ ext) i = Some x.
Proof.
  unfold vec_at. destruct (decide _); [|discriminate].
  apply lookup_app_l_Some.
Qed.

Lemma vec_at_size_app {A : Type} (vb : list A) (x : A) :
  vec_at (vb ++ [x]) (vec_size vb) = Some x.
Proof.
  unfold vec_at, vec_size. destruct (decide _); [|lia].
  rewrite Nat2Z.id. apply list_lookup_middle. reflexivity.
Qed.

Lemma addVertex_scan_total (vb : list Vertex) v l :
  Forall (fun i => 0 <= i < vec_size vb) l ->
  exists r, addVertex_scan vb v l = Some r.
Proof.
  induction 1 as [|i l Hi _ IH]; simpl; [eauto|].
  destruct (vec_at_lt_Some vb i Hi) as [x ->]. simpl.
  destruct (decide (x = v)); eauto.
Qed.

Lemma addVertex_scan_found (vb : list Vertex) v l i :
  addVertex_scan vb v l = Some (Some i) -> vec_at vb i = Some v /\ i ∈ l.
Proof.
  induction l as [|j l IH]; simpl; [discriminate|].
  destruct (vec_at vb j) as [x|] eqn:Hx; simpl; [|discriminate].
  destruct (decide (x = v)) as [->|Hne].
  - intros [= <-]. split; [done|]. apply list_elem_of_here.
  - intros H. destruct (IH H). split; [done|]. by apply list_elem_of_further.
Qed.

Lemma addVertex_scan_none (vb : list Vertex) v l :
  addVertex_scan vb v l = Some None ->
  Forall (fun i => 0 <= i < vec_size vb /\ vec_at vb i <> Some v) l.
Proof.
  induction l as [|j l IH]; simpl; [constructor|].
  destruct (vec_at vb j) as [x|] eqn:Hx; simpl; [|discriminate].
  destruct (decide (x = v)) as [->|Hne]; [discriminate|].
  intros H. constructor; [|by apply IH].
  split; [by eapply vec_at_Some_lt|]. congruence.
Qed.

Lemma addVertex_scan_unrecorded (vb : list Vertex) v l :
  Forall (fun i => 0 <= i < vec_size vb) l ->
  Forall (fun i => vec_at vb i <> Some v) l ->
  addVertex_scan vb v l = Some None.
Proof.
  induction 1 as [|i l Hi _ IH]; simpl; [done|].
  intros Hall. apply Forall_cons in Hall as [Hne Hall].
  destruct (vec_at_lt_Some vb i Hi) as [x Hx]. rewrite Hx. simpl.
  destruct (decide (x = v)) as [->|_]; [done|]. by apply IH.
Qed.

Lemma addVertex_scan_first (vb : list Vertex) v l1 i l2 :
  Forall (fun j => 0 <= j < vec_size vb) l1 ->
  Forall (fun j => vec_at vb j <> Some v) l1 ->
  vec_at vb i = Some v ->
  addVertex_scan vb v (l1 ++ i :: l2) = Some (Some i).
Proof.
  induction 1 as [|j l1 Hj _ IH]; simpl; intros Hall Hi.
  - rewrite Hi. simpl. by rewrite decide_True.
  - apply Forall_cons in Hall as [Hne Hall].
    destruct (vec_at_lt_Some vb j Hj) as [x Hx]. rewrite Hx. simpl.
    destruct (decide (x = v)) as [->|_]; [done|]. by apply IH.
Qed.

(** A match found in a bucket is found again, at the same index, after
    the buffer and the bucket have grown. *)
Lemma addVertex_scan_stable (vb ext : list Vertex) v l l' i :
  addVertex_scan vb v l = Some (Some i) ->
  addVertex_scan (vb ++ ext) v (l ++ l') = Some (Some i).
Proof.
  induction l as [|j l IH]; simpl; [discriminate|].
  destruct (vec_at vb j) as [x|] eqn:Hx; simpl; [|discriminate].
  rewrite (vec_at_app_l vb ext j x Hx). simpl.
  destruct (decide (x = v)); [done|]. apply IH.
Qed.

Lemma addVertex_scan_push (vb : list Vertex) v l :
  addVertex_scan vb v l = Some None ->
  addVertex_scan (vb ++ [v]) v (l ++ [vec_size vb]) = Some (Some (vec_size vb)).
Proof.
  induction l as [|j l IH]; simpl.
  - intros _. rewrite vec_at_size_app. simpl. by rewrite decide_True.
  - destruct (vec_at vb j) as [x|] eqn:Hx; simpl; [|discriminate].
    rewrite (vec_at_app_l vb [v] j x Hx). simpl.
    destruct (decide (x = v)); [discriminate|]. apply IH.
Qed.

Lemma hit_functional m h v i j : recorded_at m h v i -> recorded_at m h v j -> i = j.
Proof. intros (l & Hl & Hi) (l' & Hl' & Hj). congruence. Qed.

Lemma hit_lookup m h v i : recorded_at m h v i -> vec_at (m_vertexBuffer m) i = Some v.
Proof. intros (l & _ & Hi). by apply addVertex_scan_found in Hi as [? _]. Qed.

Lemma hit_extends m m' h v i : extends m m' -> recorded_at m h v i -> recorded_at m' h v i.
Proof.
  intros [[ext Hvb] Hc] (l & Hl & Hi).
  destruct (Hc h l Hl) as [l' Hl']. exists (l ++ l'). split; [done|].
  rewrite Hvb. by apply addVertex_scan_stable.
Qed.

Lemma extends_refl m : extends m m.
Proof.
  split; [exists []; by rewrite app_nil_r|].
  intros h l Hl. exists []. by rewrite app_nil_r.
Qed.

Lemma extends_trans m1 m2 m3 : extends m1 m2 -> extends m2 m3 -> extends m1 m3.
Proof.
  intros [[e1 H1] C1] [[e2 H2] C2]. split.
  - exists (e1 ++ e2). by rewrite H2, H1, app_assoc.
  - intros h l Hl. destruct (C1 h l Hl) as [l1 Hl1].
    destruct (C2 h _ Hl1) as [l2 Hl2]. exists (l1 ++ l2). by rewrite app_assoc.
Qed.

Lemma hit_addVertex m h v i : recorded_at m h v i -> addVertex h v m = Some (i, m).
Proof. intros (l & Hl & Hi). unfold addVertex. rewrite Hl, Hi. reflexivity. Qed.

(** What a call that finds no match does. *)
Lemma addVertex_append m h v :
  cache_wf m -> unrecorded m h v ->
  addVertex h v m
  = Some (vec_size (m_vertexBuffer m),
          set_m_vertexCache
            (<[h := bucket_push m h (vec_size (m_vertexBuffer m))]> (m_vertexCache m))
            (set_m_vertexBuffer (m_vertexBuffer m ++ [v]) m)).
Proof.
  intros Hwf Hun. unfold addVertex, bucket_push.
  destruct (m_vertexCache m !! h) as [l|] eqn:Hl; [|reflexivity].
  rewrite (addVertex_scan_unrecorded _ v l (Hwf h l Hl) (Hun l Hl)). reflexivity.
Qed.

(** One call from a well-formed state: it returns, the state it leaves is
    well formed and extends the one before, and the vertex is then
    recorded for [h] at the index returned. *)
Lemma addVertex_step m h v :
  cache_wf m ->
  exists i m', addVertex h v m = Some (i, m') /\
               cache_wf m' /\ extends m m' /\ recorded_at m' h v i.
Proof.
  intros Hwf. unfold addVertex.
  destruct (m_vertexCache m !! h) as [l|] eqn:Hl.
  - destruct (addVertex_scan_total (m_vertexBuffer m) v l (Hwf h l Hl)) as [[i|] Hr];
      rewrite Hr; simpl.
    + exists i, m. split; [done|]. split; [done|]. split; [apply extends_refl|].
      exists l. done.
    + eexists _, _. split; [reflexivity|].
      destruct m as [? ? ? ? ? ? ? ? ? ? ? ? ? ? ? ? ? ? vb ? ? ? ? ? ? ?];
        simpl in *. split; [|split].
      * intros h' l'. unfold cache_wf; simpl. unfold vec_size. rewrite length_app. simpl.
        destruct (decide (h = h')) as [<-|Hne].
        -- rewrite lookup_insert_eq. intros [= <-]. apply Forall_app. split.
           ++ eapply Forall_impl; [apply (Hwf h l Hl)|]. unfold vec_size; simpl. intros; lia.
           ++ constructor; [lia|constructor].
        -- rewrite lookup_insert_ne by done. intros Hl'.
           eapply Forall_impl; [apply (Hwf h' l' Hl')|]. unfold vec_size; simpl. intros; lia.
      * split; simpl; [by eexists|]. intros h' l' Hl'.
        destruct (decide (h = h')) as [<-|Hne].
        -- rewrite lookup_insert_eq. exists [vec_size vb]. congruence.
        -- rewrite lookup_insert_ne by done. exists []. by rewrite app_nil_r.
      * exists (l ++ [vec_size vb]). simpl. rewrite lookup_insert_eq.
        split; [done|]. by apply addVertex_scan_push.
  - eexists _, _. split; [reflexivity|].
    destruct m as [? ? ? ? ? ? ? ? ? ? ? ? ? ? ? ? ? ? vb ? ? ? ? ? ? ?];
      simpl in *. split; [|split].
    + intros h' l'. unfold cache_wf; simpl. unfold vec_size. rewrite length_app. simpl.
      destruct (decide (h = h')) as [<-|Hne].
      * rewrite lookup_insert_eq. intros [= <-]. constructor; [lia|constructor].
      * rewrite lookup_insert_ne by done. intros Hl'.
        eapply Forall_impl; [apply (Hwf h' l' Hl')|]. unfold vec_size; simpl. intros; lia.
    + split; simpl; [by eexists|]. intros h' l' Hl'.
      destruct (decide (h = h')) as [<-|Hne]; [congruence|].
      rewrite lookup_insert_ne by done. exists []. by rewrite app_nil_r.
    + exists [vec_size vb]. simpl. rewrite lookup_insert_eq.
      split; [done|]. apply (addVertex_scan_push _ v []). reflexivity.
Qed.

(** A sequence of calls from a well-formed state. *)
Lemma addVertex_calls_spec (calls : list (Z * Vertex)) : forall m,
  cache_wf m ->
  exists rs m', addVertex_calls calls m = Some (rs, m') /\
    cache_wf m' /\ extends m m' /\
    Forall2 (fun c r => recorded_at m' c.1 c.2 r) calls rs.
Proof.
  induction calls as [|[h v] calls IH]; intros m Hwf; simpl.
  - exists [], m. split; [done|]. split; [done|]. split; [apply extends_refl|constructor].
  - destruct (addVertex_step m h v Hwf) as (i & m1 & -> & Hwf1 & He1 & Hh1). simpl.
    destruct (IH m1 Hwf1) as (rs & m2 & -> & Hwf2 & He2 & Hall). simpl.
    exists (i :: rs), m2. split; [done|]. split; [done|].
    split; [by eapply extends_trans|].
    constructor; [|done]. simpl. by eapply hit_extends.
Qed.

(** C3: from any state of the welder in the second pass, (1) a sequence
    of calls returns an index for every call, two calls with the same
    source index and the same record return the same index, and two calls
    with the same source index and records that differ return indices
    that differ; (2) a call whose record differs from every vertex
    recorded for its source index appends the record to the vertex buffer
    and returns the index of the new entry, which is pushed on the bucket;
    (3) when the bucket holds several indices, the first one in insertion
    order whose vertex matches exactly is returned and nothing changes. *)
Theorem addVertex_welds (m : Model) :
  cache_wf m ->
  (forall calls : list (Z * Vertex),
     exists rs m',
       addVertex_calls calls m = Some (rs, m') /\
       length rs = length calls /\
       (forall (a b : nat) h v ra rb,
          calls !! a = Some (h, v) -> calls !! b = Some (h, v) ->
          rs !! a = Some ra -> rs !! b = Some rb -> ra = rb) /\
       (forall (a b : nat) h v v' ra rb,
          calls !! a = Some (h, v) -> calls !! b = Some (h, v') -> v <> v' ->
          rs !! a = Some ra -> rs !! b = Some rb -> ra <> rb) /\
       (forall (a : nat) h v ra,
          calls !! a = Some (h, v) -> rs !! a = Some ra ->
          vec_at (m_vertexBuffer m') ra = Some v)) /\
  (forall h v,
     unrecorded m h v ->
     exists m',
       addVertex h v m = Some (vec_size (m_vertexBuffer m), m') /\
       m_vertexBuffer m' = m_vertexBuffer m ++ [v] /\
       m_vertexCache m' !! h = Some (bucket_push m h (vec_size (m_vertexBuffer m))) /\
       (forall i x, vec_at (m_vertexBuffer m) i = Some x ->
                    i <> vec_size (m_vertexBuffer m))) /\
  (forall h v l1 i l2,
     m_vertexCache m !! h = Some (l1 ++ i :: l2) ->
     Forall (fun j => vec_at (m_vertexBuffer m) j <> Some v) l1 ->
     vec_at (m_vertexBuffer m) i = Some v ->
     addVertex h v m = Some (i, m)).
Proof.
  intros Hwf. split; [|split].
  - intros calls.
    destruct (addVertex_calls_spec calls m Hwf) as (rs & m' & Hrun & _ & _ & Hall).
    exists rs, m'. split; [done|]. split; [symmetry; by eapply Forall2_length|].
    assert (Hhit : forall (a : nat) h v ra,
               calls !! a = Some (h, v) -> rs !! a = Some ra -> recorded_at m' h v ra).
    { intros a h v ra Hc Hr.
      destruct (Forall2_lookup_l _ _ _ _ _ Hall Hc) as (r & Hr' & Hh).
      simpl in Hh. congruence. }
    split; [|split].
    + intros a b h v ra rb Ha Hb Hra Hrb.
      eapply hit_functional; eauto.
    + intros a b h v v' ra rb Ha Hb Hne Hra Hrb ->.
      apply Hne.
      pose proof (hit_lookup _ _ _ _ (Hhit a h v rb Ha Hra)) as H1.
      pose proof (hit_lookup _ _ _ _ (Hhit b h v' rb Hb Hrb)) as H2.
      congruence.
    + intros a h v ra Ha Hra. eapply hit_lookup; eauto.
  - intros h v Hun. eexists. split; [by apply addVertex_append|].
    destruct m; simpl. split; [done|]. split; [by rewrite lookup_insert_eq|].
    intros i x Hx%vec_at_Some_lt. simpl in Hx. lia.
  - intros h v l1 i l2 Hl Hne Hi. apply hit_addVertex.
    exists (l1 ++ i :: l2). split; [done|].
    apply addVertex_scan_first; [|done|done].
    pose proof (Hwf h _ Hl) as Hall. by apply Forall_app in Hall as [? _].
Qed.

(** The welder of a new model, and the same corner welded twice. *)
Lemma addVertex_welds_witness :
  cache_wf Model_new /\
  exists rs m',
    addVertex_calls [(7, zero_vertex); (7, zero_vertex)] Model_new = Some (rs, m') /\
    length rs = 2%nat.
Proof.
  assert (H : cache_wf Model_new).
  { intros h l Hl. vm_compute in Hl. discriminate. }
  split; [exact H|].
  destruct (addVertex_welds Model_new H) as [Hseq _].
  destruct (Hseq [(7, zero_vertex); (7, zero_vertex)]) as (rs & m' & Hrun & Hlen & _).
  exists rs, m'. split; [exact Hrun|exact Hlen].
Defined.

End Welder.

(** ** The order of [float] *)

(** [x >= y] and [y >= z] give [x >= z] when no NaN is around. *)
Lemma gtb_negative_transitive (x y z : float) :
  F32.is_nan x = false -> F32.is_nan y = false -> F32.is_nan z = false ->
  F32.gtb y x = false -> F32.gtb z y = false -> F32.gtb z x = false.
Proof.
  unfold F32.gtb, SFltb, SFcompare.
  destruct x as [sx|sx| |sx mx ex], y as [sy|sy| |sy my ey], z as [sz|sz| |sz mz ez];
    simpl; try discriminate; intros _ _ _;
    repeat match goal with s : bool |- _ => destruct s end;
    try discriminate; try reflexivity;
    try (destruct (Z.compare_spec ex ey), (Z.compare_spec ey ez), (Z.compare_spec ex ez);
         subst; try lia; try discriminate; try reflexivity;
         change (Pos.compare_cont Eq) with Pos.compare;
         try (destruct (Pos.compare_spec mx my), (Pos.compare_spec my mz),
                (Pos.compare_spec mx mz); subst; simpl; try lia; try discriminate;
              try reflexivity)).
Qed.

Lemma gtb_false_leb (x y : float) :
  F32.is_nan x = false -> F32.is_nan y = false ->
  F32.gtb y x = false -> F32.leb y x = true.
Proof.
  unfold F32.gtb, F32.leb, SFltb, SFleb.
  destruct (SFcompare x y) as [[]|] eqn:H1, (SFcompare y x) as [[]|] eqn:H2; try done.
  all: revert H1 H2; unfold SFcompare;
    destruct x as [sx|sx| |sx mx ex], y as [sy|sy| |sy my ey]; simpl; try discriminate;
    repeat match goal with s : bool |- _ => destruct s end; try discriminate;
    try (destruct (Z.compare_spec ex ey), (Z.compare_spec ey ex); subst; try lia;
         try discriminate;
         change (Pos.compare_cont Eq) with Pos.compare;
         try (destruct (Pos.compare_spec mx my), (Pos.compare_spec my mx); subst; simpl;
              try lia; try discriminate)).
Qed.

Lemma gtb_asymmetric (x y : float) : F32.gtb x y = true -> F32.gtb y x = false.
Proof.
  unfold F32.gtb, SFltb, SFcompare.
  destruct x as [sx|sx| |sx mx ex], y as [sy|sy| |sy my ey]; simpl; try discriminate;
    repeat match goal with s : bool |- _ => destruct s end;
    try discriminate; try reflexivity;
    try (destruct (Z.compare_spec ex ey), (Z.compare_spec ey ex); subst; try lia;
         try discriminate; try reflexivity;
         change (Pos.compare_cont Eq) with Pos.compare;
         try (destruct (Pos.compare_spec mx my), (Pos.compare_spec my mx); subst; simpl;
              try lia; try discriminate; try reflexivity)).
Qed.

(** ** [std::sort] *)

Section Sort.

Context {A : Type} (comp : A -> A -> option bool) (key : A -> float).

(** The elements the comparison is defined on, their keys being numbers. *)
Variable ok : A -> Prop.
Hypothesis comp_ok :
  forall x y, ok x -> ok y -> comp x y = Some (F32.gtb (key x) (key y)).
Hypothesis key_ok : forall x, ok x -> F32.is_nan (key x) = false.

Lemma sort_insert_spec (x : A) (l : list A) :
  ok x -> Forall ok l -> descending key l ->
  exists r, sort_insert comp x l = Some r /\ Permutation r (x :: l) /\ descending key r.
Proof.
  intros Hx. induction l as [|y l IH]; intros Hl Hs; simpl.
  - exists [x]. split; [done|]. split; [done|]. repeat constructor.
  - apply Forall_cons in Hl as [Hy Hl].
    apply StronglySorted_inv in Hs as [Hs Hyl].
    rewrite (comp_ok x y Hx Hy). simpl.
    destruct (F32.gtb (key x) (key y)) eqn:Hxy.
    + exists (x :: y :: l). split; [done|]. split; [done|].
      pose proof (gtb_asymmetric _ _ Hxy) as Hyx.
      constructor; [by constructor|].
      constructor; [done|].
      rewrite List.Forall_forall in Hyl, Hl. apply List.Forall_forall. intros z Hz.
      eapply (gtb_negative_transitive (key x) (key y) (key z)); eauto.
    + destruct (IH Hl Hs) as (r & -> & Hperm & Hr). simpl.
      exists (y :: r). split; [done|].
      split; [by rewrite Hperm; apply perm_swap|].
      constructor; [done|].
      rewrite Hperm. by constructor.
Qed.

Lemma std_sort_spec (l : list A) :
  Forall ok l ->
  exists r, std_sort comp l = Some r /\ Permutation r l /\ descending key r.
Proof.
  induction l as [|x l IH]; intros Hl; simpl.
  - exists []. split; [done|]. split; [done|]. constructor.
  - apply Forall_cons in Hl as [Hx Hl].
    destruct (IH Hl) as (r & -> & Hperm & Hr). simpl.
    destruct (sort_insert_spec x r Hx) as (r' & -> & Hperm' & Hr'); [by rewrite Hperm|done|].
    exists r'. split; [done|]. split; [|done]. by rewrite Hperm', Hperm.
Qed.

Lemma descending_lookup (l : list A) (i j : nat) (a b : A) :
  descending key l -> (i < j)%nat -> l !! i = Some a -> l !! j = Some b ->
  F32.gtb (key b) (key a) = false.
Proof.
  intros Hs. revert i j. induction Hs as [|x l Hs IH Hx]; intros i j Hij Ha Hb.
  - discriminate.
  - destruct j as [|j]; [lia|]. simpl in Hb. destruct i as [|i]; simpl in Ha.
    + simplify_eq. rewrite List.Forall_forall in Hx. apply Hx.
      apply list_elem_of_In. by eapply list_elem_of_lookup_2.
    + apply (IH i j); [lia|done|done].
Qed.

End Sort.

(** ** [buildMeshes] *)

Lemma close_runs_nonempty (ab : list Z) : forall s n id i,
  (0 < length (close_runs s n id ab i))%nat.
Proof.
  induction ab as [|a ab IH]; intros s n id i; simpl; [lia|].
  destruct (decide (a <> id)); simpl; [lia|apply IH].
Qed.

(** The first loop counts the runs. *)
Lemma buildMeshes_count_runs (ab : list Z) : forall s n id i c,
  buildMeshes_count ab id c = c + Z.of_nat (length (close_runs s n id ab i)) - 1.
Proof.
  induction ab as [|a ab IH]; intros s n id i c; simpl; [lia|].
  destruct (decide (a <> id)); simpl.
  - rewrite (IH i 1 a (i + 1)). lia.
  - apply IH.
Qed.

Lemma vec_update_app_r {A : Type} (pre rest : list A) (z : Z) (f : A -> A) (x : A) :
  0 <= z -> rest !! Z.to_nat z = Some x ->
  vec_update (pre ++ rest) (Z.of_nat (length pre) + z) f
  = Some (pre ++ <[Z.to_nat z := f x]> rest).
Proof.
  intros Hz Hx. unfold vec_update. rewrite vec_at_app_r, Hx by done. simpl.
  apply vec_set_app_r. apply lookup_lt_Some in Hx. lia.
Qed.

Lemma vec_update_app_head {A : Type} (pre rest : list A) (f : A -> A) (x : A) :
  vec_update (pre ++ x :: rest) (Z.of_nat (length pre)) f = Some (pre ++ f x :: rest).
Proof.
  replace (Z.of_nat (length pre)) with (Z.of_nat (length pre) + 0) by lia.
  by rewrite (vec_update_app_r pre (x :: rest) 0 f x).
Qed.

Lemma vec_update_app_next {A : Type} (pre rest : list A) (f : A -> A) (x y : A) :
  vec_update (pre ++ x :: y :: rest) (Z.of_nat (length pre) + 1) f
  = Some (pre ++ x :: f y :: rest).
Proof. by rewrite (vec_update_app_r pre (x :: y :: rest) 1 f y). Qed.

(** The second loop while a run is open: the meshes before it are [done],
    its own mesh is the next one, and empty meshes wait behind. *)
Lemma buildMeshes_fill_running (nmat : Z) (ab : list Z) :
  forall (i s n id : Z) (done : list Mesh) (k : nat),
    Forall (fun a => 0 <= a < nmat) ab ->
    (length (close_runs s n id ab i) <= S k)%nat ->
    exists id' p,
      buildMeshes_fill nmat ab i
        (Build_BuildState id (Some (Z.of_nat (length done)))
           (Z.of_nat (length done) + 1)
           (done ++ Build_Mesh (s * 3) n (Some id) :: replicate k null_mesh))
      = Some (Build_BuildState id' p
           (Z.of_nat (length done) + Z.of_nat (length (close_runs s n id ab i)))
           (done ++ map mesh_of_run (close_runs s n id ab i)
                 ++ replicate (S k - length (close_runs s n id ab i)) null_mesh)).
Proof.
  induction ab as [|a ab IH]; intros i s n id done k Hab Hk.
  - simpl. eexists _, _. by rewrite Nat.sub_0_r.
  - apply Forall_cons in Hab as [Ha Hab].
    cbn [buildMeshes_fill close_runs] in *.
    unfold buildMeshes_step. cbn [bm_materialId bm_numMeshes bm_pMesh bm_meshes].
    destruct (decide (a <> id)) as [Hne|Heq].
    + rewrite decide_True by done.
      cbn [length] in Hk.
      pose proof (close_runs_nonempty ab i 1 a (i + 1)) as Hpos.
      destruct k as [|k]; [lia|].
      cbn [replicate].
      rewrite vec_update_app_next.
      cbn [mbind option_bind].
      destruct (IH (i + 1) i 1 a (done ++ [Build_Mesh (s * 3) n (Some id)]) k Hab)
        as (id' & p & Hfill); [lia|].
      rewrite length_app in Hfill. cbn [length] in Hfill.
      rewrite <- !app_assoc in Hfill. cbn [app] in Hfill.
      replace (Z.of_nat (length done + 1)) with (Z.of_nat (length done) + 1) in Hfill by lia.
      cbn [triangleCount null_mesh]. change (0 + 1) with 1.
      rewrite Hfill. exists id', p.
      cbn [length map mesh_of_run r_start r_count r_id app].
      rewrite Nat.sub_succ. f_equal. f_equal. lia.
    + apply dec_stable in Heq. subst a.
      cbn [mbind option_bind].
      rewrite vec_update_app_head.
      cbn [mbind option_bind].
      unfold incr_triangleCount. cbn [startIndex triangleCount pMaterial].
      destruct (IH (i + 1) s (n + 1) id done k Hab Hk) as (id' & p & Hfill).
      rewrite Hfill. by exists id', p.
Qed.

(** The two loops of [buildMeshes] on a new mesh vector. *)
Lemma buildMeshes_fill_runs (nmat : Z) (ab : list Z) :
  Forall (fun a => 0 <= a < nmat) ab ->
  exists st,
    buildMeshes_fill nmat ab 0
      (Build_BuildState (-1) None 0
         (vec_resize null_mesh (buildMeshes_count ab (-1) 0) []))
    = Some st /\
    bm_meshes st = map mesh_of_run (runs ab) /\
    buildMeshes_count ab (-1) 0 = vec_size (runs ab).
Proof.
  destruct ab as [|a ab]; intros Hab.
  - simpl. eexists. split; [reflexivity|]. done.
  - apply Forall_cons in Hab as [Ha Hab].
    cbn [buildMeshes_count runs].
    rewrite decide_True by lia.
    rewrite (buildMeshes_count_runs ab 0 1 a 1).
    pose proof (close_runs_nonempty ab 0 1 a 1) as Hpos.
    unfold vec_resize. rewrite take_nil. cbn [app length]. rewrite Nat.sub_0_r.
    replace (0 + 1 + Z.of_nat (length (close_runs 0 1 a ab 1)) - 1)
      with (Z.of_nat (length (close_runs 0 1 a ab 1))) by lia.
    rewrite Nat2Z.id.
    destruct (length (close_runs 0 1 a ab 1)) as [|k] eqn:Hlen; [lia|].
    cbn [buildMeshes_fill replicate].
    unfold buildMeshes_step. cbn [bm_materialId bm_numMeshes bm_pMesh bm_meshes].
    rewrite decide_True by lia. rewrite decide_True by done.
    pose proof (vec_update_app_head [] (replicate k null_mesh)
                  (fun me => Build_Mesh (0 * 3) (triangleCount me + 1) (Some a))
                  null_mesh) as Hupd.
    cbn [app length] in Hupd. change (Z.of_nat 0) with 0 in Hupd.
    rewrite Hupd. cbn [mbind option_bind].
    cbn [triangleCount null_mesh]. change (0 * 3) with 0. change (0 + 1) with 1.
    destruct (buildMeshes_fill_running nmat ab 1 0 1 a [] k Hab) as (id' & p & Hfill);
      [lia|].
    cbn [length app] in Hfill. change (Z.of_nat 0) with 0 in Hfill.
    change (0 + 1) with 1 in Hfill. change (0 * 3) with 0 in Hfill.
    rewrite Hfill. eexists. split; [reflexivity|].
    cbn [bm_meshes]. rewrite Hlen, Nat.sub_diag. cbn [replicate].
    rewrite app_nil_r. split; [done|]. unfold vec_size. lia.
Qed.

(** The runs tile the buffer. *)
Lemma close_runs_consecutive (ab : list Z) : forall s n id i,
  0 < n -> s + n = i ->
  consecutive s (close_runs s n id ab i) (i + vec_size ab).
Proof.
  unfold vec_size.
  induction ab as [|a ab IH]; intros s n id i Hn Hi; cbn [close_runs length].
  - cbn. repeat split; lia.
  - rewrite Nat2Z.inj_succ.
    replace (i + Z.succ (Z.of_nat (length ab)))
      with (i + 1 + Z.of_nat (length ab)) by lia.
    destruct (decide (a <> id)).
    + cbn [consecutive r_start r_count]. split; [done|]. split; [done|].
      replace (s + n) with i by lia. apply IH; lia.
    + apply IH; lia.
Qed.

Lemma close_runs_head (ab : list Z) : forall s n id i,
  exists r rs, close_runs s n id ab i = r :: rs /\ r_id r = id.
Proof.
  induction ab as [|a ab IH]; intros s n id i; simpl; [by eexists _, _|].
  destruct (decide (a <> id)); [by eexists _, _|apply IH].
Qed.

Lemma close_runs_adjacent (ab : list Z) : forall s n id i,
  adjacent_differ (close_runs s n id ab i).
Proof.
  induction ab as [|a ab IH]; intros s n id i; simpl; [done|].
  destruct (decide (a <> id)); [|apply IH].
  destruct (close_runs_head ab i 1 a (i + 1)) as (r & rs & Hr & Hid).
  specialize (IH i 1 a (i + 1)). rewrite Hr in *. simpl. split; [congruence|done].
Qed.

(** Every run is made of triangles of its id: [whole] is the attribute
    buffer, of which [ab] is what stands from triangle [i] on. *)
Lemma close_runs_homogeneous (whole : list Z) (ab : list Z) :
  forall (pre : list Z) s n id,
    whole = pre ++ ab -> 0 <= s -> 0 < n -> s + n = vec_size pre ->
    (forall t, s <= t < vec_size pre -> vec_at whole t = Some id) ->
    Forall (homogeneous whole) (close_runs s n id ab (vec_size pre)).
Proof.
  unfold vec_size.
  induction ab as [|a ab IH]; intros pre s n id Hw Hs Hn Hi Hrun; simpl.
  - constructor; [|constructor]. intros t Ht. simpl in *. apply Hrun. lia.
  - assert (Ha : vec_at whole (Z.of_nat (length pre)) = Some a).
    { rewrite Hw. replace (Z.of_nat (length pre)) with (Z.of_nat (length pre) + 0) by lia.
      by rewrite vec_at_app_r. }
    replace (Z.of_nat (length pre) + 1) with (Z.of_nat (length (pre ++ [a])))
      by (rewrite length_app; simpl; lia).
    destruct (decide (a <> id)).
    + constructor.
      * intros t Ht. simpl in *. apply Hrun. lia.
      * apply IH; [by rewrite <- app_assoc|lia|lia|rewrite length_app; simpl; lia|].
        rewrite length_app. simpl. intros t Ht.
        replace t with (Z.of_nat (length pre)) by lia. done.
    + apply dec_stable in n0. subst a.
      apply IH; [by rewrite <- app_assoc|lia|lia|rewrite length_app; simpl; lia|].
      rewrite length_app. simpl. intros t Ht.
      destruct (decide (t = Z.of_nat (length pre))) as [->|]; [done|].
      apply Hrun. lia.
Qed.

Lemma runs_spec (ab : list Z) :
  consecutive 0 (runs ab) (vec_size ab) /\
  Forall (homogeneous ab) (runs ab) /\
  adjacent_differ (runs ab).
Proof.
  destruct ab as [|a ab]; [by repeat split|].
  unfold runs. split; [|split].
  - replace (vec_size (a :: ab)) with (1 + vec_size ab) by (unfold vec_size; simpl; lia).
    apply close_runs_consecutive; lia.
  - apply (close_runs_homogeneous (a :: ab) ab [a] 0 1 a); try done.
    intros t Ht. replace t with 0 by (unfold vec_size in Ht; simpl in Ht; lia). done.
  - apply close_runs_adjacent.
Qed.

(** Runs that follow one another lie between their ends. *)
Lemma consecutive_bounds (rs : list Run) : forall s e r,
  consecutive s rs e -> r ∈ rs ->
  s <= r_start r /\ r_start r + r_count r <= e /\ 0 < r_count r.
Proof.
  induction rs as [|r0 rs IH]; intros s e r Hc Hr.
  - by apply elem_of_nil in Hr.
  - destruct Hc as (Hs & Hn & Hc).
    assert (s + r_count r0 <= e).
    { clear -Hc. revert Hc. generalize (s + r_count r0).
      induction rs as [|r1 rs IH']; simpl; intros z Hz; [lia|].
      destruct Hz as (? & ? & Hz). apply IH' in Hz. lia. }
    apply elem_of_cons in Hr as [->|Hr]; [lia|].
    destruct (IH _ _ _ Hc Hr) as (? & ? & ?). lia.
Qed.

(** Every triangle lies in one run, and in one only. *)
Lemma consecutive_cover (rs : list Run) : forall s e t,
  consecutive s rs e -> s <= t < e ->
  exists r, r ∈ rs /\ r_start r <= t < r_start r + r_count r /\
            forall r', r' ∈ rs -> r_start r' <= t < r_start r' + r_count r' -> r' = r.
Proof.
  induction rs as [|r0 rs IH]; intros s e t Hc Ht.
  - simpl in Hc. lia.
  - destruct Hc as (Hs & Hn & Hc).
    destruct (decide (t < s + r_count r0)) as [Hlt|Hge].
    + exists r0. split; [apply list_elem_of_here|]. split; [lia|].
      intros r' Hr' Ht'. apply elem_of_cons in Hr' as [->|Hr']; [done|].
      destruct (consecutive_bounds _ _ _ _ Hc Hr') as (? & ? & ?). lia.
    + destruct (IH _ _ t Hc) as (r & Hr & Hin & Huniq); [lia|].
      exists r. split; [by apply list_elem_of_further|]. split; [done|].
      intros r' Hr' Ht'. apply elem_of_cons in Hr' as [->|Hr']; [lia|].
      by apply Huniq.
Qed.

Lemma consecutive_NoDup (rs : list Run) : forall s e,
  consecutive s rs e -> NoDup (map mesh_of_run rs).
Proof.
  induction rs as [|r0 rs IH]; intros s e Hc; simpl; [constructor|].
  destruct Hc as (Hs & Hn & Hc). constructor; [|by eapply IH].
  intros Hin. change (map mesh_of_run rs) with (mesh_of_run <$> rs) in Hin.
  apply list_elem_of_fmap in Hin as (r & Heq & Hr).
  destruct (consecutive_bounds _ _ _ _ Hc Hr) as (? & ? & ?).
  apply (f_equal startIndex) in Heq. simpl in Heq. lia.
Qed.

Lemma vec_at_elem_of {A : Type} (v : list A) (i : Z) (x : A) :
  vec_at v i = Some x -> x ∈ v.
Proof.
  unfold vec_at. destruct (decide _); [|discriminate].
  apply list_elem_of_lookup_2.
Qed.

Lemma vec_at_in_range {A : Type} (v : list A) (i : Z) :
  0 <= i < vec_size v -> exists x, vec_at v i = Some x /\ x ∈ v.
Proof.
  unfold vec_at, vec_size. intros Hi. rewrite decide_True by lia.
  destruct (lookup_lt_is_Some_2 v (Z.to_nat i)) as [x Hx]; [lia|].
  exists x. split; [done|]. by eapply list_elem_of_lookup_2.
Qed.

(** C5: on a model whose mesh vector is empty, whose attribute buffer
    holds indices of the material table and whose alphas are numbers,
    [buildMeshes] returns; its meshes are, in some order, the meshes of
    the runs [rs], one mesh each, with [startIndex] three times the first
    triangle of the run and [triangleCount] its length; the runs follow
    one another from the first triangle to the last, each is made of
    triangles of one material id, and no two neighbours share their id
    (they are maximal); so every triangle lies in the range of exactly
    one mesh; and no mesh has a greater alpha than a mesh before it. *)
Theorem buildMeshes_partition (m : Model) :
  m_meshes m = [] ->
  Forall (fun a => 0 <= a < vec_size (m_materials m)) (m_attributeBuffer m) ->
  Forall (fun a => F32.is_nan (alpha a) = false) (m_materials m) ->
  exists (m' : Model) (rs : list Run),
    buildMeshes m = Some m' /\
    m_attributeBuffer m' = m_attributeBuffer m /\
    m_materials m' = m_materials m /\
    m_numberOfMeshes m' = vec_size (m_meshes m') /\
    Permutation (m_meshes m') (map mesh_of_run rs) /\
    NoDup (m_meshes m') /\
    consecutive 0 rs (vec_size (m_attributeBuffer m)) /\
    Forall (homogeneous (m_attributeBuffer m)) rs /\
    adjacent_differ rs /\
    (forall t, 0 <= t < vec_size (m_attributeBuffer m) ->
       exists me, me ∈ m_meshes m' /\ covers me t /\
                  forall me', me' ∈ m_meshes m' -> covers me' t -> me' = me) /\
    (forall (i j : nat) (mi mj : Mesh),
       (i < j)%nat -> m_meshes m' !! i = Some mi -> m_meshes m' !! j = Some mj ->
       exists ai aj,
         mesh_alpha (m_materials m') mi = Some ai /\
         mesh_alpha (m_materials m') mj = Some aj /\
         F32.leb aj ai = true).
Proof.
  intros Hfresh Hids Hnan.
  destruct (runs_spec (m_attributeBuffer m)) as (Hcons & Hhom & Hadj).
  destruct (buildMeshes_fill_runs _ _ Hids) as (st & Hfill & Hmeshes & Hcount).
  set (mats := m_materials m) in *.
  set (ok := fun me : Mesh =>
               exists a, mesh_alpha mats me = Some a /\ F32.is_nan a = false).
  set (key := fun me : Mesh => default F32.zero (mesh_alpha mats me)).
  assert (Hcomp : forall x y, ok x -> ok y ->
             MeshCompFunc mats x y = Some (F32.gtb (key x) (key y))).
  { intros x y (ax & Hx & _) (ay & Hy & _). unfold MeshCompFunc, key.
    rewrite Hx, Hy. unfold mesh_alpha in Hx, Hy.
    destruct (pMaterial x) as [px|]; [|discriminate]. simpl in *.
    destruct (vec_at mats px) as [mx|]; [|discriminate]. simpl in *.
    destruct (pMaterial y) as [py|]; [|discriminate]. simpl in *.
    destruct (vec_at mats py) as [my|]; [|discriminate]. simpl in *.
    by simplify_eq. }
  assert (Hkey : forall x, ok x -> F32.is_nan (key x) = false).
  { intros x (ax & Hx & Hn). unfold key. by rewrite Hx. }
  assert (Hok : Forall ok (map mesh_of_run (runs (m_attributeBuffer m)))).
  { apply List.Forall_forall. intros me Hme.
    apply in_map_iff in Hme as (r & <- & Hr). apply list_elem_of_In in Hr.
    rewrite List.Forall_forall in Hhom. specialize (Hhom r (proj1 (list_elem_of_In _ _) Hr)).
    destruct (consecutive_bounds _ _ _ _ Hcons Hr) as (H1 & H2 & H3).
    specialize (Hhom (r_start r)). apply vec_at_elem_of in Hhom; [|lia].
    rewrite List.Forall_forall in Hids. apply list_elem_of_In, Hids in Hhom.
    destruct (vec_at_in_range mats (r_id r) Hhom) as (a & Ha & Hin).
    exists (alpha a). unfold mesh_alpha, mesh_of_run. simpl. rewrite Ha. simpl.
    split; [done|]. rewrite List.Forall_forall in Hnan. apply Hnan.
    by apply list_elem_of_In. }
  destruct (std_sort_spec (MeshCompFunc mats) key ok Hcomp Hkey _ Hok)
    as (sorted & Hsort & Hperm & Hdesc).
  exists (set_m_meshes sorted
            (set_m_meshes (map mesh_of_run (runs (m_attributeBuffer m)))
               (set_m_numberOfMeshes (vec_size (runs (m_attributeBuffer m))) m))),
         (runs (m_attributeBuffer m)).
  assert (Hmem : forall me, me ∈ sorted <-> me ∈ map mesh_of_run (runs (m_attributeBuffer m))).
  { intros me. by rewrite Hperm. }
  split.
  { unfold buildMeshes. rewrite Hcount.
    destruct m as [? ? ? ? ? ? ? ? ? ? ? ? ? ? ? ? meshes ? ? ? ab ? ? ? ? ?];
      simpl in *. subst meshes.
    rewrite Hcount in Hfill. unfold mats in Hfill, Hsort. simpl in Hfill, Hsort.
    rewrite Hfill. simpl. rewrite Hmeshes, Hsort. reflexivity. }
  destruct m as [? ? ? ? ? ? ? ? ? ? ? ? ? ? ? ? meshes ? ? ? ab ? ? ? ? ?];
    simpl in *.
  split; [done|]. split; [done|].
  split. { unfold vec_size. rewrite (Permutation_length Hperm), length_map. done. }
  split; [done|].
  split. { rewrite Hperm. by eapply consecutive_NoDup. }
  split; [done|]. split; [done|]. split; [done|].
  split.
  - intros t Ht.
    destruct (consecutive_cover _ _ _ t Hcons Ht) as (r & Hr & Hin & Huniq).
    exists (mesh_of_run r). split; [|split].
    + apply Hmem. change (mesh_of_run r ∈ mesh_of_run <$> runs ab).
      by apply list_elem_of_fmap_2.
    + unfold covers, mesh_of_run. simpl. lia.
    + intros me' Hme' Hcov. apply Hmem in Hme'.
      change (me' ∈ mesh_of_run <$> runs ab) in Hme'.
      apply list_elem_of_fmap in Hme' as (r' & -> & Hr').
      f_equal. apply Huniq; [done|].
      unfold covers, mesh_of_run in Hcov. simpl in Hcov. lia.
  - intros i j mi mj Hij Hi Hj.
    pose proof (descending_lookup key sorted i j mi mj Hdesc Hij Hi Hj) as Hle.
    assert (Hoki : ok mi).
    { rewrite <- Hperm in Hok. rewrite List.Forall_forall in Hok. apply Hok.
      apply list_elem_of_In. by eapply list_elem_of_lookup_2. }
    assert (Hokj : ok mj).
    { rewrite <- Hperm in Hok. rewrite List.Forall_forall in Hok. apply Hok.
      apply list_elem_of_In. by eapply list_elem_of_lookup_2. }
    destruct Hoki as (ai & Hai & Hni). destruct Hokj as (aj & Haj & Hnj).
    exists ai, aj. split; [done|]. split; [done|].
    unfold key in Hle. fold mats in Hle. rewrite Hai, Haj in Hle. simpl in Hle.
    by apply gtb_false_leb.
Qed.

(** Three runs over two materials: [0 0 | 1 | 0]. *)
Lemma buildMeshes_partition_witness :
  exists m',
    buildMeshes three_runs_model = Some m' /\
    m_meshes m' = [Build_Mesh 6 1 (Some 1); Build_Mesh 9 1 (Some 0);
                   Build_Mesh 0 2 (Some 0)].
Proof.
  assert (H1 : m_meshes three_runs_model = []) by reflexivity.
  assert (H2 : Forall (fun a => 0 <= a < vec_size (m_materials three_runs_model))
                 (m_attributeBuffer three_runs_model)).
  { repeat (constructor; [unfold vec_size; simpl; lia|]). constructor. }
  assert (H3 : Forall (fun a => F32.is_nan (alpha a) = false)
                 (m_materials three_runs_model)).
  { repeat (constructor; [reflexivity|]). constructor. }
  destruct (buildMeshes_partition three_runs_model H1 H2 H3) as (m' & rs & Hb & _).
  exists m'. split; [exact Hb|].
  vm_compute in Hb. injection Hb as <-. reflexivity.
Defined.

(** ** Index resolution in the second pass *)

(** C1: the code resolves a positive reference [x] to [x - 1], and a
    negative reference [x] to [count + x - 1], one less than the 0-based
    index [count + x] of the element it denotes: after ten positions the
    face [f -1 -2 -3] takes the positions of 0-based index 8, 7 and 6,
    and the last position, of index 9, is not used. *)
Theorem resolve_negative_reference :
  (forall count x, 0 < x -> resolve count x = x - 1) /\
  (forall count x, x < 0 -> resolve count x = count + x - 1) /\
  resolve 10 (-1) = 8 /\ resolve 10 (-2) = 7 /\ resolve 10 (-3) = 6 /\
  exists m st,
    importGeometryFirstPass (single_file "ten.obj" ten_positions_obj)
      (text ten_positions_obj) Model_new = Some m /\
    secondPass_run (text ten_positions_obj) m = Some st /\
    numVertices st = 10 /\
    m_indexBuffer (p2_model st) = [0; 1; 2] /\
    map (fun v => f3_0 (position v)) (m_vertexBuffer (p2_model st))
      = [F32.of_Z 8; F32.of_Z 7; F32.of_Z 6] /\
    m_vertexCache (p2_model st) !! 8 = Some [0] /\
    m_vertexCache (p2_model st) !! 7 = Some [1] /\
    m_vertexCache (p2_model st) !! 6 = Some [2] /\
    m_vertexCache (p2_model st) !! 9 = None.
Proof.
  split; [|split].
  - intros count x Hx. unfold resolve. destruct (Z.ltb_spec x 0); lia.
  - intros count x Hx. unfold resolve. destruct (Z.ltb_spec x 0); lia.
  - repeat split. eexists _, _. split; [vm_compute; reflexivity|].
    split; [vm_compute; reflexivity|]. repeat split.
Qed.

(** ** [bounds] *)

(** C6: on the triangle [(-1,-1,-1)], [(-3,-1,-1)], [(-1,-3,-1)] the
    maxima stay at their initial value [numeric_limits<float>::min()],
    which is positive, so the bounds stored are not those of the
    vertices: the centre is [(-1.5, -1.5, -0.5)] where the midpoint is
    [(-2, -2, -1)], and width, height and length are 3, 3 and 1 where the
    extents are 2, 2 and 0. *)
Theorem bounds_of_negative_coordinates :
  exists m,
    import (single_file "neg.obj" negative_obj) "neg.obj" false Model_new
      = Some (true, m) /\
    map position (m_vertexBuffer m)
      = [F3 (F32.of_Z (-1)) (F32.of_Z (-1)) (F32.of_Z (-1));
         F3 (F32.of_Z (-3)) (F32.of_Z (-1)) (F32.of_Z (-1));
         F3 (F32.of_Z (-1)) (F32.of_Z (-3)) (F32.of_Z (-1))] /\
    xMax (bounds_extent (m_vertexBuffer m)) = F32.numeric_limits_min /\
    yMax (bounds_extent (m_vertexBuffer m)) = F32.numeric_limits_min /\
    zMax (bounds_extent (m_vertexBuffer m)) = F32.numeric_limits_min /\
    xMin (bounds_extent (m_vertexBuffer m)) = F32.of_Z (-3) /\
    m_center m = F3 (F32.of_decimal true 15 (-1)) (F32.of_decimal true 15 (-1))
                    (F32.of_decimal true 5 (-1)) /\
    m_width m = F32.of_Z 3 /\ m_height m = F32.of_Z 3 /\
    m_length m = F32.of_Z 1 /\ m_radius m = F32.of_Z 3.
Proof.
  eexists. split; [vm_compute; reflexivity|]. repeat split.
Qed.

(** ** [generateNormals] *)

(** C8: a triangle whose corners lie on a line has a zero cross product,
    and the division by the length of the zero sum makes every component
    of the three normals NaN; the triangle of the scenario gets the unit
    normal [(0, 0, 1)] at its three vertices. *)
Theorem generateNormals_of_degenerate_triangle :
  (exists m,
     import (single_file "line.obj" collinear_obj) "line.obj" false Model_new
       = Some (true, m) /\
     m_hasNormals m = true /\
     m_indexBuffer m = [0; 1; 2] /\
     map normal (m_vertexBuffer m) = [nan3; nan3; nan3]) /\
  (exists m,
     import (single_file "tri.obj" triangle_obj) "tri.obj" false Model_new
       = Some (true, m) /\
     m_hasNormals m = true /\
     m_indexBuffer m = [0; 1; 2] /\
     map normal (m_vertexBuffer m) = [unit_z; unit_z; unit_z]).
Proof.
  split; eexists; (split; [vm_compute; reflexivity|]); repeat split.
Qed.

(** ** [generateTangents] *)

Lemma orthogonalize_tangent_handedness (v : Vertex) :
  f4_3 (tangent (orthogonalize_tangent v)) = F32.one \/
  f4_3 (tangent (orthogonalize_tangent v)) = F32.neg F32.one.
Proof.
  unfold orthogonalize_tangent, set_bitangent, set_tangent.
  cbn [tangent f4_3].
  match goal with |- context [F32.ltb ?a ?b] => destruct (F32.ltb a b) end; auto.
Qed.

Lemma triangle_tangents_degenerate (v0 v1 v2 : Vertex) :
  let det := ((f2_0 (texCoord v1) - f2_0 (texCoord v0))
              * (f2_1 (texCoord v2) - f2_1 (texCoord v0))
              - (f2_0 (texCoord v2) - f2_0 (texCoord v0))
                * (f2_1 (texCoord v1) - f2_1 (texCoord v0)))%f32 in
  F32.ltb (F32.fabs det) det_epsilon = true ->
  triangle_tangents v0 v1 v2
  = (F3 F32.one F32.zero F32.zero, F3 F32.zero F32.one F32.zero).
Proof. intros det Hdet. unfold triangle_tangents. fold det. by rewrite Hdet. Qed.

(** C9: the handedness stored by [generateTangents] is [1.0f] or [-1.0f]
    for every vertex, and a triangle whose texture determinant is below
    [1e-6f] in magnitude contributes the tangent [(1,0,0)] and the
    bitangent [(0,1,0)]; but on a triangle in the plane [x = 0] without
    texture coordinates that tangent is parallel to the normal [(1,0,0)],
    the Gram-Schmidt step leaves the zero vector, and the tangent and the
    bitangent stored are NaN in every component. *)
Theorem generateTangents_of_parallel_tangent :
  (forall m m', generateTangents m = Some m' ->
     Forall (fun v => f4_3 (tangent v) = F32.one \/
                      f4_3 (tangent v) = F32.neg F32.one) (m_vertexBuffer m')) /\
  (forall v0 v1 v2,
     F32.ltb (F32.fabs
       ((f2_0 (texCoord v1) - f2_0 (texCoord v0))
        * (f2_1 (texCoord v2) - f2_1 (texCoord v0))
        - (f2_0 (texCoord v2) - f2_0 (texCoord v0))
          * (f2_1 (texCoord v1) - f2_1 (texCoord v0)))%f32) det_epsilon = true ->
     triangle_tangents v0 v1 v2
     = (F3 F32.one F32.zero F32.zero, F3 F32.zero F32.one F32.zero)) /\
  (exists m,
     import (two_files "wall.obj" bump_obj "bump.mtl" bump_mtl) "wall.obj"
       false Model_new = Some (true, m) /\
     m_hasTangents m = true /\
     map normal (m_vertexBuffer m)
       = [F3 F32.one F32.zero F32.zero; F3 F32.one F32.zero F32.zero;
          F3 F32.one F32.zero F32.zero] /\
     map tangent (m_vertexBuffer m)
       = [F4 S754_nan S754_nan S754_nan (F32.neg F32.one);
          F4 S754_nan S754_nan S754_nan (F32.neg F32.one);
          F4 S754_nan S754_nan S754_nan (F32.neg F32.one)] /\
     map bitangent (m_vertexBuffer m) = [nan3; nan3; nan3]).
Proof.
  split; [|split].
  - intros m m'. unfold generateTangents.
    destruct (for_range _ _ _ _) as [vb|]; [|discriminate]. simpl.
    intros [= <-]. destruct m; simpl.
    apply List.Forall_forall. intros v Hv. apply in_map_iff in Hv as (u & <- & _).
    apply orthogonalize_tangent_handedness.
  - intros v0 v1 v2 Hdet. by apply triangle_tangents_degenerate.
  - eexists. split; [vm_compute; reflexivity|]. repeat split.
Qed.

(** ** [import] *)

(** The geometry file opens and the library it names does not:
    [importMaterials] returns [false], [import] goes on and returns
    [true] with the model filled and the default material in use. *)
Lemma import_with_missing_mtllib :
  single_file "tri.obj" triangle_mtllib_obj "missing.mtl" = None /\
  importMaterials (single_file "tri.obj" triangle_mtllib_obj) "missing.mtl" Model_new
    = Some (false, Model_new) /\
  exists m,
    import (single_file "tri.obj" triangle_mtllib_obj) "tri.obj" false Model_new
      = Some (true, m) /\
    m_numberOfTriangles m = 1 /\
    m_indexBuffer m = [0; 1; 2] /\
    vec_size (m_vertexBuffer m) = 3 /\
    m_hasPositions m = true /\
    map name (m_materials m) = ["default"%string].
Proof.
  split; [reflexivity|]. split; [reflexivity|].
  eexists. split; [vm_compute; reflexivity|]. repeat split.
Qed.

(** C2, amended: [import] returns [false] when the geometry file cannot
    be opened, and then the model is the one before the call; it returns
    [false] in no other case.  [importMaterials] returns [false] and
    leaves the model alone when the library cannot be opened, a result
    the first pass does not look at. *)
Theorem import_failure (fs : filesystem) (pszFilename : string)
    (rebuildNormals : bool) (m : Model) :
  (fs pszFilename = None ->
   import fs pszFilename rebuildNormals m = Some (false, m)) /\
  (forall m', import fs pszFilename rebuildNormals m = Some (false, m') ->
              fs pszFilename = None /\ m' = m) /\
  (forall path, fs path = None ->
                importMaterials fs path m = Some (false, m)) /\
  (forall s1 path,
     fs path = None ->
     path = String.append (m_directoryPath m)
              (string_of_list_ascii (fst (read_name (token "mtllib") s1))) ->
     firstPass_step fs (token "mtllib") s1 m
     = Some (snd (read_name (token "mtllib") s1), m)).
Proof.
  split; [|split; [|split]].
  - intros H. unfold import. by rewrite H.
  - intros m'. unfold import. destruct (fs pszFilename) as [pFile|]; [|by intros [= <-]].
    intros H. exfalso.
    repeat match type of H with
    | (?x ≫= _) = _ => destruct x; simpl in H; [|discriminate]
    end.
    discriminate.
  - intros path H. unfold importMaterials. by rewrite H.
  - intros s1 path Hnone ->. unfold firstPass_step, token. simpl.
    destruct (read_name _ s1) as [b s2] eqn:Hr. simpl in *.
    unfold importMaterials. rewrite Hnone. reflexivity.
Qed.

Section Geometry.

(** ** Scanning the text of a well-formed file *)

Ltac ascii_cases c := destruct c as [[] [] [] [] [] [] [] []].

#[local] Arguments isspace : simpl never.
#[local] Arguments isdigit : simpl never.
#[local] Arguments digit_value : simpl never.
#[local] Arguments Ascii.eqb : simpl never.

Lemma isdigit_facts (c : ascii) :
  isdigit c = true ->
  isspace c = false /\ Ascii.eqb c "-" = false /\ Ascii.eqb c "+" = false /\
  Ascii.eqb c "." = false /\ Ascii.eqb c "/" = false /\
  Ascii.eqb c "e" = false /\ Ascii.eqb c "E" = false /\
  Ascii.eqb "/" c = false.
Proof. ascii_cases c; vm_compute; intros H; try discriminate H; repeat split. Qed.

Lemma isspace_facts (c : ascii) :
  isspace c = true ->
  isdigit c = false /\ Ascii.eqb c "-" = false /\ Ascii.eqb c "+" = false /\
  Ascii.eqb c "." = false /\ Ascii.eqb c "/" = false /\
  Ascii.eqb c "e" = false /\ Ascii.eqb c "E" = false /\
  Ascii.eqb "/" c = false.
Proof. ascii_cases c; vm_compute; intros H; try discriminate H; repeat split. Qed.

Lemma at_break_no_digit (s : stream) : at_break s -> no_digit_head s.
Proof. destruct s as [|c s]; [done|]. simpl. intros H. by apply isspace_facts in H as [? _]. Qed.

Lemma all_space_nil : all_space [].
Proof. constructor. Qed.

Lemma skip_ws_nonspace (c : ascii) (s : stream) :
  isspace c = false -> skip_ws (c :: s) = c :: s.
Proof. intros H. simpl. by rewrite H. Qed.

Lemma skip_ws_app (ws : list ascii) (s : stream) :
  all_space ws -> skip_ws (ws ++ s) = skip_ws s.
Proof. induction 1 as [|c ws Hc _ IH]; simpl; [done|]. by rewrite Hc. Qed.

Lemma skip_ws_idempotent (s : stream) : skip_ws (skip_ws s) = skip_ws s.
Proof.
  induction s as [|c s IH]; simpl; [done|].
  destruct (isspace c) eqn:Hc; [done|]. simpl. by rewrite Hc.
Qed.

Lemma read_token_word (w : list ascii) (rest : stream) :
  Forall (fun c => isspace c = false) w -> at_break rest ->
  read_token (w ++ rest) = (w, rest).
Proof.
  intros Hw Hr. induction Hw as [|c w Hc _ IH]; simpl.
  - destruct rest as [|c rest]; [done|]. simpl in *. by rewrite Hr.
  - by rewrite Hc, IH.
Qed.

Lemma scan_s_skip (ws : list ascii) (s : stream) :
  all_space ws -> scan_s (ws ++ s) = scan_s s.
Proof. intros H. unfold scan_s. by rewrite skip_ws_app. Qed.

Lemma scan_s_skip_ws (s : stream) : scan_s (skip_ws s) = scan_s s.
Proof. unfold scan_s. by rewrite skip_ws_idempotent. Qed.

Lemma scan_s_word (w : list ascii) (rest : stream) :
  w <> [] -> Forall (fun c => isspace c = false) w -> at_break rest ->
  scan_s (w ++ rest) = Some (c_str w, rest).
Proof.
  intros Hne Hw Hr. unfold scan_s.
  destruct w as [|c w]; [done|].
  pose proof (Forall_inv Hw) as Hc. simpl in Hc.
  change ((c :: w) ++ rest) with (c :: (w ++ rest)).
  rewrite (skip_ws_nonspace c _ Hc).
  change (c :: (w ++ rest)) with ((c :: w) ++ rest).
  by rewrite read_token_word.
Qed.

(** A token that fits the buffer. *)
Lemma overruns_word (w : list ascii) (rest : stream) :
  w <> [] -> Forall (fun c => isspace c = false) w -> at_break rest ->
  (length w < 256)%nat ->
  overruns (w ++ rest) = false.
Proof.
  intros Hne Hw Hr Hlen. unfold overruns.
  destruct w as [|c w]; [done|].
  pose proof (Forall_inv Hw) as Hc. simpl in Hc.
  change ((c :: w) ++ rest) with (c :: (w ++ rest)).
  rewrite (skip_ws_nonspace c _ Hc).
  change (c :: (w ++ rest)) with ((c :: w) ++ rest).
  rewrite read_token_word by done. cbn [fst].
  apply Nat.leb_gt. unfold buffer_size. lia.
Qed.

Lemma overruns_ext (s s' : stream) :
  skip_ws s = skip_ws s' -> overruns s = overruns s'.
Proof. intros H. unfold overruns. by rewrite H. Qed.

(** The text of a buffer without a null character is the buffer. *)
Lemma c_str_id (w : list ascii) :
  Forall (fun c => c <> nul) w -> c_str w = w.
Proof.
  induction 1 as [|c w Hc _ IH]; [done|]. cbn [c_str].
  apply Ascii.eqb_neq in Hc. by rewrite Hc, IH.
Qed.

Lemma isdigit_not_nul (c : ascii) : isdigit c = true -> c <> nul.
Proof. intros H ->. discriminate. Qed.

Lemma c_str_idempotent (w : list ascii) : c_str (c_str w) = c_str w.
Proof.
  induction w as [|c w IH]; [done|]. cbn [c_str].
  destruct (Ascii.eqb c nul) eqn:E; [done|]. cbn [c_str]. by rewrite E, IH.
Qed.

Lemma c_str_no_nul (w : list ascii) : Forall (fun c => c <> nul) (c_str w).
Proof.
  induction w as [|c w IH]; [constructor|]. cbn [c_str].
  destruct (Ascii.eqb c nul) eqn:E; [constructor|].
  constructor; [by apply Ascii.eqb_neq|done].
Qed.

Lemma read_digits_app (ds : list ascii) (rest : stream) :
  Forall (fun c => isdigit c = true) ds -> no_digit_head rest ->
  forall acc n,
    read_digits (ds ++ rest) acc n
    = (digits_value ds acc, (n + length ds)%nat, rest).
Proof.
  intros Hds Hr. induction Hds as [|c ds Hc _ IH]; intros acc n; simpl.
  - rewrite Nat.add_0_r. destruct rest as [|c rest]; [done|]. simpl in *. by rewrite Hr.
  - rewrite Hc, IH. f_equal. f_equal. lia.
Qed.

Lemma read_sign_text (neg : bool) (ds : list ascii) (rest : stream) :
  digits_ok ds -> read_sign (sign_text neg ++ ds ++ rest) = (neg, ds ++ rest).
Proof.
  intros [Hne Hds]. destruct neg; [reflexivity|].
  destruct ds as [|c ds]; [done|]. simpl.
  pose proof (Forall_inv Hds) as Hc. simpl in Hc.
  apply isdigit_facts in Hc as (_ & -> & -> & _). reflexivity.
Qed.

Lemma skip_ws_sign_text (neg : bool) (ds : list ascii) (rest : stream) :
  digits_ok ds ->
  skip_ws (sign_text neg ++ ds ++ rest) = sign_text neg ++ ds ++ rest.
Proof.
  intros [Hne Hds]. destruct neg; [reflexivity|].
  destruct ds as [|c ds]; [done|]. simpl.
  pose proof (Forall_inv Hds) as Hc. simpl in Hc.
  by apply isdigit_facts in Hc as (-> & _).
Qed.

(** [%d] reads an integer that is followed by no digit. *)
Lemma scan_d_int (ws : list ascii) (z : IntLit) (rest : stream) :
  all_space ws -> int_ok z -> no_digit_head rest ->
  scan_d (ws ++ render_int z ++ rest) = (Some (int_value z), rest).
Proof.
  intros Hws Hz Hr. unfold scan_d, render_int, int_value.
  rewrite skip_ws_app by done. rewrite <- app_assoc.
  rewrite skip_ws_sign_text, read_sign_text by done.
  destruct Hz as [Hne Hds].
  rewrite read_digits_app by done.
  destruct (il_digits z) as [|c ds]; [done|]. reflexivity.
Qed.

Lemma scan_d_int_nil (z : IntLit) (rest : stream) :
  int_ok z -> no_digit_head rest ->
  scan_d (render_int z ++ rest) = (Some (int_value z), rest).
Proof. apply (scan_d_int [] z rest). constructor. Qed.

#[local] Arguments scan_d : simpl never.

(** The format of a form reads a corner of that form whole. *)
Lemma scanf_ints_corner (f : faceForm) (ws : list ascii) (c : CornerLit)
    (rest : stream) :
  all_space ws -> corner_ok f c -> no_digit_head rest ->
  scanf_ints (face_format f) (ws ++ render_corner f c ++ rest)
  = (corner_values f c, rest).
Proof.
  intros Hws [Hv Hf] Hr.
  destruct f; cbn [face_format render_corner corner_values scanf_ints];
    rewrite <- ?app_assoc; cbn [app].
  - rewrite scan_d_int by (done || reflexivity).
    rewrite !Ascii.eqb_refl.
    rewrite scan_d_int_nil by done. reflexivity.
  - destruct Hf as [Ht Hn].
    rewrite scan_d_int by (done || reflexivity).
    rewrite !Ascii.eqb_refl. rewrite <- ?app_assoc; cbn [app].
    rewrite scan_d_int_nil by (done || reflexivity).
    rewrite !Ascii.eqb_refl.
    rewrite scan_d_int_nil by done. reflexivity.
  - rewrite scan_d_int by (done || reflexivity).
    rewrite !Ascii.eqb_refl.
    rewrite scan_d_int_nil by done. reflexivity.
  - rewrite scan_d_int by done. reflexivity.
Qed.

Lemma strstr_found (a b : list ascii) :
  strstr (a ++ "/"%char :: "/"%char :: b) (token "//") = true.
Proof.
  induction a as [|c a IH]; cbn [app strstr].
  - reflexivity.
  - rewrite IH. apply orb_true_r.
Qed.

Lemma strstr_slash_free (a r : list ascii) :
  slash_free a -> strstr (a ++ r) (token "//") = strstr r (token "//").
Proof.
  induction 1 as [|c a Hc _ IH]; [done|].
  unfold token in *. cbn [app strstr list_ascii_of_string is_prefix] in *.
  by rewrite Hc, IH.
Qed.

Lemma render_int_slash_free (z : IntLit) : int_ok z -> slash_free (render_int z).
Proof.
  intros [_ Hds]. unfold render_int. apply Forall_app. split.
  - destruct (il_neg z); repeat constructor.
  - eapply Forall_impl; [exact Hds|]. intros c Hc. simpl in Hc.
    by apply isdigit_facts in Hc as (_ & _ & _ & _ & _ & _ & _ & ->).
Qed.

Lemma render_int_cons (z : IntLit) :
  int_ok z -> exists c r, render_int z = c :: r /\ Ascii.eqb "/" c = false.
Proof.
  intros Hz. pose proof (render_int_slash_free z Hz) as Hs.
  destruct Hz as [Hne _]. unfold render_int in *.
  destruct (sign_text (il_neg z) ++ il_digits z) as [|c r] eqn:Heq.
  - apply app_eq_nil in Heq as [_ ?]. done.
  - exists c, r. split; [done|]. by apply Forall_inv in Hs.
Qed.

(** A slash that is followed by an integer begins no double slash. *)
Lemma strstr_slash_int (z : IntLit) (r : list ascii) :
  int_ok z ->
  strstr ("/"%char :: render_int z ++ r) (token "//") = strstr r (token "//").
Proof.
  intros Hz. destruct (render_int_cons z Hz) as (c & t & Heq & Hc).
  pose proof (strstr_slash_free (render_int z) r (render_int_slash_free z Hz)) as H.
  rewrite Heq in *. cbn [app] in *.
  cbn [strstr token list_ascii_of_string is_prefix] in *.
  rewrite Hc in *. rewrite Ascii.eqb_refl. cbn [andb orb] in *. exact H.
Qed.

Lemma strstr_int_end (z : IntLit) :
  int_ok z -> strstr (render_int z) (token "//") = false.
Proof.
  intros Hz. rewrite <- (app_nil_r (render_int z)).
  by rewrite strstr_slash_free by (by apply render_int_slash_free).
Qed.

Lemma strstr_slash_int_end (z : IntLit) :
  int_ok z -> strstr ("/"%char :: render_int z) (token "//") = false.
Proof.
  intros Hz. rewrite <- (app_nil_r (render_int z)).
  by rewrite strstr_slash_int.
Qed.

(** The branch the source takes for a first corner of form [f]. *)
Lemma face_form_corner (f : faceForm) (c : CornerLit) :
  corner_ok f c -> face_form (render_corner f c) = f.
Proof.
  intros Hc. pose proof Hc as [Hv Hf]. unfold face_form.
  pose proof (scanf_ints_corner f [] c [] all_space_nil Hc I) as Hscan.
  cbn [app] in Hscan. rewrite app_nil_r in Hscan.
  destruct f; cbn [render_corner] in *.
  - by rewrite strstr_found.
  - destruct Hf as [Ht Hn].
    rewrite strstr_slash_free by (by apply render_int_slash_free).
    rewrite strstr_slash_int, strstr_slash_int_end by done.
    rewrite Hscan. reflexivity.
  - rewrite strstr_slash_free by (by apply render_int_slash_free).
    rewrite strstr_slash_int_end by done.
    cbn [face_format scanf_ints] in *.
    rewrite scan_d_int_nil by (done || reflexivity).
    rewrite !Ascii.eqb_refl.
    rewrite <- (app_nil_r (render_int (cl_vt c))).
    rewrite scan_d_int_nil by done. reflexivity.
  - rewrite strstr_int_end by done.
    cbn [face_format scanf_ints].
    rewrite <- (app_nil_r (render_int (cl_v c))).
    rewrite scan_d_int_nil by done. reflexivity.
Qed.

(** [fgets] reads a line that fits the buffer whole. *)
Lemma fgets_chars_line (t : list ascii) (rest : stream) :
  Forall (fun c => c <> newline) t ->
  forall n, (length t < n)%nat ->
    fgets_chars n (t ++ newline :: rest) = (t ++ [newline], rest).
Proof.
  induction 1 as [|c t Hc _ IH]; intros n Hn.
  - destruct n; [simpl in Hn; lia|]. cbn [app fgets_chars].
    by rewrite Ascii.eqb_refl.
  - destruct n; [simpl in Hn; lia|]. cbn [app fgets_chars].
    apply Ascii.eqb_neq in Hc. rewrite Hc. rewrite IH by (simpl in Hn; lia). done.
Qed.

Lemma fgets_line (t : list ascii) (rest : stream) :
  Forall (fun c => c <> newline) t -> (length t < 255)%nat ->
  fgets (t ++ newline :: rest) = (Some (t ++ [newline]), rest).
Proof.
  intros Ht Hn. unfold fgets.
  rewrite (fgets_chars_line t rest Ht 255 Hn).
  by destruct t.
Qed.

Lemma isspace_not_newline_free (c : ascii) : isspace c = false -> c <> newline.
Proof. intros H ->. discriminate. Qed.

Lemma isdigit_not_newline (c : ascii) : isdigit c = true -> c <> newline.
Proof. intros H ->. discriminate. Qed.

Lemma at_break_facts (rest : stream) :
  at_break rest ->
  no_digit_head rest /\
  (match rest with
   | c :: _ => Ascii.eqb c "." = false /\ Ascii.eqb c "e" = false /\
               Ascii.eqb c "E" = false
   | [] => True
   end).
Proof.
  destruct rest as [|c rest]; [done|]. simpl. intros H.
  apply isspace_facts in H as (? & _ & _ & ? & _ & ? & ? & _). done.
Qed.

Lemma isspace_lower (c : ascii) :
  isspace c = true ->
  Ascii.eqb (lower c) "e" = false /\ Ascii.eqb (lower c) "x" = false /\
  Ascii.eqb (lower c) "n" = false /\ Ascii.eqb (lower c) "i" = false.
Proof. ascii_cases c; vm_compute; intros H; try discriminate H; repeat split. Qed.

Lemma isdigit_lower (c : ascii) :
  isdigit c = true ->
  Ascii.eqb (lower c) "x" = false /\
  Ascii.eqb (lower c) "n" = false /\ Ascii.eqb (lower c) "i" = false.
Proof. ascii_cases c; vm_compute; intros H; try discriminate H; repeat split. Qed.

Lemma read_exponent_text (e : option IntLit) (rest : stream) :
  match e with Some z => int_ok z | None => True end -> at_break rest ->
  read_exponent "e" (exp_text e ++ rest)
  = (match e with Some z => int_value z | None => 0 end, rest).
Proof.
  intros He Hr. destruct (at_break_facts rest Hr) as [Hnd Hc].
  destruct e as [z|]; cbn [exp_text app].
  - unfold read_exponent. change (Ascii.eqb (lower "e") "e") with true. cbv iota.
    unfold render_int. rewrite <- app_assoc, read_sign_text by done.
    destruct He as [Hne Hds]. rewrite read_digits_app by done.
    reflexivity.
  - destruct rest as [|c rest]; [done|]. unfold read_exponent.
    cbn [at_break] in Hr. by destruct (isspace_lower c Hr) as (-> & _).
Qed.

#[local] Arguments read_exponent : simpl never.
#[local] Arguments F32.of_decimal : simpl never.
#[local] Arguments lower : simpl never.

(** The character after the first digit of a numeral is no [x]. *)
Lemma numeral_tail_head (ds : list ascii) (f : option (list ascii))
    (e : option IntLit) (rest : stream) :
  Forall (fun c => isdigit c = true) ds -> at_break rest ->
  match ds ++ frac_text f ++ exp_text e ++ rest with
  | c2 :: _ => Ascii.eqb (lower c2) "x" = false
  | [] => True
  end.
Proof.
  intros Hds Hr. destruct ds as [|d ds]; cbn [app].
  - destruct f as [fd|]; cbn [frac_text app]; [reflexivity|].
    destruct e as [z|]; cbn [exp_text app]; [reflexivity|].
    destruct rest as [|c rest]; [done|]. cbn [at_break] in Hr.
    by destruct (isspace_lower c Hr) as (_ & -> & _).
  - apply Forall_inv in Hds. by destruct (isdigit_lower d Hds) as (-> & _).
Qed.

(** A decimal numeral after its sign. *)
Lemma scan_decimal_numeral (x : Numeral) (rest : stream) :
  numeral_ok x -> at_break rest ->
  scan_decimal (nu_neg x)
    (nu_int x ++ frac_text (nu_frac x) ++ exp_text (nu_exp x) ++ rest)
  = (Some (numeral_value x), rest).
Proof.
  intros (Hint & Hfrac & Hexp) Hr.
  destruct (at_break_facts rest Hr) as [Hnd Hc].
  unfold scan_decimal, numeral_value.
  assert (Hexp_head : no_digit_head (exp_text (nu_exp x) ++ rest)).
  { destruct (nu_exp x); [reflexivity|done]. }
  rewrite read_digits_app; [|by destruct Hint|].
  2:{ destruct (nu_frac x); [reflexivity|done]. }
  destruct (nu_frac x) as [fd|]; cbn [frac_text frac_digits app length] in *.
  - rewrite Ascii.eqb_refl. rewrite read_digits_app by done.
    rewrite (read_exponent_text _ _ Hexp Hr).
    destruct Hint as [Hne _]. destruct (nu_int x); [done|]. reflexivity.
  - destruct Hint as [Hne _].
    destruct (nu_exp x) as [z|] eqn:Hz.
    + pose proof (read_exponent_text (Some z) rest Hexp Hr) as He.
      cbn [exp_text app] in *. change (Ascii.eqb "e" ".") with false. cbv iota.
      rewrite He. destruct (nu_int x); [done|]. reflexivity.
    + pose proof (read_exponent_text None rest Hexp Hr) as He.
      cbn [exp_text app] in *.
      destruct rest as [|c rest].
      * rewrite He. destruct (nu_int x); [done|]. reflexivity.
      * destruct Hc as (-> & _). rewrite He.
        destruct (nu_int x); [done|]. reflexivity.
Qed.

(** [%f] reads a numeral that is followed by a break. *)
Lemma scan_f_numeral (ws : list ascii) (x : Numeral) (rest : stream) :
  all_space ws -> numeral_ok x -> at_break rest ->
  scan_f (ws ++ render_numeral x ++ rest) = (Some (numeral_value x), rest).
Proof.
  intros Hws Hx Hr. pose proof Hx as ((Hne & Hds) & Hfrac & Hexp).
  rewrite <- (scan_decimal_numeral x rest Hx Hr).
  unfold scan_f, render_numeral.
  rewrite skip_ws_app by done. rewrite <- !app_assoc.
  rewrite skip_ws_sign_text, read_sign_text by done.
  destruct (nu_int x) as [|c ds]; [done|]. cbn [app].
  pose proof (Forall_inv Hds) as Hc. cbn beta in Hc.
  destruct (isdigit_lower c Hc) as (_ & -> & ->).
  destruct (Ascii.eqb c "0"); [|done].
  pose proof (numeral_tail_head ds (nu_frac x) (nu_exp x) rest
                (Forall_inv_tail Hds) Hr) as Hx2.
  destruct (ds ++ frac_text (nu_frac x) ++ exp_text (nu_exp x) ++ rest);
    [done|]. by rewrite Hx2.
Qed.

#[local] Arguments scan_f : simpl never.

Lemma at_break_space (s : stream) : at_break (space :: s).
Proof. reflexivity. Qed.

Lemma at_break_newline (s : stream) : at_break (newline :: s).
Proof. reflexivity. Qed.

Lemma all_space_space : all_space [space].
Proof. by repeat constructor. Qed.

Lemma scan_f_space (x : Numeral) (rest : stream) :
  numeral_ok x -> at_break rest ->
  scan_f (space :: render_numeral x ++ rest) = (Some (numeral_value x), rest).
Proof. apply (scan_f_numeral [space] x rest all_space_space). Qed.

(** The three numbers of a [v] or [vn] line and the two of a [vt] line. *)
Lemma scanf_floats_3 (x y z : Numeral) (rest : stream) :
  numeral_ok x -> numeral_ok y -> numeral_ok z ->
  scanf_floats 3 (space :: render_numeral x ++ space :: render_numeral y
                    ++ space :: render_numeral z ++ newline :: rest)
  = ([numeral_value x; numeral_value y; numeral_value z], newline :: rest).
Proof.
  intros Hx Hy Hz. cbn [scanf_floats].
  rewrite (scan_f_space x _ Hx (at_break_space _)).
  rewrite (scan_f_space y _ Hy (at_break_space _)).
  rewrite (scan_f_space z _ Hz (at_break_newline _)).
  reflexivity.
Qed.

Lemma scanf_floats_2 (x y : Numeral) (rest : stream) :
  numeral_ok x -> numeral_ok y ->
  scanf_floats 2 (space :: render_numeral x ++ space :: render_numeral y
                    ++ newline :: rest)
  = ([numeral_value x; numeral_value y], newline :: rest).
Proof.
  intros Hx Hy. cbn [scanf_floats].
  rewrite (scan_f_space x _ Hx (at_break_space _)).
  rewrite (scan_f_space y _ Hy (at_break_newline _)).
  reflexivity.
Qed.

(** ** The material loader keeps the geometry *)

Lemma with_material_buffers (f : Material -> Material) (st st' : MtlState) :
  with_material f st = Some st' ->
  buffers (mt_model st') = buffers (mt_model st) /\
  counters (mt_model st') = counters (mt_model st).
Proof.
  unfold with_material. intros H.
  destruct (mt_pMaterial st); [|discriminate]. simpl in H.
  destruct (vec_update _ _ _); [|discriminate]. simpl in H.
  injection H as <-. destruct st as [m ? ? ?]. destruct m. done.
Qed.

Lemma importMaterials_step_buffers (buffer : list ascii) (s1 s2 : stream)
    (st st' : MtlState) :
  importMaterials_step buffer s1 st = Some (s2, st') ->
  buffers (mt_model st') = buffers (mt_model st) /\
  counters (mt_model st') = counters (mt_model st).
Proof.
  unfold importMaterials_step. intros H.
  repeat case_match; simplify_eq; try done;
    repeat match goal with
    | H : (_ ≫= _) = Some _ |- _ =>
        apply bind_Some in H as (? & H1 & H); simplify_eq
    | H1 : with_material _ _ = Some _ |- _ => apply with_material_buffers in H1
    end; try done.
  all: destruct st as [m ? ? ?]; destruct m; done.
Qed.

Lemma importMaterials_fill_buffers (fuel : nat) : forall (s : stream) (st st' : MtlState),
  importMaterials_fill fuel s st = Some st' ->
  buffers (mt_model st') = buffers (mt_model st) /\
  counters (mt_model st') = counters (mt_model st).
Proof.
  induction fuel as [|fuel IH]; intros s st st' H; simpl in H; [discriminate|].
  destruct (overruns s); [discriminate|].
  destruct (scan_s s) as [[buffer s1]|]; [|by simplify_eq].
  apply bind_Some in H as ([s2 st1] & Hstep & H).
  apply importMaterials_step_buffers in Hstep as [<- <-]. eauto.
Qed.

Lemma importMaterials_buffers (fs : filesystem) (path : string) (m m' : Model)
    (r : bool) :
  importMaterials fs path m = Some (r, m') ->
  buffers m' = buffers m /\ counters m' = counters m.
Proof.
  unfold importMaterials. intros H.
  destruct (fs path) as [pFile|]; [|by simplify_eq].
  apply bind_Some in H as (n & _ & H).
  apply bind_Some in H as (st & Hfill & H). simplify_eq.
  apply importMaterials_fill_buffers in Hfill as [-> ->].
  destruct m; done.
Qed.

(** ** The first pass on a well-formed file *)

Lemma scan_d_fail (s : stream) :
  no_int_ahead s -> scan_d s = (None, skip_ws s).
Proof.
  unfold no_int_ahead, scan_d. destruct (skip_ws s) as [|c r]; [done|].
  intros (Hd & Hp & Hm). unfold read_sign.
  apply Ascii.eqb_neq in Hp, Hm. rewrite Hp, Hm.
  cbn [read_digits]. by rewrite Hd.
Qed.

Lemma scanf_ints_fail (f : faceForm) (s : stream) :
  no_int_ahead s -> scanf_ints (face_format f) s = ([], skip_ws s).
Proof. intros H. destruct f; cbn [face_format scanf_ints]; by rewrite scan_d_fail. Qed.

Lemma no_int_ahead_newline (s : stream) :
  no_int_ahead s -> no_int_ahead (newline :: s).
Proof. done. Qed.

Lemma render_cons (l : ObjLine) (ls : list ObjLine) :
  render (l :: ls) = render_line l ++ render ls.
Proof. reflexivity. Qed.

(** After white space a well-formed file goes on with a keyword. *)
Lemma render_no_int_ahead (ls : list ObjLine) :
  Forall line_ok ls -> no_int_ahead (render ls).
Proof.
  induction 1 as [|l ls [_ Hl] _ IH]; [done|].
  rewrite render_cons. destruct l; try done.
  destruct Hl as ((c & k & -> & Hc) & _). unfold no_int_ahead. cbn [render_line app].
  destruct Hc as (Hs & Hd & Hp & Hm & _). rewrite skip_ws_nonspace by done. done.
Qed.

Lemma sign_text_no_space (neg : bool) :
  Forall (fun c => isspace c = false) (sign_text neg).
Proof. destruct neg; repeat constructor. Qed.

Lemma digits_no_space (ds : list ascii) :
  Forall (fun c => isdigit c = true) ds -> Forall (fun c => isspace c = false) ds.
Proof.
  intros H. eapply Forall_impl; [exact H|].
  intros c Hc. simpl in Hc. by apply isdigit_facts in Hc as [? _].
Qed.

Lemma render_int_no_space (z : IntLit) :
  int_ok z -> Forall (fun c => isspace c = false) (render_int z).
Proof.
  intros [_ Hds]. apply Forall_app. split; [apply sign_text_no_space|].
  by apply digits_no_space.
Qed.

Lemma render_numeral_no_space (x : Numeral) :
  numeral_ok x -> Forall (fun c => isspace c = false) (render_numeral x).
Proof.
  intros ([_ Hi] & Hf & He). unfold render_numeral.
  repeat (apply Forall_app; split).
  - apply sign_text_no_space.
  - by apply digits_no_space.
  - destruct (nu_frac x); [|constructor]. constructor; [done|]. by apply digits_no_space.
  - destruct (nu_exp x); [|constructor]. constructor; [done|]. by apply render_int_no_space.
Qed.

Lemma render_corner_no_space (f : faceForm) (c : CornerLit) :
  corner_ok f c -> Forall (fun c => isspace c = false) (render_corner f c).
Proof.
  intros [Hv Hf].
  destruct f; cbn [render_corner];
    repeat (rewrite ?Forall_app, ?Forall_cons); repeat split;
    try done; apply render_int_no_space; tauto.
Qed.

Lemma render_corner_nonempty (f : faceForm) (c : CornerLit) :
  corner_ok f c -> render_corner f c <> [].
Proof.
  intros [Hv _]. destruct (render_int_cons _ Hv) as (a & r & Heq & _).
  destruct f; cbn [render_corner]; rewrite Heq; done.
Qed.

Lemma no_space_no_newline (t : list ascii) :
  Forall (fun c => isspace c = false) t -> Forall (fun c => c <> newline) t.
Proof. intros H. eapply Forall_impl; [exact H|]. intros c Hc ->. discriminate. Qed.

Lemma scan_s_space (s : stream) : scan_s (space :: s) = scan_s s.
Proof. apply (scan_s_skip [space] s all_space_space). Qed.

Lemma scan_s_newline (s : stream) : scan_s (newline :: s) = scan_s s.
Proof. reflexivity. Qed.

Ltac list_len :=
  repeat (rewrite ?length_app, ?length_cons in *; cbn [length] in *); lia.

(** A keyword, the text [t] of the rest of its line, and what follows. *)
Lemma keyword_line (kw t : list ascii) (R : stream) :
  kw <> [] -> Forall (fun c => isspace c = false) kw ->
  at_break (t ++ newline :: R) ->
  Forall (fun c => c <> newline) t -> (length t < 255)%nat ->
  (length kw < 256)%nat ->
  overruns (kw ++ t ++ newline :: R) = false /\
  scan_s (kw ++ t ++ newline :: R) = Some (c_str kw, t ++ newline :: R) /\
  fgets (t ++ newline :: R) = (Some (t ++ [newline]), R).
Proof.
  intros Hne Hkw Hbr Ht Hlen Hk. split; [|split].
  - by apply overruns_word.
  - by apply scan_s_word.
  - by apply fgets_line.
Qed.

Lemma no_nul_check (w : list ascii) :
  forallb (fun c => negb (Ascii.eqb c nul)) w = true ->
  Forall (fun c => c <> nul) w.
Proof.
  induction w as [|c w IH]; [constructor|]. cbn [forallb].
  intros [Hc Hw]%andb_true_iff. constructor; [|by apply IH].
  apply Ascii.eqb_neq. by destruct (Ascii.eqb c nul).
Qed.

Lemma c_str_token (w : string) :
  forallb (fun c => negb (Ascii.eqb c nul)) (token w) = true ->
  c_str (token w) = token w.
Proof. intros H. by apply c_str_id, no_nul_check. Qed.

(** The text of a buffer that holds a word and more after it. *)
Lemma c_str_app (w r : list ascii) :
  c_str (w ++ r) = c_str w \/ c_str (w ++ r) = w ++ c_str r /\ c_str w = w.
Proof.
  induction w as [|c w IH]; [by right|]. cbn [app c_str].
  destruct (Ascii.eqb c nul); [by left|].
  destruct IH as [->|[-> ->]]; [by left|by right].
Qed.

Lemma c_str_no_space (w : list ascii) :
  Forall (fun c => isspace c = false) w ->
  Forall (fun c => isspace c = false) (c_str w).
Proof.
  induction 1 as [|c w Hc _ IH]; [constructor|]. cbn [c_str].
  destruct (Ascii.eqb c nul); [constructor|]. by constructor.
Qed.

Lemma scan_s_nil : scan_s [] = None.
Proof. reflexivity. Qed.

Lemma scan_s_end (w : list ascii) :
  w <> [] -> Forall (fun c => isspace c = false) w ->
  scan_s w = Some (c_str w, []).
Proof.
  intros Hne Hw. rewrite <- (app_nil_r w) at 1. by apply scan_s_word.
Qed.

Lemma sscanf_name (file : list ascii) :
  word_ok file -> sscanf_s_s (space :: file ++ [newline]) = name_read file.
Proof.
  intros (Hne & Hw & _). unfold sscanf_s_s, name_read.
  change (c_str (space :: file ++ [newline]))
    with (space :: c_str (file ++ [newline])).
  change (isspace space) with true. cbv iota.
  rewrite scan_s_space.
  destruct (c_str_app file [newline]) as [->|[-> Hid]].
  - destruct (c_str file) as [|c t] eqn:E; [done|].
    rewrite <- E. rewrite scan_s_end.
    + by rewrite c_str_idempotent, E.
    + by rewrite E.
    + by apply c_str_no_space.
  - rewrite Hid. change (c_str [newline]) with [newline].
    rewrite scan_s_word by done. rewrite Hid.
    change (scan_s [newline]) with (@None (list ascii * stream)).
    by destruct file.
Qed.

Lemma read_name_line (buffer file : list ascii) (R : stream) :
  word_ok file ->
  read_name buffer (space :: file ++ newline :: R) = (name_read file, R).
Proof.
  intros Hw. pose proof Hw as (Hne & Hns & Hlen). unfold read_name.
  change (space :: file ++ newline :: R) with ((space :: file) ++ newline :: R).
  rewrite fgets_line.
  - cbn [after_fgets app]. by rewrite sscanf_name.
  - constructor; [done|]. by apply no_space_no_newline.
  - simpl. lia.
Qed.

(** The first pass skips a line whose keyword begins with none of [f],
    [m] and [v]. *)
Lemma firstPass_step_other (fs : filesystem) (c : ascii) (k : list ascii)
    (s1 : stream) (m : Model) :
  c <> "f"%char -> c <> "m"%char -> c <> "v"%char ->
  firstPass_step fs (c_str (c :: k)) s1 m = Some (snd (fgets s1), m).
Proof. intros Hf Hm Hv. ascii_cases c; try done. Qed.

(** The [while] loop of a face in the first pass. *)
Lemma firstPass_fan_corners (f : faceForm) (more : list CornerLit) :
  forall (R : stream) (fuel : nat) (n : Z),
    Forall (corner_ok f) more -> no_int_ahead R -> (length more < fuel)%nat ->
    firstPass_fan fuel (face_format f)
      (concat (map (fun c => space :: render_corner f c) more) ++ newline :: R) n
    = Some (skip_ws R, n + vec_size more).
Proof.
  induction more as [|c more IH]; intros R fuel n Hok HR Hfuel.
  - destruct fuel; [simpl in Hfuel; lia|]. cbn [map concat app firstPass_fan].
    rewrite scanf_ints_fail by done. unfold vec_size. simpl. by rewrite Z.add_0_r.
  - destruct fuel; [simpl in Hfuel; lia|].
    apply Forall_cons in Hok as [Hc Hok].
    cbn [map concat firstPass_fan]. rewrite <- app_assoc. cbn [app].
    pose proof (scanf_ints_corner f [space] c
                  (concat (map (fun c => space :: render_corner f c) more)
                     ++ newline :: R) all_space_space Hc) as Hscan.
    cbn [app] in Hscan. rewrite Hscan.
    + rewrite IH by (done || simpl in Hfuel; lia).
      destruct f; cbn [corner_values]; unfold vec_size; simpl; do 2 f_equal; lia.
    + destruct more; [reflexivity|reflexivity].
Qed.

Lemma corners_length (f : faceForm) (more : list CornerLit) (r : stream) :
  (length more
   <= length (concat (map (fun c => space :: render_corner f c) more) ++ r))%nat.
Proof.
  induction more as [|c more IH]; cbn [map List.concat]; [simpl; lia|].
  rewrite <- app_assoc. cbn [app length].
  rewrite (length_app (render_corner f c)). lia.
Qed.

Lemma sign_text_no_nul (neg : bool) :
  Forall (fun c => c <> nul) (sign_text neg).
Proof. destruct neg; repeat constructor. discriminate. Qed.

Lemma digits_no_nul (ds : list ascii) :
  Forall (fun c => isdigit c = true) ds -> Forall (fun c => c <> nul) ds.
Proof.
  intros H. eapply Forall_impl; [exact H|].
  intros c Hc. by apply isdigit_not_nul.
Qed.

Lemma render_int_no_nul (z : IntLit) :
  int_ok z -> Forall (fun c => c <> nul) (render_int z).
Proof.
  intros [_ Hds]. apply Forall_app. split; [apply sign_text_no_nul|].
  by apply digits_no_nul.
Qed.

Lemma render_corner_no_nul (f : faceForm) (c : CornerLit) :
  corner_ok f c -> Forall (fun c => c <> nul) (render_corner f c).
Proof.
  intros [Hv Hf].
  destruct f; cbn [render_corner];
    repeat (rewrite ?Forall_app, ?Forall_cons); repeat split;
    try discriminate; apply render_int_no_nul; tauto.
Qed.

Lemma overruns_space (s : stream) : overruns (space :: s) = overruns s.
Proof. reflexivity. Qed.

Lemma overruns_newline (s : stream) : overruns (newline :: s) = overruns s.
Proof. reflexivity. Qed.

(** The first corner of a face as [buffer] holds it. *)
Lemma first_corner (f : faceForm) (c0 : CornerLit) (buffer : list ascii)
    (rest : stream) :
  corner_ok f c0 -> at_break rest ->
  (length (render_corner f c0) < 256)%nat ->
  overruns (space :: render_corner f c0 ++ rest) = false /\
  scan_s_keep buffer (space :: render_corner f c0 ++ rest)
  = (render_corner f c0, rest).
Proof.
  intros H0 Hr Hlen. split.
  - rewrite overruns_space. apply overruns_word; try done.
    + by apply render_corner_nonempty.
    + by apply render_corner_no_space.
  - unfold scan_s_keep. rewrite scan_s_space.
    rewrite scan_s_word;
      [|by apply render_corner_nonempty|by apply render_corner_no_space|done].
    by rewrite c_str_id by (by apply render_corner_no_nul).
Qed.

(** The case ['f'] of the first pass on the corners of a face. *)
Lemma firstPass_face_corners (f : faceForm) (c0 c1 c2 : CornerLit)
    (more : list CornerLit) (buffer : list ascii) (R : stream) (n : Z) :
  Forall (corner_ok f) (c0 :: c1 :: c2 :: more) -> no_int_ahead R ->
  (length (render_corner f c0) < 256)%nat ->
  firstPass_face buffer
    (concat (map (fun c => space :: render_corner f c) (c0 :: c1 :: c2 :: more))
       ++ newline :: R) n
  = Some (skip_ws R, n + (1 + vec_size more)).
Proof.
  intros Hok HR Hlen.
  apply Forall_cons in Hok as [H0 Hok]. apply Forall_cons in Hok as [H1 Hok].
  apply Forall_cons in Hok as [H2 Hok].
  unfold firstPass_face. cbn [map concat].
  rewrite <- !app_assoc. cbn [app].
  edestruct (first_corner f c0 buffer) as [-> ->]; [done| |done|]; [done|].
  rewrite face_form_corner by done.
  pose proof (fun r => scanf_ints_corner f [space] c1 r all_space_space H1) as S1.
  pose proof (fun r => scanf_ints_corner f [space] c2 r all_space_space H2) as S2.
  cbn [app] in S1, S2.
  rewrite S1 by done. rewrite S2 by (by destruct more).
  rewrite firstPass_fan_corners;
    [|done|done|pose proof (corners_length f more (newline :: R)); lia].
  do 2 f_equal. lia.
Qed.

Ltac reassoc :=
  cbn [render_line token list_ascii_of_string];
  repeat (rewrite <- ?app_assoc; cbn [app]); reflexivity.

Lemma numerals3_text (x y z : Numeral) :
  numeral_ok x -> numeral_ok y -> numeral_ok z ->
  Forall (fun c => c <> newline)
    (space :: render_numeral x ++ space :: render_numeral y
       ++ space :: render_numeral z).
Proof.
  intros Hx Hy Hz.
  repeat (rewrite ?Forall_app, ?Forall_cons); repeat split; try done;
    by apply no_space_no_newline, render_numeral_no_space.
Qed.

Lemma numerals2_text (x y : Numeral) :
  numeral_ok x -> numeral_ok y ->
  Forall (fun c => c <> newline)
    (space :: render_numeral x ++ space :: render_numeral y).
Proof.
  intros Hx Hy.
  repeat (rewrite ?Forall_app, ?Forall_cons); repeat split; try done;
    by apply no_space_no_newline, render_numeral_no_space.
Qed.

(** The length of a part of a line. *)
Lemma first_corner_length (f : faceForm) (c0 c1 c2 : CornerLit)
    (more : list CornerLit) :
  (length (render_line (Lf f c0 c1 c2 more)) <= 255)%nat ->
  (length (render_corner f c0) < 256)%nat.
Proof. cbn [render_line map concat token list_ascii_of_string]. list_len. Qed.

(** One turn of the loop of the first pass on a line that is not blank. *)
Lemma firstPass_line (fs : filesystem) (l : ObjLine) (R : stream) (m : Model) :
  line_ok l -> no_int_ahead R ->
  match l with
  | Lmtllib file => mtl_loadable fs (m_directoryPath m) file
  | _ => True
  end ->
  l <> Lblank ->
  exists buffer s1 s2 m',
    overruns (render_line l ++ R) = false /\
    scan_s (render_line l ++ R) = Some (buffer, s1) /\
    firstPass_step fs buffer s1 m = Some (s2, m') /\
    skip_ws s2 = skip_ws R /\
    buffers m' = buffers m /\
    counters m' = counters_after m l.
Proof.
  intros [Hlen Hl] HR Hmtl Hnb.
  destruct l as [x y z|x y z|u v|f c0 c1 c2 more|file|mat|kw rest|]; [..|done].
  - destruct Hl as (Hx & Hy & Hz).
    destruct (keyword_line (token "v")
                (space :: render_numeral x ++ space :: render_numeral y
                   ++ space :: render_numeral z) R) as (Ho & Hs & Hg);
      [done|by repeat constructor|done|by apply numerals3_text|
       cbn [render_line token list_ascii_of_string] in Hlen; list_len|
       simpl; lia|].
    rewrite c_str_token in Hs by reflexivity.
    eexists _, _, _, _. split; [|split; [|split; [|split; [|split]]]].
    + etrans; [|exact Ho]. first [by f_equal | f_equal; reassoc].
    + etrans; [|exact Hs]. f_equal. reassoc.
    + unfold token. cbn [list_ascii_of_string firstPass_step]. rewrite Hg. reflexivity.
    + reflexivity.
    + by destruct m.
    + destruct m; unfold counters, counters_after; simpl. repeat f_equal; lia.
  - destruct Hl as (Hx & Hy & Hz).
    destruct (keyword_line (token "vn")
                (space :: render_numeral x ++ space :: render_numeral y
                   ++ space :: render_numeral z) R) as (Ho & Hs & Hg);
      [done|by repeat constructor|done|by apply numerals3_text|
       cbn [render_line token list_ascii_of_string] in Hlen; list_len|
       simpl; lia|].
    rewrite c_str_token in Hs by reflexivity.
    eexists _, _, _, _. split; [|split; [|split; [|split; [|split]]]].
    + etrans; [|exact Ho]. first [by f_equal | f_equal; reassoc].
    + etrans; [|exact Hs]. f_equal. reassoc.
    + unfold token. cbn [list_ascii_of_string firstPass_step]. rewrite Hg. reflexivity.
    + reflexivity.
    + by destruct m.
    + destruct m; unfold counters, counters_after; simpl. repeat f_equal; lia.
  - destruct Hl as (Hx & Hy).
    destruct (keyword_line (token "vt")
                (space :: render_numeral u ++ space :: render_numeral v) R)
      as (Ho & Hs & Hg);
      [done|by repeat constructor|done|by apply numerals2_text|
       cbn [render_line token list_ascii_of_string] in Hlen; list_len|
       simpl; lia|].
    rewrite c_str_token in Hs by reflexivity.
    eexists _, _, _, _. split; [|split; [|split; [|split; [|split]]]].
    + etrans; [|exact Ho]. first [by f_equal | f_equal; reassoc].
    + etrans; [|exact Hs]. f_equal. reassoc.
    + unfold token. cbn [list_ascii_of_string firstPass_step]. rewrite Hg. reflexivity.
    + reflexivity.
    + by destruct m.
    + destruct m; unfold counters, counters_after; simpl. repeat f_equal; lia.
  - pose proof (first_corner_length _ _ _ _ _ Hlen) as Hlen0.
    eexists _, _, _, _. split; [|split; [|split; [|split; [|split]]]].
    + cbn [render_line]. rewrite <- !app_assoc.
      apply overruns_word; [done|by repeat constructor|done|simpl; lia].
    + cbn [render_line]. rewrite <- !app_assoc.
      rewrite scan_s_word; [|done|by repeat constructor|done].
      by rewrite c_str_token by reflexivity.
    + unfold token. cbn [list_ascii_of_string firstPass_step app].
      rewrite firstPass_face_corners by done. reflexivity.
    + apply skip_ws_idempotent.
    + by destruct m.
    + destruct m; unfold counters, counters_after; simpl. repeat f_equal; lia.
  - destruct (Hmtl m) as [[r m'] Hm'].
    destruct (importMaterials_buffers _ _ _ _ _ Hm') as [Hb Hc].
    eexists _, _, _, _. split; [|split; [|split; [|split; [|split]]]].
    + cbn [render_line]. repeat (rewrite <- ?app_assoc; cbn [app]).
      apply overruns_word; [done|by repeat constructor|done|simpl; lia].
    + cbn [render_line]. repeat (rewrite <- ?app_assoc; cbn [app]).
      rewrite scan_s_word; [|done|by repeat constructor|done].
      by rewrite c_str_token by reflexivity.
    + unfold token. cbn [list_ascii_of_string firstPass_step app].
      rewrite read_name_line by done. rewrite Hm'. reflexivity.
    + reflexivity.
    + done.
    + rewrite Hc. unfold counters, counters_after; simpl. repeat f_equal; lia.
  - pose proof Hl as (Hne & Hns & Hlen').
    destruct (keyword_line (token "usemtl") (space :: mat) R) as (Ho & Hs & Hg);
      [done|by repeat constructor|done|
       constructor; [done|by apply no_space_no_newline]|simpl; lia|simpl; lia|].
    rewrite c_str_token in Hs by reflexivity.
    eexists _, _, _, _. split; [|split; [|split; [|split; [|split]]]].
    + etrans; [|exact Ho]. first [by f_equal | f_equal; reassoc].
    + etrans; [|exact Hs]. f_equal. reassoc.
    + unfold token. cbn [list_ascii_of_string firstPass_step]. rewrite Hg. reflexivity.
    + reflexivity.
    + done.
    + unfold counters, counters_after; simpl. repeat f_equal; lia.
  - destruct Hl as ((c & k & -> & Hc) & Hns & Hnl & Hbr).
    destruct (keyword_line (c :: k) rest R) as (Ho & Hs & Hg);
      [done|done|by destruct rest|done|
       cbn [render_line] in Hlen; list_len|
       cbn [render_line] in Hlen; list_len|].
    destruct Hc as (_ & _ & _ & _ & Hf & Hm & _ & Hv).
    eexists _, _, _, _. split; [|split; [|split; [|split; [|split]]]].
    + etrans; [|exact Ho]. first [by f_equal | f_equal; reassoc].
    + etrans; [|exact Hs]. f_equal. reassoc.
    + rewrite firstPass_step_other by done. rewrite Hg. reflexivity.
    + reflexivity.
    + done.
    + unfold counters, counters_after; simpl. repeat f_equal; lia.
Qed.

Lemma scan_s_ext (s s' : stream) : skip_ws s = skip_ws s' -> scan_s s = scan_s s'.
Proof. unfold scan_s. by intros ->. Qed.

Lemma mtllibs_cons (fs : filesystem) (dir : string) (l : ObjLine)
    (ls : list ObjLine) :
  Forall (mtl_loadable fs dir) (mtllibs (l :: ls)) ->
  match l with
  | Lmtllib file => mtl_loadable fs dir file
  | _ => True
  end /\ Forall (mtl_loadable fs dir) (mtllibs ls).
Proof. destruct l; cbn [mtllibs]; try done. by intros [? ?]%Forall_cons. Qed.

(** The loop of the first pass on a well-formed file. *)
Lemma firstPass_loop_render (fs : filesystem) (dir : string) (ls : list ObjLine) :
  forall (s : stream) (fuel : nat) (m : Model),
    Forall line_ok ls -> Forall (mtl_loadable fs dir) (mtllibs ls) ->
    m_directoryPath m = dir ->
    skip_ws s = skip_ws (render ls) -> (length ls < fuel)%nat ->
    exists m',
      firstPass_loop fuel fs s m = Some m' /\
      buffers m' = buffers m /\
      counters m' = counters_after_all m ls.
Proof.
  induction ls as [|l ls IH]; intros s fuel m Hok Hmtl Hdir Hs Hfuel.
  - destruct fuel; [simpl in Hfuel; lia|]. cbn [firstPass_loop].
    unfold overruns, scan_s. rewrite Hs. cbn. exists m. split; [done|]. split; [done|].
    unfold counters, counters_after_all. cbn. by rewrite !Z.add_0_r.
  - destruct fuel; [simpl in Hfuel; lia|].
    apply Forall_cons in Hok as [Hl Hok].
    apply mtllibs_cons in Hmtl as [Hml Hmtl].
    assert (l = Lblank \/ l <> Lblank) as [->|Hnb]
      by (destruct l; (by left) || (by right)).
    + destruct (IH s (S fuel) m Hok Hmtl Hdir) as (m' & Hloop & Hb & Hc);
        [by rewrite Hs|simpl in Hfuel; lia|].
      exists m'. split; [done|]. split; [done|].
      rewrite Hc. unfold counters_after_all, count_v, count_vt, count_vn, triangles.
      cbn. done.
    + rewrite render_cons in Hs.
      destruct (firstPass_line fs l (render ls) m Hl (render_no_int_ahead ls Hok))
        as (buffer & s1 & s2 & m1 & Hover & Hscan & Hstep & Hs2 & Hb1 & Hc1);
        [by subst dir; destruct l|done|].
      cbn [firstPass_loop].
      rewrite (overruns_ext _ _ Hs), Hover, (scan_s_ext _ _ Hs), Hscan, Hstep.
      cbn [mbind option_bind].
      destruct (IH s2 fuel m1 Hok Hmtl) as (m' & Hloop & Hb & Hc);
        [|done|simpl in Hfuel; lia|].
      { unfold buffers in Hb1. by simplify_eq. }
      exists m'. split; [done|]. split; [by rewrite Hb, Hb1|].
      unfold counters_after_all, counters, counters_after in *.
      injection Hc1 as E1 E2 E3 E4. rewrite Hc, E1, E2, E3, E4.
      unfold count_v, count_vt, count_vn, triangles. cbn [count_with].
      by rewrite !Z.add_assoc.
Qed.

Lemma count_with_nonneg (f : ObjLine -> Z) (ls : list ObjLine) :
  (forall l, 0 <= f l) -> 0 <= count_with f ls.
Proof.
  intros Hf. induction ls as [|l ls IH]; cbn [count_with]; [lia|].
  specialize (Hf l). lia.
Qed.

Lemma counts_nonneg (ls : list ObjLine) :
  0 <= count_v ls /\ 0 <= count_vt ls /\ 0 <= count_vn ls /\ 0 <= triangles ls.
Proof.
  repeat split; apply count_with_nonneg; intros [];
    unfold is_v, is_vt, is_vn, line_triangles, vec_size; lia.
Qed.

Lemma vec_resize_size {A : Type} (d : A) (n : Z) (v : list A) :
  0 <= n -> vec_size (vec_resize d n v) = n.
Proof.
  intros Hn. unfold vec_size, vec_resize.
  rewrite length_app, length_take, length_replicate. lia.
Qed.


(** ** The second pass on a well-formed file *)

Lemma addVertex_frame (h : Z) (v : Vertex) (m m' : Model) (i : Z) :
  addVertex h v m = Some (i, m') ->
  m_indexBuffer m' = m_indexBuffer m /\
  m_attributeBuffer m' = m_attributeBuffer m /\
  m_vertexCoords m' = m_vertexCoords m /\
  m_textureCoords m' = m_textureCoords m /\
  m_normals m' = m_normals m.
Proof.
  unfold addVertex. intros H.
  destruct (m_vertexCache m !! h) as [l|]; [|injection H as <- <-; by destruct m].
  destruct (addVertex_scan _ _ _) as [[j|]|]; [| |done];
    injection H as <- <-; by destruct m.
Qed.

Lemma vec_set_size {A : Type} (a : list A) (i : Z) (x : A) :
  0 <= i < vec_size a ->
  exists a', vec_set a i x = Some a' /\ vec_size a' = vec_size a.
Proof.
  intros Hi. unfold vec_set. rewrite decide_True by done.
  eexists. split; [done|]. unfold vec_size. by rewrite length_insert.
Qed.

Lemma fetch3_defined (a : list float) (i n : Z) :
  vec_size a = n * 3 -> 0 <= i < n -> exists p, fetch3 a i = Some p.
Proof.
  intros Hs Hi. unfold fetch3.
  destruct (vec_at_lt_Some a (i * 3)) as [x ->]; [lia|].
  destruct (vec_at_lt_Some a (i * 3 + 1)) as [y ->]; [lia|].
  destruct (vec_at_lt_Some a (i * 3 + 2)) as [z ->]; [lia|].
  by eexists.
Qed.

Lemma fetch2_defined (a : list float) (i n : Z) :
  vec_size a = n * 2 -> 0 <= i < n -> exists p, fetch2 a i = Some p.
Proof.
  intros Hs Hi. unfold fetch2.
  destruct (vec_at_lt_Some a (i * 2)) as [x ->]; [lia|].
  destruct (vec_at_lt_Some a (i * 2 + 1)) as [y ->]; [lia|].
  by eexists.
Qed.

Lemma fetch3_vertexCoords (T : Counts) (n : Z) (m : Model) (i : Z) :
  sized T n m -> 0 <= i < n_v T -> exists p, fetch3 (m_vertexCoords m) i = Some p.
Proof. intros (H & _) Hi. by eapply fetch3_defined. Qed.

Lemma fetch2_textureCoords (T : Counts) (n : Z) (m : Model) (i : Z) :
  sized T n m -> 0 <= i < n_vt T -> exists p, fetch2 (m_textureCoords m) i = Some p.
Proof. intros (_ & H & _) Hi. by eapply fetch2_defined. Qed.

Lemma fetch3_normals (T : Counts) (n : Z) (m : Model) (i : Z) :
  sized T n m -> 0 <= i < n_vn T -> exists p, fetch3 (m_normals m) i = Some p.
Proof. intros (_ & _ & H & _) Hi. by eapply fetch3_defined. Qed.

(** [m_indexBuffer[slot] = addVertex(...)] writes inside the index buffer
    and keeps every size. *)
Lemma emit_sized (T : Counts) (n slot hash : Z) (vertex : Vertex) (m : Model) :
  sized T n m -> 0 <= slot < n * 3 ->
  exists m', emit slot hash vertex m = Some m' /\ sized T n m'.
Proof.
  intros (Hv & Ht & Hn & Hi & Ha & Hwf) Hslot. unfold emit.
  destruct (addVertex_step m hash vertex Hwf) as (i & m1 & Hadd & Hwf1 & _ & _).
  rewrite Hadd. cbn [mbind option_bind].
  destruct (addVertex_frame _ _ _ _ _ Hadd) as (Ei & Ea & Ec & Et & En).
  destruct (vec_set_size (m_indexBuffer m1) slot i) as (ib & Hset & Hsz);
    [rewrite Ei; lia|].
  rewrite Hset. cbn [mbind option_bind]. eexists. split; [done|].
  unfold sized, cache_wf in *. destruct m1; simpl in *.
  rewrite Hsz. subst. done.
Qed.

Lemma attribute_sized (T : Counts) (n index material : Z) (m : Model) :
  sized T n m -> 0 <= index < n ->
  exists ab, vec_set (m_attributeBuffer m) index material = Some ab /\
             sized T n (set_m_attributeBuffer ab m).
Proof.
  intros (Hv & Ht & Hn & Hi & Ha & Hwf) Hindex.
  destruct (vec_set_size (m_attributeBuffer m) index material) as (ab & Hset & Hsz);
    [lia|].
  exists ab. split; [done|].
  unfold sized, cache_wf in *. destruct m; simpl in *. by rewrite Hsz.
Qed.

Ltac pass2_step :=
  match goal with
  | H : sized ?T ?n ?m |- context [fetch3 (m_vertexCoords ?m) ?i] =>
      let E := fresh in
      destruct (fetch3_vertexCoords T n m i H) as [? E]; [lia|];
      rewrite E; clear E; cbn [mbind option_bind]
  | H : sized ?T ?n ?m |- context [fetch2 (m_textureCoords ?m) ?i] =>
      let E := fresh in
      destruct (fetch2_textureCoords T n m i H) as [? E]; [lia|];
      rewrite E; clear E; cbn [mbind option_bind]
  | H : sized ?T ?n ?m |- context [fetch3 (m_normals ?m) ?i] =>
      let E := fresh in
      destruct (fetch3_normals T n m i H) as [? E]; [lia|];
      rewrite E; clear E; cbn [mbind option_bind]
  | H : sized ?T ?n ?m |- context [emit ?slot ?h ?v ?m] =>
      let E := fresh in
      let H' := fresh "Hsz" in
      destruct (emit_sized T n slot h v m H) as (? & E & H'); [lia|];
      rewrite E; clear E H; cbn [mbind option_bind]
  end.

(** Each [addTriangle...] writes triangle [index] inside the buffers. *)
Lemma addTriangle_sized (T : Counts) (n : Z) (f : faceForm)
    (index material : Z) (c0 c1 c2 : Corner) (m : Model) :
  sized T n m -> 0 <= index < n ->
  corner_in_range f T c0 -> corner_in_range f T c1 -> corner_in_range f T c2 ->
  exists m', addTriangle f index material c0 c1 c2 m = Some m' /\ sized T n m'.
Proof.
  intros Hsz Hindex H0 H1 H2.
  destruct (attribute_sized T n index material m Hsz Hindex) as (ab & Hab & Hsz0).
  clear Hsz.
  destruct f; unfold corner_in_range in *;
    cbn [addTriangle]; unfold addTrianglePosNormal, addTrianglePosTexCoordNormal,
      addTrianglePosTexCoord, addTrianglePos;
    rewrite Hab; cbn [mbind option_bind];
    repeat pass2_step; eauto.
Qed.

Lemma emit_triangle_sized (T : Counts) (n : Z) (f : faceForm)
    (c0 c1 c2 : Corner) (st : Pass2) :
  sized T n (p2_model st) -> 0 <= numTriangles st < n ->
  corner_in_range f T c0 -> corner_in_range f T c1 -> corner_in_range f T c2 ->
  exists m',
    emit_triangle f c0 c1 c2 st
    = Some (Build_Pass2 m' (numVertices st) (numTexCoords st) (numNormals st)
              (numTriangles st + 1) (activeMaterial st)) /\
    sized T n m'.
Proof.
  intros Hsz Hn H0 H1 H2. unfold emit_triangle.
  destruct (addTriangle_sized T n f (numTriangles st) (activeMaterial st)
              c0 c1 c2 (p2_model st) Hsz Hn H0 H1 H2) as (m' & -> & Hsz').
  by exists m'.
Qed.

(** ** What a triangle written by the second pass holds *)

Lemma grows_refl (m : Model) : grows m m.
Proof. split; [exists []; by rewrite app_nil_r|done]. Qed.

Lemma grows_trans (m1 m2 m3 : Model) : grows m1 m2 -> grows m2 m3 -> grows m1 m3.
Proof.
  intros ([e1 H1] & A1 & B1 & C1 & D1) ([e2 H2] & A2 & B2 & C2 & D2).
  split; [exists (e1 ++ e2); by rewrite H2, H1, app_assoc|].
  repeat split; congruence.
Qed.

Lemma grows_vertex (m m' : Model) (i : Z) (v : Vertex) :
  grows m m' -> vec_at (m_vertexBuffer m) i = Some v ->
  vec_at (m_vertexBuffer m') i = Some v.
Proof. intros ([ext ->] & _) H. by apply vec_at_app_l. Qed.

Lemma addVertex_grows (h : Z) (v : Vertex) (m m' : Model) (i : Z) :
  addVertex h v m = Some (i, m') ->
  vec_at (m_vertexBuffer m') i = Some v /\ grows m m'.
Proof.
  unfold addVertex. intros H.
  destruct (m_vertexCache m !! h) as [l|].
  - destruct (addVertex_scan _ _ _) as [[j|]|] eqn:Hscan; [| |done].
    + injection H as <- <-.
      apply addVertex_scan_found in Hscan as [Hj _]. split; [done|apply grows_refl].
    + injection H as <- <-. destruct m; cbn.
      split; [apply vec_at_size_app|]. split; [by eexists|done].
  - injection H as <- <-. destruct m; cbn.
    split; [apply vec_at_size_app|]. split; [by eexists|done].
Qed.

Lemma vec_set_at {A : Type} (a a' : list A) (i : Z) (x : A) :
  vec_set a i x = Some a' ->
  vec_at a' i = Some x /\ forall j, j <> i -> vec_at a' j = vec_at a j.
Proof.
  unfold vec_set, vec_at, vec_size. destruct (decide _) as [Hi|]; [|discriminate].
  intros [= <-]. split.
  - rewrite decide_True by lia. apply list_lookup_insert_eq. lia.
  - intros j Hj. destruct (decide (0 <= j)); [|done].
    apply list_lookup_insert_ne. lia.
Qed.

(** [m_indexBuffer[slot] = addVertex(hash, &vertex)]: the slot then
    designates a vertex with the bytes of [vertex]. *)
Lemma emit_content (slot hash : Z) (vertex : Vertex) (m m' : Model) :
  emit slot hash vertex m = Some m' ->
  (exists i, vec_at (m_indexBuffer m') slot = Some i /\
             vec_at (m_vertexBuffer m') i = Some vertex) /\
  (forall s, s <> slot -> vec_at (m_indexBuffer m') s = vec_at (m_indexBuffer m) s) /\
  m_attributeBuffer m' = m_attributeBuffer m /\
  grows m m'.
Proof.
  unfold emit. intros H.
  destruct (addVertex hash vertex m) as [[i m1]|] eqn:Hadd; [|discriminate].
  cbn [mbind option_bind] in H.
  destruct (vec_set (m_indexBuffer m1) slot i) as [ib|] eqn:Hset; [|discriminate].
  injection H as <-.
  destruct (addVertex_grows _ _ _ _ _ Hadd) as [Hv Hg].
  destruct (addVertex_frame _ _ _ _ _ Hadd) as (Ei & Ea & _).
  destruct (vec_set_at _ _ _ _ Hset) as [Hi Hother].
  destruct m1; cbn in *. subst. repeat split; try done.
  - by exists i.
  - apply Hg.
  - apply Hg.
  - apply Hg.
  - apply Hg.
  - apply Hg.
Qed.

Lemma emitted_triangle_of (m : Model) (t i0 i1 i2 a : Z) (v0 v1 v2 : Vertex) :
  vec_at (m_indexBuffer m) (3 * t) = Some i0 ->
  vec_at (m_indexBuffer m) (3 * t + 1) = Some i1 ->
  vec_at (m_indexBuffer m) (3 * t + 2) = Some i2 ->
  vec_at (m_vertexBuffer m) i0 = Some v0 ->
  vec_at (m_vertexBuffer m) i1 = Some v1 ->
  vec_at (m_vertexBuffer m) i2 = Some v2 ->
  vec_at (m_attributeBuffer m) t = Some a ->
  emitted_triangle m t = Some (Build_Tri v0 v1 v2 a).
Proof.
  intros H0 H1 H2 V0 V1 V2 Ha. unfold emitted_triangle.
  rewrite H0, H1, H2. cbn [mbind option_bind]. rewrite V0, V1, V2.
  cbn [mbind option_bind]. by rewrite Ha.
Qed.

Lemma emitted_triangle_inv (m : Model) (t : Z) (tri : Tri) :
  emitted_triangle m t = Some tri ->
  exists i0 i1 i2,
    vec_at (m_indexBuffer m) (3 * t) = Some i0 /\
    vec_at (m_indexBuffer m) (3 * t + 1) = Some i1 /\
    vec_at (m_indexBuffer m) (3 * t + 2) = Some i2 /\
    vec_at (m_vertexBuffer m) i0 = Some (t_v0 tri) /\
    vec_at (m_vertexBuffer m) i1 = Some (t_v1 tri) /\
    vec_at (m_vertexBuffer m) i2 = Some (t_v2 tri) /\
    vec_at (m_attributeBuffer m) t = Some (t_material tri).
Proof.
  unfold emitted_triangle. intros H.
  apply bind_Some in H as (i0 & H0 & H). apply bind_Some in H as (i1 & H1 & H).
  apply bind_Some in H as (i2 & H2 & H). apply bind_Some in H as (v0 & V0 & H).
  apply bind_Some in H as (v1 & V1 & H). apply bind_Some in H as (v2 & V2 & H).
  apply bind_Some in H as (a & Ha & H). injection H as <-.
  by exists i0, i1, i2.
Qed.

(** Three vertices written for triangle [index] after its material. *)
Lemma three_emits (index material h0 h1 h2 : Z) (x0 x1 x2 : Vertex)
    (ab : list Z) (m m1 m2 m' : Model) :
  vec_set (m_attributeBuffer m) index material = Some ab ->
  emit (index * 3) h0 x0 (set_m_attributeBuffer ab m) = Some m1 ->
  emit (index * 3 + 1) h1 x1 m1 = Some m2 ->
  emit (index * 3 + 2) h2 x2 m2 = Some m' ->
  emitted_triangle m' index = Some (Build_Tri x0 x1 x2 material) /\
  (forall t tri, t <> index ->
     emitted_triangle m t = Some tri -> emitted_triangle m' t = Some tri) /\
  grows m m' /\ grows m m1 /\ grows m m2.
Proof.
  intros Hab E0 E1 E2.
  destruct (vec_set_at _ _ _ _ Hab) as [Ha Haother].
  destruct (emit_content _ _ _ _ _ E0) as ((i0 & I0 & V0) & O0 & A0 & G0).
  destruct (emit_content _ _ _ _ _ E1) as ((i1 & I1 & V1) & O1 & A1 & G1).
  destruct (emit_content _ _ _ _ _ E2) as ((i2 & I2 & V2) & O2 & A2 & G2).
  assert (G : grows m (set_m_attributeBuffer ab m))
    by (destruct m; split; [exists []; by rewrite app_nil_r|done]).
  assert (Eib : m_indexBuffer (set_m_attributeBuffer ab m) = m_indexBuffer m)
    by (by destruct m).
  assert (Eab : m_attributeBuffer (set_m_attributeBuffer ab m) = ab)
    by (by destruct m).
  pose proof (grows_trans _ _ _ G G0) as Gm1.
  pose proof (grows_trans _ _ _ Gm1 G1) as Gm2.
  pose proof (grows_trans _ _ _ Gm2 G2) as Gm'.
  split; [|split; [|done]].
  - apply (emitted_triangle_of m' index i0 i1 i2).
    + rewrite O2, O1 by lia. by rewrite Z.mul_comm.
    + rewrite O2 by lia. by rewrite Z.mul_comm.
    + by rewrite Z.mul_comm.
    + eapply grows_vertex; [exact G2|]. eapply grows_vertex; [exact G1|]. done.
    + eapply grows_vertex; [exact G2|]. done.
    + done.
    + by rewrite A2, A1, A0, Eab.
  - intros t tri Ht Htri.
    apply emitted_triangle_inv in Htri
      as (j0 & j1 & j2 & J0 & J1 & J2 & W0 & W1 & W2 & Wa).
    destruct tri as [w0 w1 w2 a]. cbn [t_v0 t_v1 t_v2 t_material] in *.
    apply (emitted_triangle_of m' t j0 j1 j2).
    + by rewrite O2, O1, O0, Eib by lia.
    + by rewrite O2, O1, O0, Eib by lia.
    + by rewrite O2, O1, O0, Eib by lia.
    + by eapply grows_vertex.
    + by eapply grows_vertex.
    + by eapply grows_vertex.
    + rewrite A2, A1, A0, Eab, Haother by done. done.
Qed.

Lemma fetch3_triple (a : list float) (i : Z) (p : float3) :
  fetch3 a i = Some p -> p = triple_at a i.
Proof.
  unfold fetch3, triple_at, float_at. rewrite !(Z.mul_comm i 3). intros H.
  destruct (vec_at a (3 * i)) as [x|]; [|discriminate].
  destruct (vec_at a (3 * i + 1)) as [y|]; [|discriminate].
  destruct (vec_at a (3 * i + 2)) as [z|]; [|discriminate].
  by injection H as <-.
Qed.

Lemma fetch2_pair (a : list float) (i : Z) (p : float2) :
  fetch2 a i = Some p -> p = pair_at a i.
Proof.
  unfold fetch2, pair_at, float_at. rewrite !(Z.mul_comm i 2). intros H.
  destruct (vec_at a (2 * i)) as [x|]; [|discriminate].
  destruct (vec_at a (2 * i + 1)) as [y|]; [|discriminate].
  by injection H as <-.
Qed.


Lemma vertex_at_grows (f : faceForm) (m m' : Model) (c : Corner) :
  grows m m' -> vertex_at f m' c = vertex_at f m c.
Proof. intros (_ & Hv & Ht & Hn & _). unfold vertex_at. by rewrite Hv, Ht, Hn. Qed.

Lemma scratch_set_attributeBuffer (ab : list Z) (m : Model) :
  m_vertexCoords (set_m_attributeBuffer ab m) = m_vertexCoords m /\
  m_textureCoords (set_m_attributeBuffer ab m) = m_textureCoords m /\
  m_normals (set_m_attributeBuffer ab m) = m_normals m.
Proof. by destruct m. Qed.

(** Each [addTriangle...] leaves triangle [index] with the three vertices
    its references designate and with the material, and every other
    triangle as it was. *)
Lemma addTriangle_content (f : faceForm) (index material : Z)
    (c0 c1 c2 : Corner) (m m' : Model) :
  addTriangle f index material c0 c1 c2 m = Some m' ->
  emitted_triangle m' index
  = Some (Build_Tri (vertex_at f m c0) (vertex_at f m c1) (vertex_at f m c2)
            material) /\
  (forall t tri, t <> index ->
     emitted_triangle m t = Some tri -> emitted_triangle m' t = Some tri) /\
  grows m m'.
Proof.
  intros H.
  destruct f; cbn [addTriangle] in H;
    unfold addTrianglePosNormal, addTrianglePosTexCoordNormal,
      addTrianglePosTexCoord, addTrianglePos in H; cbv zeta in H;
    apply bind_Some in H as (ab & Hab & H).
  - apply bind_Some in H as (p0 & P0 & H). apply bind_Some in H as (n0 & N0 & H).
    apply bind_Some in H as (m1 & E0 & H).
    apply bind_Some in H as (p1 & P1 & H). apply bind_Some in H as (n1 & N1 & H).
    apply bind_Some in H as (m2 & E1 & H).
    apply bind_Some in H as (p2 & P2 & H). apply bind_Some in H as (n2 & N2 & E2).
    destruct (three_emits _ _ _ _ _ _ _ _ _ _ _ _ _ Hab E0 E1 E2)
      as (Htri & Hother & G & G1 & G2).
    split; [|done]. rewrite Htri.
    apply fetch3_triple in P0, P1, P2, N0, N1, N2. subst.
    destruct (scratch_set_attributeBuffer ab m) as (S1 & S2 & S3).
    destruct G1 as (_ & A1 & A2 & A3 & _). destruct G2 as (_ & B1 & B2 & B3 & _).
    rewrite ?S1, ?S2, ?S3, ?A1, ?A2, ?A3, ?B1, ?B2, ?B3. reflexivity.
  - apply bind_Some in H as (p0 & P0 & H). apply bind_Some in H as (t0 & T0 & H).
    apply bind_Some in H as (n0 & N0 & H).
    apply bind_Some in H as (m1 & E0 & H).
    apply bind_Some in H as (p1 & P1 & H). apply bind_Some in H as (t1 & T1 & H).
    apply bind_Some in H as (n1 & N1 & H).
    apply bind_Some in H as (m2 & E1 & H).
    apply bind_Some in H as (p2 & P2 & H). apply bind_Some in H as (t2 & T2 & H).
    apply bind_Some in H as (n2 & N2 & E2).
    destruct (three_emits _ _ _ _ _ _ _ _ _ _ _ _ _ Hab E0 E1 E2)
      as (Htri & Hother & G & G1 & G2).
    split; [|done]. rewrite Htri.
    apply fetch3_triple in P0, P1, P2, N0, N1, N2.
    apply fetch2_pair in T0, T1, T2. subst.
    destruct (scratch_set_attributeBuffer ab m) as (S1 & S2 & S3).
    destruct G1 as (_ & A1 & A2 & A3 & _). destruct G2 as (_ & B1 & B2 & B3 & _).
    rewrite ?S1, ?S2, ?S3, ?A1, ?A2, ?A3, ?B1, ?B2, ?B3. reflexivity.
  - apply bind_Some in H as (p0 & P0 & H). apply bind_Some in H as (t0 & T0 & H).
    apply bind_Some in H as (m1 & E0 & H).
    apply bind_Some in H as (p1 & P1 & H). apply bind_Some in H as (t1 & T1 & H).
    apply bind_Some in H as (m2 & E1 & H).
    apply bind_Some in H as (p2 & P2 & H). apply bind_Some in H as (t2 & T2 & E2).
    destruct (three_emits _ _ _ _ _ _ _ _ _ _ _ _ _ Hab E0 E1 E2)
      as (Htri & Hother & G & G1 & G2).
    split; [|done]. rewrite Htri.
    apply fetch3_triple in P0, P1, P2.
    apply fetch2_pair in T0, T1, T2. subst.
    destruct (scratch_set_attributeBuffer ab m) as (S1 & S2 & S3).
    destruct G1 as (_ & A1 & A2 & A3 & _). destruct G2 as (_ & B1 & B2 & B3 & _).
    rewrite ?S1, ?S2, ?S3, ?A1, ?A2, ?A3, ?B1, ?B2, ?B3. reflexivity.
  - apply bind_Some in H as (p0 & P0 & H).
    apply bind_Some in H as (m1 & E0 & H).
    apply bind_Some in H as (p1 & P1 & H).
    apply bind_Some in H as (m2 & E1 & H).
    apply bind_Some in H as (p2 & P2 & E2).
    destruct (three_emits _ _ _ _ _ _ _ _ _ _ _ _ _ Hab E0 E1 E2)
      as (Htri & Hother & G & G1 & G2).
    split; [|done]. rewrite Htri.
    apply fetch3_triple in P0, P1, P2. subst.
    destruct (scratch_set_attributeBuffer ab m) as (S1 & S2 & S3).
    destruct G1 as (_ & A1 & A2 & A3 & _). destruct G2 as (_ & B1 & B2 & B3 & _).
    rewrite ?S1, ?S2, ?S3, ?A1, ?A2, ?A3, ?B1, ?B2, ?B3. reflexivity.
Qed.

Lemma holds_snoc (m m' : Model) (tris : list Tri) (tri : Tri) :
  holds m tris ->
  emitted_triangle m' (vec_size tris) = Some tri ->
  (forall t tri', t <> vec_size tris ->
     emitted_triangle m t = Some tri' -> emitted_triangle m' t = Some tri') ->
  holds m' (tris ++ [tri]).
Proof.
  intros Hh Hnew Hother t tri' Ht.
  apply lookup_app_Some in Ht as [Ht|[Hlen Ht]].
  - apply Hother; [|by apply Hh].
    apply lookup_lt_Some in Ht. unfold vec_size. lia.
  - destruct (t - length tris)%nat as [|k] eqn:Hk; [|by destruct k].
    injection Ht as <-. unfold vec_size in Hnew.
    by replace t with (length tris) by lia.
Qed.

Lemma emit_triangle_content (f : faceForm) (c0 c1 c2 : Corner) (st st' : Pass2)
    (tris : list Tri) :
  emit_triangle f c0 c1 c2 st = Some st' ->
  numTriangles st = vec_size tris -> holds (p2_model st) tris ->
  grows (p2_model st) (p2_model st') /\
  holds (p2_model st')
    (tris ++ [Build_Tri (vertex_at f (p2_model st) c0)
                (vertex_at f (p2_model st) c1) (vertex_at f (p2_model st) c2)
                (activeMaterial st)]).
Proof.
  unfold emit_triangle. intros H Hn Hh.
  apply bind_Some in H as (m' & Hadd & H). injection H as <-.
  cbn [p2_model].
  destruct (addTriangle_content _ _ _ _ _ _ _ _ Hadd) as (Hnew & Hother & Hg).
  split; [done|]. rewrite Hn in Hnew, Hother. by eapply holds_snoc.
Qed.

Lemma designated_resolve (count : Z) (z : IntLit) :
  resolve count (int_value z) = designated count z.
Proof.
  unfold resolve, designated.
  destruct (Z.ltb_spec (int_value z) 0), (decide (int_value z < 0)); lia.
Qed.

(** The vertex the importer builds for a corner as written is the one
    the reading gives it, whatever the locals held before. *)
Lemma vertex_at_corner (f : faceForm) (st : Pass2) (r : Reading)
    (c : CornerLit) (prev : Corner) :
  arrays_as st r ->
  vertex_at f (p2_model st)
    (resolve_corner f st (assign_corner f (corner_values f c) prev))
  = corner_vertex f r c.
Proof.
  intros (Hv & Ht & Hn & Hs). unfold vertex_at, corner_vertex.
  rewrite Hv, Ht, Hn, <- Hs. unfold sofar. cbn [n_v n_vt n_vn].
  destruct f; cbn [corner_values assign_corner resolve_corner c_v c_vt c_vn vertex_of];
    by rewrite ?designated_resolve.
Qed.

Lemma arrays_as_grows (st : Pass2) (m' : Model) (r : Reading) (k : Z) :
  arrays_as st r -> grows (p2_model st) m' ->
  arrays_as (Build_Pass2 m' (numVertices st) (numTexCoords st) (numNormals st)
               k (activeMaterial st)) r.
Proof.
  intros (Hv & Ht & Hn & Hs) (_ & Gv & Gt & Gn & _). unfold arrays_as.
  cbn [p2_model]. rewrite Gv, Gt, Gn. done.
Qed.

Lemma vec_size_snoc {A : Type} (l : list A) (x : A) :
  vec_size (l ++ [x]) = vec_size l + 1.
Proof. unfold vec_size. rewrite length_app. cbn [length]. lia. Qed.

(** A reference that is valid where it is written resolves inside the
    arrays. *)
Lemma resolve_corner_in_range (f : faceForm) (T : Counts) (st : Pass2)
    (c : CornerLit) (prev : Corner) :
  corner_refs_ok f (sofar st) T c ->
  corner_in_range f T
    (resolve_corner f st (assign_corner f (corner_values f c) prev)).
Proof.
  unfold corner_refs_ok, corner_in_range, ref_ok, sofar.
  destruct f; cbn; tauto.
Qed.

(** The references [ref_ok] admits where [count] of the [total]
    elements have been read: a positive one up to [total], a negative one
    down to [1 - count].  The reference [- count], which the importer
    resolves to the index [-1], is not among them. *)
Lemma ref_ok_explicit (count total : Z) (z : IntLit) :
  0 <= count <= total ->
  ref_ok count total z <->
  1 <= int_value z <= total \/ 1 - count <= int_value z <= -1.
Proof.
  intros H. unfold ref_ok, resolve.
  destruct (Z.ltb_spec (int_value z) 0); lia.
Qed.

Lemma corner_values_nonempty (f : faceForm) (c : CornerLit) :
  exists z zs, corner_values f c = z :: zs.
Proof. destruct f; cbn; eauto. Qed.

(** The fan loop of the second pass on the further corners of a face. *)
Lemma secondPass_fan_corners (T : Counts) (n : Z) (f : faceForm)
    (more : list CornerLit) :
  forall (R : stream) (fuel : nat) (c0 c1 c2 : Corner) (st : Pass2)
         (r : Reading) (tris : list Tri),
    Forall (corner_ok f) more ->
    Forall (corner_refs_ok f (sofar st) T) more ->
    no_int_ahead R -> (length more < fuel)%nat ->
    sized T n (p2_model st) ->
    0 <= numTriangles st -> numTriangles st + vec_size more <= n ->
    corner_in_range f T c0 -> corner_in_range f T c1 ->
    arrays_as st r ->
    numTriangles st = vec_size tris -> holds (p2_model st) tris ->
    exists m',
      secondPass_fan fuel f
        (concat (map (fun c => space :: render_corner f c) more) ++ newline :: R)
        c0 c1 c2 st
      = Some (skip_ws R,
              Build_Pass2 m' (numVertices st) (numTexCoords st) (numNormals st)
                (numTriangles st + vec_size more) (activeMaterial st)) /\
      sized T n m' /\
      grows (p2_model st) m' /\
      holds m'
        (tris ++ fan (activeMaterial st) (vertex_at f (p2_model st) c0)
                   (vertex_at f (p2_model st) c1) (map (corner_vertex f r) more)).
Proof.
  induction more as [|c more IH];
    intros R fuel c0 c1 c2 st r tris Hok Hrefs HR Hfuel Hsz Hn0 Hn H0 H1
           Har Hnt Hh.
  - destruct fuel; [simpl in Hfuel; lia|]. cbn [map concat app secondPass_fan].
    rewrite scanf_ints_fail by done. exists (p2_model st).
    split; [|split; [done|split; [apply grows_refl|]]].
    + unfold vec_size. cbn [length]. rewrite Z.add_0_r. by destruct st.
    + cbn [fan]. by rewrite app_nil_r.
  - destruct fuel; [simpl in Hfuel; lia|].
    apply Forall_cons in Hok as [Hc Hok].
    apply Forall_cons in Hrefs as [Hr Hrefs].
    cbn [map concat secondPass_fan]. rewrite <- app_assoc. cbn [app].
    pose proof (scanf_ints_corner f [space] c
                  (concat (map (fun c => space :: render_corner f c) more)
                     ++ newline :: R) all_space_space Hc) as Hscan.
    cbn [app] in Hscan. rewrite Hscan by (by destruct more).
    destruct (corner_values_nonempty f c) as (z & zs & Hzs).
    rewrite Hzs. rewrite <- Hzs.
    assert (Hlen : vec_size (c :: more) = 1 + vec_size more)
      by (unfold vec_size; cbn [length]; lia).
    rewrite Hlen in *.
    assert (0 <= vec_size more) by (unfold vec_size; lia).
    pose proof (resolve_corner_in_range f T st c c2 Hr) as H2.
    destruct (emit_triangle_sized T n f c0 c1 _ st Hsz ltac:(lia) H0 H1 H2)
      as (m1 & Hemit & Hsz1).
    destruct (emit_triangle_content _ _ _ _ _ _ tris Hemit Hnt Hh) as [Hg1 Hh1].
    cbn [p2_model] in Hg1, Hh1.
    rewrite Hemit. cbn [mbind option_bind].
    rewrite (vertex_at_corner f st r c c2 Har) in Hh1.
    destruct (IH R fuel c0
                (resolve_corner f st (assign_corner f (corner_values f c) c2))
                (resolve_corner f st (assign_corner f (corner_values f c) c2))
                (Build_Pass2 m1 (numVertices st) (numTexCoords st)
                   (numNormals st) (numTriangles st + 1) (activeMaterial st))
                r
                (tris ++ [Build_Tri (vertex_at f (p2_model st) c0)
                            (vertex_at f (p2_model st) c1) (corner_vertex f r c)
                            (activeMaterial st)]))
      as (m' & Hfan & Hsz' & Hg' & Hh'); try done.
    + simpl in Hfuel. lia.
    + cbn. lia.
    + cbn. lia.
    + by apply arrays_as_grows.
    + cbn [numTriangles]. rewrite vec_size_snoc. lia.
    + cbn [p2_model activeMaterial] in Hg', Hh'.
      rewrite !(vertex_at_grows f _ m1) in Hh' by done.
      rewrite (vertex_at_corner f st r c c2 Har) in Hh'.
      exists m'. split; [|split; [done|split]].
      * rewrite Hfan. cbn. do 3 f_equal. lia.
      * by eapply grows_trans.
      * cbn [map fan]. by rewrite <- app_assoc in Hh'.
Qed.

(** The case ['f'] of the second pass on the corners of a face. *)
Lemma secondPass_face_corners (T : Counts) (n : Z) (f : faceForm)
    (c0 c1 c2 : CornerLit) (more : list CornerLit) (buffer : list ascii)
    (R : stream) (st : Pass2) :
  Forall (corner_ok f) (c0 :: c1 :: c2 :: more) ->
  Forall (corner_refs_ok f (sofar st) T) (c0 :: c1 :: c2 :: more) ->
  no_int_ahead R ->
  (length (render_corner f c0) < 256)%nat ->
  sized T n (p2_model st) ->
  0 <= numTriangles st -> numTriangles st + (1 + vec_size more) <= n ->
  forall (r : Reading) (tris : list Tri),
  arrays_as st r ->
  numTriangles st = vec_size tris -> holds (p2_model st) tris ->
  exists m',
    secondPass_face buffer
      (concat (map (fun c => space :: render_corner f c) (c0 :: c1 :: c2 :: more))
         ++ newline :: R) st
    = Some (skip_ws R,
            Build_Pass2 m' (numVertices st) (numTexCoords st) (numNormals st)
              (numTriangles st + (1 + vec_size more)) (activeMaterial st)) /\
    sized T n m' /\
    grows (p2_model st) m' /\
    holds m'
      (tris ++ fan (activeMaterial st) (corner_vertex f r c0)
                 (corner_vertex f r c1) (map (corner_vertex f r) (c2 :: more))).
Proof.
  intros Hok Hrefs HR Hlen0 Hsz Hn0 Hn r tris Har Hnt Hh.
  apply Forall_cons in Hok as [H0 Hok]. apply Forall_cons in Hok as [H1 Hok].
  apply Forall_cons in Hok as [H2 Hok].
  apply Forall_cons in Hrefs as [R0 Hrefs]. apply Forall_cons in Hrefs as [R1 Hrefs].
  apply Forall_cons in Hrefs as [R2 Hrefs].
  assert (0 <= vec_size more) by (unfold vec_size; lia).
  unfold secondPass_face. cbn [map concat].
  rewrite <- !app_assoc. cbn [app].
  edestruct (first_corner f c0 buffer) as [-> ->]; [done| |done|]; [done|].
  rewrite face_form_corner by done.
  pose proof (fun r => scanf_ints_corner f [] c0 r (Forall_nil_2 _) H0) as S0.
  pose proof (fun r => scanf_ints_corner f [space] c1 r all_space_space H1) as S1.
  pose proof (fun r => scanf_ints_corner f [space] c2 r all_space_space H2) as S2.
  cbn [app] in S0, S1, S2.
  specialize (S0 []). rewrite app_nil_r in S0.
  rewrite S0 by done. rewrite S1 by done. rewrite S2 by (by destruct more).
  cbn [fst].
  pose proof (resolve_corner_in_range f T st c0 zero_corner R0) as I0.
  pose proof (resolve_corner_in_range f T st c1 zero_corner R1) as I1.
  pose proof (resolve_corner_in_range f T st c2 zero_corner R2) as I2.
  destruct (emit_triangle_sized T n f _ _ _ st Hsz ltac:(lia) I0 I1 I2)
    as (m1 & Hemit & Hsz1).
  destruct (emit_triangle_content _ _ _ _ _ _ tris Hemit Hnt Hh) as [Hg1 Hh1].
  cbn [p2_model] in Hg1, Hh1.
  rewrite Hemit. cbn [mbind option_bind].
  rewrite !(vertex_at_corner f st r _ zero_corner Har) in Hh1.
  destruct (secondPass_fan_corners T n f more R
              (S (length (concat (map (fun c => space :: render_corner f c) more)
                            ++ newline :: R)))
              (resolve_corner f st (assign_corner f (corner_values f c0) zero_corner))
              (resolve_corner f st (assign_corner f (corner_values f c2) zero_corner))
              (resolve_corner f st (assign_corner f (corner_values f c2) zero_corner))
              (Build_Pass2 m1 (numVertices st) (numTexCoords st)
                 (numNormals st) (numTriangles st + 1) (activeMaterial st))
              r
              (tris ++ [Build_Tri (corner_vertex f r c0) (corner_vertex f r c1)
                          (corner_vertex f r c2) (activeMaterial st)]))
    as (m' & Hfan & Hsz' & Hg' & Hh'); try done.
  - pose proof (corners_length f more (newline :: R)). lia.
  - cbn. lia.
  - cbn. lia.
  - by apply arrays_as_grows.
  - cbn [numTriangles]. rewrite vec_size_snoc. lia.
  - cbn [p2_model activeMaterial] in Hg', Hh'.
    rewrite !(vertex_at_grows f _ m1) in Hh' by done.
    rewrite !(vertex_at_corner f st r _ zero_corner Har) in Hh'.
    exists m'. split; [|split; [done|split]].
    + rewrite Hfan. cbn. do 3 f_equal. lia.
    + by eapply grows_trans.
    + cbn [map fan]. by rewrite <- app_assoc in Hh'.
Qed.

Lemma store_floats_size (xs : list float) :
  forall (a : list float) (i : Z),
    0 <= i -> i + vec_size xs <= vec_size a ->
    store_floats a i xs = Some (put a i xs) /\ vec_size (put a i xs) = vec_size a.
Proof.
  induction xs as [|x xs IH]; intros a i Hi Hlen; [done|].
  assert (vec_size (x :: xs) = 1 + vec_size xs) as E
    by (unfold vec_size; cbn [length]; lia).
  assert (0 <= vec_size xs) by (unfold vec_size; lia).
  cbn [store_floats put]. unfold vec_set. rewrite decide_True by lia.
  cbn [mbind option_bind].
  assert (Hsz : vec_size (<[Z.to_nat i := x]> a) = vec_size a)
    by (unfold vec_size; by rewrite length_insert).
  destruct (IH (<[Z.to_nat i := x]> a) (i + 1)) as (-> & Hsz'); [lia|lia|].
  split; [done|]. by rewrite Hsz'.
Qed.

(** A [fscanf] of [k] floats into [a[i ..]] that converts them all. *)
Lemma scan_into_size (k : nat) (a : list float) (i : Z) (s s' : stream)
    (xs : list float) :
  scanf_floats k s = (xs, s') -> length xs = k ->
  0 <= i -> i + Z.of_nat k <= vec_size a ->
  scan_into k a i s = Some (put a i xs, s') /\
  vec_size (put a i xs) = vec_size a.
Proof.
  intros Hscan Hk Hi Hlen. unfold scan_into.
  rewrite decide_True by done. rewrite Hscan.
  destruct (store_floats_size xs a i Hi) as (-> & Hsz);
    [unfold vec_size in *; lia|].
  done.
Qed.

Lemma holds_frame (m m' : Model) (tris : list Tri) :
  m_indexBuffer m' = m_indexBuffer m ->
  m_vertexBuffer m' = m_vertexBuffer m ->
  m_attributeBuffer m' = m_attributeBuffer m ->
  holds m tris -> holds m' tris.
Proof.
  intros Hi Hv Ha Hh t tri Ht. specialize (Hh t tri Ht).
  unfold emitted_triangle in *. by rewrite Hi, Hv, Ha.
Qed.

(** The state after a [v], [vn] or [vt] line agrees with the reading
    after it. *)
Lemma reads_as_v (cache : gmap string Z) (st : Pass2) (r : Reading)
    (x y z : Numeral) :
  reads_as cache st r ->
  reads_as cache
    (Build_Pass2
       (set_m_vertexCoords
          (put (m_vertexCoords (p2_model st)) (3 * numVertices st)
             [numeral_value x; numeral_value y; numeral_value z])
          (p2_model st))
       (numVertices st + 1) (numTexCoords st) (numNormals st) (numTriangles st)
       (activeMaterial st))
    (read_line cache (Lv x y z) r).
Proof.
  intros (Hc & (Hv & Ht & Hn & Hs) & Hm & Hnt & Hh).
  unfold reads_as, arrays_as, sofar in *.
  cbn [p2_model numVertices numTexCoords numNormals numTriangles activeMaterial
       read_line r_positions r_texCoords r_normals r_sofar r_material r_triangles].
  rewrite <- Hs. unfold count_line. cbn [n_v n_vt n_vn is_v is_vt is_vn].
  rewrite !Z.add_0_r.
  split; [by destruct (p2_model st)|]. split; [|split; [done|split; [done|]]].
  - rewrite <- Hv. by destruct (p2_model st).
  - eapply holds_frame; [| | |exact Hh]; by destruct (p2_model st).
Qed.

Lemma reads_as_vn (cache : gmap string Z) (st : Pass2) (r : Reading)
    (x y z : Numeral) :
  reads_as cache st r ->
  reads_as cache
    (Build_Pass2
       (set_m_normals
          (put (m_normals (p2_model st)) (3 * numNormals st)
             [numeral_value x; numeral_value y; numeral_value z])
          (p2_model st))
       (numVertices st) (numTexCoords st) (numNormals st + 1) (numTriangles st)
       (activeMaterial st))
    (read_line cache (Lvn x y z) r).
Proof.
  intros (Hc & (Hv & Ht & Hn & Hs) & Hm & Hnt & Hh).
  unfold reads_as, arrays_as, sofar in *.
  cbn [p2_model numVertices numTexCoords numNormals numTriangles activeMaterial
       read_line r_positions r_texCoords r_normals r_sofar r_material r_triangles].
  rewrite <- Hs. unfold count_line. cbn [n_v n_vt n_vn is_v is_vt is_vn].
  rewrite !Z.add_0_r.
  split; [by destruct (p2_model st)|]. split; [|split; [done|split; [done|]]].
  - rewrite <- Hn. by destruct (p2_model st).
  - eapply holds_frame; [| | |exact Hh]; by destruct (p2_model st).
Qed.

Lemma reads_as_vt (cache : gmap string Z) (st : Pass2) (r : Reading)
    (u v : Numeral) :
  reads_as cache st r ->
  reads_as cache
    (Build_Pass2
       (set_m_textureCoords
          (put (m_textureCoords (p2_model st)) (2 * numTexCoords st)
             [numeral_value u; numeral_value v])
          (p2_model st))
       (numVertices st) (numTexCoords st + 1) (numNormals st) (numTriangles st)
       (activeMaterial st))
    (read_line cache (Lvt u v) r).
Proof.
  intros (Hc & (Hv & Ht & Hn & Hs) & Hm & Hnt & Hh).
  unfold reads_as, arrays_as, sofar in *.
  cbn [p2_model numVertices numTexCoords numNormals numTriangles activeMaterial
       read_line r_positions r_texCoords r_normals r_sofar r_material r_triangles].
  rewrite <- Hs. unfold count_line. cbn [n_v n_vt n_vn is_v is_vt is_vn].
  rewrite !Z.add_0_r.
  split; [by destruct (p2_model st)|]. split; [|split; [done|split; [done|]]].
  - rewrite <- Ht. by destruct (p2_model st).
  - eapply holds_frame; [| | |exact Hh]; by destruct (p2_model st).
Qed.

(** The state after a face agrees with the reading after it. *)
Lemma reads_as_f (cache : gmap string Z) (st : Pass2) (r : Reading)
    (f : faceForm) (c0 c1 c2 : CornerLit) (more : list CornerLit) (m' : Model) :
  reads_as cache st r ->
  grows (p2_model st) m' ->
  holds m'
    (r_triangles r
       ++ fan (activeMaterial st) (corner_vertex f r c0) (corner_vertex f r c1)
            (map (corner_vertex f r) (c2 :: more))) ->
  reads_as cache
    (Build_Pass2 m' (numVertices st) (numTexCoords st) (numNormals st)
       (numTriangles st + (1 + vec_size more)) (activeMaterial st))
    (read_line cache (Lf f c0 c1 c2 more) r).
Proof.
  intros (Hc & (Hv & Ht & Hn & Hs) & Hm & Hnt & Hh) (_ & Gv & Gt & Gn & Gc) Hh'.
  unfold reads_as, arrays_as, sofar in *.
  cbn [p2_model numVertices numTexCoords numNormals numTriangles activeMaterial
       read_line r_positions r_texCoords r_normals r_sofar r_material r_triangles].
  rewrite <- Hs, <- Hm. unfold count_line. cbn [n_v n_vt n_vn is_v is_vt is_vn].
  rewrite !Z.add_0_r, Gv, Gt, Gn, Gc.
  repeat split; try done.
  rewrite Hnt. unfold vec_size. rewrite length_app. cbn [map fan length].
  assert (forall a b l, length (fan (activeMaterial st) a b l) = length l) as E.
  { intros a b l. revert a b. induction l as [|c l IH]; intros a b; [done|].
    cbn [fan length]. by rewrite IH. }
  rewrite E, length_map. lia.
Qed.

(** The state after a [usemtl] line agrees with the reading after it. *)
Lemma reads_as_usemtl (cache : gmap string Z) (st : Pass2) (r : Reading)
    (w : list ascii) :
  reads_as cache st r ->
  reads_as cache
    (Build_Pass2 (p2_model st) (numVertices st) (numTexCoords st) (numNormals st)
       (numTriangles st)
       (match m_materialCache (p2_model st) !! string_of_list_ascii (name_read w) with
        | None => 0
        | Some i => i
        end))
    (read_line cache (Lusemtl w) r).
Proof.
  intros (Hc & (Hv & Ht & Hn & Hs) & Hm & Hnt & Hh).
  unfold reads_as, arrays_as, sofar in *.
  cbn [p2_model numVertices numTexCoords numNormals numTriangles activeMaterial
       read_line r_positions r_texCoords r_normals r_sofar r_material r_triangles].
  rewrite <- Hs, Hc. unfold count_line. cbn [n_v n_vt n_vn is_v is_vt is_vn].
  rewrite !Z.add_0_r.
  repeat split; try done; by destruct (cache !! _).
Qed.

Lemma secondPass_step_other (c : ascii) (k : list ascii) (s1 : stream)
    (st : Pass2) :
  c <> "f"%char -> c <> "u"%char -> c <> "v"%char ->
  secondPass_step (c_str (c :: k)) s1 st = Some (snd (fgets s1), st).
Proof. intros Hf Hu Hv. ascii_cases c; try done. Qed.

Lemma skip_ws_newline (s : stream) : skip_ws (newline :: s) = skip_ws s.
Proof. reflexivity. Qed.

Lemma pass2_inv_counts (T : Counts) (n : Z) (l : ObjLine) (ls : list ObjLine)
    (st : Pass2) :
  pass2_inv T n (l :: ls) st ->
  0 <= count_v ls /\ 0 <= count_vt ls /\ 0 <= count_vn ls /\ 0 <= triangles ls /\
  numVertices st + is_v l + count_v ls = n_v T /\
  numTexCoords st + is_vt l + count_vt ls = n_vt T /\
  numNormals st + is_vn l + count_vn ls = n_vn T /\
  numTriangles st + line_triangles l + triangles ls = n.
Proof.
  intros (_ & _ & Hv & Ht & Hn & Htri).
  pose proof (counts_nonneg ls) as (? & ? & ? & ?).
  unfold count_v, count_vt, count_vn, triangles in *. cbn [count_with] in *.
  repeat split; lia.
Qed.

Ltac close_inv Hinv :=
  let Hsz := fresh "Hsz" in
  pose proof (pass2_inv_counts _ _ _ _ _ Hinv) as (? & ? & ? & ? & ? & ? & ? & ?);
  destruct Hinv as (Hsz & (? & ? & ? & ?) & _);
  unfold pass2_inv;
  cbn [p2_model numVertices numTexCoords numNormals numTriangles
       is_v is_vt is_vn line_triangles] in *;
  split; [|repeat split; lia].

(** One turn of the loop of the second pass on a line that is not blank. *)
Lemma secondPass_line (T : Counts) (n : Z) (l : ObjLine) (ls : list ObjLine)
    (R : stream) (st : Pass2) (cache : gmap string Z) (r : Reading) :
  line_ok l -> no_int_ahead R -> l <> Lblank ->
  match l with
  | Lf f c0 c1 c2 more =>
      Forall (corner_refs_ok f (sofar st) T) (c0 :: c1 :: c2 :: more)
  | _ => True
  end ->
  pass2_inv T n (l :: ls) st ->
  reads_as cache st r ->
  exists buffer s1 s2 st',
    overruns (render_line l ++ R) = false /\
    scan_s (render_line l ++ R) = Some (buffer, s1) /\
    secondPass_step buffer s1 st = Some (s2, st') /\
    skip_ws s2 = skip_ws R /\
    pass2_inv T n ls st' /\
    sofar st' = count_line (sofar st) l /\
    reads_as cache st' (read_line cache l r).
Proof.
  intros [Hlen Hl] HR Hnb Hrefs Hinv Hread.
  pose proof Hinv as ((Sv & St & Sn & Si & Sa & Swf) & (? & ? & ? & ?) & _).
  pose proof (pass2_inv_counts _ _ _ _ _ Hinv) as (? & ? & ? & ? & Cv & Ct & Cn & Ctri).
  destruct l as [x y z|x y z|u v|f c0 c1 c2 more|file|mat|kw rest|]; [..|done];
    cbn [is_v is_vt is_vn line_triangles] in *.
  - destruct Hl as (Hx & Hy & Hz).
    destruct (scan_into_size 3 (m_vertexCoords (p2_model st)) (3 * numVertices st)
                _ _ _ (scanf_floats_3 x y z R Hx Hy Hz))
      as (Hscan & Ha'); [done|lia|lia|].
    eexists _, _, _, _. split; [|split; [|split; [|split; [|split; [|split]]]]].
    + cbn [render_line]. repeat (rewrite <- ?app_assoc; cbn [app]).
      apply overruns_word; [done|by repeat constructor|done|simpl; lia].
    + cbn [render_line]. repeat (rewrite <- ?app_assoc; cbn [app]).
      rewrite scan_s_word; [|done|by repeat constructor|done].
      by rewrite c_str_token by reflexivity.
    + unfold token. cbn [list_ascii_of_string secondPass_step].
      rewrite Hscan. reflexivity.
    + reflexivity.
    + close_inv Hinv. unfold sized, cache_wf in *.
      destruct (p2_model st); simpl in *. by rewrite Ha'.
    + unfold sofar, count_line. cbn. f_equal; lia.
    + by apply reads_as_v.
  - destruct Hl as (Hx & Hy & Hz).
    destruct (scan_into_size 3 (m_normals (p2_model st)) (3 * numNormals st)
                _ _ _ (scanf_floats_3 x y z R Hx Hy Hz))
      as (Hscan & Ha'); [done|lia|lia|].
    eexists _, _, _, _. split; [|split; [|split; [|split; [|split; [|split]]]]].
    + cbn [render_line]. repeat (rewrite <- ?app_assoc; cbn [app]).
      apply overruns_word; [done|by repeat constructor|done|simpl; lia].
    + cbn [render_line]. repeat (rewrite <- ?app_assoc; cbn [app]).
      rewrite scan_s_word; [|done|by repeat constructor|done].
      by rewrite c_str_token by reflexivity.
    + unfold token. cbn [list_ascii_of_string secondPass_step].
      rewrite Hscan. reflexivity.
    + reflexivity.
    + close_inv Hinv. unfold sized, cache_wf in *.
      destruct (p2_model st); simpl in *. by rewrite Ha'.
    + unfold sofar, count_line. cbn. f_equal; lia.
    + by apply reads_as_vn.
  - destruct Hl as (Hx & Hy).
    destruct (scan_into_size 2 (m_textureCoords (p2_model st)) (2 * numTexCoords st)
                _ _ _ (scanf_floats_2 u v R Hx Hy))
      as (Hscan & Ha'); [done|lia|lia|].
    eexists _, _, _, _. split; [|split; [|split; [|split; [|split; [|split]]]]].
    + cbn [render_line]. repeat (rewrite <- ?app_assoc; cbn [app]).
      apply overruns_word; [done|by repeat constructor|done|simpl; lia].
    + cbn [render_line]. repeat (rewrite <- ?app_assoc; cbn [app]).
      rewrite scan_s_word; [|done|by repeat constructor|done].
      by rewrite c_str_token by reflexivity.
    + unfold token. cbn [list_ascii_of_string secondPass_step].
      rewrite Hscan. reflexivity.
    + reflexivity.
    + close_inv Hinv. unfold sized, cache_wf in *.
      destruct (p2_model st); simpl in *. by rewrite Ha'.
    + unfold sofar, count_line. cbn. f_equal; lia.
    + by apply reads_as_vt.
  - assert (0 <= vec_size more) by (unfold vec_size; lia).
    pose proof (first_corner_length _ _ _ _ _ Hlen) as Hlen0.
    pose proof Hread as (Hc & Har & Hm & Hnt & Hh).
    destruct (secondPass_face_corners T n f c0 c1 c2 more (token "f") R st
                Hl Hrefs HR Hlen0 ltac:(done) ltac:(lia) ltac:(lia)
                r (r_triangles r) Har Hnt Hh)
      as (m' & Hface & Hsz' & Hg' & Hh').
    eexists _, _, _, _. split; [|split; [|split; [|split; [|split; [|split]]]]].
    + cbn [render_line]. rewrite <- !app_assoc.
      apply overruns_word; [done|by repeat constructor|done|simpl; lia].
    + cbn [render_line]. rewrite <- !app_assoc.
      rewrite scan_s_word; [|done|by repeat constructor|done].
      by rewrite c_str_token by reflexivity.
    + unfold token. cbn [list_ascii_of_string secondPass_step app].
      unfold token in Hface. cbn [list_ascii_of_string] in Hface.
      rewrite Hface. reflexivity.
    + apply skip_ws_idempotent.
    + close_inv Hinv. done.
    + unfold sofar, count_line. cbn. f_equal; lia.
    + by apply reads_as_f.
  - pose proof Hl as (Hne & Hns & Hlen').
    destruct (keyword_line (token "mtllib") (space :: file) R) as (Ho & Hs & Hg);
      [done|by repeat constructor|done|
       constructor; [done|by apply no_space_no_newline]|simpl; lia|simpl; lia|].
    rewrite c_str_token in Hs by reflexivity.
    eexists _, _, _, _. split; [|split; [|split; [|split; [|split; [|split]]]]].
    + etrans; [|exact Ho]. first [by f_equal | f_equal; reassoc].
    + etrans; [|exact Hs]. f_equal. reassoc.
    + unfold token. cbn [list_ascii_of_string].
      rewrite (secondPass_step_other "m" (token "tllib")) by done.
      rewrite Hg. reflexivity.
    + reflexivity.
    + close_inv Hinv. done.
    + unfold sofar, count_line. cbn. destruct st; cbn. f_equal; lia.
    + exact Hread.
  - eexists _, _, _, _. split; [|split; [|split; [|split; [|split; [|split]]]]].
    + cbn [render_line]. repeat (rewrite <- ?app_assoc; cbn [app]).
      apply overruns_word; [done|by repeat constructor|done|simpl; lia].
    + cbn [render_line]. repeat (rewrite <- ?app_assoc; cbn [app]).
      rewrite scan_s_word; [|done|by repeat constructor|done].
      by rewrite c_str_token by reflexivity.
    + unfold token. cbn [list_ascii_of_string secondPass_step app].
      rewrite read_name_line by done. reflexivity.
    + reflexivity.
    + close_inv Hinv. done.
    + unfold sofar, count_line. cbn. f_equal; lia.
    + by apply reads_as_usemtl.
  - destruct Hl as ((c & k & -> & Hc) & Hns & Hnl & Hbr).
    destruct (keyword_line (c :: k) rest R) as (Ho & Hs & Hg);
      [done|done|by destruct rest|done|
       cbn [render_line] in Hlen; list_len|
       cbn [render_line] in Hlen; list_len|].
    destruct Hc as (_ & _ & _ & _ & Hf & Hm & Hu & Hv).
    eexists _, _, _, _. split; [|split; [|split; [|split; [|split; [|split]]]]].
    + etrans; [|exact Ho]. first [by f_equal | f_equal; reassoc].
    + etrans; [|exact Hs]. f_equal. reassoc.
    + rewrite secondPass_step_other by done. rewrite Hg. reflexivity.
    + reflexivity.
    + close_inv Hinv. done.
    + unfold sofar, count_line. cbn. destruct st; cbn. f_equal; lia.
    + exact Hread.
Qed.

Lemma count_line_blank (c : Counts) : count_line c Lblank = c.
Proof. destruct c. unfold count_line. cbn. f_equal; lia. Qed.

(** The loop of the second pass on a well-formed file. *)
Lemma secondPass_loop_render (T : Counts) (n : Z) (cache : gmap string Z)
    (ls : list ObjLine) :
  forall (s : stream) (fuel : nat) (st : Pass2) (r : Reading),
    Forall line_ok ls -> refs_ok (sofar st) T ls -> pass2_inv T n ls st ->
    reads_as cache st r ->
    skip_ws s = skip_ws (render ls) -> (length ls < fuel)%nat ->
    exists st',
      secondPass_loop fuel s st = Some st' /\ pass2_inv T n [] st' /\
      reads_as cache st' (read_lines cache ls r).
Proof.
  induction ls as [|l ls IH]; intros s fuel st r Hok Hrefs Hinv Hread Hs Hfuel.
  - destruct fuel; [simpl in Hfuel; lia|]. cbn [secondPass_loop].
    unfold overruns, scan_s. rewrite Hs. cbn. by exists st.
  - destruct fuel; [simpl in Hfuel; lia|].
    apply Forall_cons in Hok as [Hl Hok].
    destruct Hrefs as [Hr Hrefs].
    assert (l = Lblank \/ l <> Lblank) as [->|Hnb]
      by (destruct l; (by left) || (by right)).
    + rewrite count_line_blank in Hrefs.
      apply (IH s (S fuel) st r Hok Hrefs);
        [|done|by rewrite Hs|simpl in Hfuel; lia].
      unfold pass2_inv, count_v, count_vt, count_vn, triangles in *.
      cbn [count_with is_v is_vt is_vn line_triangles] in Hinv.
      by rewrite !Z.add_0_l in Hinv.
    + rewrite render_cons in Hs.
      destruct (secondPass_line T n l ls (render ls) st cache r Hl
                  (render_no_int_ahead ls Hok) Hnb)
        as (buffer & s1 & s2 & st1 & Hover & Hscan & Hstep & Hs2 & Hinv1
            & Hsofar & Hread1);
        [by destruct l|done|done|].
      cbn [secondPass_loop].
      rewrite (overruns_ext _ _ Hs), Hover, (scan_s_ext _ _ Hs), Hscan, Hstep.
      cbn [mbind option_bind].
      apply (IH s2 fuel st1 (read_line cache l r) Hok);
        [by rewrite Hsofar|done|done|done|].
      simpl in Hfuel. lia.
Qed.

Lemma render_length (ls : list ObjLine) : (length ls <= length (render ls))%nat.
Proof.
  induction ls as [|l ls IH]; [simpl; lia|].
  rewrite render_cons, length_app. cbn [length].
  assert (0 < length (render_line l))%nat; [|lia].
  destruct l; cbn [render_line token list_ascii_of_string app length];
    rewrite ?length_app; cbn [length]; lia.
Qed.



End Geometry.

Section Materials.

(** ** [importMaterials] *)

#[local] Arguments scanf_floats : simpl never.
#[local] Arguments F32.add : simpl never.
#[local] Arguments F32.sub : simpl never.
#[local] Arguments F32.mul : simpl never.
#[local] Arguments F32.div : simpl never.
#[local] Arguments F32.of_Z : simpl never.
#[local] Arguments F32.of_decimal : simpl never.

Lemma vec_update_Some {A : Type} (v : list A) (i : Z) (f : A -> A) (x : A) :
  vec_at v i = Some x ->
  vec_update v i f = Some (<[Z.to_nat i := f x]> v).
Proof.
  intros Hx. unfold vec_update. rewrite Hx. simpl.
  unfold vec_at in Hx. destruct (decide (0 <= i)); [|discriminate].
  apply lookup_lt_Some in Hx.
  unfold vec_set, vec_size. by rewrite decide_True by lia.
Qed.

Lemma vec_at_insert_eq {A : Type} (v : list A) (i : Z) (x y : A) :
  vec_at v i = Some x -> vec_at (<[Z.to_nat i := y]> v) i = Some y.
Proof.
  unfold vec_at. destruct (decide (0 <= i)); [|discriminate].
  intros Hx%lookup_lt_Some. by apply list_lookup_insert_eq.
Qed.

(** An assignment through a valid [pMaterial]. *)
Lemma with_material_valid (f : Material -> Material) (st : MtlState) (i : Z)
    (a : Material) :
  mt_pMaterial st = Some i ->
  vec_at (m_materials (mt_model st)) i = Some a ->
  exists st', with_material f st = Some st' /\
              vec_at (m_materials (mt_model st')) i = Some (f a).
Proof.
  intros Hp Ha. unfold with_material. rewrite Hp. simpl.
  rewrite (vec_update_Some _ _ _ _ Ha). simpl.
  eexists. split; [reflexivity|].
  destruct st as [m p il n]; destruct m; simpl in *.
  by eapply vec_at_insert_eq.
Qed.

Lemma scanf_floats_1 (ws : list ascii) (v : Numeral) (rest : stream) :
  all_space ws -> numeral_ok v -> at_break rest ->
  scanf_floats 1 (ws ++ render_numeral v ++ rest) = ([numeral_value v], rest).
Proof.
  intros Hws Hv Hr. unfold scanf_floats.
  by rewrite (scan_f_numeral ws v rest Hws Hv Hr).
Qed.

(** C7: while a material is being filled ([pMaterial] points to the
    material [a]), the token [Ns] followed by the number [v] leaves the
    material with shininess [v / 1000], the token [d] followed by [v]
    leaves it with alpha [v], and the token [Tr] followed by [v] leaves it
    with alpha [1 - v]; every other member of the material is kept, and
    the input is then just after the number.  The number is a decimal
    numeral as written in the file, after any white space, and [v] is the
    [float] nearest to it.  A library with [Tr 0.3] in one material and
    [d 0.7] in another gives both the alpha [0.7f]. *)
Theorem material_directives (st : MtlState) (i : Z) (a : Material)
    (ws : list ascii) (v : Numeral) (rest : stream) :
  mt_pMaterial st = Some i ->
  vec_at (m_materials (mt_model st)) i = Some a ->
  all_space ws -> numeral_ok v -> at_break rest ->
  (exists st' a',
     importMaterials_step (token "Ns") (ws ++ render_numeral v ++ rest) st
     = Some (rest, st') /\
     vec_at (m_materials (mt_model st')) i = Some a' /\
     shininess a' = F32.div (numeral_value v) (F32.of_Z 1000) /\
     alpha a' = alpha a /\
     (ambient a', diffuse a', specular a') = (ambient a, diffuse a, specular a) /\
     (name a', colorMapFilename a', bumpMapFilename a')
     = (name a, colorMapFilename a, bumpMapFilename a)) /\
  (exists st' a',
     importMaterials_step (token "d") (ws ++ render_numeral v ++ rest) st
     = Some (rest, st') /\
     vec_at (m_materials (mt_model st')) i = Some a' /\
     alpha a' = numeral_value v /\
     shininess a' = shininess a /\
     (ambient a', diffuse a', specular a') = (ambient a, diffuse a, specular a) /\
     (name a', colorMapFilename a', bumpMapFilename a')
     = (name a, colorMapFilename a, bumpMapFilename a)) /\
  (exists st' a',
     importMaterials_step (token "Tr") (ws ++ render_numeral v ++ rest) st
     = Some (rest, st') /\
     vec_at (m_materials (mt_model st')) i = Some a' /\
     alpha a' = F32.sub F32.one (numeral_value v) /\
     shininess a' = shininess a /\
     (ambient a', diffuse a', specular a') = (ambient a, diffuse a, specular a) /\
     (name a', colorMapFilename a', bumpMapFilename a')
     = (name a, colorMapFilename a, bumpMapFilename a)) /\
  (exists m,
     importMaterials glass_mtl "glass.mtl" Model_new = Some (true, m) /\
     map name (m_materials m) = ["pane"%string; "sheet"%string] /\
     map alpha (m_materials m) = [f0_7; f0_7]).
Proof.
  intros Hp Ha Hws Hv Hr.
  pose proof (scanf_floats_1 ws v rest Hws Hv Hr) as Hx.
  split; [|split; [|split]].
  - destruct (with_material_valid
                (fun a => set_shininess
                            (stored1 [numeral_value v] (shininess a) / f1000)%f32 a)
                st i a Hp Ha) as (st' & Hw & Hat).
    exists st', (set_shininess (numeral_value v / f1000)%f32 a).
    split; [|split; [exact Hat|by destruct a]].
    unfold importMaterials_step, token. simpl. rewrite Hx, Hw. reflexivity.
  - destruct (with_material_valid
                (fun a => set_alpha (stored1 [numeral_value v] (alpha a)) a)
                st i a Hp Ha) as (st' & Hw & Hat).
    exists st', (set_alpha (numeral_value v) a).
    split; [|split; [exact Hat|by destruct a]].
    unfold importMaterials_step, token. simpl. rewrite Hx, Hw. reflexivity.
  - destruct (with_material_valid
                (fun a => set_alpha
                            (F32.one - stored1 [numeral_value v] (alpha a))%f32 a)
                st i a Hp Ha) as (st' & Hw & Hat).
    exists st', (set_alpha (F32.one - numeral_value v)%f32 a).
    split; [|split; [exact Hat|by destruct a]].
    unfold importMaterials_step, token. simpl. rewrite Hx, Hw. reflexivity.
  - eexists. split; [vm_compute; reflexivity|]. split; vm_compute; reflexivity.
Qed.

(** A material being filled and the text [ 500] after the token: its
    shininess becomes [0.5f]. *)
Lemma material_directives_witness :
  exists st' a',
    importMaterials_step (token "Ns") (token " 500")
      (Build_MtlState (set_m_materials [null_material] Model_new) (Some 0) 0 1)
    = Some ([], st') /\
    vec_at (m_materials (mt_model st')) 0 = Some a' /\
    shininess a' = F32.of_decimal false 5 (-1).
Proof.
  destruct (material_directives
              (Build_MtlState (set_m_materials [null_material] Model_new) (Some 0) 0 1)
              0 null_material [space] (whole false "500") [])
    as [(st' & a' & H & Hat & Hs & _) _];
    [reflexivity|reflexivity|by repeat constructor|
     by repeat constructor|exact I|].
  exists st', a'. split; [exact H|]. split; [exact Hat|].
  rewrite Hs. vm_compute. reflexivity.
Defined.

End Materials.

(** * Further properties *)

(** ** The order of [float], continued *)

Lemma ltb_transitive (x y z : float) :
  F32.ltb x y = true -> F32.ltb y z = true -> F32.ltb x z = true.
Proof.
  unfold F32.ltb, SFltb, SFcompare.
  destruct x as [sx|sx| |sx mx ex], y as [sy|sy| |sy my ey], z as [sz|sz| |sz mz ez];
    simpl; try discriminate;
    repeat match goal with s : bool |- _ => destruct s end;
    try discriminate; try reflexivity;
    try (destruct (Z.compare_spec ex ey), (Z.compare_spec ey ez), (Z.compare_spec ex ez);
         subst; try lia; try discriminate; try reflexivity;
         change (Pos.compare_cont Eq) with Pos.compare;
         try (destruct (Pos.compare_spec mx my), (Pos.compare_spec my mz),
                (Pos.compare_spec mx mz); subst; simpl; try lia; try discriminate;
              try reflexivity)).
Qed.

Lemma ltb_irreflexive (x : float) : F32.ltb x x = false.
Proof.
  pose proof (gtb_asymmetric x x) as H. unfold F32.gtb in H. unfold F32.ltb.
  destruct (SFltb x x); [by apply H|done].
Qed.

Lemma ltb_asymmetric (x y : float) : F32.ltb x y = true -> F32.ltb y x = false.
Proof. intros H. by apply (gtb_asymmetric y x). Qed.

(** [y] is not below [a] and [x] is: [y] is not below [x]. *)
Lemma ltb_lower (x y a : float) :
  F32.ltb x a = true -> F32.ltb y a = false -> F32.ltb y x = false.
Proof.
  intros Hx Hy. destruct (F32.ltb y x) eqn:E; [|done].
  by rewrite (ltb_transitive y x a E Hx) in Hy.
Qed.

(** [y] is not above [a] and [x] is: [y] is not above [x]. *)
Lemma ltb_upper (x y a : float) :
  F32.ltb a x = true -> F32.ltb a y = false -> F32.ltb x y = false.
Proof.
  intros Hx Hy. destruct (F32.ltb x y) eqn:E; [|done].
  by rewrite (ltb_transitive a x y Hx E) in Hy.
Qed.

(** ** [bounds] *)

Section Axis.

Variable coord : Vertex -> float.
Variable lo hi : Extent -> float.
Hypothesis lo_step : forall e v,
  lo (bounds_step e v) = if F32.ltb (coord v) (lo e) then coord v else lo e.
Hypothesis hi_step : forall e v,
  hi (bounds_step e v) = if F32.gtb (coord v) (hi e) then coord v else hi e.

Lemma axis_encloses (vb : list Vertex) : forall (e : Extent) (seen : list float),
  encloses (lo e) (hi e) seen ->
  encloses (lo (fold_left bounds_step vb e)) (hi (fold_left bounds_step vb e))
    (seen ++ map coord vb).
Proof.
  induction vb as [|v vb IH]; intros e seen Hseen; cbn [fold_left map].
  - by rewrite app_nil_r.
  - replace (seen ++ coord v :: map coord vb)
      with ((seen ++ [coord v]) ++ map coord vb) by (by rewrite <- app_assoc).
    apply IH. rewrite lo_step, hi_step. unfold encloses in *.
    apply Forall_app. split.
    + eapply Forall_impl; [exact Hseen|]. cbn beta. intros x [Hlo Hhi]. split.
      * destruct (F32.ltb (coord v) (lo e)) eqn:E; [|done].
        by apply (ltb_lower _ _ (lo e)).
      * destruct (F32.gtb (coord v) (hi e)) eqn:E; [|done].
        unfold F32.gtb in *. by apply (ltb_upper _ _ (hi e)).
    + apply Forall_cons. split; [|done]. split.
      * destruct (F32.ltb (coord v) (lo e)) eqn:E; [apply ltb_irreflexive|done].
      * destruct (F32.gtb (coord v) (hi e)) eqn:E; [apply ltb_irreflexive|done].
Qed.

Lemma axis_among (vb : list Vertex) : forall e : Extent,
  (lo (fold_left bounds_step vb e) = lo e \/
   In (lo (fold_left bounds_step vb e)) (map coord vb)) /\
  (hi (fold_left bounds_step vb e) = hi e \/
   In (hi (fold_left bounds_step vb e)) (map coord vb)).
Proof.
  induction vb as [|v vb IH]; intros e; cbn [fold_left map]; [by split; left|].
  destruct (IH (bounds_step e v)) as [[Hlo|Hlo] [Hhi|Hhi]];
    rewrite ?lo_step, ?hi_step in *; split.
  all: try (right; right; assumption).
  all: try (rewrite Hlo; destruct (F32.ltb (coord v) (lo e)); [right; by left|by left]).
  all: try (rewrite Hhi; destruct (F32.gtb (coord v) (hi e)); [right; by left|by left]).
Qed.

End Axis.

(** X1. Whatever the vertex buffer holds, no coordinate is below the
    minimum or above the maximum [bounds] computes along its axis, and
    each minimum and maximum is the value the loop starts with or a
    coordinate of a vertex. *)
Theorem bounds_extent_encloses (vb : list Vertex) :
  let e := bounds_extent vb in
  (encloses (xMin e) (xMax e) (xs_of vb) /\
   encloses (yMin e) (yMax e) (ys_of vb) /\
   encloses (zMin e) (zMax e) (zs_of vb)) /\
  (init_or_among F32.numeric_limits_max (xMin e) (xs_of vb) /\
   init_or_among F32.numeric_limits_max (yMin e) (ys_of vb) /\
   init_or_among F32.numeric_limits_max (zMin e) (zs_of vb)) /\
  (init_or_among F32.numeric_limits_min (xMax e) (xs_of vb) /\
   init_or_among F32.numeric_limits_min (yMax e) (ys_of vb) /\
   init_or_among F32.numeric_limits_min (zMax e) (zs_of vb)).
Proof.
  cbv zeta. unfold bounds_extent, xs_of, ys_of, zs_of, init_or_among.
  pose proof (fun c lo hi H1 H2 =>
                axis_encloses c lo hi H1 H2 vb bounds_init [] (Forall_nil_2 _)) as He.
  pose proof (fun c lo hi H1 H2 => axis_among c lo hi H1 H2 vb bounds_init) as Ha.
  cbn [app] in He.
  pose proof (He (fun v => f3_0 (position v)) xMin xMax
                (fun _ _ => eq_refl) (fun _ _ => eq_refl)) as Hx.
  pose proof (He (fun v => f3_1 (position v)) yMin yMax
                (fun _ _ => eq_refl) (fun _ _ => eq_refl)) as Hy.
  pose proof (He (fun v => f3_2 (position v)) zMin zMax
                (fun _ _ => eq_refl) (fun _ _ => eq_refl)) as Hz.
  destruct (Ha (fun v => f3_0 (position v)) xMin xMax
              (fun _ _ => eq_refl) (fun _ _ => eq_refl)) as [Ax Bx].
  destruct (Ha (fun v => f3_1 (position v)) yMin yMax
              (fun _ _ => eq_refl) (fun _ _ => eq_refl)) as [Ay By].
  destruct (Ha (fun v => f3_2 (position v)) zMin zMax
              (fun _ _ => eq_refl) (fun _ _ => eq_refl)) as [Az Bz].
  repeat split; assumption.
Qed.

(** X2. The radius [bounds] returns is the width, the height or the
    length, and it is below none of the three. *)
Theorem bounds_radius_largest (m : Model) :
  let b := bounds m in
  (b_radius b = b_width b \/ b_radius b = b_height b \/ b_radius b = b_length b) /\
  F32.ltb (b_radius b) (b_width b) = false /\
  F32.ltb (b_radius b) (b_height b) = false /\
  F32.ltb (b_radius b) (b_length b) = false.
Proof.
  cbv zeta. unfold bounds. cbn [b_radius b_width b_height b_length].
  set (w := F32.sub _ _). set (h := F32.sub _ _). set (l := F32.sub _ _).
  unfold F32.max.
  destruct (F32.ltb w h) eqn:Ewh.
  - destruct (F32.ltb h l) eqn:Ehl.
    + split; [auto|]. split; [|split].
      * apply ltb_asymmetric. by apply (ltb_transitive w h l).
      * by apply ltb_asymmetric.
      * apply ltb_irreflexive.
    + split; [auto|]. split; [|split].
      * by apply ltb_asymmetric.
      * apply ltb_irreflexive.
      * done.
  - destruct (F32.ltb w l) eqn:Ewl.
    + split; [auto|]. split; [|split].
      * by apply ltb_asymmetric.
      * by apply (ltb_upper _ _ w).
      * apply ltb_irreflexive.
    + split; [auto|]. split; [|split].
      * apply ltb_irreflexive.
      * done.
      * done.
Qed.

(** X3. A model without vertices: the loop of [bounds] does not run, the
    extents and the radius are [FLT_MIN - FLT_MAX], which rounds to
    [-FLT_MAX], and the centre is at [FLT_MAX / 2] on every axis. *)
Theorem bounds_of_no_vertices (m : Model) :
  m_vertexBuffer m = [] ->
  b_radius (bounds m) = F32.neg F32.numeric_limits_max /\
  b_width (bounds m) = F32.neg F32.numeric_limits_max /\
  b_height (bounds m) = F32.neg F32.numeric_limits_max /\
  b_length (bounds m) = F32.neg F32.numeric_limits_max /\
  b_center (bounds m)
  = F3 (F32.numeric_limits_max / F32.two)%f32 (F32.numeric_limits_max / F32.two)%f32
       (F32.numeric_limits_max / F32.two)%f32 /\
  F32.ltb (b_radius (bounds m)) F32.zero = true.
Proof.
  intros H. unfold bounds, bounds_extent. rewrite H. vm_compute. done.
Qed.

Lemma bounds_of_no_vertices_witness :
  b_radius (bounds Model_new) = F32.neg F32.numeric_limits_max /\
  F32.ltb (b_radius (bounds Model_new)) F32.zero = true.
Proof.
  destruct (bounds_of_no_vertices Model_new eq_refl) as (H1 & _ & _ & _ & _ & H2).
  split; [exact H1|exact H2].
Defined.

(** ** [reverseWinding] on an index buffer that is not made of triples *)

Lemma vec_at_past {A : Type} (l : list A) (i : Z) :
  vec_size l <= i -> vec_at l i = None.
Proof.
  unfold vec_at, vec_size. intros H. destruct (decide _); [|done].
  apply lookup_ge_None. lia.
Qed.

Lemma reverseWinding_indices_ragged (n : nat) : forall (pre rest : list Z),
  (length rest = 3 * n + 1 \/ length rest = 3 * n + 2)%nat ->
  reverseWinding_indices (S n) (Z.of_nat (length pre)) (pre ++ rest) = None.
Proof.
  induction n as [|n IH]; intros pre rest Hlen.
  - cbn [reverseWinding_indices].
    destruct (vec_at (pre ++ rest) (Z.of_nat (length pre) + 1)) as [a|]; [|done].
    cbn [mbind option_bind]. rewrite vec_at_past; [done|].
    unfold vec_size. rewrite length_app. lia.
  - destruct rest as [|a [|b [|c r]]]; simpl in Hlen; try lia.
    remember (S n) as k. cbn [reverseWinding_indices].
    rewrite (vec_at_app_r pre (a :: b :: c :: r) 1) by lia.
    rewrite (vec_at_app_r pre (a :: b :: c :: r) 2) by lia. simpl.
    rewrite (vec_set_app_r pre (a :: b :: c :: r) 1) by (simpl; lia). simpl.
    rewrite (vec_set_app_r pre (a :: c :: c :: r) 2) by (simpl; lia). simpl.
    subst k. specialize (IH (pre ++ [a; c; b]) r).
    rewrite length_app in IH. simpl in IH.
    replace (Z.of_nat (length pre) + 3) with (Z.of_nat (length pre + 3)) by lia.
    rewrite <- !app_assoc in IH. simpl in IH. apply IH. lia.
Qed.

(** X4. [reverseWinding] stays inside the index buffer exactly when the
    size of the buffer is a multiple of three; otherwise its last turn
    reads and writes past the end. *)
Theorem reverseWinding_defined_iff (m : Model) :
  is_Some (reverseWinding m) <-> vec_size (m_indexBuffer m) mod 3 = 0.
Proof.
  unfold reverseWinding. set (ib := m_indexBuffer m).
  assert (Hn : vec_size ib = Z.of_nat (length ib)) by reflexivity.
  pose proof (Z.div_mod (vec_size ib) 3 ltac:(lia)) as Hdm.
  pose proof (Z.mod_pos_bound (vec_size ib) 3 ltac:(lia)) as Hb.
  split.
  - intros [m' Hm'].
    destruct (decide (vec_size ib mod 3 = 0)) as [|Hr]; [done|exfalso].
    set (q := Z.to_nat (vec_size ib / 3)).
    assert (Hturns : Z.to_nat ((vec_size ib + 2) / 3) = S q).
    { assert ((vec_size ib + 2) / 3 = vec_size ib / 3 + 1); [|unfold q; lia].
      symmetry. apply Z.div_unique with (r := vec_size ib mod 3 - 1); lia. }
    rewrite Hturns in Hm'.
    pose proof (reverseWinding_indices_ragged q [] ib) as Hrag.
    cbn [length app] in Hrag. change (Z.of_nat 0) with 0 in Hrag.
    rewrite Hrag in Hm'; [done|]. unfold q. lia.
  - intros Hr.
    rewrite (reverseWinding_indices_whole ib (Z.to_nat (vec_size ib / 3))) by lia.
    by eexists.
Qed.

(** ** The directory of the file [import] reads *)

Lemma find_last_of_lacks (c : ascii) (s : string) : forall i : nat,
  lacks c s -> find_last_of c s i = None.
Proof.
  unfold lacks. induction s as [|d s IH]; intros i H; [done|].
  cbn [find_last_of list_ascii_of_string In] in *.
  rewrite IH by tauto.
  destruct (Ascii.eqb_spec c d) as [->|]; [tauto|done].
Qed.

Lemma append_nil_l (s : string) : String.append EmptyString s = s.
Proof. reflexivity. Qed.

Lemma append_cons_l (d : ascii) (pre s : string) :
  String.append (String d pre) s = String d (String.append pre s).
Proof. reflexivity. Qed.

Lemma find_last_of_last (c : ascii) (name : string) (pre : string) : forall i : nat,
  lacks c name ->
  find_last_of c (String.append pre (String c name)) i
  = Some (i + String.length pre)%nat.
Proof.
  induction pre as [|d pre IH]; intros i H.
  - rewrite append_nil_l. cbn [find_last_of String.length].
    rewrite find_last_of_lacks by done. rewrite Ascii.eqb_refl. f_equal. lia.
  - rewrite append_cons_l. cbn [find_last_of String.length].
    rewrite IH by done. f_equal. lia.
Qed.

Lemma find_last_of_append_lacks (c : ascii) (pre name : string) : forall i : nat,
  lacks c pre -> lacks c name ->
  find_last_of c (String.append pre name) i = None.
Proof.
  unfold lacks. induction pre as [|d pre IH]; intros i Hp Hn.
  - by apply find_last_of_lacks.
  - rewrite append_cons_l. cbn [find_last_of list_ascii_of_string In] in *.
    rewrite IH by tauto.
    destruct (Ascii.eqb_spec c d) as [->|]; [tauto|done].
Qed.

Lemma substring_through (pre name : string) (c : ascii) :
  String.substring 0 (S (String.length pre)) (String.append pre (String c name))
  = String.append pre (String c EmptyString).
Proof.
  induction pre as [|d pre IH];
    rewrite ?append_nil_l, ?append_cons_l; cbn [String.length String.substring].
  - by destruct name.
  - by rewrite IH.
Qed.

(** X5. The directory [import] keeps of a file name: everything up to
    and with the last backslash, whatever slashes come after it; without
    a backslash, everything up to and with the last slash; and nothing
    when the name has neither. *)
Theorem directory_of_file_name (dir name : string) :
  (lacks backslash name ->
   directory_of (String.append dir (String backslash name))
   = String.append dir (String backslash EmptyString)) /\
  (lacks backslash dir -> lacks backslash name -> lacks slash name ->
   directory_of (String.append dir (String slash name))
   = String.append dir (String slash EmptyString)) /\
  (lacks backslash name -> lacks slash name ->
   directory_of name = EmptyString).
Proof.
  unfold directory_of, backslash, slash. split; [|split].
  - intros Hn. rewrite find_last_of_last by done. cbn [Nat.add].
    apply substring_through.
  - intros Hd Hn Hs.
    assert (Hb : lacks "\"%char (String "/"%char name)).
    { unfold lacks in *. cbn [list_ascii_of_string In]. intros [H|H]; [discriminate|tauto]. }
    rewrite find_last_of_append_lacks by done.
    rewrite find_last_of_last by done. cbn [Nat.add].
    apply substring_through.
  - intros Hn Hs. by rewrite !find_last_of_lacks.
Qed.

(** ** A material library that does not begin with [newmtl] *)

Lemma with_material_null (f : Material -> Material) (st : MtlState) :
  mt_pMaterial st = None -> with_material f st = None.
Proof. unfold with_material. by intros ->. Qed.

Lemma importMaterials_step_null (buffer : list ascii) (s1 : stream)
    (st : MtlState) :
  mt_pMaterial st = None -> stores_through_pMaterial buffer = true ->
  importMaterials_step buffer s1 st = None.
Proof.
  intros Hp Hb. unfold importMaterials_step, stores_through_pMaterial in *.
  repeat case_match; try discriminate;
    rewrite ?with_material_null by done; try done.
  all: simplify_eq.
Qed.

(** X6. A material library whose first token is a directive that stores
    into the current material ([Ns], [Ka], [Kd], [Ks], [Tr], [d],
    [map_Kd], [map_bump]) is read through the null [pMaterial]: the
    import has no defined behaviour. *)
Theorem importMaterials_before_newmtl (fs : filesystem) (pszFilename : string)
    (pFile : stream) (buffer : list ascii) (s1 : stream) (m : Model) :
  fs pszFilename = Some pFile ->
  scan_s pFile = Some (buffer, s1) ->
  stores_through_pMaterial buffer = true ->
  importMaterials fs pszFilename m = None.
Proof.
  intros Hfs Hscan Hb. unfold importMaterials. rewrite Hfs.
  destruct (importMaterials_count _ _ _) as [n|]; [|done].
  cbn [mbind option_bind importMaterials_fill].
  destruct (overruns pFile); [done|]. rewrite Hscan.
  by rewrite importMaterials_step_null.
Qed.

Lemma importMaterials_before_newmtl_witness :
  importMaterials headless_mtl "bad.mtl" Model_new = None.
Proof.
  apply (importMaterials_before_newmtl headless_mtl "bad.mtl"
           (text ["Ns 10"; "newmtl a"]) (token "Ns")
           (list_ascii_of_string " 10" ++ newline :: text ["newmtl a"]));
    reflexivity.
Defined.

(** ** The loops over the triangles of [generateNormals] and
    [generateTangents] *)

Lemma for_range_defined {St : Type} (P : St -> Prop) (body : Z -> St -> option St)
    (n : nat) : forall (i : Z) (s : St),
  (forall k s, i <= k < i + Z.of_nat n -> P s -> exists s', body k s = Some s' /\ P s') ->
  P s -> exists s', for_range n i body s = Some s' /\ P s'.
Proof.
  induction n as [|n IH]; intros i s Hbody Hs; [by exists s|].
  cbn [for_range]. destruct (Hbody i s) as (s1 & -> & Hs1); [lia|done|].
  cbn [mbind option_bind]. apply IH; [|done].
  intros k s2 Hk. apply Hbody. lia.
Qed.

Lemma for_range_inv {St : Type} (P : St -> Prop) (Q : Z -> Prop)
    (body : Z -> St -> option St) (n : nat) : forall (i : Z) (s s' : St),
  (forall k s s', P s -> body k s = Some s' -> P s' /\ Q k) ->
  for_range n i body s = Some s' -> P s ->
  P s' /\ forall k, i <= k < i + Z.of_nat n -> Q k.
Proof.
  induction n as [|n IH]; intros i s s' Hbody Hrun Hs.
  - injection Hrun as <-. split; [done|]. intros k Hk. lia.
  - cbn [for_range] in Hrun.
    destruct (body i s) as [s1|] eqn:E; [|done]. cbn [mbind option_bind] in Hrun.
    destruct (Hbody i s s1 Hs E) as [Hs1 Hq].
    destruct (IH (i + 1) s1 s' Hbody Hrun Hs1) as [Hs' Hrest].
    split; [done|]. intros k Hk.
    destruct (decide (k = i)) as [->|]; [done|]. apply Hrest. lia.
Qed.

Lemma fmap_insert_same {A B : Type} (g : A -> B) (l : list A) (i : nat) (x y : A) :
  l !! i = Some x -> g y = g x -> map g (<[i := y]> l) = map g l.
Proof.
  intros Hx Hg. change (g <$> <[i:=y]> l = g <$> l).
  rewrite list_fmap_insert, Hg. apply list_insert_id.
  by rewrite list_lookup_fmap, Hx.
Qed.

Section TriangleLoop.

Variable m : Model.
Variable change : Vertex -> Vertex -> Vertex -> Vertex -> Vertex.
Variable keep : Vertex -> Vertex.
Hypothesis keep_change : forall v0 v1 v2 x, keep (change v0 v1 v2 x) = keep x.

Lemma vec_update_keep (vb : list Vertex) (i : Z) (f : Vertex -> Vertex) :
  (forall x, keep (f x) = keep x) ->
  0 <= i < vec_size vb ->
  exists vb', vec_update vb i f = Some vb' /\
              vec_size vb' = vec_size vb /\ map keep vb' = map keep vb.
Proof.
  intros Hf Hi. destruct (vec_at_lt_Some vb i Hi) as [x Hx].
  rewrite (vec_update_Some vb i f x Hx). eexists. split; [done|].
  unfold vec_size. rewrite length_insert. split; [done|].
  unfold vec_at in Hx. rewrite decide_True in Hx by lia.
  by apply (fmap_insert_same keep vb _ x).
Qed.

Lemma vec_update_inv (vb vb' : list Vertex) (i : Z) (f : Vertex -> Vertex) :
  vec_update vb i f = Some vb' -> 0 <= i < vec_size vb.
Proof.
  unfold vec_update. destruct (vec_at vb i) as [x|] eqn:E; [|done].
  intros _. by apply vec_at_Some_lt in E.
Qed.

Lemma triangle_at_defined (vb : list Vertex) (k : Z) :
  triangle_ok (m_indexBuffer m) (vec_size vb) k ->
  exists i0 i1 i2 v0 v1 v2,
    triangle_at m vb k = Some (i0, i1, i2, v0, v1, v2) /\
    0 <= i0 < vec_size vb /\ 0 <= i1 < vec_size vb /\ 0 <= i2 < vec_size vb.
Proof.
  intros Hk. unfold triangle_at.
  destruct (Hk 0) as (i0 & E0 & H0); [lia|]. rewrite Z.add_0_r in E0.
  destruct (Hk 1) as (i1 & E1 & H1); [lia|].
  destruct (Hk 2) as (i2 & E2 & H2); [lia|].
  rewrite E0, E1, E2. cbn [mbind option_bind].
  destruct (vec_at_lt_Some vb i0 H0) as [v0 ->].
  destruct (vec_at_lt_Some vb i1 H1) as [v1 ->].
  destruct (vec_at_lt_Some vb i2 H2) as [v2 ->].
  cbn [mbind option_bind]. by eexists _, _, _, _, _, _.
Qed.

Lemma triangle_at_inv (vb : list Vertex) (k : Z) r :
  triangle_at m vb k = Some r ->
  triangle_ok (m_indexBuffer m) (vec_size vb) k.
Proof.
  unfold triangle_at. intros H.
  destruct (vec_at (m_indexBuffer m) (k * 3)) as [i0|] eqn:E0; [|done].
  destruct (vec_at (m_indexBuffer m) (k * 3 + 1)) as [i1|] eqn:E1; [|done].
  destruct (vec_at (m_indexBuffer m) (k * 3 + 2)) as [i2|] eqn:E2; [|done].
  cbn [mbind option_bind] in H.
  destruct (vec_at vb i0) as [v0|] eqn:V0; [|done].
  destruct (vec_at vb i1) as [v1|] eqn:V1; [|done].
  destruct (vec_at vb i2) as [v2|] eqn:V2; [|done].
  apply vec_at_Some_lt in V0, V1, V2.
  intros c Hc.
  assert (c = 0 \/ c = 1 \/ c = 2) as [-> | [-> | ->]] by lia;
    rewrite ?Z.add_0_r; eauto.
Qed.

Lemma triangle_body_defined (vb : list Vertex) (k : Z) :
  triangle_ok (m_indexBuffer m) (vec_size vb) k ->
  exists vb', triangle_body m change k vb = Some vb' /\
              vec_size vb' = vec_size vb /\ map keep vb' = map keep vb.
Proof.
  intros Hk. unfold triangle_body.
  destruct (triangle_at_defined vb k Hk)
    as (i0 & i1 & i2 & v0 & v1 & v2 & -> & H0 & H1 & H2).
  cbn [mbind option_bind].
  destruct (vec_update_keep vb i0 (change v0 v1 v2) (keep_change _ _ _) H0)
    as (vb1 & -> & S1 & K1).
  cbn [mbind option_bind].
  destruct (vec_update_keep vb1 i1 (change v0 v1 v2) (keep_change _ _ _))
    as (vb2 & -> & S2 & K2); [lia|].
  cbn [mbind option_bind].
  destruct (vec_update_keep vb2 i2 (change v0 v1 v2) (keep_change _ _ _))
    as (vb3 & -> & S3 & K3); [lia|].
  exists vb3. split; [done|]. split; [lia|]. by rewrite K3, K2, K1.
Qed.

Lemma triangle_body_inv (vb vb' : list Vertex) (k : Z) :
  triangle_body m change k vb = Some vb' ->
  triangle_ok (m_indexBuffer m) (vec_size vb) k.
Proof.
  unfold triangle_body. intros H.
  destruct (triangle_at m vb k) as [r|] eqn:E; [|done].
  by apply triangle_at_inv in E.
Qed.

(** The loop runs to its end when every triangle is in the buffers, and
    only then; it keeps the number of vertices and what [keep] shows of
    each. *)
Lemma triangle_loop_defined (n : nat) (vb : list Vertex) :
  (forall k, 0 <= k < Z.of_nat n ->
     triangle_ok (m_indexBuffer m) (vec_size vb) k) ->
  exists vb', for_range n 0 (triangle_body m change) vb = Some vb'.
Proof.
  intros Hok.
  destruct (for_range_defined (fun s => vec_size s = vec_size vb)
              (triangle_body m change) n 0 vb) as (vb' & Hrun & _);
    [|done|by exists vb'].
  intros k s Hk Hs.
  destruct (triangle_body_defined s k) as (s' & Hb & Hs' & Hk');
    [rewrite Hs; apply Hok; lia|].
  exists s'. split; [done|lia].
Qed.

Lemma triangle_loop_inv (n : nat) (vb vb' : list Vertex) :
  for_range n 0 (triangle_body m change) vb = Some vb' ->
  (forall k, 0 <= k < Z.of_nat n ->
     triangle_ok (m_indexBuffer m) (vec_size vb) k) /\
  vec_size vb' = vec_size vb /\ map keep vb' = map keep vb.
Proof.
  intros Hrun.
  destruct (for_range_inv
              (fun s => vec_size s = vec_size vb /\ map keep s = map keep vb)
              (fun k => triangle_ok (m_indexBuffer m) (vec_size vb) k)
              (triangle_body m change) n 0 vb vb') as [[Hs Hk] Hq];
    [|done|done|].
  - intros k s s' [Hs Hkeep] Hb.
    pose proof (triangle_body_inv s s' k Hb) as Hk. rewrite Hs in Hk.
    destruct (triangle_body_defined s k) as (s2 & Hb2 & Hs2 & Hk2);
      [by rewrite Hs|].
    rewrite Hb in Hb2. injection Hb2 as <-.
    split; [|done]. split; [lia|]. by rewrite Hk2.
  - split; [|done]. intros k Hk'. apply Hq. lia.
Qed.

End TriangleLoop.

Lemma for_range_ext {St : Type} (body body' : Z -> St -> option St) (n : nat) :
  forall (i : Z) (s : St),
    (forall i s, body i s = body' i s) ->
    for_range n i body s = for_range n i body' s.
Proof.
  induction n as [|n IH]; intros i s H; [done|].
  cbn [for_range]. rewrite H. destruct (body' i s); [|done].
  cbn [mbind option_bind]. by apply IH.
Qed.

(** ** [generateNormals] *)

(** X7. [generateNormals] stays inside the buffers exactly when the
    three indices of every triangle the model counts are in the index
    buffer and designate vertices.  It then sets the flag and changes the
    normals only: the number of vertices and the position, texture
    coordinates, tangent and bitangent of each are kept, and so is every
    other member of the model. *)
Theorem generateNormals_frame (m : Model) :
  (is_Some (generateNormals m) <-> triangles_ok m) /\
  (forall m', generateNormals m = Some m' ->
     m' = set_m_hasNormals true (set_m_vertexBuffer (m_vertexBuffer m') m) /\
     map without_normal (m_vertexBuffer m') = map without_normal (m_vertexBuffer m)).
Proof.
  set (change := fun v0 v1 v2 : Vertex =>
         add_normal (cross (sub3 (position v1) (position v0))
                           (sub3 (position v2) (position v0)))).
  assert (Hkeep : forall v0 v1 v2 x,
             without_normal (change v0 v1 v2 x) = without_normal x) by done.
  assert (Hsize : vec_size (map (set_normal zero3) (m_vertexBuffer m))
                  = vec_size (m_vertexBuffer m))
    by (unfold vec_size; by rewrite length_map).
  unfold generateNormals.
  rewrite (for_range_ext (generateNormals_triangle m) (triangle_body m change))
    by done.
  split; [split|].
  - intros [m' Hm'] k Hk.
    destruct (for_range _ _ _ _) as [vb'|] eqn:Hrun; [|done].
    destruct (triangle_loop_inv m change without_normal Hkeep _ _ _ Hrun)
      as (Hok & _).
    rewrite <- Hsize. apply Hok. lia.
  - intros Hok.
    destruct (triangle_loop_defined m change without_normal Hkeep
                (Z.to_nat (m_numberOfTriangles m))
                (map (set_normal zero3) (m_vertexBuffer m))) as [vb' ->];
      [|by eexists].
    intros k Hk. rewrite Hsize. apply Hok. lia.
  - intros m' Hm'.
    destruct (for_range _ _ _ _) as [vb'|] eqn:Hrun; [|done].
    destruct (triangle_loop_inv m change without_normal Hkeep _ _ _ Hrun)
      as (_ & _ & Hk).
    injection Hm' as <-. split; [by destruct m|].
    replace (m_vertexBuffer _) with (map normalize_normal vb') by (by destruct m).
    rewrite map_map.
    rewrite (map_ext _ without_normal) by done.
    rewrite Hk, map_map. by apply map_ext.
Qed.

(** ** [generateTangents] *)

(** X8. [generateTangents] stays inside the buffers exactly when every
    triangle the model counts is in them.  It then sets the flag and
    changes the tangents and bitangents only. *)
Theorem generateTangents_frame (m : Model) :
  (is_Some (generateTangents m) <-> triangles_ok m) /\
  (forall m', generateTangents m = Some m' ->
     m' = set_m_hasTangents true (set_m_vertexBuffer (m_vertexBuffer m') m) /\
     map without_tangents (m_vertexBuffer m')
     = map without_tangents (m_vertexBuffer m)).
Proof.
  set (change := fun v0 v1 v2 : Vertex =>
         add_tangents (fst (triangle_tangents v0 v1 v2))
                      (snd (triangle_tangents v0 v1 v2))).
  assert (Hkeep : forall v0 v1 v2 x,
             without_tangents (change v0 v1 v2 x) = without_tangents x) by done.
  set (clear := fun v => set_bitangent zero3 (set_tangent zero4 v)).
  assert (Hsize : vec_size (map clear (m_vertexBuffer m))
                  = vec_size (m_vertexBuffer m))
    by (unfold vec_size; by rewrite length_map).
  unfold generateTangents. fold clear.
  rewrite (for_range_ext (generateTangents_triangle m) (triangle_body m change)).
  2:{ intros i s. unfold generateTangents_triangle, triangle_body, change.
      destruct (triangle_at m s i) as [[[[[[i0 i1] i2] v0] v1] v2]|]; [|done].
      cbn [mbind option_bind]. by destruct (triangle_tangents v0 v1 v2). }
  split; [split|].
  - intros [m' Hm'] k Hk.
    destruct (for_range _ _ _ _) as [vb'|] eqn:Hrun; [|done].
    destruct (triangle_loop_inv m change without_tangents Hkeep _ _ _ Hrun)
      as (Hok & _).
    rewrite <- Hsize. apply Hok. lia.
  - intros Hok.
    destruct (triangle_loop_defined m change without_tangents Hkeep
                (Z.to_nat (m_numberOfTriangles m))
                (map clear (m_vertexBuffer m))) as [vb' ->];
      [|by eexists].
    intros k Hk. rewrite Hsize. apply Hok. lia.
  - intros m' Hm'.
    destruct (for_range _ _ _ _) as [vb'|] eqn:Hrun; [|done].
    destruct (triangle_loop_inv m change without_tangents Hkeep _ _ _ Hrun)
      as (_ & _ & Hk).
    injection Hm' as <-. split; [by destruct m|].
    replace (m_vertexBuffer _) with (map orthogonalize_tangent vb') by (by destruct m).
    rewrite map_map.
    rewrite (map_ext _ without_tangents) by done.
    rewrite Hk, map_map. by apply map_ext.
Qed.

(** ** What the second pass keeps, whatever it reads *)

Lemma addVertex_inv (h : Z) (v : Vertex) (m m1 : Model) (i : Z) :
  addVertex h v m = Some (i, m1) -> cache_wf m ->
  cache_wf m1 /\
  0 <= i < vec_size (m_vertexBuffer m1) /\
  vec_size (m_vertexBuffer m) <= vec_size (m_vertexBuffer m1)
    <= vec_size (m_vertexBuffer m) + 1 /\
  m_attributeBuffer m1 = m_attributeBuffer m /\
  m_indexBuffer m1 = m_indexBuffer m /\
  sizes m1 = sizes m /\
  cleared m1 = cleared m.
Proof.
  intros Hadd Hwf.
  destruct (addVertex_step m h v Hwf) as (i' & m' & Hadd' & Hwf' & _ & Hrec).
  rewrite Hadd in Hadd'. injection Hadd' as <- <-.
  split; [done|]. split; [by eapply vec_at_Some_lt, hit_lookup|].
  unfold addVertex in Hadd.
  destruct (m_vertexCache m !! h) as [l|].
  - destruct (addVertex_scan _ _ _) as [[j|]|]; [| |done];
      injection Hadd as <- <-; destruct m; unfold vec_size; cbn;
      rewrite ?length_app; cbn; repeat split; (done || lia).
  - injection Hadd as <- <-; destruct m; unfold vec_size; cbn;
      rewrite ?length_app; cbn; repeat split; (done || lia).
Qed.

Lemma vec_set_inv {A : Type} (v v' : list A) (i : Z) (x : A) :
  vec_set v i x = Some v' ->
  0 <= i < vec_size v /\ v' = <[Z.to_nat i := x]> v.
Proof.
  unfold vec_set. destruct (decide _); [|done]. by intros [= <-].
Qed.

Lemma vec_at_insert {A : Type} (v : list A) (i j : Z) (x : A) :
  0 <= i < vec_size v ->
  vec_at (<[Z.to_nat i := x]> v) j
  = if decide (j = i) then Some x else vec_at v j.
Proof.
  unfold vec_at, vec_size. intros Hi.
  destruct (decide (j = i)) as [->|Hne].
  - rewrite decide_True by lia. apply list_lookup_insert_eq. lia.
  - destruct (decide (0 <= j)); [|done].
    apply list_lookup_insert_ne. lia.
Qed.

Lemma emit_inv (slot h : Z) (v : Vertex) (m m' : Model) :
  emit slot h v m = Some m' -> cache_wf m -> indices_below slot m ->
  cache_wf m' /\
  indices_below (slot + 1) m' /\
  vec_size (m_vertexBuffer m) <= vec_size (m_vertexBuffer m')
    <= vec_size (m_vertexBuffer m) + 1 /\
  m_attributeBuffer m' = m_attributeBuffer m /\
  m_materials m' = m_materials m /\
  sizes m' = sizes m /\
  cleared m' = cleared m.
Proof.
  unfold emit. intros H Hwf Hbelow.
  destruct (addVertex h v m) as [[i m1]|] eqn:Hadd; [|done].
  cbn [mbind option_bind] in H.
  destruct (vec_set (m_indexBuffer m1) slot i) as [ib|] eqn:Hset; [|done].
  injection H as <-.
  destruct (addVertex_inv _ _ _ _ _ Hadd Hwf)
    as (Hwf1 & Hi & Hsz & Ha & Hib & Hss & Hc).
  destruct (vec_set_inv _ _ _ _ Hset) as [Hslot ->].
  assert (Hmat : m_materials m1 = m_materials m).
  { change (m_materials (cleared m1) = m_materials (cleared m)). by rewrite Hc. }
  split; [|split; [|split; [|split; [|split; [|split]]]]].
  - unfold cache_wf in *. by destruct m1.
  - intros j Hj.
    replace (m_indexBuffer (set_m_indexBuffer _ m1))
      with (<[Z.to_nat slot := i]> (m_indexBuffer m1)) by (by destruct m1).
    replace (m_vertexBuffer (set_m_indexBuffer _ m1))
      with (m_vertexBuffer m1) by (by destruct m1).
    rewrite vec_at_insert by done.
    destruct (decide (j = slot)) as [->|Hne]; [by exists i|].
    destruct (Hbelow j) as (k & Hk & Hr); [lia|].
    exists k. rewrite Hib. split; [done|lia].
  - replace (m_vertexBuffer (set_m_indexBuffer _ m1))
      with (m_vertexBuffer m1) by (by destruct m1). done.
  - rewrite <- Ha. by destruct m1.
  - rewrite <- Hmat. by destruct m1.
  - rewrite <- Hss. unfold sizes.
    replace (m_indexBuffer (set_m_indexBuffer _ m1))
      with (<[Z.to_nat slot := i]> (m_indexBuffer m1)) by (by destruct m1).
    unfold vec_size at 1. rewrite length_insert. by destruct m1.
  - rewrite <- Hc. by destruct m1.
Qed.

(** The write of the material id and the three [emit]s of an
    [addTriangle...], whatever vertices they are given. *)
Lemma three_emits_inv (index material h0 h1 h2 : Z) (x0 x1 x2 : Vertex)
    (ab : list Z) (m m1 m2 m' : Model) :
  vec_set (m_attributeBuffer m) index material = Some ab ->
  emit (index * 3) h0 x0 (set_m_attributeBuffer ab m) = Some m1 ->
  emit (index * 3 + 1) h1 x1 m1 = Some m2 ->
  emit (index * 3 + 2) h2 x2 m2 = Some m' ->
  cache_wf m -> indices_below (index * 3) m -> attributes_below index m ->
  0 <= material < vec_size (m_materials m) ->
  cache_wf m' /\
  indices_below ((index + 1) * 3) m' /\
  attributes_below (index + 1) m' /\
  vec_size (m_vertexBuffer m') <= vec_size (m_vertexBuffer m) + 3 /\
  m_materials m' = m_materials m /\
  sizes m' = sizes m /\
  cleared m' = cleared m.
Proof.
  intros Hset E0 E1 E2 Hwf Hib Hab Hmat.
  destruct (vec_set_inv _ _ _ _ Hset) as [Hindex ->].
  set (m0 := set_m_attributeBuffer _ m) in *.
  assert (Hwf0 : cache_wf m0) by (unfold cache_wf in *; by destruct m).
  assert (Hib0 : indices_below (index * 3) m0)
    by (unfold indices_below in *; by destruct m).
  destruct (emit_inv _ _ _ _ _ E0 Hwf0 Hib0) as (W1 & I1 & S1 & A1 & M1 & Z1 & C1).
  destruct (emit_inv _ _ _ _ _ E1 W1 I1) as (W2 & I2 & S2 & A2 & M2 & Z2 & C2).
  replace (index * 3 + 1 + 1) with (index * 3 + 2) in I2 by lia.
  destruct (emit_inv _ _ _ _ _ E2 W2 I2) as (W3 & I3 & S3 & A3 & M3 & Z3 & C3).
  replace (index * 3 + 2 + 1) with ((index + 1) * 3) in I3 by lia.
  assert (Hm0 : m_materials m0 = m_materials m) by (by destruct m).
  assert (Hv0 : m_vertexBuffer m0 = m_vertexBuffer m) by (by destruct m).
  rewrite Hv0 in S1.
  split; [done|]. split; [done|]. split; [|split; [lia|split; [|split]]].
  - intros j Hj. rewrite A3, A2, A1, M3, M2, M1, Hm0.
    replace (m_attributeBuffer m0)
      with (<[Z.to_nat index := material]> (m_attributeBuffer m))
      by (by destruct m).
    rewrite vec_at_insert by done.
    destruct (decide (j = index)) as [->|Hne]; [by exists material|].
    apply Hab. lia.
  - by rewrite M3, M2, M1.
  - rewrite Z3, Z2, Z1. unfold sizes, m0.
    replace (m_attributeBuffer (set_m_attributeBuffer _ m))
      with (<[Z.to_nat index := material]> (m_attributeBuffer m))
      by (by destruct m).
    unfold vec_size at 2. rewrite length_insert. by destruct m.
  - rewrite C3, C2, C1. by destruct m.
Qed.

Lemma addTriangle_inv (f : faceForm) (index material : Z) (c0 c1 c2 : Corner)
    (m m' : Model) :
  addTriangle f index material c0 c1 c2 m = Some m' ->
  cache_wf m -> indices_below (index * 3) m -> attributes_below index m ->
  0 <= material < vec_size (m_materials m) ->
  cache_wf m' /\
  indices_below ((index + 1) * 3) m' /\
  attributes_below (index + 1) m' /\
  vec_size (m_vertexBuffer m') <= vec_size (m_vertexBuffer m) + 3 /\
  m_materials m' = m_materials m /\
  sizes m' = sizes m /\
  cleared m' = cleared m.
Proof.
  intros H. destruct f; cbn [addTriangle] in H;
    unfold addTrianglePosNormal, addTrianglePosTexCoordNormal,
      addTrianglePosTexCoord, addTrianglePos in H.
  - do 9 (apply bind_Some in H as (? & ? & H)).
    eapply three_emits_inv; eassumption.
  - do 12 (apply bind_Some in H as (? & ? & H)).
    eapply three_emits_inv; eassumption.
  - do 9 (apply bind_Some in H as (? & ? & H)).
    eapply three_emits_inv; eassumption.
  - do 6 (apply bind_Some in H as (? & ? & H)).
    eapply three_emits_inv; eassumption.
Qed.

Lemma cleared_materials (m m' : Model) :
  cleared m' = cleared m ->
  m_materials m' = m_materials m /\ m_materialCache m' = m_materialCache m.
Proof.
  intros H. split.
  - change (m_materials (cleared m') = m_materials (cleared m)). by rewrite H.
  - change (m_materialCache (cleared m') = m_materialCache (cleared m)). by rewrite H.
Qed.

Lemma emit_triangle_inv (base : Z) (frame : Model) (f : faceForm)
    (c0 c1 c2 : Corner) (st st' : Pass2) :
  emit_triangle f c0 c1 c2 st = Some st' ->
  pass2_safe base frame st -> pass2_safe base frame st'.
Proof.
  unfold emit_triangle.
  intros H (Hwf & Hn & Hib & Hab & Hact & Hids & Hsz & Hss & Hc).
  destruct (addTriangle _ _ _ _ _ _ _) as [m'|] eqn:Hadd; [|done].
  injection H as <-.
  destruct (addTriangle_inv _ _ _ _ _ _ _ _ Hadd Hwf Hib Hab Hact)
    as (W & I & A & S & M & Z & C).
  destruct (cleared_materials _ _ C) as [_ Hcache].
  unfold pass2_safe. cbn [p2_model numTriangles activeMaterial].
  rewrite M. split; [done|]. split; [lia|]. split; [done|]. split; [done|].
  split; [done|]. split; [|split; [lia|split; [by rewrite Z|by rewrite C]]].
  intros key i Hi. rewrite M. rewrite Hcache in Hi. by apply (Hids key).
Qed.

Lemma secondPass_fan_inv (base : Z) (frame : Model) (f : faceForm) (fuel : nat) :
  forall (s s' : stream) (c0 c1 c2 : Corner) (st st' : Pass2),
    secondPass_fan fuel f s c0 c1 c2 st = Some (s', st') ->
    pass2_safe base frame st -> pass2_safe base frame st'.
Proof.
  induction fuel as [|fuel IH]; intros s s' c0 c1 c2 st st' H Hs; [done|].
  cbn [secondPass_fan] in H.
  destruct (scanf_ints (face_format f) s) as [[|z zs] s1].
  - by injection H as <- <-.
  - destruct (emit_triangle _ _ _ _ _) as [st1|] eqn:E; [|done].
    cbn [mbind option_bind] in H.
    eapply IH; [exact H|]. by eapply emit_triangle_inv.
Qed.

Lemma secondPass_face_inv (base : Z) (frame : Model) (buffer : list ascii)
    (s1 s2 : stream) (st st' : Pass2) :
  secondPass_face buffer s1 st = Some (s2, st') ->
  pass2_safe base frame st -> pass2_safe base frame st'.
Proof.
  unfold secondPass_face. intros H Hs.
  destruct (overruns s1); [done|].
  destruct (scan_s_keep buffer s1) as [b r].
  destruct (scanf_ints _ r) as [zs1 r1].
  destruct (scanf_ints _ r1) as [zs2 r2].
  destruct (emit_triangle _ _ _ _ _) as [st1|] eqn:E; [|done].
  cbn [mbind option_bind] in H.
  eapply secondPass_fan_inv; [exact H|]. by eapply emit_triangle_inv.
Qed.

Lemma usemtl_safe (base : Z) (frame : Model) (st : Pass2) (key : string) :
  pass2_safe base frame st ->
  pass2_safe base frame
    (Build_Pass2 (p2_model st) (numVertices st) (numTexCoords st)
       (numNormals st) (numTriangles st)
       (match m_materialCache (p2_model st) !! key with
        | Some i => i
        | None => 0
        end)).
Proof.
  intros (Hwf & Hn & Hib & Hab & Hact & Hids & Hsz & Hc).
  unfold pass2_safe. cbn [p2_model numTriangles activeMaterial].
  split; [done|]. split; [done|]. split; [done|]. split; [done|].
  split; [|done].
  destruct (_ !! key) as [i|] eqn:E; [|lia]. by apply (Hids key i).
Qed.

Lemma coords_safe (base : Z) (frame : Model) (st : Pass2) (m' : Model)
    (nv nt nn : Z) :
  pass2_safe base frame st ->
  (exists a, vec_size a = vec_size (m_vertexCoords (p2_model st)) /\
             m' = set_m_vertexCoords a (p2_model st)) \/
  (exists a, vec_size a = vec_size (m_textureCoords (p2_model st)) /\
             m' = set_m_textureCoords a (p2_model st)) \/
  (exists a, vec_size a = vec_size (m_normals (p2_model st)) /\
             m' = set_m_normals a (p2_model st)) ->
  pass2_safe base frame
    (Build_Pass2 m' nv nt nn (numTriangles st) (activeMaterial st)).
Proof.
  intros (Hwf & Hn & Hib & Hab & Hact & Hids & Hsz & Hss & Hc) Hm'.
  unfold pass2_safe, cache_wf, indices_below, attributes_below, material_ids_ok,
    sizes in *.
  cbn [p2_model numTriangles activeMaterial].
  destruct Hm' as [(a & Ha & ->)|[(a & Ha & ->)|(a & Ha & ->)]];
    destruct (p2_model st); cbn in *; rewrite ?Ha;
    (split; [done|]); (split; [done|]); (split; [done|]); (split; [done|]);
    (split; [done|]); (split; [done|]); (split; [done|]); (split; [done|]); done.
Qed.

Lemma store_floats_inv (xs : list float) : forall (a a' : list float) (i : Z),
  store_floats a i xs = Some a' -> vec_size a' = vec_size a.
Proof.
  induction xs as [|x xs IH]; intros a a' i H; [by injection H as <-|].
  cbn [store_floats] in H. apply bind_Some in H as (a1 & Hset & H).
  apply vec_set_inv in Hset as [_ ->]. rewrite (IH _ _ _ H).
  unfold vec_size. by rewrite length_insert.
Qed.

Lemma scan_into_inv (n : nat) (a a' : list float) (i : Z) (s s' : stream) :
  scan_into n a i s = Some (a', s') -> vec_size a' = vec_size a.
Proof.
  unfold scan_into. destruct (decide _); [|done].
  destruct (scanf_floats n s) as [xs r]. intros H.
  apply bind_Some in H as (a1 & Hst & H). injection H as <- <-.
  by eapply store_floats_inv.
Qed.

Lemma secondPass_step_inv (base : Z) (frame : Model) (buffer : list ascii)
    (s1 s2 : stream) (st st' : Pass2) :
  secondPass_step buffer s1 st = Some (s2, st') ->
  pass2_safe base frame st -> pass2_safe base frame st'.
Proof.
  intros H Hs. unfold secondPass_step in H.
  repeat case_match; try done; simplify_eq; try done;
    try (by eapply secondPass_face_inv);
    try (apply bind_Some in H as ([a r] & Hscan%scan_into_inv & H); simplify_eq;
         apply coords_safe; [done|]; eauto).
  all: match goal with
       | E : m_materialCache _ !! ?k = _ |- _ =>
           pose proof (usemtl_safe base frame st k Hs) as Hu;
           rewrite E in Hu; exact Hu
       end.
Qed.

Lemma secondPass_loop_inv (base : Z) (frame : Model) (fuel : nat) :
  forall (s : stream) (st st' : Pass2),
    secondPass_loop fuel s st = Some st' ->
    pass2_safe base frame st -> pass2_safe base frame st'.
Proof.
  induction fuel as [|fuel IH]; intros s st st' H Hs; [done|].
  cbn [secondPass_loop] in H. destruct (overruns s); [done|].
  destruct (scan_s s) as [[buffer s1]|]; [|by injection H as <-].
  destruct (secondPass_step buffer s1 st) as [[s2 st1]|] eqn:E; [|done].
  cbn [mbind option_bind] in H.
  eapply IH; [exact H|]. by eapply secondPass_step_inv.
Qed.

(** X9. Whatever text the second pass reads, if it reaches the end of
    the file without leaving a buffer, then every index it has written
    designates a vertex, every material id it has written designates a
    material, it has added at most three vertices for each triangle, the
    vertex cache still refers to vertices only, no buffer the first pass
    sized has changed its size, and nothing but the contents of the
    geometry buffers and of the vertex cache has changed. *)
Theorem secondPass_safe (pFile : stream) (m : Model) (st : Pass2) :
  secondPass_run pFile m = Some st ->
  cache_wf m -> material_ids_ok m -> 0 < vec_size (m_materials m) ->
  0 <= numTriangles st /\
  indices_below (numTriangles st * 3) (p2_model st) /\
  attributes_below (numTriangles st) (p2_model st) /\
  vec_size (m_vertexBuffer (p2_model st))
    <= vec_size (m_vertexBuffer m) + numTriangles st * 3 /\
  cache_wf (p2_model st) /\
  sizes (p2_model st) = sizes m /\
  cleared (p2_model st) = cleared m.
Proof.
  unfold secondPass_run. intros Hrun Hwf Hids Hmat.
  destruct (secondPass_loop_inv (vec_size (m_vertexBuffer m)) m
              _ _ _ _ Hrun) as (W & N & I & A & _ & _ & S & Z & C).
  - unfold pass2_safe. cbn [p2_model numTriangles activeMaterial].
    split; [done|]. split; [done|]. split; [intros j Hj; lia|].
    split; [intros j Hj; lia|]. split; [lia|]. split; [done|]. split; [lia|done].
  - done.
Qed.

Lemma secondPass_safe_witness :
  exists st,
    secondPass_run (text triangle_obj) one_triangle_model = Some st /\
    numTriangles st = 1 /\
    indices_below 3 (p2_model st).
Proof.
  assert (Hrun : exists st,
             secondPass_run (text triangle_obj) one_triangle_model = Some st /\
             numTriangles st = 1).
  { eexists. split; vm_compute; reflexivity. }
  destruct Hrun as (st & Hrun & Hn). exists st.
  assert (Hwf : cache_wf one_triangle_model).
  { intros h l Hl. vm_compute in Hl. discriminate. }
  assert (Hids : material_ids_ok one_triangle_model).
  { intros key i Hi. vm_compute in Hi. discriminate. }
  destruct (secondPass_safe (text triangle_obj) one_triangle_model st Hrun Hwf Hids)
    as (_ & I & _); [vm_compute; reflexivity|].
  rewrite Hn in I. split; [exact Hrun|]. split; [exact Hn|exact I].
Defined.

Section ValidFiles.

#[local] Arguments isspace : simpl never.
#[local] Arguments isdigit : simpl never.
#[local] Arguments digit_value : simpl never.
#[local] Arguments Ascii.eqb : simpl never.
#[local] Arguments scan_d : simpl never.
#[local] Arguments read_exponent : simpl never.
#[local] Arguments F32.of_decimal : simpl never.
#[local] Arguments scan_f : simpl never.

(** ** The import of a well-formed file without material library *)

Lemma scan_s_head (c : ascii) (rest : stream) (buffer : list ascii) (s1 : stream) :
  isspace c = false -> c <> "m"%char ->
  scan_s (c :: rest) = Some (buffer, s1) ->
  head buffer <> Some "m"%char.
Proof.
  intros Hc Hm. unfold scan_s. rewrite skip_ws_nonspace by done.
  cbn [read_token]. rewrite Hc. destruct (read_token rest) as [t r].
  intros [= <- <-]. cbn [fst c_str].
  destruct (Ascii.eqb c nul); [done|]. cbn [head]. congruence.
Qed.

Lemma line_head (l : ObjLine) :
  line_ok l -> l <> Lblank -> (forall file, l <> Lmtllib file) ->
  exists c rest, render_line l = c :: rest /\ isspace c = false /\ c <> "m"%char.
Proof.
  intros [_ Hl] Hnb Hnm.
  destruct l as [x y z|x y z|u v|f c0 c1 c2 more|file|mat|kw rest|].
  - by eexists _, _.
  - by eexists _, _.
  - by eexists _, _.
  - by eexists _, _.
  - by destruct (Hnm file).
  - by eexists _, _.
  - destruct Hl as ((c & k & -> & Hs & _ & _ & _ & _ & Hm & _) & _).
    by exists c, (k ++ rest ++ [newline]).
  - done.
Qed.

Lemma firstPass_step_frame (fs : filesystem) (buffer : list ascii)
    (s1 s2 : stream) (m m' : Model) :
  firstPass_step fs buffer s1 m = Some (s2, m') ->
  head buffer <> Some "m"%char ->
  uncounted m' = uncounted m.
Proof.
  intros H Hc. unfold firstPass_step in H.
  repeat case_match; try done; simplify_eq; try done;
    try (apply bind_Some in H as ([r n] & _ & H); simplify_eq);
    by destruct m.
Qed.

Lemma mtllibs_nil_cons (l : ObjLine) (ls : list ObjLine) :
  mtllibs (l :: ls) = [] -> (forall file, l <> Lmtllib file) /\ mtllibs ls = [].
Proof. destruct l; cbn [mtllibs]; intros H; try done. Qed.

(** Without a material library the loop of the first pass changes the
    four counters only. *)
Lemma firstPass_loop_frame (fs : filesystem) (ls : list ObjLine) :
  forall (s : stream) (fuel : nat) (m m' : Model),
    Forall line_ok ls -> mtllibs ls = [] ->
    skip_ws s = skip_ws (render ls) ->
    firstPass_loop fuel fs s m = Some m' ->
    uncounted m' = uncounted m.
Proof.
  induction ls as [|l ls IH]; intros s fuel m m' Hok Hmtl Hs Hrun.
  - destruct fuel; [done|]. cbn [firstPass_loop] in Hrun.
    unfold overruns, scan_s in Hrun. rewrite Hs in Hrun. cbn in Hrun.
    by injection Hrun as <-.
  - apply Forall_cons in Hok as [Hl Hok].
    apply mtllibs_nil_cons in Hmtl as [Hnm Hmtl].
    assert (l = Lblank \/ l <> Lblank) as [->|Hnb]
      by (destruct l; (by left) || (by right)).
    { by apply (IH s fuel m m' Hok Hmtl). }
    destruct fuel; [done|]. rewrite render_cons in Hs.
    destruct (firstPass_line fs l (render ls) m Hl (render_no_int_ahead ls Hok))
      as (buffer & s1 & s2 & m1 & Hover & Hscan & Hstep & Hs2 & _ & _);
      [destruct l; (done || by destruct (Hnm file))|done|].
    cbn [firstPass_loop] in Hrun.
    rewrite (overruns_ext _ _ Hs), Hover, (scan_s_ext _ _ Hs), Hscan, Hstep in Hrun.
    cbn [mbind option_bind] in Hrun.
    destruct (line_head l Hl Hnb Hnm) as (c & rest & Hline & Hc & Hm).
    rewrite Hline in Hscan. cbn [app] in Hscan.
    pose proof (scan_s_head _ _ _ _ Hc Hm Hscan) as Hhead.
    rewrite <- (firstPass_step_frame _ _ _ _ _ _ Hstep Hhead).
    by apply (IH s2 fuel m1 m' Hok Hmtl).
Qed.

Lemma vec_resize_nil {A : Type} (d : A) (n : Z) :
  vec_resize d n [] = replicate (Z.to_nat n) d.
Proof. unfold vec_resize. by rewrite take_nil, Nat.sub_0_r. Qed.

(** The first pass on a newly constructed model. *)
Lemma firstPass_fresh (fs : filesystem) (dir : string) (ls : list ObjLine) :
  Forall line_ok ls -> mtllibs ls = [] ->
  importGeometryFirstPass fs (render ls) (set_m_directoryPath dir Model_new)
  = Some (first_pass_model dir (count_v ls) (count_vt ls) (count_vn ls)
            (triangles ls)).
Proof.
  intros Hok Hmtl. unfold importGeometryFirstPass.
  set (m0 := set_m_numberOfTriangles 0 _).
  assert (Hlib : Forall (mtl_loadable fs dir) (mtllibs ls)) by (by rewrite Hmtl).
  destruct (firstPass_loop_render fs dir ls (render ls)
              (S (length (render ls))) m0 Hok Hlib)
    as (m' & Hloop & Hb & Hc); [done|done|pose proof (render_length ls); lia|].
  pose proof (firstPass_loop_frame fs ls _ _ _ _ Hok Hmtl eq_refl Hloop) as Hf.
  rewrite Hloop. cbn [mbind option_bind].
  assert (m' = Build_Model false false false false
                 (count_v ls) (count_vt ls) (count_vn ls) (triangles ls) 0 0
                 zero3 F32.zero F32.zero F32.zero F32.zero dir
                 [] [] [] [] [] [] [] [] ∅ ∅) as ->.
  { unfold counters_after_all in Hc. destruct m'. cbn in Hc, Hf.
    injection Hc as -> -> -> ->. injection Hf as -> -> -> ->.
    intros. subst. reflexivity. }
  cbn. rewrite !vec_resize_nil. reflexivity.
Qed.

Lemma vec_size_replicate {A : Type} (d : A) (k : Z) :
  0 <= k -> vec_size (replicate (Z.to_nat k) d) = k.
Proof. intros H. unfold vec_size. rewrite length_replicate. lia. Qed.

Lemma first_pass_model_sized (dir : string) (ls : list ObjLine) :
  sized (totals ls) (triangles ls)
    (first_pass_model dir (count_v ls) (count_vt ls) (count_vn ls) (triangles ls)).
Proof.
  pose proof (counts_nonneg ls) as (? & ? & ? & ?).
  unfold sized, totals, first_pass_model.
  cbn [m_vertexCoords m_textureCoords m_normals m_indexBuffer m_attributeBuffer
       n_v n_vt n_vn].
  rewrite !vec_size_replicate by lia.
  split; [done|]. split; [done|]. split; [done|]. split; [done|]. split; [done|].
  intros h l Hl. cbn in Hl. by rewrite lookup_empty in Hl.
Qed.

Lemma all_zero (l : list Z) :
  (forall j, 0 <= j < vec_size l ->
     exists a, vec_at l j = Some a /\ 0 <= a < 1) ->
  l = replicate (length l) 0.
Proof.
  intros H. apply list_eq. intros i.
  destruct (decide (i < length l)%nat) as [Hi|Hi].
  - rewrite lookup_replicate_2 by done.
    destruct (H (Z.of_nat i)) as (a & Ha & Hr); [unfold vec_size; lia|].
    unfold vec_at in Ha. rewrite decide_True in Ha by lia.
    rewrite Nat2Z.id in Ha. rewrite Ha. f_equal. lia.
  - rewrite lookup_ge_None_2 by lia. symmetry.
    apply lookup_replicate_None. lia.
Qed.

Lemma close_runs_zeros (k : nat) : forall s n i : Z,
  close_runs s n 0 (replicate k 0) i = [Build_Run s (n + Z.of_nat k) 0].
Proof.
  induction k as [|k IH]; intros s n i; cbn [replicate close_runs].
  - by rewrite Z.add_0_r.
  - rewrite decide_False by (intros H; by apply H).
    rewrite IH. do 2 f_equal. lia.
Qed.

Lemma runs_zeros (k : nat) :
  map mesh_of_run (runs (replicate k 0)) = one_mesh k.
Proof.
  destruct k as [|k]; [done|]. cbn [replicate runs one_mesh].
  rewrite close_runs_zeros. unfold mesh_of_run.
  cbn [map r_start r_count r_id]. do 2 f_equal. lia.
Qed.

(** [buildMeshes] on a model without meshes whose triangles all have the
    material id 0. *)
Lemma buildMeshes_single (m : Model) (k : nat) :
  m_meshes m = [] -> m_attributeBuffer m = replicate k 0 ->
  0 < vec_size (m_materials m) ->
  buildMeshes m
  = Some (set_m_meshes (one_mesh k)
            (set_m_numberOfMeshes (vec_size (one_mesh k)) m)).
Proof.
  intros Hmeshes Hab Hmat. unfold buildMeshes.
  destruct (buildMeshes_fill_runs (vec_size (m_materials m)) (replicate k 0))
    as (st & Hfill & Hst & Hcount).
  { apply Forall_replicate. lia. }
  rewrite runs_zeros in Hst.
  assert (Hn : buildMeshes_count (replicate k 0) (-1) 0 = vec_size (one_mesh k)).
  { rewrite Hcount. unfold vec_size. f_equal.
    rewrite <- (length_map mesh_of_run). by rewrite runs_zeros. }
  rewrite Hn in Hfill.
  set (m1 := set_m_numberOfMeshes _ m).
  assert (E1 : m_numberOfMeshes m1 = vec_size (one_mesh k))
    by (unfold m1; rewrite Hab, Hn; by destruct m).
  assert (E3 : m_meshes m1 = []) by (rewrite <- Hmeshes; by destruct m).
  set (m2 := set_m_meshes _ m1).
  assert (E2 : m_meshes m2 = vec_resize null_mesh (vec_size (one_mesh k)) [])
    by (unfold m2; rewrite E1, E3; by destruct m1).
  assert (E4 : m_attributeBuffer m2 = replicate k 0)
    by (rewrite <- Hab; by destruct m).
  assert (E5 : m_materials m2 = m_materials m) by (by destruct m).
  rewrite E2, E4, E5, Hfill. cbn [mbind option_bind]. rewrite Hst.
  assert (Hsort : std_sort (MeshCompFunc (m_materials m)) (one_mesh k)
                  = Some (one_mesh k)) by (by destruct k).
  rewrite Hsort. cbn [mbind option_bind]. f_equal.
  unfold m2, m1. rewrite Hab, Hn. by destruct m.
Qed.

Lemma generateNormals_defined (m : Model) :
  triangles_ok m ->
  exists vb',
    generateNormals m = Some (set_m_hasNormals true (set_m_vertexBuffer vb' m)) /\
    vec_size vb' = vec_size (m_vertexBuffer m).
Proof.
  intros Hok.
  set (change := fun v0 v1 v2 : Vertex =>
         add_normal (cross (sub3 (position v1) (position v0))
                           (sub3 (position v2) (position v0)))).
  assert (Hkeep : forall v0 v1 v2 x,
             without_normal (change v0 v1 v2 x) = without_normal x) by done.
  assert (Hsize : vec_size (map (set_normal zero3) (m_vertexBuffer m))
                  = vec_size (m_vertexBuffer m))
    by (unfold vec_size; by rewrite length_map).
  unfold generateNormals.
  rewrite (for_range_ext (generateNormals_triangle m) (triangle_body m change))
    by done.
  destruct (triangle_loop_defined m change without_normal Hkeep
              (Z.to_nat (m_numberOfTriangles m))
              (map (set_normal zero3) (m_vertexBuffer m))) as [vb' Hrun].
  { intros k Hk. rewrite Hsize. apply Hok. lia. }
  rewrite Hrun. cbn [mbind option_bind].
  destruct (triangle_loop_inv m change without_normal Hkeep _ _ _ Hrun)
    as (_ & Hs & _).
  eexists. split; [reflexivity|].
  unfold vec_size in *. rewrite length_map. rewrite length_map in Hs. lia.
Qed.

(** The second pass on the model the first pass makes of a new one. *)
Lemma secondPass_fresh (dir : string) (ls : list ObjLine) :
  valid_obj ls ->
  exists st,
    secondPass_run (render ls)
      (first_pass_model dir (count_v ls) (count_vt ls) (count_vn ls) (triangles ls))
    = Some st /\
    numTriangles st = triangles ls /\
    pass2_safe 0
      (first_pass_model dir (count_v ls) (count_vt ls) (count_vn ls) (triangles ls))
      st.
Proof.
  intros [Hok Hrefs].
  set (m1 := first_pass_model _ _ _ _ _).
  pose proof (first_pass_model_sized dir ls) as Hsz. fold m1 in Hsz.
  pose proof (counts_nonneg ls) as (? & ? & ? & ?).
  destruct (secondPass_loop_render (totals ls) (triangles ls)
              (m_materialCache m1) ls (render ls)
              (S (length (render ls))) (Build_Pass2 m1 0 0 0 0 0)
              (Build_Reading (m_vertexCoords m1) (m_textureCoords m1)
                 (m_normals m1) (Build_Counts 0 0 0) 0 [])
              Hok Hrefs)
    as (st & Hrun & Hinv & _); [| |done|pose proof (render_length ls); lia|].
  { unfold pass2_inv.
    cbn [p2_model numVertices numTexCoords numNormals numTriangles].
    split; [done|]. unfold totals. cbn [n_v n_vt n_vn]. repeat split; lia. }
  { repeat split. intros t tri Ht. cbn [r_triangles] in Ht.
    by rewrite lookup_nil in Ht. }
  exists st. split; [done|]. split.
  { destruct Hinv as (_ & _ & _ & _ & _ & Hn).
    unfold triangles in Hn at 1. cbn [count_with] in Hn. lia. }
  eapply secondPass_loop_inv; [exact Hrun|].
  unfold pass2_safe. cbn [p2_model numTriangles activeMaterial].
  split; [by destruct Hsz as (_ & _ & _ & _ & _ & ?)|].
  split; [done|]. split; [intros j Hj; lia|]. split; [intros j Hj; lia|].
  split; [done|]. split; [|done].
  intros key i Hi. unfold m1, first_pass_model in Hi. cbn [m_materialCache] in Hi.
  apply lookup_insert_Some in Hi as [[_ <-]|[_ Hi]]; [done|].
  by rewrite lookup_empty in Hi.
Qed.

Lemma indices_below_Forall (m : Model) (k : Z) :
  indices_below k m -> vec_size (m_indexBuffer m) = k ->
  Forall (fun i => 0 <= i < vec_size (m_vertexBuffer m)) (m_indexBuffer m).
Proof.
  intros Hib Hsz. apply Forall_lookup_2. intros j i Hj.
  destruct (Hib (Z.of_nat j)) as (i' & Hi' & Hr).
  { apply lookup_lt_Some in Hj. unfold vec_size in Hsz. lia. }
  unfold vec_at in Hi'. rewrite decide_True in Hi' by lia.
  rewrite Nat2Z.id in Hi'. by simplify_eq.
Qed.

Lemma indices_below_triangles (m : Model) :
  indices_below (m_numberOfTriangles m * 3) m -> triangles_ok m.
Proof.
  intros Hib k Hk c Hc. apply Hib. lia.
Qed.

Lemma cleared_fields (m m' : Model) :
  cleared m = cleared m' ->
  m_meshes m = m_meshes m' /\ m_materials m = m_materials m' /\
  m_numberOfMaterials m = m_numberOfMaterials m' /\
  m_numberOfTriangles m = m_numberOfTriangles m' /\
  m_hasPositions m = m_hasPositions m' /\
  m_hasTextureCoords m = m_hasTextureCoords m' /\
  m_hasNormals m = m_hasNormals m' /\ m_hasTangents m = m_hasTangents m' /\
  m_directoryPath m = m_directoryPath m'.
Proof.
  intros H.
  change (m_meshes (cleared m) = m_meshes (cleared m') /\
          m_materials (cleared m) = m_materials (cleared m') /\
          m_numberOfMaterials (cleared m) = m_numberOfMaterials (cleared m') /\
          m_numberOfTriangles (cleared m) = m_numberOfTriangles (cleared m') /\
          m_hasPositions (cleared m) = m_hasPositions (cleared m') /\
          m_hasTextureCoords (cleared m) = m_hasTextureCoords (cleared m') /\
          m_hasNormals (cleared m) = m_hasNormals (cleared m') /\
          m_hasTangents (cleared m) = m_hasTangents (cleared m') /\
          m_directoryPath (cleared m) = m_directoryPath (cleared m')).
  by rewrite H.
Qed.

(** The end of [import], once the two passes have filled a model whose
    triangles all have the material id 0. *)
Lemma import_after_passes (fs : filesystem) (pszFilename : string)
    (rebuildNormals : bool) (pFile : stream) (m1 m2 : Model) (n : Z) :
  fs pszFilename = Some pFile ->
  importGeometryFirstPass fs pFile
    (set_m_directoryPath (directory_of pszFilename) Model_new) = Some m1 ->
  importGeometrySecondPass pFile m1 = Some m2 ->
  0 <= n -> m_numberOfTriangles m2 = n -> m_meshes m2 = [] ->
  m_materials m2 = [defaultMaterial] -> m_numberOfMaterials m2 = 0 ->
  vec_size (m_attributeBuffer m2) = n ->
  indices_below (n * 3) m2 -> attributes_below n m2 ->
  exists m,
    import fs pszFilename rebuildNormals Model_new = Some (true, m) /\
    m_numberOfTriangles m = n /\
    m_indexBuffer m = m_indexBuffer m2 /\
    vec_size (m_vertexBuffer m) = vec_size (m_vertexBuffer m2) /\
    m_attributeBuffer m = replicate (Z.to_nat n) 0 /\
    m_materials m = [defaultMaterial] /\
    m_numberOfMaterials m = 0 /\
    m_meshes m = one_mesh (Z.to_nat n) /\
    m_numberOfMeshes m = vec_size (one_mesh (Z.to_nat n)) /\
    m_hasPositions m = m_hasPositions m2 /\
    m_hasTextureCoords m = m_hasTextureCoords m2 /\
    m_hasNormals m = true /\
    m_hasTangents m = m_hasTangents m2 /\
    m_directoryPath m = m_directoryPath m2.
Proof.
  intros Hfs H1 H2 Hn Htri Hmeshes Hmats Hnmat Hsab Hib Hab.
  unfold import. rewrite Hfs, H1. cbn [mbind option_bind].
  rewrite H2. cbn [mbind option_bind].
  assert (Hzero : m_attributeBuffer m2 = replicate (Z.to_nat n) 0).
  { rewrite (all_zero (m_attributeBuffer m2)).
    - f_equal. unfold vec_size in Hsab. lia.
    - intros j Hj. rewrite Hsab in Hj. destruct (Hab j Hj) as (a & Ha & Hr).
      exists a. split; [done|]. by rewrite Hmats in Hr. }
  rewrite (buildMeshes_single m2 (Z.to_nat n)) by (done || by rewrite Hmats).
  cbn [mbind option_bind].
  set (m4 := store_bounds _).
  assert (E : m_numberOfTriangles m4 = m_numberOfTriangles m2 /\
              m_indexBuffer m4 = m_indexBuffer m2 /\
              m_vertexBuffer m4 = m_vertexBuffer m2 /\
              m_attributeBuffer m4 = m_attributeBuffer m2 /\
              m_materials m4 = m_materials m2 /\
              m_numberOfMaterials m4 = m_numberOfMaterials m2 /\
              m_meshes m4 = one_mesh (Z.to_nat n) /\
              m_numberOfMeshes m4 = vec_size (one_mesh (Z.to_nat n)) /\
              m_hasPositions m4 = m_hasPositions m2 /\
              m_hasTextureCoords m4 = m_hasTextureCoords m2 /\
              m_hasNormals m4 = m_hasNormals m2 /\
              m_hasTangents m4 = m_hasTangents m2 /\
              m_directoryPath m4 = m_directoryPath m2)
    by (unfold m4; by destruct m2).
  rewrite Htri, Hzero, Hmats, Hnmat in E.
  destruct E as (E1 & E2 & E3 & E4 & E5 & E6 & E7 & E8 & E9 & E10 & E11 & E12 & E13).
  assert (Hok : triangles_ok m4).
  { apply indices_below_triangles. rewrite E1.
    intros j Hj. rewrite E2, E3. by apply Hib. }
  destruct (generateNormals_defined m4 Hok) as (vb' & Hgen & Hsz).
  set (g := set_m_hasNormals true (set_m_vertexBuffer vb' m4)) in *.
  assert (G : m_numberOfTriangles g = m_numberOfTriangles m4 /\
              m_indexBuffer g = m_indexBuffer m4 /\
              m_vertexBuffer g = vb' /\
              m_attributeBuffer g = m_attributeBuffer m4 /\
              m_materials g = m_materials m4 /\
              m_numberOfMaterials g = m_numberOfMaterials m4 /\
              m_meshes g = m_meshes m4 /\
              m_numberOfMeshes g = m_numberOfMeshes m4 /\
              m_hasPositions g = m_hasPositions m4 /\
              m_hasTextureCoords g = m_hasTextureCoords m4 /\
              m_hasNormals g = true /\
              m_hasTangents g = m_hasTangents m4 /\
              m_directoryPath g = m_directoryPath m4)
    by (unfold g; by destruct m4).
  destruct G as (G1 & G2 & G3 & G4 & G5 & G6 & G7 & G8 & G9 & G10 & G11 & G12 & G13).
  assert (Hfinish : forall m5,
            m_numberOfMaterials m5 = 0 ->
            (bump ← has_bumpMap (Z.to_nat (m_numberOfMaterials m5)) 0 (m_materials m5);
             m ← (if (bump : bool) then generateTangents m5 else Some m5);
             Some (true, m)) = Some (true, m5)).
  { intros m5 ->. reflexivity. }
  destruct rebuildNormals; [|destruct (m_hasNormals m4) eqn:Hhas].
  - rewrite Hgen. cbn [mbind option_bind]. exists g.
    split; [apply Hfinish; congruence|].
    rewrite G1, G2, G3, G4, G5, G6, G7, G8, G9, G10, G12, G13, Hsz, E3.
    repeat split; assumption.
  - cbn [mbind option_bind]. exists m4.
    split; [by apply Hfinish|].
    rewrite E3. repeat split; assumption.
  - rewrite Hgen. cbn [mbind option_bind]. exists g.
    split; [apply Hfinish; congruence|].
    rewrite G1, G2, G3, G4, G5, G6, G7, G8, G9, G10, G12, G13, Hsz, E3.
    repeat split; assumption.
Qed.

(** X10. The import of a well-formed geometry file that names no
    material library into a newly constructed model stays inside every
    buffer and returns [true].  The model then has the triangles of the
    file, an index buffer of [getNumberOfIndices()] entries that all
    designate vertices, at most three vertices for each triangle, the
    default material alone, which every triangle and the one mesh use
    while [getNumberOfMaterials()] is 0, normals (those of the file or
    generated ones) and no tangents. *)
Theorem import_valid_file (fs : filesystem) (pszFilename : string)
    (rebuildNormals : bool) (ls : list ObjLine) :
  fs pszFilename = Some (render ls) -> valid_obj ls -> mtllibs ls = [] ->
  exists m,
    import fs pszFilename rebuildNormals Model_new = Some (true, m) /\
    getNumberOfTriangles m = triangles ls /\
    vec_size (m_indexBuffer m) = getNumberOfIndices m /\
    Forall (fun i => 0 <= i < getNumberOfVertices m) (m_indexBuffer m) /\
    getNumberOfVertices m <= getNumberOfIndices m /\
    m_attributeBuffer m = replicate (Z.to_nat (triangles ls)) 0 /\
    m_materials m = [defaultMaterial] /\
    getNumberOfMaterials m = 0 /\
    m_meshes m = one_mesh (Z.to_nat (triangles ls)) /\
    getNumberOfMeshes m = vec_size (m_meshes m) /\
    hasPositions m = (0 <? count_v ls) /\
    hasTextureCoords m = (0 <? count_vt ls) /\
    hasNormals m = true /\
    hasTangents m = false /\
    getPath m = directory_of pszFilename.
Proof.
  intros Hfs Hvalid Hmtl. pose proof Hvalid as [Hok Hrefs].
  pose proof (counts_nonneg ls) as (_ & _ & _ & Hn).
  set (dir := directory_of pszFilename).
  pose proof (firstPass_fresh fs dir ls Hok Hmtl) as H1.
  destruct (secondPass_fresh dir ls Hvalid) as (st & Hrun & Hnst & Hsafe).
  set (m1 := first_pass_model _ _ _ _ _) in *.
  destruct Hsafe as (_ & _ & Ib & Ab & _ & _ & Vb & Sz & Cl).
  rewrite Hnst in Ib, Ab, Vb.
  destruct (cleared_fields _ _ Cl)
    as (F1 & F2 & F3 & F4 & F5 & F6 & F7 & F8 & F9).
  assert (Hsib : vec_size (m_indexBuffer (p2_model st)) = triangles ls * 3).
  { transitivity (vec_size (m_indexBuffer m1));
      [unfold sizes in Sz; congruence|].
    unfold m1, first_pass_model. cbn [m_indexBuffer].
    apply vec_size_replicate. lia. }
  assert (Hsab : vec_size (m_attributeBuffer (p2_model st)) = triangles ls).
  { transitivity (vec_size (m_attributeBuffer m1));
      [unfold sizes in Sz; congruence|].
    unfold m1, first_pass_model. cbn [m_attributeBuffer].
    by apply vec_size_replicate. }
  destruct (import_after_passes fs pszFilename rebuildNormals (render ls)
              m1 (p2_model st) (triangles ls) Hfs H1)
    as (m & Himp & C1 & C2 & C3 & C4 & C5 & C6 & C7 & C8 & C9 & C10 & C11 & C12 & C13);
    try done.
  { unfold importGeometrySecondPass. by rewrite Hrun. }
  exists m. split; [done|].
  unfold getNumberOfTriangles, getNumberOfIndices, getNumberOfVertices,
    getNumberOfMaterials, getNumberOfMeshes, hasPositions, hasTextureCoords,
    hasNormals, hasTangents, getPath.
  split; [done|]. split; [by rewrite C1, C2|]. split.
  { apply (indices_below_Forall m (triangles ls * 3)).
    - intros j Hj. rewrite C2, C3. by apply Ib.
    - by rewrite C2. }
  split; [rewrite C1, C3; cbn [m_vertexBuffer m1 first_pass_model] in Vb; lia|].
  split; [done|]. split; [done|]. split; [done|]. split; [done|].
  split; [by rewrite C7, C8|].
  split; [by rewrite C9, F5|]. split; [by rewrite C10, F6|].
  split; [done|]. split; [by rewrite C12, F8|]. by rewrite C13, F9.
Qed.

Lemma import_valid_file_witness :
  exists m,
    import quad_files "models/quad.obj" false Model_new = Some (true, m) /\
    getNumberOfTriangles m = 3 /\
    getNumberOfMaterials m = 0 /\
    hasNormals m = true /\
    getPath m = "models/"%string.
Proof.
  assert (Hv : valid_obj quad_lines).
  { split.
    - apply Forall_cons_2.
      { split; [vm_compute; lia|].
        split; [exists "#"%char, []; by repeat split|].
        repeat constructor; done. }
      repeat constructor; vm_compute; (lia || discriminate || done).
    - repeat constructor; vm_compute; (done || lia). }
  destruct (import_valid_file quad_files "models/quad.obj" false quad_lines
              eq_refl Hv eq_refl)
    as (m & Himp & Hn & _ & _ & _ & _ & _ & Hmat & _ & _ & _ & _ & Hnor & _ & Hpath).
  exists m. split; [exact Himp|]. split; [exact Hn|]. split; [exact Hmat|].
  split; [exact Hnor|exact Hpath].
Defined.

End ValidFiles.

Section MaterialLibraries.

#[local] Arguments isspace : simpl never.
#[local] Arguments isdigit : simpl never.
#[local] Arguments digit_value : simpl never.
#[local] Arguments Ascii.eqb : simpl never.
#[local] Arguments scan_d : simpl never.
#[local] Arguments read_exponent : simpl never.
#[local] Arguments F32.of_decimal : simpl never.
#[local] Arguments scan_f : simpl never.

(** ** What [importMaterials] keeps *)

Lemma importMaterials_count_ge (fuel : nat) : forall (s : stream) (k n : Z),
  importMaterials_count fuel s k = Some n -> k <= n.
Proof.
  induction fuel as [|fuel IH]; intros s k n H; [done|].
  cbn [importMaterials_count] in H. destruct (overruns s); [done|].
  destruct (scan_s s) as [[buffer s1]|]; [|injection H as <-; lia].
  destruct (fgets s1) as [l s2].
  repeat case_match; apply IH in H; lia.
Qed.

Lemma with_material_inv (N : Z) (m : Model) (f : Material -> Material)
    (st st' : MtlState) :
  with_material f st = Some st' -> mtl_inv N m st -> mtl_inv N m st'.
Proof.
  unfold with_material. intros H (Hs & Hn & Hw & Hc).
  destruct (mt_pMaterial st) as [i|]; [|done]. cbn [mbind option_bind] in H.
  destruct (vec_update _ _ _) as [mats|] eqn:Hup; [|done].
  cbn [mbind option_bind] in H. injection H as <-.
  unfold vec_update in Hup.
  destruct (vec_at _ i) as [a|]; [|done]. cbn [mbind option_bind] in Hup.
  apply vec_set_inv in Hup as [_ ->].
  unfold mtl_inv. cbn [mt_model].
  replace (m_materials (set_m_materials _ _))
    with (<[Z.to_nat i := f a]> (m_materials (mt_model st)))
    by (by destruct (mt_model st)).
  split; [unfold vec_size in *; by rewrite length_insert|].
  split; [rewrite <- Hn; by destruct (mt_model st)|].
  split; [rewrite <- Hw; by destruct (mt_model st)|].
  intros key j Hj. apply Hc. by destruct (mt_model st).
Qed.

Lemma importMaterials_step_inv (N : Z) (m : Model) (buffer : list ascii)
    (s1 s2 : stream) (st st' : MtlState) :
  importMaterials_step buffer s1 st = Some (s2, st') ->
  mtl_inv N m st -> mtl_inv N m st'.
Proof.
  unfold importMaterials_step. intros H Hinv.
  repeat case_match; simplify_eq; try done;
    repeat match goal with
    | H : (_ ≫= _) = Some _ |- _ =>
        apply bind_Some in H as (? & H1 & H); simplify_eq
    end;
    try (eapply with_material_inv; [eassumption|]; try done).
  all: try (destruct Hinv as (Hs & Hn & Hw & Hc); unfold mtl_inv in *;
            cbn [mt_model] in *; done).
  destruct Hinv as (Hs & Hn & Hw & Hc).
  apply vec_set_inv in H1 as [Hk ->]. rewrite Hs in Hk.
  unfold mtl_inv. cbn [mt_model].
  replace (m_materials (set_m_materialCache _ _))
    with (<[Z.to_nat (mt_numMaterials st) := new_material l0]>
            (m_materials (mt_model st)))
    by (by destruct (mt_model st)).
  replace (m_materialCache (set_m_materialCache _ _))
    with (<[string_of_list_ascii l0 := mt_numMaterials st]>
            (m_materialCache (mt_model st)))
    by (by destruct (mt_model st)).
  split; [unfold vec_size in *; by rewrite length_insert|].
  split; [rewrite <- Hn; by destruct (mt_model st)|].
  split; [rewrite <- Hw; by destruct (mt_model st)|].
  intros key j Hj.
  apply lookup_insert_Some in Hj as [[_ <-]|[_ Hj]]; [by right|by apply Hc].
Qed.

Lemma importMaterials_fill_inv (N : Z) (m : Model) (fuel : nat) :
  forall (s : stream) (st st' : MtlState),
    importMaterials_fill fuel s st = Some st' ->
    mtl_inv N m st -> mtl_inv N m st'.
Proof.
  induction fuel as [|fuel IH]; intros s st st' H Hinv; [done|].
  cbn [importMaterials_fill] in H. destruct (overruns s); [done|].
  destruct (scan_s s) as [[buffer s1]|]; [|by injection H as <-].
  apply bind_Some in H as ([s2 st1] & Hstep & H).
  eapply IH; [exact H|]. by eapply importMaterials_step_inv.
Qed.

(** What a call that returns [true] leaves. *)
Lemma importMaterials_loaded (fs : filesystem) (pszFilename : string)
    (m m' : Model) :
  importMaterials fs pszFilename m = Some (true, m') ->
  0 <= m_numberOfMaterials m' /\
  vec_size (m_materials m') = m_numberOfMaterials m' /\
  (forall key i, m_materialCache m' !! key = Some i ->
     m_materialCache m !! key = Some i \/ 0 <= i < m_numberOfMaterials m') /\
  without_materials m' = without_materials m.
Proof.
  unfold importMaterials. intros H.
  destruct (fs pszFilename) as [pFile|]; [|done].
  apply bind_Some in H as (n & Hcount & H).
  apply bind_Some in H as (st & Hfill & H). injection H as <-.
  apply importMaterials_count_ge in Hcount.
  set (m0 := set_m_materials _ _) in Hfill.
  destruct (importMaterials_fill_inv n m _ _ _ _ Hfill) as (Hs & Hn & Hw & Hc).
  - unfold mtl_inv. cbn [mt_model].
    assert (E : m_numberOfMaterials m0 = n) by (by destruct m).
    split.
    { replace (m_materials m0)
        with (vec_resize null_material n (m_materials m)) by (by destruct m).
      by apply vec_resize_size. }
    split; [done|]. split; [by destruct m|].
    intros key i Hi. left. by destruct m.
  - rewrite Hn. done.
Qed.

Lemma importMaterials_missing (fs : filesystem) (pszFilename : string)
    (m m' : Model) :
  importMaterials fs pszFilename m = Some (false, m') ->
  fs pszFilename = None /\ m' = m.
Proof.
  unfold importMaterials. intros H.
  destruct (fs pszFilename) as [pFile|]; [|by injection H as <-].
  apply bind_Some in H as (n & _ & H).
  apply bind_Some in H as (st & _ & H). done.
Qed.

(** X11. When [importMaterials] returns [true], the material vector has
    exactly [m_numberOfMaterials] elements, every name the call has put
    into the material cache designates one of them (a name the cache
    held before may keep an index of the vector as it was), and no
    member of the model other than the material vector, the material
    cache and the number of materials has changed.  It returns [false]
    only when the file cannot be opened, and then it changes nothing. *)
Theorem importMaterials_result (fs : filesystem) (pszFilename : string)
    (m m' : Model) :
  (importMaterials fs pszFilename m = Some (true, m') ->
   0 <= m_numberOfMaterials m' /\
   vec_size (m_materials m') = m_numberOfMaterials m' /\
   (forall key i, m_materialCache m' !! key = Some i ->
      m_materialCache m !! key = Some i \/ 0 <= i < m_numberOfMaterials m') /\
   without_materials m' = without_materials m) /\
  (importMaterials fs pszFilename m = Some (false, m') ->
   fs pszFilename = None /\ m' = m).
Proof.
  split; intros H.
  - destruct (importMaterials_loaded fs pszFilename m m' H) as (H1 & H2 & H3 & H4).
    split; [exact H1|]. split; [exact H2|]. split; [exact H3|exact H4].
  - destruct (importMaterials_missing fs pszFilename m m' H) as [H1 H2].
    split; [exact H1|exact H2].
Qed.

(** X13. A material library without a token (empty, or white space
    only) is loaded with success: the material vector is emptied and
    the number of materials is 0, whatever the model held; the material
    cache keeps its names. *)
Theorem importMaterials_blank (fs : filesystem) (pszFilename : string)
    (pFile : stream) (m : Model) :
  fs pszFilename = Some pFile -> skip_ws pFile = [] ->
  importMaterials fs pszFilename m
  = Some (true, set_m_materials [] (set_m_numberOfMaterials 0 m)).
Proof.
  intros Hfs Hblank. unfold importMaterials. rewrite Hfs.
  cbn [importMaterials_count importMaterials_fill].
  unfold overruns, scan_s. rewrite Hblank. cbn [mbind option_bind mt_model].
  by destruct m.
Qed.

Lemma importMaterials_blank_witness :
  importMaterials blank_mtl "blank.mtl" one_triangle_model
  = Some (true, set_m_materials [] (set_m_numberOfMaterials 0 one_triangle_model)).
Proof.
  apply (importMaterials_blank blank_mtl "blank.mtl" (text [" "; ""]));
    reflexivity.
Defined.

End MaterialLibraries.

Section FirstPass.

#[local] Arguments isspace : simpl never.
#[local] Arguments isdigit : simpl never.
#[local] Arguments digit_value : simpl never.
#[local] Arguments Ascii.eqb : simpl never.
#[local] Arguments read_exponent : simpl never.
#[local] Arguments F32.of_decimal : simpl never.

(** ** The input each call consumes *)











(** ** What is left of the input is a suffix of it *)












(** ** Tokens that fit the buffer *)




(** ** The first pass on any text *)









End FirstPass.

(** ** [buildMeshes] on a model that holds meshes already *)

Lemma buildMeshes_count_zeros (k : nat) (c : Z) :
  buildMeshes_count (replicate k 0) 0 c = c.
Proof.
  induction k as [|k IH]; [done|]. cbn [replicate buildMeshes_count].
  by rewrite decide_False by (intros H; by apply H).
Qed.

Lemma vec_update_single {A : Type} (x : A) (f : A -> A) :
  vec_update [x] 0 f = Some [f x].
Proof. reflexivity. Qed.

Lemma buildMeshes_fill_zeros (nmat : Z) (k : nat) : forall (i : Z) (x : Mesh),
  buildMeshes_fill nmat (replicate k 0) i (Build_BuildState 0 (Some 0) 1 [x])
  = Some (Build_BuildState 0 (Some 0) 1
            [Build_Mesh (startIndex x) (triangleCount x + Z.of_nat k) (pMaterial x)]).
Proof.
  induction k as [|k IH]; intros i x.
  - cbn [replicate buildMeshes_fill]. rewrite Z.add_0_r. by destruct x.
  - cbn [replicate buildMeshes_fill]. unfold buildMeshes_step.
    cbn [bm_materialId bm_pMesh bm_meshes bm_numMeshes].
    rewrite decide_False by (intros H; by apply H).
    cbn [mbind option_bind]. rewrite vec_update_single.
    cbn [mbind option_bind]. rewrite IH. unfold incr_triangleCount.
    cbn [startIndex triangleCount pMaterial]. do 4 f_equal. lia.
Qed.

(** X14. [buildMeshes] does not put the triangle counts to zero: on a
    model that holds a mesh already, whose triangles all have the
    material id 0, the one mesh it leaves counts the triangles of the
    mesh that was there in addition to those of the attribute buffer. *)
Theorem buildMeshes_accumulates (m : Model) (me : Mesh) (rest : list Mesh)
    (k : nat) :
  m_meshes m = me :: rest ->
  m_attributeBuffer m = replicate (S k) 0 ->
  0 < vec_size (m_materials m) ->
  exists m',
    buildMeshes m = Some m' /\
    m_meshes m' = [Build_Mesh 0 (triangleCount me + Z.of_nat (S k)) (Some 0)] /\
    m_numberOfMeshes m' = 1 /\
    vec_size (m_attributeBuffer m') = Z.of_nat (S k).
Proof.
  intros Hmeshes Hab Hmat. unfold buildMeshes.
  set (m1 := set_m_numberOfMeshes _ m).
  assert (Hcount : buildMeshes_count (m_attributeBuffer m) (-1) 0 = 1).
  { rewrite Hab. cbn [replicate buildMeshes_count].
    rewrite decide_True by done. apply buildMeshes_count_zeros. }
  assert (E1 : m_numberOfMeshes m1 = 1) by (unfold m1; rewrite Hcount; by destruct m).
  assert (E3 : m_meshes m1 = me :: rest) by (rewrite <- Hmeshes; by destruct m).
  set (m2 := set_m_meshes _ m1).
  assert (E2 : m_meshes m2 = [me])
    by (unfold m2; rewrite E1, E3; by destruct m1).
  assert (E4 : m_attributeBuffer m2 = replicate (S k) 0)
    by (rewrite <- Hab; by destruct m).
  assert (E5 : m_materials m2 = m_materials m) by (by destruct m).
  rewrite E2, E4, E5.
  cbn [replicate buildMeshes_fill]. unfold buildMeshes_step.
  cbn [bm_materialId bm_pMesh bm_meshes bm_numMeshes].
  rewrite decide_True by done. rewrite decide_True by lia.
  rewrite vec_update_single. cbn [mbind option_bind].
  rewrite buildMeshes_fill_zeros. cbn [mbind option_bind bm_meshes std_sort
    sort_insert startIndex triangleCount pMaterial].
  eexists. split; [reflexivity|].
  split.
  { replace (m_meshes (set_m_meshes _ m2))
      with [Build_Mesh 0 (triangleCount me + 1 + Z.of_nat k) (Some 0)]
      by (by destruct m2).
    do 2 f_equal. lia. }
  split; [rewrite <- E1; unfold m2; by destruct m1|].
  replace (m_attributeBuffer (set_m_meshes _ m2)) with (m_attributeBuffer m2)
    by (by destruct m2).
  rewrite E4. unfold vec_size. by rewrite length_replicate.
Qed.

Lemma buildMeshes_accumulates_witness :
  exists m',
    buildMeshes used_model = Some m' /\
    m_meshes m' = [Build_Mesh 0 3 (Some 0)] /\
    vec_size (m_attributeBuffer m') = 2.
Proof.
  destruct (buildMeshes_accumulates used_model (Build_Mesh 0 1 (Some 0))
              [Build_Mesh 3 1 (Some 0)] 1 eq_refl eq_refl)
    as (m' & H1 & H2 & _ & H3); [reflexivity|].
  exists m'. split; [exact H1|]. split; [exact H2|exact H3].
Defined.

(** ** The bounds that [import] stores *)

Lemma bounds_extent_positions (vb vb' : list Vertex) :
  map position vb = map position vb' -> bounds_extent vb = bounds_extent vb'.
Proof.
  unfold bounds_extent. generalize bounds_init. revert vb'.
  induction vb as [|v vb IH]; intros [|v' vb'] e H; try done.
  injection H as Hv Hvb. cbn [fold_left].
  replace (bounds_step e v') with (bounds_step e v)
    by (unfold bounds_step; by rewrite Hv).
  by apply IH.
Qed.

Lemma positions_of_kept (keep : Vertex -> Vertex) (vb vb' : list Vertex) :
  (forall v, position (keep v) = position v) ->
  map keep vb' = map keep vb -> map position vb' = map position vb.
Proof.
  intros Hk H. apply (f_equal (map position)) in H.
  rewrite !map_map in H.
  by rewrite !(map_ext (fun v => position (keep v)) position) in H by done.
Qed.

Lemma generateNormals_positions (m m' : Model) :
  generateNormals m = Some m' ->
  m' = set_m_hasNormals true (set_m_vertexBuffer (m_vertexBuffer m') m) /\
  map position (m_vertexBuffer m') = map position (m_vertexBuffer m).
Proof.
  set (change := fun v0 v1 v2 : Vertex =>
         add_normal (cross (sub3 (position v1) (position v0))
                           (sub3 (position v2) (position v0)))).
  assert (Hkeep : forall v0 v1 v2 x,
             without_normal (change v0 v1 v2 x) = without_normal x) by done.
  unfold generateNormals.
  rewrite (for_range_ext (generateNormals_triangle m) (triangle_body m change))
    by done.
  intros Hm'.
  destruct (for_range _ _ _ _) as [vb'|] eqn:Hrun; [|done].
  destruct (triangle_loop_inv m change without_normal Hkeep _ _ _ Hrun)
    as (_ & _ & Hk).
  injection Hm' as <-. split; [by destruct m|].
  replace (m_vertexBuffer _) with (map normalize_normal vb') by (by destruct m).
  apply (positions_of_kept without_normal); [done|].
  rewrite map_map.
  rewrite (map_ext _ without_normal) by done.
  rewrite Hk, map_map. by apply map_ext.
Qed.

Lemma generateTangents_positions (m m' : Model) :
  generateTangents m = Some m' ->
  m' = set_m_hasTangents true (set_m_vertexBuffer (m_vertexBuffer m') m) /\
  map position (m_vertexBuffer m') = map position (m_vertexBuffer m).
Proof.
  set (change := fun v0 v1 v2 : Vertex =>
         add_tangents (fst (triangle_tangents v0 v1 v2))
                      (snd (triangle_tangents v0 v1 v2))).
  assert (Hkeep : forall v0 v1 v2 x,
             without_tangents (change v0 v1 v2 x) = without_tangents x) by done.
  set (clear := fun v => set_bitangent zero3 (set_tangent zero4 v)).
  unfold generateTangents. fold clear.
  rewrite (for_range_ext (generateTangents_triangle m) (triangle_body m change)).
  2:{ intros i s. unfold generateTangents_triangle, triangle_body, change.
      destruct (triangle_at m s i) as [[[[[[i0 i1] i2] v0] v1] v2]|]; [|done].
      cbn [mbind option_bind]. by destruct (triangle_tangents v0 v1 v2). }
  intros Hm'.
  destruct (for_range _ _ _ _) as [vb'|] eqn:Hrun; [|done].
  destruct (triangle_loop_inv m change without_tangents Hkeep _ _ _ Hrun)
    as (_ & _ & Hk).
  injection Hm' as <-. split; [by destruct m|].
  replace (m_vertexBuffer _) with (map orthogonalize_tangent vb') by (by destruct m).
  apply (positions_of_kept without_tangents); [done|].
  rewrite map_map.
  rewrite (map_ext _ without_tangents) by done.
  rewrite Hk, map_map. by apply map_ext.
Qed.

(** The bounds a model stores. *)
Lemma stored_bounds_kept (m m' : Model) :
  stored_bounds m = bounds m ->
  stored_bounds m' = stored_bounds m ->
  map position (m_vertexBuffer m') = map position (m_vertexBuffer m) ->
  stored_bounds m' = bounds m'.
Proof.
  intros H Hs Hp. rewrite Hs, H. unfold bounds.
  by rewrite (bounds_extent_positions _ _ Hp).
Qed.

(** X18. After [import] has read a file, the centre, width, height,
    length and radius the model stores are the bounds of the vertex
    buffer it holds: the normals and tangents that are generated after
    the bounds were taken move no vertex. *)
Theorem import_bounds_current (fs : filesystem) (pszFilename : string)
    (rebuildNormals : bool) (m0 m : Model) :
  import fs pszFilename rebuildNormals m0 = Some (true, m) ->
  stored_bounds m = bounds m.
Proof.
  unfold import. destruct (fs pszFilename) as [pFile|]; [|done].
  intros H.
  apply bind_Some in H as (m1 & _ & H).
  apply bind_Some in H as (m2 & _ & H).
  apply bind_Some in H as (m3 & _ & H).
  apply bind_Some in H as (m4 & H4 & H).
  apply bind_Some in H as (bump & _ & H).
  apply bind_Some in H as (m5 & H5 & H).
  injection H as <-.
  assert (B3 : stored_bounds (store_bounds m3) = bounds (store_bounds m3))
    by (by destruct m3).
  assert (B4 : stored_bounds m4 = bounds m4).
  { assert (N : forall x, generateNormals (store_bounds m3) = Some x ->
                          stored_bounds x = bounds x).
    { intros x Hx. destruct (generateNormals_positions _ _ Hx) as [E P].
      apply (stored_bounds_kept (store_bounds m3)); [done| |done].
      rewrite E. by destruct (store_bounds m3). }
    destruct rebuildNormals; [by apply N|].
    destruct (m_hasNormals (store_bounds m3)); [|by apply N].
    by injection H4 as <-. }
  destruct bump; [|by injection H5 as <-].
  destruct (generateTangents_positions _ _ H5) as [E P].
  apply (stored_bounds_kept m4); [done| |done].
  rewrite E. by destruct m4.
Qed.

Lemma import_bounds_current_witness :
  exists m,
    import quad_files "models/quad.obj" false Model_new = Some (true, m) /\
    stored_bounds m = bounds m.
Proof.
  assert (E : import quad_files "models/quad.obj" false Model_new
              = Some (true, from_option snd Model_new
                        (import quad_files "models/quad.obj" false Model_new)))
    by (vm_compute; reflexivity).
  eexists. split; [exact E|].
  exact (import_bounds_current quad_files "models/quad.obj" false Model_new _ E).
Defined.

(** ** The mouse handler of the viewer *)

Lemma int_result_Some (z r : Z) :
  int_result z = Some r -> r = z /\ - 2 ^ 31 <= z < 2 ^ 31.
Proof. unfold int_result. case_decide; [|done]. by intros [= <-]. Qed.

Lemma int_result_in (z : Z) :
  - 2 ^ 31 <= z < 2 ^ 31 -> int_result z = Some z.
Proof. intros H. unfold int_result. by rewrite decide_True. Qed.

Lemma clamp_pitch_clamped (p : float) :
  pitch_clamped
    (let p1 := if F32.gtb p f90 then f90 else p in
     if F32.ltb p1 (F32.neg f90) then F32.neg f90 else p1).
Proof.
  cbv zeta. destruct (F32.gtb p f90) eqn:G.
  - by vm_compute.
  - destruct (F32.ltb p (F32.neg f90)) eqn:L; [by vm_compute|done].
Qed.

Lemma ProcessMouseInput_pitch (L R M : Z) origin msg wParam lParam st st' :
  ProcessMouseInput L R M origin msg wParam lParam st = Some st' ->
  pitch_clamped (g_pitch st) -> pitch_clamped (g_pitch st').
Proof.
  intros H Hp. destruct msg; cbn [ProcessMouseInput] in H.
  1-3: unfold button_down in H; apply bind_Some in H as (n & _ & [= <-]);
       exact Hp.
  - unfold mouse_move in H. destruct (cameraMode st).
    + by injection H as <-.
    + apply bind_Some in H as (ix & _ & H).
      apply bind_Some in H as (iy & _ & [= <-]). exact Hp.
    + apply bind_Some in H as (iy & _ & [= <-]). exact Hp.
    + apply bind_Some in H as (ix & _ & H).
      apply bind_Some in H as (iy & _ & [= <-]).
      cbn [g_pitch]. apply clamp_pitch_clamped.
  - unfold button_up in H. apply bind_Some in H as (n & _ & H).
    case_decide; by injection H as <-.
  - unfold button_up in H. apply bind_Some in H as (n & _ & H).
    case_decide; by injection H as <-.
  - unfold button_up in H. apply bind_Some in H as (n & _ & H).
    case_decide; by injection H as <-.
  - by injection H as <-.
Qed.

(** X15. Whatever mouse messages the viewer handles, a pitch that is
    within a quarter turn (not above 90 and not below -90) stays so:
    [ProcessMouseInput] changes it only when the camera orbits, and
    clamps it then. *)
Theorem mouse_session_pitch (MK_LBUTTON MK_RBUTTON MK_MBUTTON : Z)
    (events : list (POINT * MouseMsg * Z * Z)) (st st' : Mouse) :
  mouse_session MK_LBUTTON MK_RBUTTON MK_MBUTTON events st = Some st' ->
  pitch_clamped (g_pitch st) ->
  pitch_clamped (g_pitch st').
Proof.
  revert st. induction events as [|[[[origin msg] wParam] lParam] rest IH];
    intros st H Hp; cbn [mouse_session] in H.
  - by injection H as <-.
  - apply bind_Some in H as (st1 & H1 & H). apply (IH st1 H).
    by eapply ProcessMouseInput_pitch.
Qed.

Lemma mouse_session_pitch_witness :
  mouse_session 1 2 16 orbit_session mouse_start
    = Some (Build_Mouse CAMERA_NONE (Build_POINT 100 1100)
              (Build_POINT 100 1100) 0 F32.zero (F32.of_Z 1000 * MOUSE_ORBIT_SPEED)%f32
              zero3 zero3 F32.zero f90 false) /\
  pitch_clamped (g_pitch mouse_start) /\
  pitch_clamped f90.
Proof.
  assert (E : mouse_session 1 2 16 orbit_session mouse_start
    = Some (Build_Mouse CAMERA_NONE (Build_POINT 100 1100)
              (Build_POINT 100 1100) 0 F32.zero (F32.of_Z 1000 * MOUSE_ORBIT_SPEED)%f32
              zero3 zero3 F32.zero f90 false)) by (vm_compute; reflexivity).
  split; [exact E|]. split; [by vm_compute|].
  exact (mouse_session_pitch 1 2 16 orbit_session mouse_start _ E
           (conj eq_refl eq_refl)).
Defined.

Lemma ProcessMouseInput_buttons (L R M : Z) origin msg wParam lParam st st' :
  ProcessMouseInput L R M origin msg wParam lParam st = Some st' ->
  buttons_ok st -> buttons_ok st'.
Proof.
  intros H (H0 & Hm & Hc).
  assert (Hdown : forall mode, mode <> CAMERA_NONE ->
            button_down mode origin lParam st = Some st' -> buttons_ok st').
  { intros mode Hmode Hd. unfold button_down in Hd.
    apply bind_Some in Hd as (n & Hn & [= <-]).
    apply int_result_Some in Hn as [-> _].
    unfold buttons_ok; cbn [mouseButtonsDown cameraMode captured].
    split; [lia|]. split; split; intros ?; (lia || done). }
  assert (Hup : button_up L R M wParam st = Some st' -> buttons_ok st').
  { intros Hu. unfold button_up in Hu.
    apply bind_Some in Hu as (n & Hn & Hu).
    apply int_result_Some in Hn as [-> _].
    case_decide as Hle; injection Hu as <-;
      unfold buttons_ok; cbn [mouseButtonsDown cameraMode captured].
    - done.
    - split; [lia|]. split; split; intros E; try lia.
      + repeat case_decide; try done. apply Hm in E. lia.
      + apply Hc in E. lia. }
  destruct msg; cbn [ProcessMouseInput] in H; try by (apply Hup).
  - by apply (Hdown CAMERA_TRACK).
  - by apply (Hdown CAMERA_ORBIT).
  - by apply (Hdown CAMERA_DOLLY).
  - unfold mouse_move in H. destruct (cameraMode st) eqn:Em.
    + by injection H as <-.
    + apply bind_Some in H as (ix & _ & H).
      apply bind_Some in H as (iy & _ & [= <-]).
      unfold buttons_ok; cbn [mouseButtonsDown cameraMode captured].
      split; [done|]. split; [|done]. by rewrite Hm.
    + apply bind_Some in H as (iy & _ & [= <-]).
      unfold buttons_ok; cbn [mouseButtonsDown cameraMode captured].
      split; [done|]. split; [|done]. by rewrite Hm.
    + apply bind_Some in H as (ix & _ & H).
      apply bind_Some in H as (iy & _ & [= <-]).
      unfold buttons_ok; cbn [mouseButtonsDown cameraMode captured].
      split; [done|]. split; [|done]. by rewrite Hm.
  - by injection H as <-.
Qed.

(** X16. Whatever mouse messages the viewer handles, the count of the
    buttons that are down is never negative, the camera is at rest
    ([CAMERA_NONE]) exactly when the count is zero, and the mouse is
    captured exactly when the count is not zero. *)
Theorem mouse_session_buttons (MK_LBUTTON MK_RBUTTON MK_MBUTTON : Z)
    (events : list (POINT * MouseMsg * Z * Z)) (st st' : Mouse) :
  mouse_session MK_LBUTTON MK_RBUTTON MK_MBUTTON events st = Some st' ->
  buttons_ok st ->
  buttons_ok st'.
Proof.
  revert st. induction events as [|[[[origin msg] wParam] lParam] rest IH];
    intros st H Hp; cbn [mouse_session] in H.
  - by injection H as <-.
  - apply bind_Some in H as (st1 & H1 & H). apply (IH st1 H).
    by eapply ProcessMouseInput_buttons.
Qed.

Lemma mouse_start_buttons_ok : buttons_ok mouse_start.
Proof. by repeat split. Qed.

Lemma mouse_session_buttons_witness :
  mouse_session 1 2 16 (firstn 2 orbit_session) mouse_start
    = Some (Build_Mouse CAMERA_ORBIT (Build_POINT 100 1100)
              (Build_POINT 100 1100) 1 F32.zero (F32.of_Z 1000 * MOUSE_ORBIT_SPEED)%f32
              zero3 zero3 F32.zero f90 true) /\
  buttons_ok mouse_start /\
  buttons_ok (Build_Mouse CAMERA_ORBIT (Build_POINT 100 1100)
              (Build_POINT 100 1100) 1 F32.zero (F32.of_Z 1000 * MOUSE_ORBIT_SPEED)%f32
              zero3 zero3 F32.zero f90 true).
Proof.
  assert (E : mouse_session 1 2 16 (firstn 2 orbit_session) mouse_start
    = Some (Build_Mouse CAMERA_ORBIT (Build_POINT 100 1100)
              (Build_POINT 100 1100) 1 F32.zero (F32.of_Z 1000 * MOUSE_ORBIT_SPEED)%f32
              zero3 zero3 F32.zero f90 true)) by (vm_compute; reflexivity).
  split; [exact E|]. split; [exact mouse_start_buttons_ok|].
  exact (mouse_session_buttons 1 2 16 (firstn 2 orbit_session) mouse_start _ E
           mouse_start_buttons_ok).
Defined.

Lemma to_short_range (w : Z) :
  0 <= w < 2 ^ 16 -> - 2 ^ 15 <= to_short w < 2 ^ 15.
Proof. intros H. unfold to_short. case_decide; lia. Qed.

Lemma LOWORD_range (l : Z) : 0 <= LOWORD l < 2 ^ 16.
Proof.
  unfold LOWORD. change 65535 with (Z.ones 16).
  rewrite Z.land_ones by lia. apply Z.mod_pos_bound. lia.
Qed.

Lemma HIWORD_range (l : Z) : 0 <= HIWORD l < 2 ^ 16.
Proof.
  unfold HIWORD. change 65535 with (Z.ones 16).
  rewrite Z.land_ones by lia. apply Z.mod_pos_bound. lia.
Qed.

(** The bound that the previous point of the mouse keeps. *)
Lemma screen_point_range (origin : POINT) (lParam : Z) :
  point_small origin ->
  (- 2 ^ 30 <= pt_x (screen_point origin lParam) < 2 ^ 30) /\
  (- 2 ^ 30 <= pt_y (screen_point origin lParam) < 2 ^ 30).
Proof.
  intros [Hx Hy]. unfold screen_point. cbn [pt_x pt_y].
  pose proof (to_short_range _ (LOWORD_range lParam)).
  pose proof (to_short_range _ (HIWORD_range lParam)). lia.
Qed.

Lemma ProcessMouseInput_defined (L R M : Z) origin msg wParam lParam st :
  point_small origin ->
  - 2 ^ 30 <= pt_x (ptMousePrev st) < 2 ^ 30 ->
  - 2 ^ 30 <= pt_y (ptMousePrev st) < 2 ^ 30 ->
  0 <= mouseButtonsDown st < 2 ^ 31 - 1 ->
  exists st', ProcessMouseInput L R M origin msg wParam lParam st = Some st' /\
    - 2 ^ 30 <= pt_x (ptMousePrev st') < 2 ^ 30 /\
    - 2 ^ 30 <= pt_y (ptMousePrev st') < 2 ^ 30 /\
    0 <= mouseButtonsDown st' <= mouseButtonsDown st + 1.
Proof.
  intros Ho Hx Hy Hn.
  destruct (screen_point_range origin lParam Ho) as [Sx Sy].
  assert (Hdown : forall mode, exists st',
            button_down mode origin lParam st = Some st' /\
            - 2 ^ 30 <= pt_x (ptMousePrev st') < 2 ^ 30 /\
            - 2 ^ 30 <= pt_y (ptMousePrev st') < 2 ^ 30 /\
            0 <= mouseButtonsDown st' <= mouseButtonsDown st + 1).
  { intros mode. unfold button_down. rewrite int_result_in by lia.
    cbn [mbind option_bind]. eexists; split; [done|].
    cbn [ptMousePrev mouseButtonsDown]. repeat split; lia. }
  assert (Hup : exists st',
            button_up L R M wParam st = Some st' /\
            - 2 ^ 30 <= pt_x (ptMousePrev st') < 2 ^ 30 /\
            - 2 ^ 30 <= pt_y (ptMousePrev st') < 2 ^ 30 /\
            0 <= mouseButtonsDown st' <= mouseButtonsDown st + 1).
  { unfold button_up. rewrite int_result_in by lia.
    cbn [mbind option_bind]. case_decide; (eexists; split; [done|]);
      cbn [ptMousePrev mouseButtonsDown]; repeat split; lia. }
  destruct msg; cbn [ProcessMouseInput]; try apply Hdown; try apply Hup.
  - unfold mouse_move. destruct (cameraMode st);
      rewrite ?int_result_in by lia; cbn [mbind option_bind];
      rewrite ?int_result_in by lia; cbn [mbind option_bind];
      (eexists; split; [done|]);
      cbn [ptMousePrev mouseButtonsDown]; repeat split; lia.
  - eexists; split; [done|]. repeat split; lia.
Qed.

(** X17. [ProcessMouseInput] overflows no [int] when the client area of
    the window lies within 2^29 pixels of the origin of the screen and
    fewer than 2^31 messages are handled: every message of such a
    session gives a new state. *)
Theorem mouse_session_defined (MK_LBUTTON MK_RBUTTON MK_MBUTTON : Z)
    (events : list (POINT * MouseMsg * Z * Z)) :
  Forall (fun e => point_small (e.1.1.1)) events ->
  Z.of_nat (length events) < 2 ^ 31 - 1 ->
  is_Some (mouse_session MK_LBUTTON MK_RBUTTON MK_MBUTTON events mouse_start).
Proof.
  intros Hev Hlen.
  assert (G : forall st,
    - 2 ^ 30 <= pt_x (ptMousePrev st) < 2 ^ 30 ->
    - 2 ^ 30 <= pt_y (ptMousePrev st) < 2 ^ 30 ->
    0 <= mouseButtonsDown st ->
    mouseButtonsDown st + Z.of_nat (length events) < 2 ^ 31 - 1 ->
    is_Some (mouse_session MK_LBUTTON MK_RBUTTON MK_MBUTTON events st)).
  { clear Hlen.
    induction Hev as [|[[[origin msg] wParam] lParam] rest Ho Hrest IH];
      intros st Hx Hy H0 Hn; cbn [mouse_session].
    - done.
    - cbn [length] in Hn. cbn [fst] in Ho.
      destruct (ProcessMouseInput_defined MK_LBUTTON MK_RBUTTON MK_MBUTTON
                  origin msg wParam lParam st Ho Hx Hy ltac:(lia))
        as (st1 & -> & Hx1 & Hy1 & Hn1).
      cbn [mbind option_bind]. apply IH; lia. }
  apply G; cbn [mouse_start ptMousePrev pt_x pt_y mouseButtonsDown]; lia.
Qed.

Lemma mouse_session_defined_witness :
  Forall (fun e : POINT * MouseMsg * Z * Z => point_small (e.1.1.1))
    orbit_session /\
  Z.of_nat (length orbit_session) < 2 ^ 31 - 1 /\
  is_Some (mouse_session 1 2 16 orbit_session mouse_start).
Proof.
  assert (F : Forall (fun e : POINT * MouseMsg * Z * Z => point_small (e.1.1.1))
                orbit_session).
  { repeat constructor; cbn; lia. }
  assert (L : Z.of_nat (length orbit_session) < 2 ^ 31 - 1) by (cbn; lia).
  split; [exact F|]. split; [exact L|].
  exact (mouse_session_defined 1 2 16 orbit_session F L).
Defined.

(** ** The processor the viewer runs on *)

Lemma lowest_set_bit_nonneg (p : positive) : 0 <= lowest_set_bit p.
Proof. induction p; cbn [lowest_set_bit]; lia. Qed.

Lemma land_opp_odd (a : Z) : Z.land (2 * a + 1) (- (2 * a + 1)) = 1.
Proof.
  replace (- (2 * a + 1)) with (2 * Z.lnot a + 1) by (unfold Z.lnot; lia).
  apply Z.bits_inj'. intros n Hn. rewrite Z.land_spec.
  destruct (Z.eq_dec n 0) as [->|Hn0].
  - by rewrite !Z.testbit_odd_0.
  - replace n with (Z.succ (n - 1)) by lia.
    rewrite !Z.testbit_odd_succ by lia. rewrite Z.lnot_spec by lia.
    rewrite andb_negb_r. change 1 with (2 * 0 + 1).
    rewrite Z.testbit_odd_succ by lia. by rewrite Z.bits_0.
Qed.

Lemma land_opp_even (a : Z) : Z.land (2 * a) (- (2 * a)) = 2 * Z.land a (- a).
Proof.
  replace (- (2 * a)) with (2 * - a) by lia.
  apply Z.bits_inj'. intros n Hn. rewrite Z.land_spec.
  destruct (Z.eq_dec n 0) as [->|Hn0].
  - by rewrite !Z.testbit_even_0.
  - replace n with (Z.succ (n - 1)) by lia.
    rewrite !Z.testbit_even_succ by lia. by rewrite Z.land_spec.
Qed.

Lemma land_opp_lowest (p : positive) :
  Z.land (Z.pos p) (- Z.pos p) = 2 ^ lowest_set_bit p.
Proof.
  induction p as [p IH|p IH|].
  - change (Z.pos p~1) with (2 * Z.pos p + 1). by rewrite land_opp_odd.
  - change (Z.pos p~0) with (2 * Z.pos p). rewrite land_opp_even, IH.
    cbn [lowest_set_bit]. rewrite Z.pow_succ_r by apply lowest_set_bit_nonneg.
    done.
  - done.
Qed.

Lemma lowest_set_bit_set (p : positive) :
  Z.testbit (Z.pos p) (lowest_set_bit p) = true.
Proof.
  induction p as [p IH|p IH|]; cbn [lowest_set_bit]; [done| |done].
  change (Z.pos p~0) with (2 * Z.pos p).
  by rewrite Z.testbit_even_succ by apply lowest_set_bit_nonneg.
Qed.

Lemma lowest_set_bit_lowest (p : positive) (j : Z) :
  0 <= j < lowest_set_bit p -> Z.testbit (Z.pos p) j = false.
Proof.
  revert j. induction p as [p IH|p IH|]; cbn [lowest_set_bit]; intros j Hj;
    [lia| |lia].
  change (Z.pos p~0) with (2 * Z.pos p).
  destruct (Z.eq_dec j 0) as [->|Hj0]; [by rewrite Z.testbit_even_0|].
  replace j with (Z.succ (j - 1)) by lia.
  rewrite Z.testbit_even_succ by lia. apply IH. lia.
Qed.

Lemma lowest_set_bit_below (p : positive) (bits : Z) :
  Z.pos p < 2 ^ bits -> lowest_set_bit p < bits.
Proof.
  intros Hp. destruct (Z.lt_ge_cases (lowest_set_bit p) bits) as [|Hge]; [done|].
  assert (0 <= bits).
  { destruct (Z.lt_ge_cases bits 0) as [Hneg|]; [|done].
    rewrite Z.pow_neg_r in Hp by done. lia. }
  pose proof (lowest_set_bit_set p) as Hset.
  rewrite <- (Z.mod_small (Z.pos p) (2 ^ bits)) in Hset by lia.
  rewrite Z.mod_pow2_bits_high in Hset by lia. done.
Qed.

(** The mask the function computes is the mask and its opposite. *)
Lemma lowest_processor_land (bits mask : Z) :
  0 <= mask < 2 ^ bits ->
  Z.land mask (dword_add bits (dword_not bits mask) 1) = Z.land mask (- mask).
Proof.
  intros Hm. unfold dword_add, dword_not.
  assert (0 <= bits).
  { destruct (Z.lt_ge_cases bits 0) as [Hneg|]; [|done].
    rewrite Z.pow_neg_r in Hm by done. lia. }
  rewrite Zplus_mod_idemp_l.
  replace (Z.lnot mask + 1) with (- mask) by (unfold Z.lnot; lia).
  apply Z.bits_inj'. intros n Hn. rewrite !Z.land_spec.
  destruct (Z.lt_ge_cases n bits) as [Hlt|Hge].
  - by rewrite Z.mod_pow2_bits_low by lia.
  - rewrite <- (Z.mod_small mask (2 ^ bits)) at 1 3 by lia.
    by rewrite !Z.mod_pow2_bits_high by lia.
Qed.

(** X19. When the process may run on some processor, the viewer binds
    its thread to one processor: the lowest-numbered one of the
    affinity mask of the process. *)
Theorem SetProcessorAffinity_lowest (bits mask : Z) :
  0 < mask < 2 ^ bits ->
  exists k, 0 <= k < bits /\
    SetProcessorAffinity bits (Some mask) true = Some (2 ^ k) /\
    Z.testbit mask k = true /\
    forall j, 0 <= j < k -> Z.testbit mask j = false.
Proof.
  intros Hm. destruct mask as [|p|p]; [lia| |lia].
  exists (lowest_set_bit p). split.
  { split; [apply lowest_set_bit_nonneg|apply lowest_set_bit_below; lia]. }
  split.
  { unfold SetProcessorAffinity. rewrite decide_True by done. cbv zeta.
    rewrite lowest_processor_land by lia. by rewrite land_opp_lowest. }
  split; [apply lowest_set_bit_set|apply lowest_set_bit_lowest].
Qed.

Lemma SetProcessorAffinity_lowest_witness :
  0 < 12 < 2 ^ 64 /\
  exists k, 0 <= k < 64 /\
    SetProcessorAffinity 64 (Some 12) true = Some (2 ^ k) /\
    Z.testbit 12 k = true /\
    forall j, 0 <= j < k -> Z.testbit 12 j = false.
Proof.
  assert (H : 0 < 12 < 2 ^ 64) by lia.
  split; [exact H|]. exact (SetProcessorAffinity_lowest 64 12 H).
Defined.
